(** * Perplexica (Reddit retrieval fork): retrieval and ranking pipeline

    A shallow embedding of the retrieval-and-ranking code of the repository
    and the properties stated about it:
    - [extractRedditContent] and [getDocumentsFromLinks]
      (src/lib/utils/documents.ts, lines 1-428);
    - the meta search agent that follows in the same source file (lines
      429-1471): the thread scorer [extractTopCommentScore] with its batch
      loop, [rerankDocs] and [processDocs];
    - the web search wrapper [searchGoogle];
    - the proxy route [GET] with [escapeHtml], the configuration
      ([mergeConfigs] and the getters), the in-memory chat store [MockDb]
      and the last step of [createSearchRetrieverChain], each in a part of
      its own after the web search wrapper.
    Line numbers in the comments are those of src/lib/utils/documents.ts
    unless another file is named.

    Conventions of the embedding:
    - a JavaScript string is the list of its code units, taken in the 8-bit
      range ([jsstring]); a literal of the source is written [lit "..."];
    - positions are [Z] because [indexOf] and its like answer [-1];
    - a number read by [parseInt] is a double that holds an integer: it is
      an [option Z], [None] standing for NaN, the integer being the one the
      double holds (the nearest double of what the digits say) and [2^1024]
      standing for Infinity; the other numbers (the combined score, the
      similarities) are parameters, with the operations the code applies to
      them;
    - [Array.prototype.sort] is the stable sort that ECMAScript prescribes;
    - code that may throw answers a [Result]; code that talks to the network
      or waits runs over the trace of the events performed so far, against
      an oracle that answers each request;
    - the workers that [Promise.all] runs together start in the order of
      their items; where they push to a shared array, the outside world
      decides in which order they do so, by the time at which each of them
      settles;
    - what the repository imports from elsewhere ([htmlToText], the
      embeddings, [computeSimilarity], the configuration) is a variable of
      the section that uses it;
    - logging and the optional debug snapshots are left out. *)

From Stdlib Require Import String.
From Stdlib Require Import ZArith List Ascii Bool Lia Arith.
From Stdlib Require Import Sorting.Sorted Sorting.Permutation.
From Stdlib Require Import DecimalString.
From Stdlib Require Import Reals.
Import ListNotations.

Set Implicit Arguments.
Local Open Scope list_scope.

(* ================================================================== *)
(** * JavaScript strings and arrays *)
(* ================================================================== *)

Module JS.

Definition jsstring := list ascii.

Definition lit (s : String.string) : jsstring := String.list_ascii_of_string s.
Arguments lit s%_string.

(** The double quote, and [litq]: a literal in which every apostrophe stands
    for a double quote (no literal of the source holds an apostrophe where
    this is used). *)
Definition dquote : ascii := ascii_of_nat 34.

Definition litq (s : String.string) : jsstring :=
  map (fun c => if Ascii.eqb c "'"%char then dquote else c) (lit s).
Arguments litq s%_string.

Fixpoint str_eqb (a b : jsstring) : bool :=
  match a, b with
  | [], [] => true
  | x :: a', y :: b' => Ascii.eqb x y && str_eqb a' b'
  | _, _ => false
  end.

(** [stripPrefix p s] is the rest of [s] after its prefix [p], if [p] is one. *)
Fixpoint stripPrefix (p s : jsstring) : option jsstring :=
  match p with
  | [] => Some s
  | x :: p' =>
      match s with
      | y :: s' => if Ascii.eqb x y then stripPrefix p' s' else None
      | [] => None
      end
  end.

(** [String.prototype.startsWith]. *)
Definition startsWith (s p : jsstring) : bool :=
  match stripPrefix p s with Some _ => true | None => false end.

(** [String.prototype.includes]. *)
Fixpoint includes (s needle : jsstring) : bool :=
  startsWith s needle ||
  match s with
  | [] => false
  | _ :: s' => includes s' needle
  end.

(** [String.prototype.indexOf]: the first position of [needle], or [-1]. *)
Fixpoint indexOf (s needle : jsstring) : Z :=
  if startsWith s needle then 0%Z
  else match s with
       | [] => (-1)%Z
       | _ :: s' => let i := indexOf s' needle in
                    if (i <? 0)%Z then (-1)%Z else (i + 1)%Z
       end.

(** [lastFrom s needle i pos best]: scanning [s] whose head is at index [i],
    the greatest index at most [pos] where [needle] occurs, [best] so far. *)
Fixpoint lastFrom (s needle : jsstring) (i pos best : Z) : Z :=
  let best' := if startsWith s needle && (i <=? pos)%Z then i else best in
  match s with
  | [] => best'
  | _ :: s' => lastFrom s' needle (i + 1) pos best'
  end.

(** [String.prototype.lastIndexOf(needle, position)]; a negative position
    counts as [0]. *)
Definition lastIndexOf (s needle : jsstring) (position : Z) : Z :=
  lastFrom s needle 0 (Z.max position 0) (-1).

(** The clamping of an index argument of [substring] to [[0, length]]. *)
Definition clamp (len i : Z) : Z := Z.min (Z.max i 0) len.

(** [String.prototype.substring(a, b)]: both ends clamped, swapped when
    [a > b]. *)
Definition substring (s : jsstring) (a b : Z) : jsstring :=
  let len := Z.of_nat (length s) in
  let a' := clamp len a in
  let b' := clamp len b in
  let from := Z.min a' b' in
  let to := Z.max a' b' in
  firstn (Z.to_nat (to - from)) (skipn (Z.to_nat from) s).

(** [String.prototype.substring(a)]. *)
Definition substringFrom (s : jsstring) (a : Z) : jsstring :=
  substring s a (Z.of_nat (length s)).

(** [Array.prototype.slice(a, b)]: a negative index counts from the end. *)
Definition sliceIndex (len i : Z) : Z :=
  if (i <? 0)%Z then Z.max (len + i) 0 else Z.min i len.

Definition slice {A} (l : list A) (a b : Z) : list A :=
  let len := Z.of_nat (length l) in
  let from := sliceIndex len a in
  let to := sliceIndex len b in
  firstn (Z.to_nat (to - from)) (skipn (Z.to_nat from) l).

(** [String.prototype.replace(pattern, replacement)] with a string pattern:
    the first occurrence only. *)
Fixpoint replaceFirst (s pattern replacement : jsstring) : jsstring :=
  match stripPrefix pattern s with
  | Some rest => replacement ++ rest
  | None => match s with
            | [] => []
            | c :: s' => c :: replaceFirst s' pattern replacement
            end
  end.

(** [s.split(sep)[0]] for a one-character separator. *)
Fixpoint splitHead (s : jsstring) (sep : ascii) : jsstring :=
  match s with
  | [] => []
  | c :: s' => if Ascii.eqb c sep then [] else c :: splitHead s' sep
  end.

(** [s.replace(/c/g, '')] for a one-character pattern. *)
Definition removeAll (s : jsstring) (c : ascii) : jsstring :=
  filter (fun x => negb (Ascii.eqb x c)) s.

(** White space and line terminators in the 8-bit range. *)
Definition isWhiteSpace (c : ascii) : bool :=
  let n := nat_of_ascii c in
  ((9 <=? n) && (n <=? 13)) || (n =? 32) || (n =? 160).

Definition isLineTerminator (c : ascii) : bool :=
  let n := nat_of_ascii c in (n =? 10) || (n =? 13).

Definition isDigit (c : ascii) : bool :=
  let n := nat_of_ascii c in (48 <=? n) && (n <=? 57).

Definition digitValue (c : ascii) : Z := Z.of_nat (nat_of_ascii c) - 48.

Fixpoint dropWhile {A} (p : A -> bool) (l : list A) : list A :=
  match l with
  | [] => []
  | x :: l' => if p x then dropWhile p l' else l
  end.

Fixpoint takeWhile {A} (p : A -> bool) (l : list A) : list A :=
  match l with
  | [] => []
  | x :: l' => if p x then x :: takeWhile p l' else []
  end.

(** [String.prototype.trim]. *)
Definition trim (s : jsstring) : jsstring :=
  rev (dropWhile isWhiteSpace (rev (dropWhile isWhiteSpace s))).

(** The value of a run of decimal digits, most significant first. *)
Definition digitsValue (ds : jsstring) : Z :=
  fold_left (fun acc c => (acc * 10 + digitValue c)%Z) ds 0%Z.

(** ** Numbers

    The numbers that [parseInt] answers are doubles that hold an integer,
    and the two infinities.  Such a number is written as the integer it
    holds, [infinity] and its opposite standing for the infinities, so that
    the order of these integers is the order of the doubles. *)
Definition infinity : Z := Eval cbv in (2 ^ 1024)%Z.

(** The first natural number next to which a double is missing. *)
Definition twoTo53 : Z := Eval cbv in (2 ^ 53)%Z.

(** The double nearest to a natural number: the 53 leading bits are kept,
    what follows them rounds to the nearest, a tie to the even side;
    [infinity] past the largest double. *)
Definition roundNat (z : Z) : Z :=
  if (z <? twoTo53)%Z then z
  else
    let e := (Z.log2 z - 52)%Z in
    let q := Z.shiftr z e in
    let r := (z - Z.shiftl q e)%Z in
    let half := Z.shiftl 1 (e - 1) in
    let q' := if (half <? r)%Z || ((half =? r)%Z && Z.odd q)
              then (q + 1)%Z else q in
    Z.min (Z.shiftl q' e) infinity.

(** The double nearest to an integer. *)
Definition toDouble (z : Z) : Z :=
  if (z <? 0)%Z then (- roundNat (- z))%Z else roundNat z.

(** [a - b] on these numbers; [None] is NaN, the difference of an infinity
    and itself. *)
Definition minus (a b : Z) : option Z :=
  if (Z.abs a =? infinity)%Z
  then if (a =? b)%Z then None else Some a
  else if (Z.abs b =? infinity)%Z then Some (- b)%Z
  else Some (toDouble (a - b)).

(** The answer of a comparator as [sort] reads it: NaN counts as [+0]. *)
Definition comparison (v : option Z) : Z :=
  match v with
  | Some z => z
  | None => 0%Z
  end.

(** [parseInt(s, 10)]: leading white space, an optional sign, then the longest
    run of digits, read as the nearest double; [None] is NaN. *)
Definition parseInt (s : jsstring) : option Z :=
  let s1 := dropWhile isWhiteSpace s in
  let '(sign, s2) :=
    match s1 with
    | c :: r => if Ascii.eqb c "-"%char then ((-1)%Z, r)
                else if Ascii.eqb c "+"%char then (1%Z, r)
                else (1%Z, s1)
    | [] => (1%Z, s1)
    end in
  match takeWhile isDigit s2 with
  | [] => None
  | ds => Some (toDouble (sign * digitsValue ds))%Z
  end.

(** The decimal digits of an integer. *)
Definition decimal (z : Z) : jsstring :=
  lit (NilZero.string_of_int (Z.to_int z)).

(** Of the two multiples of [p] around the double [x], the one that reads
    back as [x]: the nearer to [x] when both do, the even multiple when
    they are as near. *)
Definition readsBack (x p : Z) : option Z :=
  let lo := (x / p * p)%Z in
  let hi := (lo + p)%Z in
  let okLo := (roundNat lo =? x)%Z in
  let okHi := (roundNat hi =? x)%Z in
  if okLo && okHi then
    if (x - lo <? hi - x)%Z then Some lo
    else if (hi - x <? x - lo)%Z then Some hi
    else if Z.even (lo / p) then Some lo else Some hi
  else if okLo then Some lo
  else if okHi then Some hi
  else None.

(** The number with the fewest significant digits that reads back as the
    double [x]: the search goes from one digit up, [p] being the power of
    ten under the last significant digit. *)
Fixpoint shortestFrom (fuel : nat) (x p : Z) : Z :=
  match fuel with
  | O => x
  | S fuel' =>
      match readsBack x p with
      | Some v => v
      | None => if (p <=? 1)%Z then x else shortestFrom fuel' x (p / 10)
      end
  end.

Definition shortest (x : Z) : Z :=
  let digits := length (decimal x) in
  shortestFrom digits x (10 ^ (Z.of_nat digits - 1)).

(** [Number.prototype.toString] on a natural number that is a double: its
    digits below [2^53]; beyond, the digits of the shortest number that
    reads back as the double, with the exponent written apart when there
    are more than 21 of them. *)
Definition natToString (x : Z) : jsstring :=
  if (x <? twoTo53)%Z then decimal x
  else if (x =? infinity)%Z then lit "Infinity"
  else
    let digits := decimal (shortest x) in
    if length digits <=? 21 then digits
    else
      match rev (dropWhile (Ascii.eqb "0"%char) (rev digits)) with
      | d :: rest =>
          d :: (match rest with [] => [] | _ => "."%char :: rest end)
          ++ lit "e+" ++ decimal (Z.of_nat (length digits) - 1)
      | [] => digits
      end.

(** [Number.prototype.toString] on an integer that is a double. *)
Definition numToString (z : Z) : jsstring :=
  if (z <? 0)%Z then "-"%char :: natToString (- z) else natToString z.

(** The operand of [||] on an optional string: [undefined] and the empty
    string are falsy. *)
Definition truthy (o : option jsstring) : bool :=
  match o with
  | Some (_ :: _) => true
  | _ => false
  end.

Definition orElse (o : option jsstring) (d : jsstring) : jsstring :=
  match o with
  | Some (c :: s) => c :: s
  | _ => d
  end.

(** [Array.prototype.sort(cmp)]: stable; [cmp a b > 0] puts [b] first.  The
    comparator's answer is read through its sign only. *)
Section Sort.
Context {A : Type} (cmp : A -> A -> Z).

Fixpoint insertSorted (x : A) (l : list A) : list A :=
  match l with
  | [] => [x]
  | y :: l' => if (cmp x y >? 0)%Z then y :: insertSorted x l'
               else x :: l
  end.

Fixpoint sort (l : list A) : list A :=
  match l with
  | [] => []
  | x :: l' => insertSorted x (sort l')
  end.
End Sort.

(** The comparator that subtracts keys, the greater key first, and the order
    it sorts into. *)
Definition keyDesc {A} (key : A -> Z) (a b : A) : Z := (key b - key a)%Z.

Definition geKey {A} (key : A -> Z) (a b : A) : Prop := (key a >= key b)%Z.

End JS.

Import JS.

(* ================================================================== *)
(** * Regular expressions: a backtracking matcher *)
(* ================================================================== *)

(** The patterns of the source quantify character classes only, so the
    matcher covers literals, classes, greedy and lazy stars over a class, a
    greedy option, numbered groups and the end anchor.  It backtracks in the
    order ECMAScript prescribes: a greedy star gives up characters one at a
    time, a lazy star takes them one at a time. *)

Module Regex.

Inductive re : Type :=
| Lit (l : jsstring)
| Cls (p : ascii -> bool)
| Seq (r1 r2 : re)
| StarG (p : ascii -> bool)
| StarL (p : ascii -> bool)
| Opt (r : re)
| Grp (n : nat) (r : re)
| Eos.

(** A pattern written as the sequence of its tokens. *)
Definition seqs (rs : list re) : re := fold_right Seq (Lit []) rs.

(** [p+], greedy. *)
Definition PlusG (p : ascii -> bool) : re := Seq (Cls p) (StarG p).

(** Character classes of the source's patterns. *)
Definition anyChar (_ : ascii) : bool := true.             (* [\s\S] *)
Definition dot (c : ascii) : bool := negb (isLineTerminator c).  (* . *)
Definition notChar (x : ascii) (c : ascii) : bool := negb (Ascii.eqb c x).
Definition digitOrComma (c : ascii) : bool := isDigit c || Ascii.eqb c ","%char.

(** What the groups captured: [None] is [undefined]. *)
Definition Caps := nat -> option jsstring.
Definition noCaps : Caps := fun _ => None.
Definition setCap (n : nat) (v : jsstring) (c : Caps) : Caps :=
  fun k => if Nat.eqb k n then Some v else c k.

Section Matcher.
Context {A : Type}.

Fixpoint starG (p : ascii -> bool) (s : jsstring)
         (k : jsstring -> option A) : option A :=
  match s with
  | c :: s' =>
      if p c then
        match starG p s' k with
        | Some r => Some r
        | None => k s
        end
      else k s
  | [] => k s
  end.

Fixpoint starL (p : ascii -> bool) (s : jsstring)
         (k : jsstring -> option A) : option A :=
  match k s with
  | Some r => Some r
  | None =>
      match s with
      | c :: s' => if p c then starL p s' k else None
      | [] => None
      end
  end.

(** [run r s caps k]: match [r] at the head of [s], then hand the rest of
    the input and the captures to the continuation [k]; [None] makes the
    matcher backtrack. *)
Fixpoint run (r : re) (s : jsstring) (caps : Caps)
         (k : jsstring -> Caps -> option A) {struct r} : option A :=
  match r with
  | Lit l =>
      match stripPrefix l s with
      | Some s' => k s' caps
      | None => None
      end
  | Cls p =>
      match s with
      | c :: s' => if p c then k s' caps else None
      | [] => None
      end
  | Seq r1 r2 => run r1 s caps (fun s' caps' => run r2 s' caps' k)
  | StarG p => starG p s (fun s' => k s' caps)
  | StarL p => starL p s (fun s' => k s' caps)
  | Opt r' =>
      match run r' s caps k with
      | Some x => Some x
      | None => k s caps
      end
  | Grp n r' =>
      run r' s caps
          (fun s' caps' =>
             k s' (setCap n (firstn (length s - length s') s) caps'))
  | Eos =>
      match s with
      | [] => k s caps
      | _ :: _ => None
      end
  end.
End Matcher.

(** A match: the matched text (index 0 of the match array) and the groups. *)
Record Match := mkMatch { whole : jsstring; groups : Caps }.

Definition group (m : Match) (n : nat) : option jsstring := groups m n.

(** The pattern matched at the head of [s]: the match and the rest. *)
Definition matchHere (r : re) (s : jsstring) : option (Match * jsstring) :=
  run r s noCaps
      (fun s' caps => Some (mkMatch (firstn (length s - length s') s) caps, s')).

(** [String.prototype.match] with a pattern without the [g] flag: the
    leftmost match, or [None] for [null]. *)
Fixpoint matchFirst (r : re) (s : jsstring) : option Match :=
  match matchHere r s with
  | Some (m, _) => Some m
  | None =>
      match s with
      | [] => None
      | _ :: s' => matchFirst r s'
      end
  end.

(** The loop [while ((m = r.exec(s)) !== null)] with the [g] flag: the
    successive leftmost matches, each search resuming where the previous match
    ended.  [skip] counts the characters of the last match still to pass.
    (Every pattern used this way starts with a literal, so no match is
    empty.) *)
Fixpoint execAllFrom (r : re) (s : jsstring) (skip : nat) : list Match :=
  match s with
  | [] => []
  | _ :: s' =>
      match skip with
      | S k => execAllFrom r s' k
      | O =>
          match matchHere r s with
          | Some (m, _) => m :: execAllFrom r s' (length (whole m) - 1)
          | None => execAllFrom r s' 0
          end
      end
  end.

Definition execAll (r : re) (s : jsstring) : list Match := execAllFrom r s 0.

(** [s.replace(r, '')] with a pattern without the [g] flag. *)
Fixpoint removeFirstMatch (r : re) (s : jsstring) : jsstring :=
  match matchHere r s with
  | Some (_, rest) => rest
  | None =>
      match s with
      | [] => []
      | c :: s' => c :: removeFirstMatch r s'
      end
  end.

(** ** What a match is: the declarative reading of a pattern *)

(** [Matches r l c c']: the pattern [r] can match exactly the text [l],
    turning the captures [c] into [c']. *)
Inductive Matches : re -> jsstring -> Caps -> Caps -> Prop :=
| M_Lit l c : Matches (Lit l) l c c
| M_Cls (p : ascii -> bool) x c : p x = true -> Matches (Cls p) [x] c c
| M_Seq r1 r2 l1 l2 c c1 c2 :
    Matches r1 l1 c c1 -> Matches r2 l2 c1 c2 ->
    Matches (Seq r1 r2) (l1 ++ l2) c c2
| M_StarG (p : ascii -> bool) l c :
    forallb p l = true -> Matches (StarG p) l c c
| M_StarL (p : ascii -> bool) l c :
    forallb p l = true -> Matches (StarL p) l c c
| M_OptSome r l c c' : Matches r l c c' -> Matches (Opt r) l c c'
| M_OptNone r c : Matches (Opt r) [] c c
| M_Grp n r l c c' : Matches r l c c' -> Matches (Grp n r) l c (setCap n l c')
| M_Eos c : Matches Eos [] c c.

(** Takes apart every hypothesis that a given pattern matches, down to its
    classes and literals. *)
Ltac invert_matches :=
  repeat match goal with
         | H : Matches (Seq _ _) _ _ _ |- _ => inversion H; subst; clear H
         | H : Matches (Lit _) _ _ _ |- _ => inversion H; subst; clear H
         | H : Matches (StarG _) _ _ _ |- _ => inversion H; subst; clear H
         | H : Matches (StarL _) _ _ _ |- _ => inversion H; subst; clear H
         | H : Matches (Cls _) _ _ _ |- _ => inversion H; subst; clear H
         | H : Matches (Grp _ _) _ _ _ |- _ => inversion H; subst; clear H
         | H : Matches (Opt _) _ _ _ |- _ => inversion H; subst; clear H
         | H : Matches Eos _ _ _ |- _ => inversion H; subst; clear H
         end.

End Regex.

Import Regex.

(* ================================================================== *)
(** * Exceptions *)
(* ================================================================== *)

(** A thrown value: its [message], and the HTTP status an HTTP client's error
    carries ([error.response?.status]). *)
Record JSError := mkError { message : jsstring; status : option Z }.

Definition Error (msg : jsstring) : JSError := mkError msg None.

(** The outcome of code that may throw. *)
Inductive Result (A : Type) : Type :=
| Return (a : A)
| Throw (e : JSError).
Arguments Return {A} a.
Arguments Throw {A} e.

Definition rbind {A B} (r : Result A) (f : A -> Result B) : Result B :=
  match r with
  | Return a => f a
  | Throw e => Throw e
  end.

(** [try { r } catch (e) { h e }]. *)
Definition rcatch {A} (r : Result A) (h : JSError -> A) : A :=
  match r with
  | Return a => a
  | Throw e => h e
  end.

Declare Scope result_scope.
Delimit Scope result_scope with result.
Notation "x <- c ;; k" := (rbind c (fun x => k))
  (at level 100, c at next level, right associativity) : result_scope.

(* ================================================================== *)
(** * Discussion extractor: [extractRedditContent] *)
(* ================================================================== *)

Module Extractor.

(** The patterns of the source, transcribed token by token. *)

(** The pattern of [titleMatch] (documents.ts, line 61). *)
Definition titleRegex : re :=
  seqs [Lit (lit "<title>"); Grp 1 (StarL dot); Lit (lit "</title>")].

(** The pattern removed from the title (line 63): a space, a colon, a space
    and the rest of the input. *)
Definition titleSuffixRegex : re :=
  seqs [Lit (lit " : "); StarG dot; Eos].

(** The pattern of [postContentMatch] (line 72). *)
Definition postContentRegex : re :=
  seqs [Lit (litq "<div class='usertext-body may-blank-within md-container");
        StarG (notChar dquote); Lit (litq "'>"); StarG isWhiteSpace;
        Lit (litq "<div class='md'>"); Grp 1 (StarL anyChar);
        Lit (lit "</div>"); StarG isWhiteSpace; Lit (lit "</div>")].

(** [fullCommentRegex] (line 81), used with the [g] flag. *)
Definition fullCommentRegex : re :=
  seqs [Lit (litq "<div class='"); StarG (notChar dquote); Lit (lit "thing");
        StarG (notChar dquote); Lit (lit "id-t1_"); StarG (notChar dquote);
        StarG isWhiteSpace; Grp 1 (StarG (notChar dquote)); Lit [dquote];
        StarL anyChar; Lit (lit "</div>"); StarG isWhiteSpace;
        Lit (litq "<div class='child'>")].

(** [commentContentRegex] (line 84). *)
Definition commentContentRegex : re :=
  seqs [Lit (litq "<p class='tagline'>"); StarL anyChar;
        Lit (litq "<a href='"); StarG (notChar dquote);
        Lit (litq "' class='author"); StarG (notChar ">"%char); Lit (lit ">");
        Grp 1 (StarG (notChar "<"%char)); Lit (lit "<"); StarL anyChar;
        Lit (litq "<div class='md'>"); Grp 2 (StarL anyChar); Lit (lit "</div>")].

(** [scoreRegex] (line 87). *)
Definition scoreRegex : re :=
  seqs [Lit (litq "<span class='score"); StarG (notChar ">"%char); Lit (lit ">");
        Grp 1 (PlusG isDigit); Lit (lit " point"); Opt (Lit (lit "s"));
        Lit (lit "</span>")].

Definition MAX_COMMENTS : Z := 10.

(** The numeric score of a comment, as [parseInt] reads it: [0] when no
    score was parsed. *)
Definition scoreValue (score : option jsstring) : Z :=
  match score with
  | Some s => match parseInt s with Some z => z | None => 0%Z end
  | None => 0%Z
  end.

(** The text of a group that takes part in every match of its pattern. *)
Definition groupText (m : Match) (n : nat) : jsstring :=
  match group m n with
  | Some s => s
  | None => []
  end.

(** A collected comment, with the fields used for ranking. *)
Record Comment := mkComment {
  author : jsstring;
  text : jsstring;
  score : option jsstring;
  scoreNum : option Z;
  visible : bool
}.

(** A comment as returned. *)
Record OutComment := mkOut {
  out_author : jsstring;
  out_text : jsstring;
  out_score : option jsstring
}.

Record Extracted := mkExtracted {
  title : jsstring;
  postContent : jsstring;
  comments : list OutComment;
  success : bool
}.

(** The numeric score a collected comment is ranked by, and the comments
    whose [scoreNum] is that number. *)
Definition commentScore (c : Comment) : Z := scoreValue (score c).

Definition wellScored (c : Comment) : Prop :=
  scoreNum c = Some (commentScore c).

(** The comparator [(a, b) => b.scoreNum - a.scoreNum]: the difference of
    two doubles, which is NaN when one of them is. *)
Definition byScoreDesc (a b : Comment) : Z :=
  match scoreNum a, scoreNum b with
  | Some x, Some y => comparison (minus y x)
  | _, _ => 0%Z
  end.

(** [({ author, text, score }) => ({ author, text, score })] *)
Definition strip (c : Comment) : OutComment :=
  mkOut (author c) (text c) (score c).

Definition outScore (c : OutComment) : Z := scoreValue (out_score c).

(** The comments of a list that have the score [z], in the order of the
    list. *)
Definition tied (z : Z) (l : list OutComment) : list OutComment :=
  filter (fun c => (outScore c =? z)%Z) l.

(** [Subseq l1 l2]: [l1] is [l2] with some elements left out, the order
    kept. *)
Inductive Subseq {A : Type} : list A -> list A -> Prop :=
| Subseq_nil : Subseq [] []
| Subseq_keep x l1 l2 : Subseq l1 l2 -> Subseq (x :: l1) (x :: l2)
| Subseq_skip x l1 l2 : Subseq l1 l2 -> Subseq l1 (x :: l2).

Create HintDb subseq.
#[global] Hint Constructors Subseq : subseq.

(** [isVisible]: the class list holds [noncollapsed] and does not hold
    [collapsed], both as substrings. *)
Definition isVisible (commentClasses : jsstring) : bool :=
  includes commentClasses (lit "noncollapsed")
  && negb (includes commentClasses (lit "collapsed")).

(** Lines 102-103 in the words of their comment: a comment is visible if it
    has the class [noncollapsed] and does not have the class [collapsed].
    The classes of a comment block are the words of the class attribute its
    opening tag starts with. *)
Fixpoint wordsFrom (s word : jsstring) : list jsstring :=
  match s with
  | [] => match word with [] => [] | _ => [word] end
  | c :: s' =>
      if isWhiteSpace c
      then match word with [] => [] | _ => [word] end ++ wordsFrom s' []
      else wordsFrom s' (word ++ [c])
  end.

Definition classNames (classList : jsstring) : list jsstring :=
  wordsFrom classList [].

Definition hasClass (classList name : jsstring) : bool :=
  existsb (str_eqb name) (classNames classList).

Definition classListOf (commentHtml : jsstring) : jsstring :=
  match stripPrefix (litq "<div class='") commentHtml with
  | Some rest => takeWhile (notChar dquote) rest
  | None => []
  end.

Definition visibleAsDocumented (commentHtml : jsstring) : bool :=
  hasClass (classListOf commentHtml) (lit "noncollapsed")
  && negb (hasClass (classListOf commentHtml) (lit "collapsed")).

(** Lines 137-162: sort, keep the visible ones, cap, and fall back to the
    unfiltered list when nothing visible is left. *)
Definition selectComments (allComments : list Comment) : list OutComment :=
  let sorted := sort byScoreDesc allComments in
  let visibleComments := filter visible sorted in
  let outputComments := map strip (slice visibleComments 0 MAX_COMMENTS) in
  if (length outputComments =? 0) && (0 <? length sorted)
  then map strip (slice sorted 0 MAX_COMMENTS)
  else outputComments.

Section WithHtmlToText.

(** [htmlToText(html, { wordwrap: false })] of the html-to-text package. *)
Variable htmlToText : jsstring -> Result jsstring.

Local Open Scope result_scope.

(** The body of the scanning loop for one comment block: [None] when the
    block is skipped. *)
Definition parseComment (commentMatch : Match) : Result (option Comment) :=
  let commentHtml := whole commentMatch in
  let commentClasses := groupText commentMatch 1 in
  let vis := isVisible commentClasses in
  match matchFirst commentContentRegex commentHtml with
  | Some contentMatch =>
      let author := groupText contentMatch 1 in
      text <- htmlToText (groupText contentMatch 2) ;;
      let score := match matchFirst scoreRegex commentHtml with
                   | Some scoreMatch => group scoreMatch 1
                   | None => None
                   end in
      let scoreNum := if truthy score then parseInt (orElse score [])
                      else Some 0%Z in
      if 0 <? length (trim text)
      then Return (Some (mkComment author (trim text) score scoreNum vis))
      else Return None
  | None => Return None
  end.

(** The scanning loop: every block in markup order, kept ones pushed at the
    end of [allComments]. *)
Fixpoint collect (ms : list Match) (allComments : list Comment)
  : Result (list Comment) :=
  match ms with
  | [] => Return allComments
  | m :: ms' =>
      c <- parseComment m ;;
      match c with
      | Some c' => collect ms' (allComments ++ [c'])
      | None => collect ms' allComments
      end
  end.

Definition collectComments (htmlContent : jsstring) : Result (list Comment) :=
  collect (execAll fullCommentRegex htmlContent) [].

Definition extractTitle (htmlContent : jsstring) : jsstring :=
  match matchFirst titleRegex htmlContent with
  | Some titleMatch => removeFirstMatch titleSuffixRegex (groupText titleMatch 1)
  | None => lit "Reddit Discussion"
  end.

Definition extractPost (htmlContent : jsstring) : Result jsstring :=
  match matchFirst postContentRegex htmlContent with
  | Some postContentMatch =>
      if truthy (group postContentMatch 1)
      then htmlToText (groupText postContentMatch 1)
      else Return []
  | None => Return []
  end.

(** The comments in the order of the markup, as they would be returned. *)
Definition markupOrder (htmlContent : jsstring) : list OutComment :=
  match collectComments htmlContent with
  | Return allComments => map strip allComments
  | Throw _ => []
  end.

Definition extractFailed : Extracted :=
  mkExtracted (lit "Reddit Discussion") [] [] false.

Definition extractRedditContent (htmlContent : jsstring) : Extracted :=
  rcatch
    (let title := extractTitle htmlContent in
     postContent <- extractPost htmlContent ;;
     allComments <- collectComments htmlContent ;;
     let comments := selectComments allComments in
     Return (mkExtracted title postContent comments
               ((0 <? length postContent) || (0 <? length comments))))
    (fun _ => extractFailed).

End WithHtmlToText.

End Extractor.

(* ================================================================== *)
(** * Documents *)
(* ================================================================== *)

(** The line feed. *)
Definition nl : jsstring := [ascii_of_nat 10].

(** The metadata fields the pipeline reads: an absent field is [None]
    ([false] for the flag). *)
Record Metadata := mkMeta {
  meta_title : option jsstring;
  meta_url : option jsstring;
  commentCount : option Z;
  isReddit : bool
}.

Record Document := mkDoc {
  pageContent : jsstring;
  metadata : Metadata
}.

(* ================================================================== *)
(** * Effects: requests and timers over a trace *)
(* ================================================================== *)

(** What a run did that the outside can see, in the order it happened. *)
Inductive Event (Req : Type) : Type :=
| Request (r : Req)
| Sleep (ms : Z).
Arguments Request {Req} r.
Arguments Sleep {Req} ms.

Module Net.
Section Monad.

Variables Req Resp : Type.

(** The outside world: what the next request answers, given everything that
    happened before it. *)
Definition Oracle := list (Event Req) -> Req -> Result Resp.

Variable oracle : Oracle.

(** A computation: from the trace so far to an outcome and the new trace. *)
Definition M (A : Type) := list (Event Req) -> Result A * list (Event Req).

Definition ret {A} (a : A) : M A := fun t => (Return a, t).

Definition throw {A} (e : JSError) : M A := fun t => (Throw e, t).

Definition bind {A B} (m : M A) (f : A -> M B) : M B :=
  fun t => match m t with
           | (Return a, t') => f a t'
           | (Throw e, t') => (Throw e, t')
           end.

(** [try { m } catch (e) { h e }] *)
Definition tryCatch {A} (m : M A) (h : JSError -> M A) : M A :=
  fun t => match m t with
           | (Return a, t') => (Return a, t')
           | (Throw e, t') => h e t'
           end.

(** A request is logged, then answered by the oracle. *)
Definition request (r : Req) : M Resp :=
  fun t => (oracle t r, t ++ [Request r]).

(** [await delay(ms)] *)
Definition sleep (ms : Z) : M unit :=
  fun t => (Return tt, t ++ [Sleep ms]).

Definition lift {A} (r : Result A) : M A := fun t => (r, t).

(** The workers of one batch, run to completion one after the other in the
    order of their items, which is the order of the results of
    [Promise.all]. *)
Fixpoint mapM {A B} (f : A -> M B) (l : list A) : M (list B) :=
  match l with
  | [] => ret []
  | x :: l' => bind (f x) (fun y => bind (mapM f l') (fun ys => ret (y :: ys)))
  end.

(** ** Workers that push to a shared array

    [await Promise.all(items.map(async (item) => { ... shared.push(x) }))]
    with workers that send one request at most.  The workers start in the
    order of the items, so that is the order of their requests; each pushes
    when it settles.  A worker that asks nothing of the outside settles at
    once; for the others the outside world decides: [settledAt t] is the
    time at which the worker that started after the trace [t] settles. *)
Variable settledAt : list (Event Req) -> Z.

(** A worker once it has run: when it settles ([None]: at once) and how. *)
Definition Settled (B : Type) : Type := (option Z * Result B)%type.

(** Every worker is started, whatever becomes of the others. *)
Fixpoint startAll {A B} (f : A -> M B) (items : list A)
         (t : list (Event Req)) : list (Settled B) * list (Event Req) :=
  match items with
  | [] => ([], t)
  | item :: items' =>
      let '(r, t') := f item t in
      let time := if length t' =? length t then None else Some (settledAt t) in
      let '(workers, t'') := startAll f items' t' in
      ((time, r) :: workers, t'')
  end.

(** The order in which workers settle: the earlier first, those that settle
    at once before the others, and the starting order otherwise. *)
Definition bySettled {B} (a b : Settled B) : Z :=
  match fst a, fst b with
  | Some x, Some y => (x - y)%Z
  | Some _, None => 1%Z
  | _, _ => 0%Z
  end.

(** The first exception among workers, which is what [Promise.all] throws. *)
Fixpoint firstThrown {B} (workers : list (Settled B)) : option JSError :=
  match workers with
  | [] => None
  | (_, Throw e) :: _ => Some e
  | (_, Return _) :: workers' => firstThrown workers'
  end.

(** What workers that all returned have pushed, in their order. *)
Fixpoint pushedBy {B} (workers : list (Settled (list B))) : list B :=
  match workers with
  | [] => []
  | (_, Return pushed) :: workers' => pushed ++ pushedBy workers'
  | (_, Throw _) :: workers' => pushedBy workers'
  end.

(** The shared array after [Promise.all], or the exception it throws. *)
Definition pushAll {A B} (f : A -> M (list B)) (items : list A) : M (list B) :=
  fun t =>
    let '(workers, t') := startAll f items t in
    let settled := sort bySettled workers in
    match firstThrown settled with
    | Some e => (Throw e, t')
    | None => (Return (pushedBy settled), t')
    end.

(** The requests of the part [new] of a trace, each with what the oracle
    answered it, [t] being the trace before that part. *)
Fixpoint answers (t new : list (Event Req)) : list (Req * Result Resp) :=
  match new with
  | [] => []
  | Request r :: new' => (r, oracle t r) :: answers (t ++ [Request r]) new'
  | Sleep ms :: new' => answers (t ++ [Sleep ms]) new'
  end.

End Monad.

Arguments ret {Req A} a.
Arguments throw {Req A} e.
Arguments bind {Req A B} m f.
Arguments tryCatch {Req A} m h.
Arguments sleep {Req} ms.
Arguments lift {Req A} r.
Arguments mapM {Req A B} f l.
Arguments startAll {Req} settledAt {A B} f items t.
Arguments bySettled {B} a b.
Arguments firstThrown {B} workers.
Arguments pushedBy {B} workers.
Arguments pushAll {Req} settledAt {A B} f items.
Arguments answers {Req Resp} oracle t new.
Arguments request {Req Resp} oracle r.

End Net.

Declare Scope net_scope.
Delimit Scope net_scope with net.
Notation "x <- c ;; k" := (Net.bind c (fun x => k))
  (at level 100, c at next level, right associativity) : net_scope.
Notation "c ;;; k" := (Net.bind c (fun _ => k))
  (at level 100, right associativity) : net_scope.

(* ================================================================== *)
(** * Thread scorer: [extractTopCommentScore] and its batches *)
(* ================================================================== *)

Module Scorer.

(** [commentRegex] (line 898), used with the [g] flag. *)
Definition commentRegex : re :=
  seqs [Lit (litq "<div class=' thing id-t1_"); StarG (notChar dquote);
        StarL anyChar; Lit (lit "</div>"); StarG isWhiteSpace;
        Lit (litq "<div class='child'>")].

(** [scoreRegex] (line 901), the same pattern as the extractor's. *)
Definition scoreRegex : re := Extractor.scoreRegex.

(** The pattern of [postScoreMatch] (line 924). *)
Definition postScoreRegex : re :=
  seqs [Lit (litq "<div class='score"); StarG (notChar dquote); Lit [dquote];
        StarG (notChar ">"%char); Lit (lit ">"); Grp 1 (PlusG digitOrComma);
        Lit (lit "</div>")].

(** The pattern of [altScoreMatch] (line 931). *)
Definition altScoreRegex : re :=
  seqs [Lit (litq "<div class='score unvoted'"); StarG (notChar ">"%char);
        Lit (lit ">"); Grp 1 (PlusG digitOrComma); Lit (lit "</div>")].

Definition maxRetries : Z := 3.
Definition BATCH_SIZE : Z := 3.
Definition BATCH_DELAY : Z := 3000.

(** The state of the scanning loop over the comment blocks. *)
Record Scan := mkScan {
  highestScore : Z;
  matchCount : Z;
  commentScores : list (option Z)
}.

(** One turn of the loop of lines 909-921. *)
Definition scanStep (st : Scan) (commentMatch : Match) : Scan :=
  let matchCount := (matchCount st + 1)%Z in
  let commentHtml := whole commentMatch in
  match matchFirst scoreRegex commentHtml with
  | Some scoreMatch =>
      if truthy (group scoreMatch 1) then
        let score := parseInt (Extractor.groupText scoreMatch 1) in
        let highest :=
          match score with
          | Some s => if (s >? highestScore st)%Z then s else highestScore st
          | None => highestScore st
          end in
        mkScan highest matchCount (commentScores st ++ [score])
      else mkScan (highestScore st) matchCount (commentScores st)
  | None => mkScan (highestScore st) matchCount (commentScores st)
  end.

Definition scanComments (html : jsstring) : Scan :=
  fold_left scanStep (execAll commentRegex html) (mkScan 0 0 []).

(** Lines 924-935: the post's own score; [None] is NaN. *)
Definition extractPostScore (html : jsstring) : option Z :=
  match matchFirst postScoreRegex html with
  | Some m =>
      if truthy (group m 1)
      then parseInt (removeAll (Extractor.groupText m 1) ","%char)
      else
        match matchFirst altScoreRegex html with
        | Some m' =>
            if truthy (group m' 1)
            then parseInt (removeAll (Extractor.groupText m' 1) ","%char)
            else Some 0%Z
        | None => Some 0%Z
        end
  | None =>
      match matchFirst altScoreRegex html with
      | Some m' =>
          if truthy (group m' 1)
          then parseInt (removeAll (Extractor.groupText m' 1) ","%char)
          else Some 0%Z
      | None => Some 0%Z
      end
  end.

(** The highest of the scores found, [0] when there is none. *)
Definition maxScore (scores : list (option Z)) : Z :=
  fold_left (fun best score =>
               match score with
               | Some s => Z.max best s
               | None => best
               end)
            scores 0%Z.

(** [postScore > 0]; false on NaN. *)
Definition positive (postScore : option Z) : bool :=
  match postScore with
  | Some p => (p >? 0)%Z
  | None => false
  end.

(** A number printed inside a template string. *)
Definition showNum (n : option Z) : jsstring :=
  match n with
  | Some z => numToString z
  | None => lit "NaN"
  end.

(** The comparator [(a, b) => b - a]: the difference of two doubles, which
    is NaN when one of them is. *)
Definition numDesc (a b : option Z) : Z :=
  match a, b with
  | Some x, Some y => comparison (minus y x)
  | _, _ => 0%Z
  end.

(** Lines 780-783. *)
Definition normalizeUrl (url : jsstring) : jsstring :=
  if includes url (lit "www.reddit.com")
  then replaceFirst url (lit "www.reddit.com") (lit "old.reddit.com")
  else url.

Definition alternateUrl (urlToFetch : jsstring) : jsstring :=
  replaceFirst urlToFetch (lit "old.reddit.com") (lit "www.reddit.com").

Section WithNumbers.

(** The numbers of the combined score: JavaScript's doubles, through the
    operations the formula uses. *)
Variable num : Type.
Variable ofZ : Z -> num.
Variable add mul : num -> num -> num.
Variable log10 : num -> num.

Inductive Metrics : Type :=
| Analysed (url normalizedUrl title : jsstring) (postScore : option Z)
    (highestCommentScore commentCount : Z) (commentScores : list (option Z))
    (combinedScore : num) (htmlLength : Z)
| Failed (url error : jsstring).

Record ScoreResult := mkScore {
  res_url : jsstring;
  res_score : num;
  details : jsstring;
  metrics : Metrics
}.

(** Line 938. *)
Definition combinedScore (highestScore : Z) (postScore : option Z) : num :=
  add (ofZ highestScore)
      (match postScore with
       | Some p => if (p >? 0)%Z then mul (log10 (ofZ p)) (ofZ 3) else ofZ 0
       | None => ofZ 0
       end).

(** Lines 896-967: what is read off a fetched page. *)
Definition analyse (url normalizedUrl html : jsstring) : ScoreResult :=
  let st := scanComments html in
  let postScore := extractPostScore html in
  let combined := combinedScore (highestScore st) postScore in
  let title :=
    match matchFirst Extractor.titleRegex html with
    | Some titleMatch =>
        removeFirstMatch Extractor.titleSuffixRegex
                         (Extractor.groupText titleMatch 1)
    | None => lit "Unknown"
    end in
  let details :=
    lit "Title: " ++ [dquote] ++ substring title 0 50 ++ lit "..."
    ++ [dquote] ++ lit ", PostScore: " ++ showNum postScore
    ++ lit ", TopCommentScore: " ++ numToString (highestScore st)
    ++ lit ", Comments: " ++ numToString (matchCount st) in
  mkScore url combined details
          (Analysed url normalizedUrl title postScore (highestScore st)
                    (matchCount st)
                    (slice (sort numDesc (commentScores st)) 0 10)
                    combined (Z.of_nat (length html))).

(** The result built by the [catch] of line 968. *)
Definition failedResult (url : jsstring) (error : JSError) : ScoreResult :=
  mkScore url (ofZ 0) (lit "Error: " ++ message error)
          (Failed url (message error)).

(** A result for [url]: the analysis of a page, or the zero-score result of
    an error. *)
Definition scoredFor (url : jsstring) (r : ScoreResult) : Prop :=
  res_url r = url
  /\ ((exists html, r = analyse url (normalizeUrl url) html)
      \/ (exists e, r = failedResult url e /\ res_score r = ofZ 0)).

Section WithNet.

(** [axios.get(url, { responseType: 'text', ... })]: the page, or the error
    the client throws (a timeout, a network failure, a status outside
    2xx). *)
Variable oracle : Net.Oracle jsstring jsstring.

Local Abbreviation M := (Net.M jsstring).
Local Open Scope net_scope.

(** Lines 800-859: one attempt, the primary host and then, when it fails, the
    alternate one. *)
Definition attempt (normalizedUrl : jsstring) : M jsstring :=
  let urlToFetch := normalizedUrl in
  Net.tryCatch
    (Net.request oracle urlToFetch)
    (fun firstError =>
       if includes urlToFetch (lit "old.reddit.com")
       then Net.request oracle (alternateUrl urlToFetch)
       else Net.throw firstError).

(** What attempt number [k] (counted from 0) leaves in the trace: the wait
    of [k] times 2000 ms when it is a retry, the request to the primary host
    and, when that one failed and the URL names the old host, the request to
    the alternate host. *)
Definition attemptEvents (normalizedUrl : jsstring) (k : Z)
           (primaryFailed : bool) : list (Event jsstring) :=
  (if (k >? 0)%Z then [Sleep (2000 * k)] else [])
  ++ [Request normalizedUrl]
  ++ (if primaryFailed && includes normalizedUrl (lit "old.reddit.com")
      then [Request (alternateUrl normalizedUrl)] else []).

(** The trace of successive attempts, the first of them numbered [k]. *)
Fixpoint attemptsEvents (normalizedUrl : jsstring) (k : Z)
         (primaryFailed : list bool) : list (Event jsstring) :=
  match primaryFailed with
  | [] => []
  | f :: fs =>
      attemptEvents normalizedUrl k f
      ++ attemptsEvents normalizedUrl (k + 1) fs
  end.

(** The alternate host is asked on the last attempt only: no wait follows a
    request to it. *)
Definition alternateOnlyLast (normalizedUrl : jsstring)
           (trace : list (Event jsstring)) : Prop :=
  forall before after,
    trace = before ++ Request (alternateUrl normalizedUrl) :: after ->
    forall ms, ~ In (Sleep ms) after.

Definition rateLimited : JSError :=
  Error (lit "Rate limited by Reddit after " ++ numToString maxRetries
         ++ lit " retries").

(** Lines 791-881: the loop [while (retries < maxRetries)].  Each turn that
    does not leave the loop adds one to [retries], so [fuel] turns are all
    the loop can take when [fuel + retries >= maxRetries]; the answer is
    [None] when the loop ends with no response. *)
Fixpoint fetchLoop (fuel : nat) (retries : Z) (normalizedUrl : jsstring)
  : M (option jsstring) :=
  match fuel with
  | O => Net.ret None
  | S fuel' =>
      if (retries <? maxRetries)%Z then
        Net.tryCatch
          ((if (retries >? 0)%Z then Net.sleep (2000 * retries)
            else Net.ret tt) ;;;
           response <- attempt normalizedUrl ;;
           Net.ret (Some response))
          (fun error =>
             let retries := (retries + 1)%Z in
             if match status error with
                | Some s => (s =? 429)%Z
                | None => false
                end
             then
               if (retries >=? maxRetries)%Z then Net.throw rateLimited
               else fetchLoop fuel' retries normalizedUrl
             else
               if (retries >=? maxRetries)%Z then Net.throw error
               else fetchLoop fuel' retries normalizedUrl)
      else Net.ret None
  end.

Definition fetchWithRetry (normalizedUrl : jsstring) : M (option jsstring) :=
  fetchLoop (Z.to_nat maxRetries) 0 normalizedUrl.

(** Lines 777-977.  (Saving the page for debugging has a [try] of its own
    and no effect on the result; it is left out.) *)
Definition extractTopCommentScore (url : jsstring) : M ScoreResult :=
  Net.tryCatch
    (let normalizedUrl := normalizeUrl url in
     response <- fetchWithRetry normalizedUrl ;;
     match response with
     | None =>
         Net.throw (Error (lit "Failed to get response for " ++ url
                           ++ lit " after " ++ numToString maxRetries
                           ++ lit " attempts"))
     | Some html => Net.ret (analyse url normalizedUrl html)
     end)
    (fun error => Net.ret (failedResult url error)).

(** The worker of a batch: line 995-1005. *)
Definition scoreOne (url : jsstring) : M ScoreResult :=
  Net.tryCatch (extractTopCommentScore url)
               (fun error => Net.ret (failedResult url error)).

(** Lines 986-1017: the loop [for (let i = 0; i < n; i += BATCH_SIZE)].
    [fuel] turns are all it can take when [fuel >= n - i]. *)
Fixpoint batchLoop (fuel : nat) (initialRedditUrls : list jsstring) (i : Z)
         (allScoreResults : list ScoreResult) : M (list ScoreResult) :=
  match fuel with
  | O => Net.ret allScoreResults
  | S fuel' =>
      if (i <? Z.of_nat (length initialRedditUrls))%Z then
        let batchUrls := slice initialRedditUrls i (i + BATCH_SIZE) in
        batchResults <- Net.mapM scoreOne batchUrls ;;
        let allScoreResults := allScoreResults ++ batchResults in
        (if (i + BATCH_SIZE <? Z.of_nat (length initialRedditUrls))%Z
         then Net.sleep BATCH_DELAY else Net.ret tt) ;;;
        batchLoop fuel' initialRedditUrls (i + BATCH_SIZE) allScoreResults
      else Net.ret allScoreResults
  end.

(** The thread-scoring stage. *)
Definition scoreAll (initialRedditUrls : list jsstring) : M (list ScoreResult) :=
  batchLoop (length initialRedditUrls) initialRedditUrls 0 [].

End WithNet.
End WithNumbers.

End Scorer.

(* ================================================================== *)
(** * Document reranker: [rerankDocs] *)
(* ================================================================== *)

(** [Array.prototype.map] with the index. *)
Fixpoint mapiFrom {A B} (i : nat) (f : nat -> A -> B) (l : list A) : list B :=
  match l with
  | [] => []
  | x :: l' => f i x :: mapiFrom (S i) f l'
  end.

Definition mapi {A B} (f : nat -> A -> B) (l : list A) : list B :=
  mapiFrom 0 f l.

(** [map] with a callback that may throw: the first exception ends it. *)
Fixpoint mapR {A B} (f : A -> Result B) (l : list A) : Result (list B) :=
  match l with
  | [] => Return []
  | x :: l' =>
      rbind (f x) (fun y => rbind (mapR f l') (fun ys => Return (y :: ys)))
  end.

Module Reranker.

Inductive Mode : Type := speed | balanced | quality.

Definition mode_eqb (a b : Mode) : bool :=
  match a, b with
  | speed, speed | balanced, balanced | quality, quality => true
  | _, _ => false
  end.

Section WithCollaborators.

(** Embedding vectors and similarity scores, as the collaborators give
    them. *)
Variable Vec : Type.
Variable Sim : Type.

(** [a > b] on scores. *)
Variable gt : Sim -> Sim -> bool.
(** The sign of [a - b], as [sort] reads a comparator's answer. *)
Variable subSign : Sim -> Sim -> Z.
(** The number [0.3]. *)
Variable defaultThreshold : Sim.

(** [computeSimilarity] (utils/computeSimilarity, not part of these
    sources); the second vector is [undefined] when a file has no embedding
    at that index. *)
Variable computeSimilarity : Vec -> option Vec -> Result Sim.

(** The embeddings collaborator. *)
Variable embedQuery : jsstring -> Result Vec.
Variable embedDocuments : list jsstring -> Result (list Vec).

(** The uploaded-file store: the parsed [-extracted.json] and
    [-embeddings.json] of a file id. *)
Record FileContent := mkFileContent {
  file_title : jsstring;
  contents : list jsstring
}.
Variable readExtracted : jsstring -> Result FileContent.
Variable readEmbeddings : jsstring -> Result (list Vec).

(** [String.prototype.toLocaleLowerCase], which depends on the locale of the
    host. *)
Variable toLocaleLowerCase : jsstring -> jsstring.

Record Config := mkConfig {
  rerank : bool;
  rerankThreshold : option Sim
}.

Variable config : Config.

Record FileData := mkFileData {
  fileName : jsstring;
  content : jsstring;
  embeddings : option Vec
}.

Record Scored := mkScored { index : nat; similarity : Sim }.

Local Open Scope result_scope.

(** Lines 1201-1223. *)
Definition loadFile (file : jsstring) : Result (list FileData) :=
  content <- readExtracted file ;;
  embeddings <- readEmbeddings file ;;
  Return (mapi (fun i c => mkFileData (file_title content) c
                                      (nth_error embeddings i))
               (contents content)).

Definition loadFiles (fileIds : list jsstring) : Result (list FileData) :=
  perFile <- mapR loadFile fileIds ;;
  Return (concat perFile).

Definition fileDoc (fileData : FileData) : Document :=
  mkDoc (content fileData)
        (mkMeta (Some (fileName fileData)) (Some (lit "File")) None false).

(** [this.config.rerankThreshold ?? 0.3] *)
Definition threshold : Sim :=
  match rerankThreshold config with
  | Some t => t
  | None => defaultThreshold
  end.

(** [(a, b) => b.similarity - a.similarity] *)
Definition bySimilarityDesc (a b : Scored) : Z :=
  subSign (similarity b) (similarity a).

Definition hasContent (doc : Document) : bool :=
  0 <? length (pageContent doc).

(** [similarity.filter(...).sort(...).slice(0, cap)] *)
Definition rank (cap : Z) (scored : list Scored) : list Scored :=
  slice (sort bySimilarityDesc
              (filter (fun sim => gt (similarity sim) threshold) scored))
        0 cap.

Definition scoreAgainst (queryEmbedding : Vec) (vectors : list (option Vec))
  : Result (list Scored) :=
  mapR (fun iv => sim <- computeSimilarity queryEmbedding (snd iv) ;;
                  Return (mkScored (fst iv) sim))
       (mapi (fun i v => (i, v)) vectors).

(** Lines 1190-1317.  An element of the answer is [None] where the source
    reads an array past its end ([undefined]). *)
Definition rerankDocs (query : jsstring) (docs : list Document)
           (fileIds : list jsstring) (optimizationMode : Mode)
  : Result (list (option Document)) :=
  if (length docs =? 0) && (length fileIds =? 0) then Return (map Some docs)
  else
    filesData <- loadFiles fileIds ;;
    if str_eqb (toLocaleLowerCase query) (lit "summarize")
    then Return (map Some (slice docs 0 30))
    else
      let docsWithContent := filter hasContent docs in
      if mode_eqb optimizationMode speed || negb (rerank config) then
        if 0 <? length filesData then
          queryEmbedding <- embedQuery query ;;
          let fileDocs := map fileDoc filesData in
          similarity <- scoreAgainst queryEmbedding
                                     (map embeddings filesData) ;;
          let sortedDocs :=
            map (fun sim => nth_error fileDocs (index sim))
                (rank 30 similarity) in
          let sortedDocs :=
            if 0 <? length docsWithContent then slice sortedDocs 0 30
            else sortedDocs in
          Return (sortedDocs
                  ++ map Some
                       (slice docsWithContent 0
                              (30 - Z.of_nat (length sortedDocs))))
        else Return (map Some (slice docsWithContent 0 30))
      else if mode_eqb optimizationMode balanced then
        docEmbeddings <- embedDocuments (map pageContent docsWithContent) ;;
        queryEmbedding <- embedQuery query ;;
        let docsWithContent := docsWithContent ++ map fileDoc filesData in
        let docEmbeddings :=
          map Some docEmbeddings ++ map embeddings filesData in
        similarity <- scoreAgainst queryEmbedding docEmbeddings ;;
        Return (map (fun sim => nth_error docsWithContent (index sim))
                    (rank 20 similarity))
      else Return [].

End WithCollaborators.

End Reranker.

(* ================================================================== *)
(** * Context assembler: [processDocs] *)
(* ================================================================== *)

Module Assembler.

Definition MAX_DOCUMENTS : Z := 8.

Definition truncationMarker : jsstring :=
  nl ++ nl ++ lit "[...content truncated...]" ++ nl ++ nl.

Definition commentsTruncatedNotice : jsstring :=
  nl ++ nl ++ lit "[...additional comments truncated...]".

Definition commentsOmittedNotice : jsstring :=
  nl ++ nl ++ lit "## Comments" ++ nl ++ nl
  ++ lit "[Comments truncated to fit length limit]".

(** Line 1340. *)
Definition isRedditSource (doc : Document) : bool :=
  isReddit (metadata doc)
  || match meta_url (metadata doc) with
     | Some url => truthy (Some url) && includes url (lit "reddit.com")
     | None => false
     end.

(** Line 1345. *)
Definition maxLength (doc : Document) : Z :=
  if isRedditSource doc then 6000%Z else 2000%Z.

(** Lines 1383-1385 and 1389-1391: the head and the tail of the content
    around the marker.  [maxLength * 0.75] and [maxLength * 0.25] are whole
    numbers for both caps. *)
Definition truncateStandard (maxLength : Z) (content : jsstring) : jsstring :=
  let beginningPortion := substring content 0 (maxLength * 3 / 4) in
  let endingPortion :=
    substringFrom content (Z.of_nat (length content) - maxLength / 4) in
  beginningPortion ++ truncationMarker ++ endingPortion.

(** Lines 1356-1380: the post section whole, then what fits of the
    comments. *)
Definition truncateSections (maxLength : Z) (content : jsstring)
           (postHeaderPos commentsHeaderPos : Z) : jsstring :=
  let postSection := substring content postHeaderPos commentsHeaderPos in
  let remainingSpace := (maxLength - Z.of_nat (length postSection))%Z in
  let commentsSection :=
    if (remainingSpace >? 500)%Z then
      let commentsSection := substringFrom content commentsHeaderPos in
      if (Z.of_nat (length commentsSection) >? remainingSpace)%Z then
        let cutoffPoint := lastIndexOf commentsSection (nl ++ nl) remainingSpace in
        (if negb (cutoffPoint =? -1)%Z
         then substring commentsSection 0 cutoffPoint
         else substring commentsSection 0 remainingSpace)
        ++ commentsTruncatedNotice
      else commentsSection
    else commentsOmittedNotice in
  let titleSection := substring content 0 postHeaderPos in
  titleSection ++ postSection ++ commentsSection.

Definition postHeaderPos (doc : Document) : Z :=
  indexOf (pageContent doc) (lit "## Original Post").

Definition commentsHeaderPos (doc : Document) : Z :=
  indexOf (pageContent doc) (lit "## Comments").

(** Line 1355, for a discussion source: both headers were found. *)
Definition sectionsFound (doc : Document) : bool :=
  isRedditSource doc
  && (negb (postHeaderPos doc =? -1)%Z && negb (commentsHeaderPos doc =? -1)%Z).

(** The post section of line 1357. *)
Definition postSection (doc : Document) : jsstring :=
  substring (pageContent doc) (postHeaderPos doc) (commentsHeaderPos doc).

(** Lines 1345-1395: the content of a document as it is emitted. *)
Definition truncateContent (doc : Document) : jsstring :=
  let maxLength := maxLength doc in
  let content := pageContent doc in
  if (Z.of_nat (length content) >? maxLength)%Z then
    if isRedditSource doc then
      let postHeaderPos := postHeaderPos doc in
      let commentsHeaderPos := commentsHeaderPos doc in
      if negb (postHeaderPos =? -1)%Z && negb (commentsHeaderPos =? -1)%Z
      then truncateSections maxLength content postHeaderPos commentsHeaderPos
      else truncateStandard maxLength content
    else truncateStandard maxLength content
  else content.

(** Line 1337. *)
Definition sourceLine (index : nat) (doc : Document) : jsstring :=
  numToString (Z.of_nat index + 1) ++ lit ". "
  ++ orElse (meta_title (metadata doc)) (lit "Untitled")
  ++ lit " (Source: " ++ orElse (meta_url (metadata doc)) (lit "Unknown")
  ++ lit ")".

Definition sourceType (doc : Document) : jsstring :=
  if isRedditSource doc then lit " [REDDIT DISCUSSION]" else [].

(** The block of one document: line 1397. *)
Definition processDoc (index : nat) (doc : Document) : jsstring :=
  sourceLine index doc ++ sourceType doc ++ nl ++ truncateContent doc ++ nl.

(** [Array.prototype.join] *)
Fixpoint join (sep : jsstring) (l : list jsstring) : jsstring :=
  match l with
  | [] => []
  | [x] => x
  | x :: l' => x ++ sep ++ join sep l'
  end.

Definition header (n : nat) : jsstring :=
  nl ++ lit "IMPORTANT: This search query has returned "
  ++ numToString (Z.of_nat n)
  ++ lit " sources. You should use information from most of these sources in your response, as long as they contain relevant information."
  ++ nl ++ lit "The sources are listed below, numbered from 1 to "
  ++ numToString (Z.of_nat n)
  ++ lit ". Use these numbers when citing information in your response."
  ++ nl.

(** The documents that are emitted: lines 1321-1325. *)
Definition capped (docs : list Document) : list Document :=
  if (Z.of_nat (length docs) >? MAX_DOCUMENTS)%Z
  then slice docs 0 MAX_DOCUMENTS else docs.

Definition blocks (docs : list Document) : list jsstring :=
  mapi processDoc (capped docs).

(** Lines 1319-1403. *)
Definition processDocs (docs : list Document) : jsstring :=
  header (length (capped docs))
  ++ join (nl ++ lit "---" ++ nl ++ nl) (blocks docs).

End Assembler.

(* ================================================================== *)
(** * Link mode: [getDocumentsFromLinks] *)
(* ================================================================== *)

Module Links.

(** What the function reads of its host: environment variables, and the
    origin of [window] when there is one. *)
Record Env := mkEnv {
  VERCEL : option jsstring;
  windowOrigin : option jsstring;
  NEXT_PUBLIC_SITE_URL : option jsstring;
  VERCEL_URL : option jsstring
}.

(** A request to the proxy route [/api/reddit] resolved against [apiBase],
    with [target] as its [url] parameter. *)
Record ProxyRequest := mkProxyRequest {
  apiBase : jsstring;
  target : jsstring
}.

(** The [Response] of [fetch]; reading the body may fail. *)
Record ProxyResponse := mkProxyResponse {
  ok : bool;
  resp_status : Z;
  statusText : jsstring;
  bodyText : Result jsstring
}.

Definition MAX_REDDIT_LINKS : Z := 5.
Definition BATCH_SIZE : Z := 2.
Definition BATCH_DELAY : Z := 5000.

(** Lines 187-212, the callback of [links.map]: [None] is [null]. *)
Definition normalizeLink (link : jsstring) : option jsstring :=
  let url :=
    if startsWith link (lit "http://") || startsWith link (lit "https://")
    then link else lit "https://" ++ link in
  if includes url (lit "reddit.com") then
    let url := splitHead url "?"%char in
    if includes url (lit "klp/") || includes url (lit "/t/")
       || negb (includes url (lit "/comments/"))
    then None
    else if includes url (lit "www.reddit.com")
    then Some (replaceFirst url (lit "www.reddit.com") (lit "old.reddit.com"))
    else if includes url (lit "reddit.com")
            && negb (includes url (lit "old.reddit.com"))
    then Some (replaceFirst url (lit "reddit.com") (lit "old.reddit.com"))
    else Some url
  else Some url.

(** [.filter(Boolean)]: [null] and the empty string go. *)
Fixpoint filterBoolean (l : list (option jsstring)) : list jsstring :=
  match l with
  | [] => []
  | Some (c :: s) :: l' => (c :: s) :: filterBoolean l'
  | _ :: l' => filterBoolean l'
  end.

Definition normalizedLinks (links : list jsstring) : list jsstring :=
  filterBoolean (map normalizeLink links).

Definition isRedditLink (link : jsstring) : bool :=
  includes link (lit "reddit.com").

Definition redditLinksToProcess (links : list jsstring) : list jsstring :=
  slice (filter isRedditLink (normalizedLinks links)) 0 MAX_REDDIT_LINKS.

Definition nonRedditLinks (links : list jsstring) : list jsstring :=
  filter (fun link => negb (isRedditLink link)) (normalizedLinks links).

(** Lines 346-373: the document of an extracted discussion. *)
Definition formatComment (comment : Extractor.OutComment) : jsstring :=
  let scoreText :=
    if truthy (Extractor.out_score comment)
    then lit " (" ++ orElse (Extractor.out_score comment) [] ++ lit " points)"
    else [] in
  lit "**" ++ Extractor.out_author comment ++ scoreText ++ lit "**:" ++ nl
  ++ Extractor.out_text comment ++ nl ++ nl.

Definition formatContent (extractedReddit : Extractor.Extracted) : jsstring :=
  lit "# " ++ Extractor.title extractedReddit ++ nl ++ nl
  ++ (if 0 <? length (trim (Extractor.postContent extractedReddit))
      then lit "## Original Post" ++ nl ++ nl
           ++ trim (Extractor.postContent extractedReddit) ++ nl ++ nl
      else [])
  ++ (if 0 <? length (Extractor.comments extractedReddit)
      then lit "## Comments" ++ nl ++ nl
           ++ concat (map formatComment (Extractor.comments extractedReddit))
      else []).

Definition redditDocument (link : jsstring)
           (extractedReddit : Extractor.Extracted) : Document :=
  mkDoc (trim (formatContent extractedReddit))
        (mkMeta (Some (Extractor.title extractedReddit)) (Some link)
                (Some (Z.of_nat (length (Extractor.comments extractedReddit))))
                true).

(** Lines 390-398. *)
Definition failureDocument (link : jsstring) (error : JSError) : Document :=
  mkDoc (lit "Failed to retrieve content from the link: " ++ message error)
        (mkMeta (Some (lit "Failed to retrieve content")) (Some link) None false).

(** Lines 415-423. *)
Definition placeholderDocument (link : jsstring) : Document :=
  mkDoc (lit "This is a non-Reddit URL that was not processed to avoid complexity in this fix: "
         ++ link)
        (mkMeta (Some (lit "Non-Reddit URL")) (Some link) None false).

(** An event of link mode is a request to the proxy for one of [links], or
    the wait between two batches. *)
Definition fetches (links : list jsstring) (ev : Event ProxyRequest) : Prop :=
  match ev with
  | Request r => In (target r) links
  | Sleep ms => ms = BATCH_DELAY
  end.

Section WithHost.

Variable env : Env.
Variable htmlToText : jsstring -> Result jsstring.

(** [fetch(apiUrl, { headers, signal: AbortSignal.timeout(15000) })]: a
    response, or the exception of a failed or timed-out request. *)
Variable oracle : Net.Oracle ProxyRequest ProxyResponse.

(** When the worker that started after a given trace settles: the outside
    world decides in which order the fetches of a batch end. *)
Variable settledAt : list (Event ProxyRequest) -> Z.

Local Abbreviation M := (Net.M ProxyRequest).
Local Open Scope net_scope.

Definition isProduction : bool :=
  match VERCEL env with
  | Some v => str_eqb v (lit "1")
  | None => false
  end.

(** Lines 259-276. *)
Definition baseUrl : jsstring :=
  match windowOrigin env with
  | Some origin => origin
  | None =>
      if truthy (NEXT_PUBLIC_SITE_URL env)
      then orElse (NEXT_PUBLIC_SITE_URL env) []
      else if truthy (VERCEL_URL env)
      then lit "https://" ++ orElse (VERCEL_URL env) []
      else lit "http://localhost:3000"
  end.

(** Lines 278-319. *)
Definition fetchViaProxy (link : jsstring) : M jsstring :=
  proxyResponse <- Net.request oracle (mkProxyRequest baseUrl link) ;;
  if negb (ok proxyResponse) then
    Net.throw (Error (lit "Proxy API returned "
                      ++ numToString (resp_status proxyResponse) ++ lit ": "
                      ++ statusText proxyResponse))
  else
    htmlContent <- Net.lift (bodyText proxyResponse) ;;
    if length htmlContent <? 1000
    then Net.throw (Error (lit "Insufficient content received from proxy"))
    else Net.ret htmlContent.

(** Lines 243-380, [fetchPromise]: the documents it pushes. *)
Definition fetchAndExtract (link : jsstring) : M (list Document) :=
  htmlContent <-
    (if isProduction && includes link (lit "reddit.com")
     then fetchViaProxy link
     else Net.throw (Error (lit "Direct fetching not implemented for simplicity"))) ;;
  if includes link (lit "reddit.com") then
    let extractedReddit := Extractor.extractRedditContent htmlToText htmlContent in
    if Extractor.success extractedReddit
    then Net.ret [redditDocument link extractedReddit]
    else Net.ret []
  else Net.ret [].

(** Lines 235-399, the worker of a batch.  (The race against a timer of 20
    seconds is a matter of real time; a request that does not answer in time
    is one that throws.) *)
Definition processLink (link : jsstring) : M (list Document) :=
  Net.tryCatch (fetchAndExtract link)
               (fun error => Net.ret [failureDocument link error]).

(** What the worker of [link] pushes once the proxy has answered its
    request: lines 278-399 again, by that answer. *)
Definition pushedFor (link : jsstring) (answer : Result ProxyResponse)
  : list Document :=
  match answer with
  | Throw error => [failureDocument link error]
  | Return proxyResponse =>
      if negb (ok proxyResponse) then
        [failureDocument
           link
           (Error (lit "Proxy API returned "
                   ++ numToString (resp_status proxyResponse) ++ lit ": "
                   ++ statusText proxyResponse))]
      else
        match bodyText proxyResponse with
        | Throw error => [failureDocument link error]
        | Return htmlContent =>
            if length htmlContent <? 1000 then
              [failureDocument
                 link (Error (lit "Insufficient content received from proxy"))]
            else
              let extractedReddit :=
                Extractor.extractRedditContent htmlToText htmlContent in
              if Extractor.success extractedReddit
              then [redditDocument link extractedReddit]
              else []
        end
  end.

(** Lines 228-408: [for (let i = 0; i < n; i += BATCH_SIZE)].  The workers
    of a batch push to [docs] as they settle. *)
Fixpoint batchLoop (fuel : nat) (toProcess : list jsstring) (i : Z)
         (docs : list Document) : M (list Document) :=
  match fuel with
  | O => Net.ret docs
  | S fuel' =>
      if (i <? Z.of_nat (length toProcess))%Z then
        let batchLinks := slice toProcess i (i + BATCH_SIZE) in
        pushed <- Net.pushAll settledAt processLink batchLinks ;;
        let docs := docs ++ pushed in
        (if (i + BATCH_SIZE <? Z.of_nat (length toProcess))%Z
         then Net.sleep BATCH_DELAY else Net.ret tt) ;;;
        batchLoop fuel' toProcess (i + BATCH_SIZE) docs
      else Net.ret docs
  end.

(** Lines 181-428. *)
Definition getDocumentsFromLinks (links : list jsstring) : M (list Document) :=
  let toProcess := redditLinksToProcess links in
  docs <- batchLoop (length toProcess) toProcess 0 [] ;;
  Net.ret (docs ++ map placeholderDocument (nonRedditLinks links)).

End WithHost.

End Links.

(* ================================================================== *)
(** * Web search wrapper: [searchGoogle] *)
(* ================================================================== *)

Module Search.

Record Options := mkOptions {
  language : option jsstring;
  engines : option (list jsstring);
  pageno : option Z;
  numResults : option Z
}.

(** A URL with its query parameters, in order. *)
Record Url := mkUrl {
  endpoint : jsstring;
  params : list (jsstring * jsstring)
}.

(** [url.searchParams.append(name, value)] *)
Definition append (u : Url) (name value : jsstring) : Url :=
  mkUrl (endpoint u) (params u ++ [(name, value)]).

Fixpoint setIn (ps : list (jsstring * jsstring)) (name value : jsstring)
         (found : bool) : list (jsstring * jsstring) :=
  match ps with
  | [] => if found then [] else [(name, value)]
  | (n, v) :: ps' =>
      if str_eqb n name
      then if found then setIn ps' name value true
           else (n, value) :: setIn ps' name value true
      else (n, v) :: setIn ps' name value found
  end.

(** [url.searchParams.set(name, value)] *)
Definition set (u : Url) (name value : jsstring) : Url :=
  mkUrl (endpoint u) (setIn (params u) name value false).

(** The value of the first parameter of that name. *)
Fixpoint getIn (ps : list (jsstring * jsstring)) (name : jsstring)
  : option jsstring :=
  match ps with
  | [] => None
  | (n, v) :: ps' => if str_eqb n name then Some v else getIn ps' name
  end.

Definition get (u : Url) (name : jsstring) : option jsstring :=
  getIn (params u) name.

(** An item of the search API's answer, and the answer. *)
Record Item := mkItem {
  item_title : jsstring;
  link : jsstring;
  snippet : option jsstring;
  cse_image_src : option jsstring;
  cse_thumbnail_src : option jsstring
}.

Record ResponseData := mkResponse {
  items : option (list Item);
  correctedQuery : option jsstring;
  nextPage : bool
}.

Record SearchResult := mkResult {
  title : jsstring;
  url : jsstring;
  content : option jsstring;
  img_src : option jsstring;
  thumbnail_src : option jsstring
}.

Record Output := mkOutput {
  results : list SearchResult;
  suggestions : list jsstring
}.

Definition toResult (item : Item) : SearchResult :=
  mkResult (item_title item) (link item) (snippet item) (cse_image_src item)
           (cse_thumbnail_src item).

Definition emptyOutput : Output := mkOutput [] [].

Definition notConfigured : JSError :=
  Error (lit "Google PSE API key or Search Engine ID not configured").

(** An event is a request whose [q] parameter is [query]. *)
Definition sends (query : jsstring) (ev : Event Url) : Prop :=
  match ev with
  | Request u => get u (lit "q") = Some query
  | Sleep _ => False
  end.

Section WithHost.

(** [getGooglePseApiKey()] and [getGooglePseEngineId()] (./config, not part
    of these sources). *)
Variable apiKey : option jsstring.
Variable searchEngineId : option jsstring.

(** [axios.get(url)]: the [data] of the response, or the error thrown. *)
Variable oracle : Net.Oracle Url ResponseData.

Local Abbreviation M := (Net.M Url).
Local Open Scope net_scope.

(** [opts?.numResults ?? 10] *)
Definition requested (opts : option Options) : Z :=
  match opts with
  | Some o => match numResults o with Some n => n | None => 10%Z end
  | None => 10%Z
  end.

(** Lines 38-59: the URL of the first request. *)
Definition buildUrl (query : jsstring) (opts : option Options) : Url :=
  let url := mkUrl (lit "https://www.googleapis.com/customsearch/v1") [] in
  let url := append url (lit "key") (orElse apiKey []) in
  let url := append url (lit "cx") (orElse searchEngineId []) in
  let url := append url (lit "q") query in
  let url :=
    match opts with
    | Some o =>
        match pageno o with
        | Some p =>
            if (p >? 1)%Z
            then append url (lit "start") (numToString ((p - 1) * 10 + 1))
            else url
        | None => url
        end
    | None => url
    end in
  let url :=
    match opts with
    | Some o =>
        if truthy (language o)
        then append url (lit "lr") (lit "lang_" ++ orElse (language o) [])
        else url
    | None => url
    end in
  append url (lit "num") (numToString (Z.min (requested opts) 10)).

(** Lines 89-119: [while (currentPage <= maxPages && allResults.length <
    numResults)].  Each turn that stays in the loop adds one to
    [currentPage], so [fuel] turns are all it takes when
    [fuel >= maxPages + 1 - currentPage]. *)
Fixpoint pageLoop (fuel : nat) (url : Url) (numResults maxPages currentPage : Z)
         (allResults : list SearchResult) : M (list SearchResult) :=
  match fuel with
  | O => Net.ret allResults
  | S fuel' =>
      if (currentPage <=? maxPages)%Z
         && (Z.of_nat (length allResults) <? numResults)%Z
      then
        let nextPageUrl :=
          set url (lit "start") (numToString ((currentPage - 1) * 10 + 1)) in
        answer <- Net.tryCatch
                    (nextPageResponse <- Net.request oracle nextPageUrl ;;
                     Net.ret (Some nextPageResponse))
                    (fun _ => Net.ret None) ;;
        match answer with
        | Some nextPageResponse =>
            match items nextPageResponse with
            | Some its =>
                pageLoop fuel' url numResults maxPages (currentPage + 1)
                         (allResults ++ map toResult its)
            | None => Net.ret allResults
            end
        | None => Net.ret allResults
        end
      else Net.ret allResults
  end.

(** Lines 22-133. *)
Definition searchGoogle (query : jsstring) (opts : option Options) : M Output :=
  if negb (truthy apiKey) || negb (truthy searchEngineId)
  then Net.throw notConfigured
  else
    let query := lit "Reddit " ++ query in
    let url := buildUrl query opts in
    let numResults := requested opts in
    Net.tryCatch
      (response <- Net.request oracle url ;;
       let results :=
         match items response with
         | Some its => map toResult its
         | None => []
         end in
       let suggestions :=
         if truthy (correctedQuery response)
         then [orElse (correctedQuery response) []] else [] in
       if (numResults >? 10)%Z && (length results =? 10)
          && nextPage response
       then
         let maxPages := ((numResults + 9) / 10)%Z in
         allResults <- pageLoop (Z.to_nat maxPages) url numResults maxPages 2
                                results ;;
         Net.ret (mkOutput (slice allResults 0 numResults) suggestions)
       else Net.ret (mkOutput results suggestions))
      (fun _ => Net.ret emptyOutput).

End WithHost.

End Search.

(* ================================================================== *)
(** * Proxy route: [GET] of src/app/api/reddit/route.ts *)
(* ================================================================== *)

(** Line numbers in this part are those of src/app/api/reddit/route.ts
    (the first of the two versions the file holds, lines 1-310). *)

Module Route.

(** The four ways the route tries to get a page.  Each has headers of its
    own in the source; the tag stands for them. *)
Inductive Strategy : Type := AllOrigins | ArchiveIs | Direct | CorsProxy.

Record FetchRequest := mkFetch {
  via : Strategy;
  fetchUrl : jsstring
}.

(** What the route answers: the page (status 200), or
    [NextResponse.json({ error }, { status })]. *)
Inductive RouteResponse : Type :=
| Page (html : jsstring)
| JsonError (error : jsstring) (status : Z).

(** The sanity check of lines 71, 104, 140 and 173. *)
Definition acceptable (html : jsstring) : bool :=
  (5000 <? length html)
  && negb (includes html (lit "whoa there, pardner"))
  && negb (includes html (lit "network policy")).

(** What an attempt makes of the answer to its request (lines 69-86, 102-119,
    141-158 and 175-192): the page, when the answer is ok and its body passes
    the check; an exception, an answer that is not ok and a body that does
    not pass all make the route go on. *)
Definition accepted (answer : Result Links.ProxyResponse) : option jsstring :=
  match answer with
  | Return response =>
      if Links.ok response then
        match Links.bodyText response with
        | Return html => if acceptable html then Some html else None
        | Throw _ => None
        end
      else None
  | Throw _ => None
  end.

(** Lines 46-51. *)
Definition normalize (url : jsstring) : jsstring :=
  if includes url (lit "www.reddit.com")
  then replaceFirst url (lit "www.reddit.com") (lit "old.reddit.com")
  else if includes url (lit "reddit.com")
          && negb (includes url (lit "old.reddit.com"))
  then replaceFirst url (lit "reddit.com") (lit "old.reddit.com")
  else url.

Definition allOriginsUrl (encoded : jsstring) : jsstring :=
  lit "https://api.allorigins.win/raw?url=" ++ encoded.

Definition archiveUrl (normalizedUrl : jsstring) : jsstring :=
  lit "https://archive.is/latest/" ++ normalizedUrl.

Definition corsProxyUrl (encoded : jsstring) : jsstring :=
  lit "https://corsproxy.io/?" ++ encoded.

(** The requests of the four attempts, in the order of the source. *)
Definition plan (encoded normalizedUrl : jsstring)
  : list (Event FetchRequest) :=
  [Request (mkFetch AllOrigins (allOriginsUrl encoded));
   Request (mkFetch ArchiveIs (archiveUrl normalizedUrl));
   Request (mkFetch Direct normalizedUrl);
   Request (mkFetch CorsProxy (corsProxyUrl encoded))].

Definition missingUrl : RouteResponse :=
  JsonError (lit "Missing URL parameter") 400.
Definition notReddit : RouteResponse :=
  JsonError (lit "Only Reddit URLs are allowed") 400.
Definition allFailed : RouteResponse :=
  JsonError (lit "All proxy methods failed for Reddit URL") 502.
Definition routeFailed : RouteResponse :=
  JsonError (lit "Failed to fetch content from Reddit") 500.

(** [s.replace(/c/g, r)] for a one-character pattern. *)
Definition replaceAll (c : ascii) (r : jsstring) (s : jsstring) : jsstring :=
  flat_map (fun x => if Ascii.eqb x c then r else [x]) s.

(** Lines 302-310: the six replacements, one after the other. *)
Definition escapeHtml (text : jsstring) : jsstring :=
  replaceAll (ascii_of_nat 10) (lit "<br>")
    (replaceAll "'"%char (lit "&#039;")
      (replaceAll dquote (lit "&quot;")
        (replaceAll ">"%char (lit "&gt;")
          (replaceAll "<"%char (lit "&lt;")
            (replaceAll "&"%char (lit "&amp;") text))))).

(** What one character becomes. *)
Definition escapeChar (c : ascii) : jsstring :=
  if Ascii.eqb c "&"%char then lit "&amp;"
  else if Ascii.eqb c "<"%char then lit "&lt;"
  else if Ascii.eqb c ">"%char then lit "&gt;"
  else if Ascii.eqb c dquote then lit "&quot;"
  else if Ascii.eqb c "'"%char then lit "&#039;"
  else if Ascii.eqb c (ascii_of_nat 10) then lit "<br>"
  else [c].

(** Finds where a character occurs in a text that is written out. *)
Ltac occurrence_in H pre :=
  repeat (destruct pre as [|? pre]; cbn in H;
          [ try discriminate H; try (inversion H; subst; now split)
          | try discriminate H; injection H as ? H; subst ]).

Section WithHost.

(** [encodeURIComponent], which throws on a lone surrogate. *)
Variable encodeURIComponent : jsstring -> Result jsstring.

(** [fetch(url, { headers, ... })]: a response, or the exception of a failed
    request. *)
Variable oracle : Net.Oracle FetchRequest Links.ProxyResponse.

Local Abbreviation M := (Net.M FetchRequest).
Local Open Scope net_scope.

(** One attempt (lines 59-86, 92-119, 125-155 and 162-188, the same code
    four times): the page when the answer is ok and passes the check, [None]
    when the attempt falls through to what follows it. *)
Definition attempt (via : Strategy) (target : jsstring) : M (option jsstring) :=
  Net.tryCatch
    (response <- Net.request oracle (mkFetch via target) ;;
     if Links.ok response then
       html <- Net.lift (Links.bodyText response) ;;
       if acceptable html then Net.ret (Some html) else Net.ret None
     else Net.ret None)
    (fun _ => Net.ret None).

(** Lines 26-207; [url] is [request.nextUrl.searchParams.get('url')], [None]
    for [null]. *)
Definition GET (url : option jsstring) : M RouteResponse :=
  Net.tryCatch
    (if negb (truthy url) then Net.ret missingUrl
     else
       let url := orElse url [] in
       if negb (includes url (lit "reddit.com")) then Net.ret notReddit
       else
         let normalizedUrl := normalize url in
         encoded <- Net.lift (encodeURIComponent normalizedUrl) ;;
         first <- attempt AllOrigins (allOriginsUrl encoded) ;;
         match first with
         | Some html => Net.ret (Page html)
         | None =>
             second <- attempt ArchiveIs (archiveUrl normalizedUrl) ;;
             match second with
             | Some html => Net.ret (Page html)
             | None =>
                 third <- attempt Direct normalizedUrl ;;
                 match third with
                 | Some html => Net.ret (Page html)
                 | None =>
                     encoded <- Net.lift (encodeURIComponent normalizedUrl) ;;
                     fourth <- attempt CorsProxy (corsProxyUrl encoded) ;;
                     match fourth with
                     | Some html => Net.ret (Page html)
                     | None => Net.ret allFailed
                     end
                 end
             end
         end)
    (fun _ => Net.ret routeFailed).

End WithHost.

End Route.

(* ================================================================== *)
(** * Configuration: [mergeConfigs] and the getters of config.ts *)
(* ================================================================== *)

(** Line numbers in this part are those of src/prompts/webSearch.ts, whose
    second half (lines 138-326) is config.ts. *)

Module Config.

(** The values of a parsed configuration and of an update to it.  An object
    is the list of its own properties; an array is read as the object of its
    indices, which is how [mergeConfigs] treats it; a number is a whole
    number.  Keys are taken not to be names that [Object.prototype]
    defines. *)
#[warnings="-register-all"]
Inductive Value : Type :=
| Undefined
| Null
| Str (s : jsstring)
| Num (n : Z)
| Bool (b : bool)
| Obj (fields : list (jsstring * Value)).

(** [typeof v === 'object' && v !== null] *)
Definition isObject (v : Value) : bool :=
  match v with
  | Obj _ => true
  | _ => false
  end.

(** The operand of [||] and of [!]. *)
Definition truthyValue (v : Value) : bool :=
  match v with
  | Undefined | Null => false
  | Str s => negb (length s =? 0)
  | Num n => negb (n =? 0)%Z
  | Bool b => b
  | Obj _ => true
  end.

(** [fields[key]] for an own property. *)
Fixpoint lookup (fields : list (jsstring * Value)) (key : jsstring)
  : option Value :=
  match fields with
  | [] => None
  | (k, v) :: fields' => if str_eqb k key then Some v else lookup fields' key
  end.

(** [obj[key]]: [undefined] when there is no such property. *)
Definition get (fields : list (jsstring * Value)) (key : jsstring) : Value :=
  match lookup fields key with
  | Some v => v
  | None => Undefined
  end.

(** [result[key] = value]: the property is replaced where it is, or added. *)
Fixpoint setField (fields : list (jsstring * Value)) (key : jsstring)
         (value : Value) : list (jsstring * Value) :=
  match fields with
  | [] => [(key, value)]
  | (k, v) :: fields' =>
      if str_eqb k key then (k, value) :: fields'
      else (k, v) :: setField fields' key value
  end.

(** The own properties of a string: its characters under their indices. *)
Definition indexEntries (s : jsstring) : list (jsstring * Value) :=
  mapi (fun i c => (numToString (Z.of_nat i), Str [c])) s.

(** Lines 278-307.  The loop [for (const key in update)] runs over the own
    properties of [update]: the fields of an object, the characters of a
    string, nothing for a number or a boolean. *)
Fixpoint mergeConfigs (current update : Value) {struct update} : Value :=
  match update with
  | Undefined | Null => current
  | Obj updateFields =>
      match current with
      | Obj currentFields =>
          Obj ((fix loop (entries : list (jsstring * Value))
                    (result : list (jsstring * Value)) {struct entries} :=
                  match entries with
                  | [] => result
                  | (key, updateValue) :: entries' =>
                      loop entries'
                        (match updateValue with
                         | Obj _ =>
                             match get result key with
                             | Obj resultFields =>
                                 setField result key
                                   (mergeConfigs (Obj resultFields) updateValue)
                             | _ => setField result key updateValue
                             end
                         | Undefined => result
                         | _ => setField result key updateValue
                         end)
                  end) updateFields currentFields)
      | _ => update
      end
  | Str s =>
      match current with
      | Obj currentFields =>
          Obj (fold_left (fun result entry =>
                            setField result (fst entry) (snd entry))
                         (indexEntries s) currentFields)
      | _ => update
      end
  | Num _ | Bool _ =>
      match current with
      | Obj currentFields => Obj currentFields
      | _ => update
      end
  end.

(** One turn of the loop over the properties of an update that is an
    object. *)
Definition mergeField (result : list (jsstring * Value))
           (entry : jsstring * Value) : list (jsstring * Value) :=
  let '(key, updateValue) := entry in
  match updateValue with
  | Obj _ =>
      match get result key with
      | Obj resultFields =>
          setField result key (mergeConfigs (Obj resultFields) updateValue)
      | _ => setField result key updateValue
      end
  | Undefined => result
  | _ => setField result key updateValue
  end.

(** What one turn of the loop leaves under its key, [old] being what was
    there. *)
Definition mergedValue (old : option Value) (updateValue : Value)
  : option Value :=
  match updateValue with
  | Undefined => old
  | Obj updateFields =>
      match old with
      | Some (Obj oldFields) =>
          Some (mergeConfigs (Obj oldFields) (Obj updateFields))
      | _ => Some (Obj updateFields)
      end
  | _ => Some updateValue
  end.

(** An object as JavaScript has it: no key twice, at any depth. *)
Fixpoint wellFormed (v : Value) : Prop :=
  match v with
  | Obj fields =>
      NoDup (map fst fields)
      /\ (fix all (fs : list (jsstring * Value)) : Prop :=
            match fs with
            | [] => True
            | (_, x) :: fs' => wellFormed x /\ all fs'
            end) fields
  | _ => True
  end.

(** The own property [key] of a value, when it is an object that has it. *)
Definition own (v : Value) (key : jsstring) : option Value :=
  match v with
  | Obj fields => lookup fields key
  | _ => None
  end.

(** The value found by following [path] through nested objects. *)
Fixpoint getPath (v : Value) (path : list jsstring) : option Value :=
  match path with
  | [] => Some v
  | key :: path' =>
      match v with
      | Obj fields =>
          match lookup fields key with
          | Some x => getPath x path'
          | None => None
          end
      | _ => None
      end
  end.

(** The update that sets the one setting at [path]. *)
Fixpoint single (path : list jsstring) (leaf : Value) : Value :=
  match path with
  | [] => leaf
  | key :: path' => Obj [(key, single path' leaf)]
  end.

(** A string, a number, a boolean or [null]. *)
Definition isLeaf (v : Value) : bool :=
  match v with
  | Null | Str _ | Num _ | Bool _ => true
  | Undefined | Obj _ => false
  end.

(** [value.key] in an accessor: reading a property of [undefined] or [null]
    throws. *)
Definition prop (value : Value) (key : jsstring) : Result Value :=
  match value with
  | Undefined | Null =>
      Throw (Error (lit "Cannot read properties of undefined"))
  | Obj fields => Return (get fields key)
  | _ => Return Undefined
  end.

(** An accessor [config => config.a.b.c]. *)
Fixpoint access (value : Value) (path : list jsstring) : Result Value :=
  match path with
  | [] => Return value
  | key :: path' => rbind (prop value key) (fun v => access v path')
  end.

Section WithHost.

(** [process.env]. *)
Variable env : jsstring -> option jsstring.

(** The configuration file: [None] when it does not exist, otherwise what
    reading and parsing it gives. *)
Variable configFile : option (Result Value).

(** Lines 185-200. *)
Definition loadConfig : Value :=
  match configFile with
  | Some (Return config) => config
  | _ => Obj []
  end.

(** Lines 203-210. *)
Definition getConfigValue (path : list jsstring) (defaultValue : Value)
  : Value :=
  rcatch (rbind (access loadConfig path)
                (fun v => Return (if truthyValue v then v else defaultValue)))
         (fun _ => defaultValue).

(** [process.env.NAME || getConfigValue(accessor, defaultValue)], the shape
    of every getter (lines 212-262). *)
Definition getter (name : jsstring) (path : list jsstring)
           (defaultValue : Value) : Value :=
  if truthy (env name) then Str (orElse (env name) [])
  else getConfigValue path defaultValue.

Definition getSimilarityMeasure : Value :=
  getter (lit "SIMILARITY_MEASURE")
         [lit "GENERAL"; lit "SIMILARITY_MEASURE"] (Str (lit "cosine")).

Definition getKeepAlive : Value :=
  getter (lit "KEEP_ALIVE") [lit "GENERAL"; lit "KEEP_ALIVE"] (Str (lit "5m")).

Definition getGooglePseApiKey : Value :=
  getter (lit "GOOGLE_PSE_API_KEY")
         [lit "API_ENDPOINTS"; lit "GOOGLE_PSE"; lit "API_KEY"] (Str []).

Definition getGooglePseEngineId : Value :=
  getter (lit "GOOGLE_PSE_ID")
         [lit "API_ENDPOINTS"; lit "GOOGLE_PSE"; lit "ENGINE_ID"] (Str []).

End WithHost.

End Config.

(* ================================================================== *)
(** * Chat store: the in-memory [MockDb] *)
(* ================================================================== *)

(** The mock of the database (src/unnamed/part_002): two [Map]s and a
    counter.  A [Map] keeps its keys in the order they were first set, which
    [values()] shows, so it is a list of bindings here.  Rows and conditions
    carry the types of the columns they stand for: text for the ids of
    chats and for [chatId] and [messageId], a number for the [id] of a
    message. *)

Module MockDb.

(** ** [Map] *)

Section MapOps.
Context {V : Type}.

(** [map.get(key)] *)
Fixpoint get (m : list (jsstring * V)) (key : jsstring) : option V :=
  match m with
  | [] => None
  | (k, v) :: m' => if str_eqb k key then Some v else get m' key
  end.

(** [map.set(key, value)]: a key that is there keeps its place. *)
Fixpoint set (m : list (jsstring * V)) (key : jsstring) (value : V)
  : list (jsstring * V) :=
  match m with
  | [] => [(key, value)]
  | (k, v) :: m' =>
      if str_eqb k key then (k, value) :: m'
      else (k, v) :: set m' key value
  end.

(** [map.delete(key)] *)
Definition delete (m : list (jsstring * V)) (key : jsstring)
  : list (jsstring * V) :=
  filter (fun entry => negb (str_eqb (fst entry) key)) m.

(** [Array.from(map.values())] *)
Definition values (m : list (jsstring * V)) : list V := map snd m.

End MapOps.

(** ** Rows, conditions and tables *)

(** A condition as the mock reads it: [_type], the [name] of [_ref] and
    [_value], or the [conditions] of an [and]. *)
#[warnings="-register-all"]
Inductive Cond : Type :=
| Eq (column : jsstring) (value : jsstring)
| Gt (column : jsstring) (value : Z)
| And (conditions : list Cond)
| OtherCond.

Inductive Table : Type := chatsTable | messagesTable | otherTable.

Section WithPayload.

(** The columns of a row that the mock does not look at. *)
Variable Payload : Type.

Record ChatRow := mkChat {
  chat_id : jsstring;
  chat_data : Payload
}.

(** A message as given to [insert]. *)
Record MessageRow := mkMessage {
  chatId : jsstring;
  messageId : jsstring;
  message_data : Payload
}.

(** A message as stored: [{ ...data, id }]. *)
Record StoredMessage := mkStored {
  row : MessageRow;
  id : Z
}.

Record Db := mkDb {
  chats : list (jsstring * ChatRow);
  messages : list (jsstring * list StoredMessage);
  messageIdCounter : Z
}.

(** [new MockDb()] *)
Definition empty : Db := mkDb [] [] 1.

(** [this.messages.get(key) || []] *)
Definition messagesOf (db : Db) (key : jsstring) : list StoredMessage :=
  match get (messages db) key with
  | Some messagesArray => messagesArray
  | None => []
  end.

(** Every stored message, chat by chat. *)
Definition allMessages (db : Db) : list StoredMessage :=
  concat (values (messages db)).

(** ** Queries *)

(** [query.chats.findMany()] *)
Definition findManyChats (db : Db) : list ChatRow := values (chats db).

(** [query.chats.findFirst({ where })]; [None] is [null]. *)
Definition findFirstChat (condition : option Cond) (db : Db) : option ChatRow :=
  match condition with
  | Some (Eq column value) =>
      if str_eqb column (lit "id") then get (chats db) value else None
  | _ => None
  end.

(** [query.messages.findMany({ where })] *)
Definition findManyMessages (condition : option Cond) (db : Db)
  : list StoredMessage :=
  match condition with
  | Some (Eq column value) =>
      if str_eqb column (lit "chatId") then messagesOf db value
      else allMessages db
  | _ => allMessages db
  end.

(** [query.messages.findFirst({ where })] *)
Definition findFirstMessage (condition : option Cond) (db : Db)
  : option StoredMessage :=
  match condition with
  | Some (Eq column value) =>
      if str_eqb column (lit "messageId")
      then find (fun m => str_eqb (messageId (row m)) value) (allMessages db)
      else None
  | _ => None
  end.

(** ** Updates *)

(** [insert(schema.chats).values(data).execute()] *)
Definition insertChat (data : ChatRow) (db : Db) : Db :=
  mkDb (set (chats db) (chat_id data) data)
       (set (messages db) (chat_id data) [])
       (messageIdCounter db).

(** [insert(schema.messages).values(data).execute()] *)
Definition insertMessage (data : MessageRow) (db : Db) : Db :=
  let messagesArray := messagesOf db (chatId data) in
  let newMessage := mkStored data (messageIdCounter db) in
  mkDb (chats db)
       (set (messages db) (chatId data) (messagesArray ++ [newMessage]))
       (messageIdCounter db + 1).

(** [delete(table).where(condition).execute()] *)
Definition deleteWhere (table : Table) (condition : Cond) (db : Db) : Db :=
  match condition with
  | Eq field value =>
      match table with
      | chatsTable =>
          if str_eqb field (lit "id")
          then mkDb (delete (chats db) value) (delete (messages db) value)
                    (messageIdCounter db)
          else db
      | messagesTable =>
          if str_eqb field (lit "chatId")
          then mkDb (chats db) (delete (messages db) value)
                    (messageIdCounter db)
          else db
      | otherTable => db
      end
  | And (Gt gtColumn gtValue :: Eq eqColumn eqValue :: _) =>
      (* [messageId] and [chatId] are [null] when the column is another *)
      if str_eqb gtColumn (lit "id") && negb (gtValue =? 0)%Z
         && (str_eqb eqColumn (lit "chatId") && negb (length eqValue =? 0))
      then
        mkDb (chats db)
             (set (messages db) eqValue
                  (filter (fun m => (id m <=? gtValue)%Z)
                          (messagesOf db eqValue)))
             (messageIdCounter db)
      else db
  | _ => db
  end.

(** A change of the store, and a run of changes from the first on. *)
Inductive Op : Type :=
| InsertChat (data : ChatRow)
| InsertMessage (data : MessageRow)
| Delete (table : Table) (condition : Cond).

Definition exec (db : Db) (op : Op) : Db :=
  match op with
  | InsertChat data => insertChat data db
  | InsertMessage data => insertMessage data db
  | Delete table condition => deleteWhere table condition db
  end.

Definition run (ops : list Op) (db : Db) : Db := fold_left exec ops db.

(** The stored messages have ids of their own, all given out already, and
    each lies under the chat it names. *)
Definition consistent (db : Db) : Prop :=
  (1 <= messageIdCounter db)%Z
  /\ NoDup (map id (allMessages db))
  /\ Forall (fun m => (1 <= id m < messageIdCounter db)%Z) (allMessages db)
  /\ forall key messagesArray m,
       In (key, messagesArray) (messages db) -> In m messagesArray ->
       chatId (row m) = key.

End WithPayload.

End MockDb.

(* ================================================================== *)
(** * The retriever of the meta search agent *)
(* ================================================================== *)

(** [createSearchRetrieverChain] (documents.ts, lines 595-1110): what its
    last step does with the links and the question parsed from the answer of
    the query generator. *)

(** The requests among the events of a trace. *)
Definition isRequest {Req} (ev : Event Req) : bool :=
  match ev with
  | Request _ => true
  | Sleep _ => false
  end.

Definition requestCount {Req} (t : list (Event Req)) : nat :=
  length (filter isRequest t).

Module Agent.

(** ** Groups of link documents: lines 629-659 *)

(** An element of [docGroups]: a document whose metadata has [totalDocs]. *)
Record Group := mkGroup {
  group_pageContent : jsstring;
  group_metadata : Metadata;
  totalDocs : Z
}.

(** [a === b] on a string that may be [undefined]. *)
Definition sameUrl (a b : option jsstring) : bool :=
  match a, b with
  | Some x, Some y => str_eqb x y
  | None, None => true
  | _, _ => false
  end.

(** The test of [find] and [findIndex]: the group of the URL of [doc] that
    still takes documents. *)
Definition takes (doc : Document) (d : Group) : bool :=
  sameUrl (meta_url (group_metadata d)) (meta_url (metadata doc))
  && (totalDocs d <? 10)%Z.

(** [l[l.findIndex(p)] = f(l[l.findIndex(p)])], nothing when the index is
    [-1]. *)
Fixpoint updateFirst {A} (p : A -> bool) (f : A -> A) (l : list A) : list A :=
  match l with
  | [] => []
  | x :: l' => if p x then f x :: l' else x :: updateFirst p f l'
  end.

(** The callback of [linkDocs.map]. *)
Definition addDoc (docGroups : list Group) (doc : Document) : list Group :=
  let docGroups :=
    if existsb (takes doc) docGroups then docGroups
    else docGroups ++ [mkGroup (pageContent doc) (metadata doc) 1] in
  updateFirst (takes doc)
              (fun d => mkGroup (group_pageContent d ++ nl ++ nl
                                 ++ pageContent doc)
                                (group_metadata d) (totalDocs d + 1))
              docGroups.

Definition groupDocs (linkDocs : list Document) : list Group :=
  fold_left addDoc linkDocs [].

(** The group that a document opens: pushed with [totalDocs] at 1, it is
    at once the group its own text is appended to. *)
Definition opened (doc : Document) : Group :=
  mkGroup (pageContent doc ++ nl ++ nl ++ pageContent doc) (metadata doc) 2.

(** The documents a group holds: [totalDocs] counts one more. *)
Definition held (d : Group) : Z := (totalDocs d - 1)%Z.

(** ** The world of the retriever *)

(** What the summarizing prompt of lines 663-716 is filled with. *)
Record Prompt := mkPrompt {
  prompt_query : jsstring;
  prompt_text : jsstring
}.

(** The traces of the four services the retriever talks to: the search API,
    the site as the scorer reads it, the proxy route and the chat model.
    The retriever uses them one after the other, and each service answers
    by its own history. *)
Record World := mkWorld {
  searched : list (Event Search.Url);
  scored : list (Event jsstring);
  fetched : list (Event Links.ProxyRequest);
  asked : list (Event Prompt)
}.

Definition W (A : Type) := World -> Result A * World.

Definition ret {A} (a : A) : W A := fun w => (Return a, w).

Definition bind {A B} (m : W A) (f : A -> W B) : W B :=
  fun w => match m w with
           | (Return a, w') => f a w'
           | (Throw e, w') => (Throw e, w')
           end.

Definition onSearch {A} (m : Net.M Search.Url A) : W A :=
  fun w => let '(r, t) := m (searched w) in
           (r, mkWorld t (scored w) (fetched w) (asked w)).

Definition onSite {A} (m : Net.M jsstring A) : W A :=
  fun w => let '(r, t) := m (scored w) in
           (r, mkWorld (searched w) t (fetched w) (asked w)).

Definition onProxy {A} (m : Net.M Links.ProxyRequest A) : W A :=
  fun w => let '(r, t) := m (fetched w) in
           (r, mkWorld (searched w) (scored w) t (asked w)).

Definition onModel {A} (m : Net.M Prompt A) : W A :=
  fun w => let '(r, t) := m (asked w) in
           (r, mkWorld (searched w) (scored w) (fetched w) t).

(** What the step returns. *)
Record Retrieved := mkRetrieved {
  query : jsstring;
  docs : list Document
}.

(** The pattern removed from the question (line 738), with the [g] flag. *)
Definition thinkRegex : re :=
  seqs [Lit (lit "<think>"); StarL dot; Lit (lit "</think>")].

(** [s.replace(r, '')] with the [g] flag, for a pattern that starts with a
    literal: every leftmost match goes, the search resuming where the match
    ended.  [skip] counts the characters of the last match still to pass. *)
Fixpoint removeMatchesFrom (r : re) (s : jsstring) (skip : nat) : jsstring :=
  match s with
  | [] => []
  | c :: s' =>
      match skip with
      | S k => removeMatchesFrom r s' k
      | O =>
          match matchHere r s with
          | Some (m, _) => removeMatchesFrom r s' (length (whole m) - 1)
          | None => c :: removeMatchesFrom r s' 0
          end
      end
  end.

Definition removeMatches (r : re) (s : jsstring) : jsstring :=
  removeMatchesFrom r s 0.

(** What a summary keeps of the metadata of its group: lines 721-727. *)
Definition summaryMetadata (doc : Group) : Metadata :=
  mkMeta (meta_title (group_metadata doc)) (meta_url (group_metadata doc))
         None false.

(** The question of link mode: lines 622-624. *)
Definition linkQuestion (question : jsstring) : jsstring :=
  if length question =? 0 then lit "summarize" else question.

(** Lines 750-752. *)
Definition isRedditResult (result : Search.SearchResult) : bool :=
  includes (Search.url result) (lit "reddit.com").

(** Lines 1056-1058. *)
Definition isSuccessful (doc : Document) : bool :=
  (0 <? length (pageContent doc)) && (100 <? length (pageContent doc)).

Section WithHost.

(** The search API and its configuration. *)
Variable apiKey : option jsstring.
Variable searchEngineId : option jsstring.
Variable searchOracle : Net.Oracle Search.Url Search.ResponseData.

(** The numbers of the combined score, and the sign of [a - b] as [sort]
    reads it. *)
Variable num : Type.
Variable ofZ : Z -> num.
Variable add mul : num -> num -> num.
Variable log10 : num -> num.
Variable subSign : num -> num -> Z.
Variable siteOracle : Net.Oracle jsstring jsstring.

(** The host of link mode. *)
Variable env : Links.Env.
Variable htmlToText : jsstring -> Result jsstring.
Variable proxyOracle : Net.Oracle Links.ProxyRequest Links.ProxyResponse.
Variable proxySettledAt : list (Event Links.ProxyRequest) -> Z.

(** [llm.invoke(prompt)], read through [res.content], and when the worker
    that asked after a given trace settles. *)
Variable modelOracle : Net.Oracle Prompt jsstring.
Variable modelSettledAt : list (Event Prompt) -> Z.

(** [this.config.activeEngines] *)
Variable activeEngines : list jsstring.

Local Notation "x <- c ;; k" := (bind c (fun x => k))
  (at level 100, c at next level, right associativity).

(** Lines 661-731: the summary of one group. *)
Definition summarize (question : jsstring) (doc : Group) : Net.M Prompt Document :=
  Net.bind (Net.request modelOracle
                        (mkPrompt question (group_pageContent doc)))
           (fun content => Net.ret (mkDoc content (summaryMetadata doc))).

(** Lines 621-736: the links of the question are read and summarized, the
    summaries being pushed to [docs] as the answers of the model arrive. *)
Definition linkMode (links : list jsstring) (question : jsstring) : W Retrieved :=
  let question := linkQuestion question in
  linkDocs <- onProxy (Links.getDocumentsFromLinks env htmlToText proxyOracle
                                                   proxySettledAt links) ;;
  let docGroups := groupDocs linkDocs in
  docs <- onModel (Net.pushAll modelSettledAt
                     (fun doc => Net.bind (summarize question doc)
                                          (fun document => Net.ret [document]))
                     docGroups) ;;
  ret (mkRetrieved question docs).

(** Lines 1064-1078 and 1088-1101: the document of a search result. *)
Definition snippetDocument (result : Search.SearchResult) : Document :=
  mkDoc (if truthy (Search.content result)
         then orElse (Search.content result) []
         else if existsb (fun engine => str_eqb engine (lit "youtube"))
                         activeEngines
         then Search.title result else [])
        (mkMeta (Some (Search.title result)) (Some (Search.url result))
                None false).

(** [(a, b) => b.score - a.score] *)
Definition byScoreDesc (a b : Scorer.ScoreResult num) : Z :=
  subSign (Scorer.res_score b) (Scorer.res_score a).

(** Lines 738-1107: the web is searched, the discussions found are scored
    and the best of them are read. *)
Definition searchMode (question : jsstring) : W Retrieved :=
  let question := removeMatches thinkRegex question in
  res <- onSearch (Search.searchGoogle
                     apiKey searchEngineId searchOracle question
                     (Some (Search.mkOptions (Some (lit "en"))
                                             (Some activeEngines) None
                                             (Some 20%Z)))) ;;
  let redditResults := filter isRedditResult (Search.results res) in
  let initialRedditUrls := map Search.url (slice redditResults 0 20) in
  if 0 <? length initialRedditUrls then
    allScoreResults <- onSite (Scorer.scoreAll ofZ add mul log10 siteOracle
                                               initialRedditUrls) ;;
    let sortedResults := sort byScoreDesc allScoreResults in
    let topRedditUrls :=
      map (@Scorer.res_url num) (slice sortedResults 0 10) in
    if 0 <? length topRedditUrls then
      documents <- onProxy (Links.getDocumentsFromLinks
                              env htmlToText proxyOracle proxySettledAt
                              topRedditUrls) ;;
      let successfulDocuments := filter isSuccessful documents in
      if length successfulDocuments <? 2 then
        let snippetDocuments := map snippetDocument redditResults in
        ret (mkRetrieved question (successfulDocuments ++ snippetDocuments))
      else ret (mkRetrieved question documents)
    else
      ret (mkRetrieved question (map snippetDocument (Search.results res)))
  else ret (mkRetrieved question []).

(** Lines 607-1108: the step itself.  [links] and [question] are what the
    two output parsers read from the answer of the query generator. *)
Definition retrieve (links : list jsstring) (question : jsstring) : W Retrieved :=
  if str_eqb question (lit "not_needed") then ret (mkRetrieved [] [])
  else if 0 <? length links then linkMode links question
  else searchMode question.

End WithHost.

End Agent.

(* ================================================================== *)
(** * Sample hosts and inputs *)
(* ================================================================== *)

(** Concrete collaborators and inputs on which the properties below are
    exercised. *)

Module Samples.

(** Lower case in the ASCII range. *)
Definition lowerAscii (c : ascii) : ascii :=
  let n := nat_of_ascii c in
  if (65 <=? n) && (n <=? 90) then ascii_of_nat (n + 32) else c.

Definition toLower (s : jsstring) : jsstring := map lowerAscii s.

(** An embedder that answers the length of the text, and a similarity in
    hundredths that is 0.90 whenever both vectors are there; the threshold
    is then 30 for 0.3. *)
Definition embedLength (s : jsstring) : Result Z :=
  Return (Z.of_nat (length s)).

Definition embedLengths (l : list jsstring) : Result (list Z) :=
  Return (map (fun s => Z.of_nat (length s)) l).

Definition similarity90 (q : Z) (d : option Z) : Result Z :=
  match d with
  | Some _ => Return 90%Z
  | None => Throw (Error (lit "no embedding"))
  end.

Definition noFile (file : jsstring) : Result (Reranker.FileContent) :=
  Throw (Error (lit "ENOENT")).

Definition noEmbeddings (file : jsstring) : Result (list Z) :=
  Throw (Error (lit "ENOENT")).

Definition rerankingOn : Reranker.Config Z := Reranker.mkConfig true None.

(** [rerankDocs] with these collaborators. *)
Definition rerankSample :=
  Reranker.rerankDocs Z.gtb Z.sub 30%Z similarity90 embedLength embedLengths
                      noFile noEmbeddings toLower rerankingOn.

Definition webDoc (content : String.string) : Document :=
  mkDoc (lit content)
        (mkMeta (Some (lit "A page")) (Some (lit "https://example.com/a"))
                None false).

(** A discussion document whose post section alone is longer than the cap
    of 6000 characters. *)
Definition longPost : Document :=
  mkDoc (lit "# A thread" ++ nl ++ nl ++ lit "## Original Post" ++ nl ++ nl
         ++ repeat "a"%char (Z.to_nat 7000) ++ nl ++ nl ++ lit "## Comments" ++ nl ++ nl
         ++ lit "**bob (3 points)**:" ++ nl ++ lit "a reply")
        (mkMeta (Some (lit "A thread"))
                (Some (lit "https://old.reddit.com/r/x/comments/1/a_thread/"))
                (Some 1%Z) true).

(** A search API that is down, and one that is configured. *)
Definition searchDown : Net.Oracle Search.Url Search.ResponseData :=
  fun _ _ => Throw (mkError (lit "Network Error") None).

Definition searchKey : option jsstring := Some (lit "key-1").
Definition searchEngine : option jsstring := Some (lit "engine-1").

(** The numbers of the combined score read as real numbers. *)
Definition log10R (x : R) : R := (ln x / ln 10)%R.

(** A thread page with two scored comments and a post score. *)
Definition threadPage : jsstring :=
  litq "<html><title>Best kb : r/keyboards</title><div class='score unvoted' title='1,200'>1,200</div><div class=' thing id-t1_abc noncollapsed comment '><p class='tagline'><span class='score unvoted' title='7'>7 points</span></p></div><div class='child'></div><div class=' thing id-t1_abd noncollapsed comment '><p class='tagline'><span class='score unvoted' title='42'>42 points</span></p></div><div class='child'></div></html>".

Definition threadUrl : jsstring :=
  lit "https://www.reddit.com/r/keyboards/comments/1/best_kb/".

(** A host that answers every request with that page, and one that answers
    every request with the status 429. *)
Definition alwaysPage : Net.Oracle jsstring jsstring :=
  fun _ _ => Return threadPage.

Definition always429 : Net.Oracle jsstring jsstring :=
  fun _ _ => Throw (mkError (lit "Request failed with status code 429")
                            (Some 429%Z)).

(** A production host, a converter of markup that keeps the text as it is,
    and a proxy that is down. *)
Definition production : Links.Env :=
  Links.mkEnv (Some (lit "1")) None (Some (lit "https://app.example.com")) None.

Definition keepText (html : jsstring) : Result jsstring := Return html.

Definition proxyDown : Net.Oracle Links.ProxyRequest Links.ProxyResponse :=
  fun _ _ => Throw (mkError (lit "fetch failed") None).

(** A network on which the fetches of a batch end in the order they
    started, and one on which the worker that started last ends first. *)
Definition inOrder {Req} (t : list (Event Req)) : Z := 0%Z.

Definition lastFirst {Req} (t : list (Event Req)) : Z := (- Z.of_nat (length t))%Z.

(** A discussion page in the markup of the old site: a post and three
    comments, with 9 points, 25 points and 9 points. *)
Definition commentBlock (id classes author points body : String.string)
  : jsstring :=
  litq "<div class=' thing id-t1_" ++ lit id ++ lit " " ++ lit classes
  ++ litq " comment ' id='thing_t1_" ++ lit id
  ++ litq "'><p class='tagline'><a href='https://old.reddit.com/user/"
  ++ lit author ++ litq "' class='author may-blank'>" ++ lit author
  ++ litq "</a><span class='score unvoted' title='" ++ lit points ++ litq "'>"
  ++ lit points
  ++ litq " points</span></p><form><div class='usertext-body may-blank-within md-container '><div class='md'>"
  ++ lit body ++ litq "</div></div></form></div><div class='child'>".

Definition discussionPage : jsstring :=
  litq "<html><title>Best kb : r/keyboards</title><div class='usertext-body may-blank-within md-container '><div class='md'>Which one?</div> </div>"
  ++ commentBlock "c1" "noncollapsed" "bob" "9" "Get the red one"
  ++ commentBlock "c2" "collapsed" "al" "25" "Blue, always"
  ++ commentBlock "c3" "noncollapsed" "cy" "9" "Green"
  ++ lit "</html>".

(** A page whose two comments have scores next to each other beyond
    2^53. *)
Definition hugeScores : jsstring :=
  litq "<html><title>Big : r/numbers</title>"
  ++ commentBlock "c1" "noncollapsed" "bob" "9007199254740992" "First"
  ++ commentBlock "c2" "noncollapsed" "al" "9007199254740993" "Second"
  ++ lit "</html>".

(** A proxy that answers every request with the discussion page. *)
Definition proxyPage : Net.Oracle Links.ProxyRequest Links.ProxyResponse :=
  fun _ _ =>
    Return (Links.mkProxyResponse true 200 (lit "OK") (Return discussionPage)).

(** A search API that answers two items, whatever the request. *)
Definition searchTwoItems : Net.Oracle Search.Url Search.ResponseData :=
  fun _ _ =>
    Return (Search.mkResponse
              (Some [Search.mkItem (lit "Best kb")
                                   (lit "https://www.reddit.com/r/keyboards/comments/1/best_kb/")
                                   (Some (lit "Which one?")) None None;
                     Search.mkItem (lit "Keyboards")
                                   (lit "https://example.com/keyboards")
                                   None None None])
              None false).

End Samples.

(* ================================================================== *)
(** * Sample hosts and inputs for the route, the configuration, the chat
      store and the retriever *)
(* ================================================================== *)

Module MoreSamples.

(** An encoder that leaves a text as it is, as [encodeURIComponent] does
    with letters and digits. *)
Definition encodePlain (s : jsstring) : Result jsstring := Return s.

(** A page of 5001 letters. *)
Definition plainPage : jsstring := repeat "a"%char (Z.to_nat 5001).

(** A network on which archive.is alone answers, with that page. *)
Definition archiveOnly : Net.Oracle Route.FetchRequest Links.ProxyResponse :=
  fun _ r =>
    match Route.via r with
    | Route.ArchiveIs =>
        Return (Links.mkProxyResponse true 200 (lit "OK") (Return plainPage))
    | _ => Throw (Error (lit "fetch failed"))
    end.

(** A network on which every service answers with that page, and one on
    which none answers. *)
Definition everyService : Net.Oracle Route.FetchRequest Links.ProxyResponse :=
  fun _ _ => Return (Links.mkProxyResponse true 200 (lit "OK") (Return plainPage)).

Definition noService : Net.Oracle Route.FetchRequest Links.ProxyResponse :=
  fun _ _ => Throw (Error (lit "fetch failed")).

Definition wwwThread : jsstring :=
  lit "https://www.reddit.com/r/keyboards/comments/1/best_kb/".

(** A configuration as parsed from the file, and an update to it. *)
Definition configOnDisk : list (jsstring * Config.Value) :=
  [(lit "GENERAL",
    Config.Obj [(lit "SIMILARITY_MEASURE", Config.Str (lit "cosine"));
                (lit "KEEP_ALIVE", Config.Str (lit "5m"))]);
   (lit "API_ENDPOINTS",
    Config.Obj [(lit "SEARXNG", Config.Str (lit "http://localhost:32768"))])].

Definition configUpdate : list (jsstring * Config.Value) :=
  [(lit "GENERAL", Config.Obj [(lit "KEEP_ALIVE", Config.Str (lit "10m"))]);
   (lit "API_ENDPOINTS",
    Config.Obj [(lit "GOOGLE_PSE",
                 Config.Obj [(lit "API_KEY", Config.Str (lit "key-1"))])])].

(** An environment with no variable set. *)
Definition noEnv (name : jsstring) : option jsstring := None.

(** A retriever: the search API answers two items, one of them a thread;
    the site and the proxy answer the sample pages; scores are whole
    numbers, with a whole number near the logarithm; the chat model answers
    every prompt alike. *)
Definition roughLog10 (z : Z) : Z := (Z.log2 z / 3)%Z.

Definition modelAnswers : Net.Oracle Agent.Prompt jsstring :=
  fun _ _ => Return (lit "A summary.").

Definition searchModeSample :=
  Agent.searchMode Samples.searchKey Samples.searchEngine
                   Samples.searchTwoItems (fun z : Z => z) Z.add Z.mul
                   roughLog10 Z.sub Samples.alwaysPage Samples.production
                   Samples.keepText Samples.proxyPage Samples.inOrder
                   [lit "google"].

Definition linkModeSample :=
  Agent.linkMode Samples.production Samples.keepText Samples.proxyPage
                 Samples.inOrder modelAnswers Samples.inOrder.

Definition thinkingQuestion : jsstring :=
  lit "<think>the user wants keyboards</think>best budget keyboard".

Definition startWorld : Agent.World := Agent.mkWorld [] [] [] [].

(** What the search answers to that question, and the request it makes. *)
Definition searchAnswer : Search.Output :=
  Search.mkOutput
    [Search.mkResult (lit "Best kb")
                     (lit "https://www.reddit.com/r/keyboards/comments/1/best_kb/")
                     (Some (lit "Which one?")) None None;
     Search.mkResult (lit "Keyboards") (lit "https://example.com/keyboards")
                     None None None]
    [].

Definition searchRequest : list (Event Search.Url) :=
  [Request
     (Search.buildUrl Samples.searchKey Samples.searchEngine
        (lit "Reddit best budget keyboard")
        (Some (Search.mkOptions (Some (lit "en")) (Some [lit "google"]) None
                                (Some 20%Z))))].

(** The scores of the one thread that search finds, and the documents link
    mode reads for it. *)
Definition threadScores : list (Scorer.ScoreResult Z) :=
  match fst (Scorer.scoreAll (fun z : Z => z) Z.add Z.mul roughLog10
                             Samples.alwaysPage [Samples.threadUrl] []) with
  | Return allScoreResults => allScoreResults
  | Throw _ => []
  end.

Definition threadDocuments : list Document :=
  match fst (Links.getDocumentsFromLinks
               Samples.production Samples.keepText Samples.proxyPage
               Samples.inOrder [Samples.threadUrl] []) with
  | Return documents => documents
  | Throw _ => []
  end.

(** Link documents of three different threads. *)
Definition threeThreads : list Document :=
  [mkDoc (lit "first thread")
         (mkMeta (Some (lit "One")) (Some (lit "https://old.reddit.com/r/a/comments/1/"))
                 (Some 3%Z) true);
   mkDoc (lit "second thread")
         (mkMeta (Some (lit "Two")) (Some (lit "https://old.reddit.com/r/a/comments/2/"))
                 (Some 0%Z) true);
   mkDoc (lit "a page")
         (mkMeta (Some (lit "Non-Reddit URL")) (Some (lit "https://example.com/a"))
                 None false)].

End MoreSamples.

(* ================================================================== *)
(** * Properties of arrays and strings *)
(* ================================================================== *)

Lemma slice_prefix A (l : list A) (n : Z) :
  (0 <= n)%Z -> slice l 0 n = firstn (Z.to_nat n) l.
Proof.
  intros Hn. unfold slice, sliceIndex.
  replace (0 <? 0)%Z with false by reflexivity.
  destruct (n <? 0)%Z eqn:E; [apply Z.ltb_lt in E; lia|].
  replace (Z.to_nat (Z.min 0 (Z.of_nat (length l)))) with 0 by lia.
  simpl skipn.
  destruct (Z.le_gt_cases n (Z.of_nat (length l))) as [H|H].
  - f_equal. lia.
  - rewrite !firstn_all2; try reflexivity; lia.
Qed.

Lemma slice_window A (l : list A) (i k : Z) :
  (0 <= i <= Z.of_nat (length l))%Z -> (0 <= k)%Z ->
  slice l i (i + k) = firstn (Z.to_nat k) (skipn (Z.to_nat i) l).
Proof.
  intros Hi Hk. unfold slice, sliceIndex.
  destruct (i <? 0)%Z eqn:E; [apply Z.ltb_lt in E; lia|].
  destruct (i + k <? 0)%Z eqn:E'; [apply Z.ltb_lt in E'; lia|].
  replace (Z.to_nat (Z.min i (Z.of_nat (length l)))) with (Z.to_nat i) by lia.
  destruct (Z.le_gt_cases (i + k) (Z.of_nat (length l))) as [H|H].
  - f_equal. lia.
  - rewrite !firstn_all2; try reflexivity; rewrite length_skipn; lia.
Qed.

Lemma length_slice_le A (l : list A) (a b : Z) :
  length (slice l a b) <= length l.
Proof.
  unfold slice. rewrite length_firstn, length_skipn. lia.
Qed.

Lemma length_substring (s : jsstring) (a b : Z) :
  Z.of_nat (length (substring s a b))
  = (Z.max (clamp (Z.of_nat (length s)) a) (clamp (Z.of_nat (length s)) b)
     - Z.min (clamp (Z.of_nat (length s)) a) (clamp (Z.of_nat (length s)) b))%Z.
Proof.
  unfold substring, clamp. rewrite length_firstn, length_skipn. lia.
Qed.

Lemma length_substring_prefix (s : jsstring) (n : Z) :
  (Z.of_nat (length (substring s 0 n)) <= Z.max n 0)%Z.
Proof. rewrite length_substring. unfold clamp. lia. Qed.

Lemma length_substringFrom (s : jsstring) (a : Z) :
  (0 <= a <= Z.of_nat (length s))%Z ->
  Z.of_nat (length (substringFrom s a)) = (Z.of_nat (length s) - a)%Z.
Proof.
  intros H. unfold substringFrom. rewrite length_substring. unfold clamp. lia.
Qed.

(** [substring] from the start is a prefix, and [substring] to the end a
    suffix. *)
Lemma substring_prefix (s : jsstring) (n : Z) :
  (0 <= n)%Z -> substring s 0 n = firstn (Z.to_nat n) s.
Proof.
  intros Hn. unfold substring, clamp.
  replace (Z.min (Z.min (Z.max 0 0) (Z.of_nat (length s)))
                 (Z.min (Z.max n 0) (Z.of_nat (length s)))) with 0%Z by lia.
  cbn [Z.to_nat skipn]. rewrite Z.sub_0_r.
  destruct (Z.le_gt_cases n (Z.of_nat (length s))) as [H|H].
  - f_equal. lia.
  - rewrite !firstn_all2; try reflexivity; lia.
Qed.

Lemma substringFrom_suffix (s : jsstring) (a : Z) :
  (0 <= a <= Z.of_nat (length s))%Z ->
  substringFrom s a = skipn (Z.to_nat a) s.
Proof.
  intros Ha. unfold substringFrom, substring, clamp.
  replace (Z.min (Z.min (Z.max a 0) (Z.of_nat (length s)))
                 (Z.min (Z.max (Z.of_nat (length s)) 0) (Z.of_nat (length s))))
    with a by lia.
  apply firstn_all2. rewrite length_skipn. lia.
Qed.

Lemma substring_between (s : jsstring) (a b : Z) :
  (0 <= a <= b)%Z ->
  substring s a b = firstn (Z.to_nat (b - a)) (skipn (Z.to_nat a) s).
Proof.
  intros H. unfold substring, clamp.
  destruct (Z.le_gt_cases b (Z.of_nat (length s))) as [Hb|Hb].
  - replace (Z.min (Z.min (Z.max a 0) (Z.of_nat (length s)))
                   (Z.min (Z.max b 0) (Z.of_nat (length s)))) with a by lia.
    f_equal. lia.
  - destruct (Z.le_gt_cases a (Z.of_nat (length s))) as [Ha|Ha].
    + replace (Z.min (Z.min (Z.max a 0) (Z.of_nat (length s)))
                     (Z.min (Z.max b 0) (Z.of_nat (length s)))) with a by lia.
      rewrite !firstn_all2; try reflexivity; rewrite length_skipn; lia.
    + rewrite !skipn_all2 by lia. now rewrite !firstn_nil.
Qed.

Lemma firstn_then (A : Type) (l : list A) (a b : nat) :
  a <= b -> firstn a l ++ firstn (b - a) (skipn a l) = firstn b l.
Proof.
  revert l b. induction a as [|a IH]; intros l b H.
  - cbn. now rewrite Nat.sub_0_r.
  - destruct b as [|b]; [lia|].
    destruct l as [|x l]; [now rewrite skipn_nil, !firstn_nil|].
    cbn [firstn skipn app Nat.sub]. f_equal. apply IH. lia.
Qed.

Lemma lastFrom_lower (s needle : jsstring) (i pos best : Z) :
  (-1 <= best)%Z -> (0 <= i)%Z -> (-1 <= lastFrom s needle i pos best)%Z.
Proof.
  revert i best. induction s as [|c s IH]; intros i best Hb Hi; simpl.
  - destruct (startsWith [] needle && (i <=? pos)%Z); lia.
  - apply IH; [|lia].
    destruct (startsWith (c :: s) needle && (i <=? pos)%Z); lia.
Qed.

Lemma lastIndexOf_lower (s needle : jsstring) (pos : Z) :
  (-1 <= lastIndexOf s needle pos)%Z.
Proof. unfold lastIndexOf. apply lastFrom_lower; lia. Qed.

Lemma lastFrom_bound (s needle : jsstring) (i pos best : Z) :
  (best <= pos)%Z -> (lastFrom s needle i pos best <= pos)%Z.
Proof.
  revert i best. induction s as [|c s IH]; intros i best Hb; simpl.
  - destruct (startsWith [] needle && (i <=? pos)%Z) eqn:E; [|exact Hb].
    apply andb_true_iff in E. destruct E as [_ E]. now apply Z.leb_le in E.
  - apply IH.
    destruct (startsWith (c :: s) needle && (i <=? pos)%Z) eqn:E; [|exact Hb].
    apply andb_true_iff in E. destruct E as [_ E]. now apply Z.leb_le in E.
Qed.

Lemma lastIndexOf_bound (s needle : jsstring) (pos : Z) :
  (lastIndexOf s needle pos <= Z.max pos 0)%Z.
Proof. unfold lastIndexOf. apply lastFrom_bound. lia. Qed.

Lemma indexOf_range (s needle : jsstring) :
  (-1 <= indexOf s needle <= Z.of_nat (length s))%Z.
Proof.
  induction s as [|c s IH]; simpl.
  - destruct (startsWith [] needle); lia.
  - destruct (startsWith (c :: s) needle); [lia|].
    destruct (indexOf s needle <? 0)%Z eqn:E; [lia|].
    apply Z.ltb_ge in E. lia.
Qed.

Lemma In_firstn A (n : nat) (l : list A) (x : A) :
  In x (firstn n l) -> In x l.
Proof.
  intros H. rewrite <- (firstn_skipn n l). apply in_or_app. now left.
Qed.

Lemma In_skipn A (n : nat) (l : list A) (x : A) :
  In x (skipn n l) -> In x l.
Proof.
  intros H. rewrite <- (firstn_skipn n l). apply in_or_app. now right.
Qed.

Lemma In_slice A (l : list A) (a b : Z) (x : A) :
  In x (slice l a b) -> In x l.
Proof.
  unfold slice. intros H. now apply In_firstn, In_skipn in H.
Qed.

Lemma In_mapiFrom A B (f : nat -> A -> B) (l : list A) (i : nat) (y : B) :
  In y (mapiFrom i f l) -> exists k x, In x l /\ y = f k x.
Proof.
  revert i. induction l as [|x l IH]; intros i H; simpl in H.
  - contradiction.
  - destruct H as [H|H].
    + exists i, x. split; [now left|now symmetry].
    + destruct (IH _ H) as (k & x' & Hin & Hy).
      exists k, x'. split; [now right|exact Hy].
Qed.

Lemma mapiFrom_nth A B (f : nat -> A -> B) (l : list A) (i : nat) (y : B) :
  In y (mapiFrom i f l) ->
  exists k x, nth_error l k = Some x /\ y = f (i + k) x.
Proof.
  revert i. induction l as [|x l IH]; intros i H; simpl in H.
  - contradiction.
  - destruct H as [H|H].
    + exists 0, x. split; [reflexivity|]. now rewrite Nat.add_0_r.
    + destruct (IH _ H) as (k & x' & Hin & Hy).
      exists (S k), x'. split; [exact Hin|].
      now rewrite Nat.add_succ_r.
Qed.

Lemma nth_error_Some_lt A (l : list A) (k : nat) (x : A) :
  nth_error l k = Some x -> k < length l.
Proof. intros H. apply nth_error_Some. congruence. Qed.

Lemma str_eqb_eq (a b : jsstring) : str_eqb a b = true <-> a = b.
Proof.
  revert b. induction a as [|x a IH]; intros [|y b]; simpl;
    try (split; [discriminate|discriminate]); try tauto.
  rewrite andb_true_iff, Ascii.eqb_eq, IH.
  split; [intros [-> ->]; reflexivity|intros H; inversion H; auto].
Qed.

Lemma str_eqb_refl (a : jsstring) : str_eqb a a = true.
Proof. now apply str_eqb_eq. Qed.

(* ================================================================== *)
(** * Properties of the matcher *)
(* ================================================================== *)

Lemma stripPrefix_spec (p s rest : jsstring) :
  stripPrefix p s = Some rest <-> s = p ++ rest.
Proof.
  revert s. induction p as [|x p IH]; intros s; simpl.
  - split; [intros H; now inversion H|intros ->; reflexivity].
  - destruct s as [|y s].
    + split; discriminate.
    + destruct (Ascii.eqb x y) eqn:E.
      * apply Ascii.eqb_eq in E. subst y. rewrite IH.
        split; [intros ->; reflexivity|intros H; now inversion H].
      * apply Ascii.eqb_neq in E.
        split; [discriminate|intros H; inversion H; congruence].
Qed.

Lemma firstn_consumed (l rest : jsstring) :
  firstn (length (l ++ rest) - length rest) (l ++ rest) = l.
Proof.
  rewrite length_app, Nat.add_sub.
  rewrite <- (Nat.add_0_r (length l)), firstn_app_2.
  now rewrite firstn_0, app_nil_r.
Qed.

Section MatcherSound.

Variable A : Type.

Lemma starG_sound (p : ascii -> bool) :
  forall (s : jsstring) (k : jsstring -> option A) (x : A),
    starG p s k = Some x ->
    exists l s', s = l ++ s' /\ forallb p l = true /\ k s' = Some x.
Proof.
  induction s as [|c s IH]; intros k x H; simpl in H.
  - exists [], []. auto.
  - destruct (p c) eqn:Ep.
    + destruct (starG p s k) as [y|] eqn:Es.
      * inversion H; subst y.
        destruct (IH k x Es) as (l & s' & -> & Hl & Hk).
        exists (c :: l), s'. simpl. rewrite Ep, Hl. auto.
      * exists [], (c :: s). auto.
    + exists [], (c :: s). auto.
Qed.

Lemma starL_sound (p : ascii -> bool) :
  forall (s : jsstring) (k : jsstring -> option A) (x : A),
    starL p s k = Some x ->
    exists l s', s = l ++ s' /\ forallb p l = true /\ k s' = Some x.
Proof.
  induction s as [|c s IH]; intros k x H; simpl in H.
  - destruct (k []) as [y|] eqn:Ek; [|discriminate].
    exists [], []. inversion H; subst. auto.
  - destruct (k (c :: s)) as [y|] eqn:Ek.
    + exists [], (c :: s). inversion H; subst. auto.
    + destruct (p c) eqn:Ep; [|discriminate].
      destruct (IH k x H) as (l & s' & -> & Hl & Hk).
      exists (c :: l), s'. simpl. rewrite Ep, Hl. auto.
Qed.

(** Whatever the matcher finds is a match in the declarative sense, and the
    continuation was given what is left of the input. *)
Lemma run_sound (r : re) :
  forall (s : jsstring) (caps : Caps) (k : jsstring -> Caps -> option A) (x : A),
    run r s caps k = Some x ->
    exists l s' caps',
      s = l ++ s' /\ Matches r l caps caps' /\ k s' caps' = Some x.
Proof.
  induction r as [lit0|p|r1 IH1 r2 IH2|p|p|r IH|n r IH|];
    intros s caps k x H; simpl in H.
  - destruct (stripPrefix lit0 s) as [s'|] eqn:E; [|discriminate].
    apply stripPrefix_spec in E. exists lit0, s', caps.
    split; [exact E|]. split; [constructor|exact H].
  - destruct s as [|c s]; [discriminate|].
    destruct (p c) eqn:Ep; [|discriminate].
    exists [c], s, caps. split; [reflexivity|]. split; [now constructor|exact H].
  - destruct (IH1 _ _ _ _ H) as (l1 & s1 & c1 & -> & Hm1 & H1).
    destruct (IH2 _ _ _ _ H1) as (l2 & s2 & c2 & -> & Hm2 & H2).
    exists (l1 ++ l2), s2, c2. rewrite app_assoc.
    split; [reflexivity|]. split; [econstructor; eassumption|exact H2].
  - destruct (starG_sound _ _ _ H) as (l & s' & -> & Hl & Hk).
    exists l, s', caps. split; [reflexivity|]. split; [now constructor|exact Hk].
  - destruct (starL_sound _ _ _ H) as (l & s' & -> & Hl & Hk).
    exists l, s', caps. split; [reflexivity|]. split; [now constructor|exact Hk].
  - destruct (run r s caps k) as [y|] eqn:E.
    + inversion H; subst y.
      destruct (IH _ _ _ _ E) as (l & s' & c' & -> & Hm & Hk).
      exists l, s', c'. split; [reflexivity|]. split; [now constructor|exact Hk].
    + exists [], s, caps. split; [reflexivity|].
      split; [apply M_OptNone|exact H].
  - destruct (IH _ _ _ _ H) as (l & s' & c' & -> & Hm & Hk).
    rewrite firstn_consumed in Hk.
    exists l, s', (setCap n l c'). split; [reflexivity|].
    split; [now constructor|exact Hk].
  - destruct s as [|c s]; [|discriminate].
    exists [], [], caps. split; [reflexivity|]. split; [constructor|exact H].
Qed.

End MatcherSound.

Lemma matchHere_sound (r : re) (s : jsstring) (m : Match) (rest : jsstring) :
  matchHere r s = Some (m, rest) ->
  s = whole m ++ rest /\ Matches r (whole m) noCaps (groups m).
Proof.
  unfold matchHere. intros H.
  apply run_sound in H. destruct H as (l & s' & c' & -> & Hm & Hk).
  rewrite firstn_consumed in Hk. inversion Hk; subst. simpl. auto.
Qed.

Lemma matchFirst_sound (r : re) (s : jsstring) (m : Match) :
  matchFirst r s = Some m -> Matches r (whole m) noCaps (groups m).
Proof.
  induction s as [|c s IH]; simpl.
  - destruct (matchHere r []) as [[m' rest]|] eqn:E; [|discriminate].
    intros H; inversion H; subst. now apply matchHere_sound in E.
  - destruct (matchHere r (c :: s)) as [[m' rest]|] eqn:E.
    + intros H; inversion H; subst. now apply matchHere_sound in E.
    + exact IH.
Qed.

(** A pattern that starts with a literal has no empty match: the scanning
    loops over comment blocks always move on. *)
Lemma literal_head_nonempty (c : ascii) (l : jsstring) (r : re)
      (w : jsstring) (caps caps' : Caps) :
  Matches (Seq (Lit (c :: l)) r) w caps caps' -> w <> [].
Proof.
  intros H. inversion H as [| |? ? ? ? ? ? ? H1 H2| | | | | |]; subst.
  inversion H1; subst. discriminate.
Qed.

Lemma comment_blocks_nonempty (s rest : jsstring) (m : Match) :
  matchHere Extractor.fullCommentRegex s = Some (m, rest)
  \/ matchHere Scorer.commentRegex s = Some (m, rest) ->
  whole m <> [].
Proof.
  intros [H|H]; apply matchHere_sound in H; destruct H as [_ H];
    exact (literal_head_nonempty H).
Qed.

(** ** Scores are runs of digits *)

Lemma isDigit_plain (c : ascii) :
  isDigit c = true ->
  isWhiteSpace c = false
  /\ Ascii.eqb c "-"%char = false /\ Ascii.eqb c "+"%char = false.
Proof.
  destruct c as [[] [] [] [] [] [] [] []]; cbv; intros H;
    try discriminate H; repeat split.
Qed.

Lemma takeWhile_all A (p : A -> bool) (l : list A) :
  forallb p l = true -> takeWhile p l = l.
Proof.
  induction l as [|x l IH]; simpl; [reflexivity|].
  intros H. apply andb_true_iff in H. destruct H as [Hx Hl].
  now rewrite Hx, IH.
Qed.

(** [parseInt] of a non-empty run of digits is a number: the double nearest
    to what the digits say. *)
Lemma parseInt_digits (c : ascii) (ds : jsstring) :
  isDigit c = true -> forallb isDigit ds = true ->
  parseInt (c :: ds) = Some (toDouble (digitsValue (c :: ds))).
Proof.
  intros Hc Hds. unfold parseInt.
  destruct (isDigit_plain c Hc) as (Hw & Hm & Hp).
  cbn [dropWhile]. rewrite Hw, Hm, Hp.
  rewrite takeWhile_all by (simpl; now rewrite Hc, Hds).
  now rewrite Z.mul_1_l.
Qed.

(** The first group of a match of the score pattern is such a run. *)
Lemma scoreRegex_group (s : jsstring) (m : Match) :
  matchFirst Extractor.scoreRegex s = Some m ->
  exists c ds,
    group m 1 = Some (c :: ds)
    /\ isDigit c = true /\ forallb isDigit ds = true.
Proof.
  intros H. apply matchFirst_sound in H. unfold group.
  remember (groups m) as final eqn:Ef. clear Ef.
  unfold Extractor.scoreRegex, seqs, PlusG in H. cbn [fold_right] in H.
  invert_matches;
    eexists; eexists; (split; [reflexivity|]); split; assumption.
Qed.

(* ================================================================== *)
(** * Properties of the numbers *)
(* ================================================================== *)

Lemma infinity_pos : (twoTo53 < infinity)%Z.
Proof. reflexivity. Qed.

(** Below [2^53] every natural number is a double. *)
Lemma roundNat_small (z : Z) : (z < twoTo53)%Z -> roundNat z = z.
Proof.
  intros H. unfold roundNat.
  now replace (z <? twoTo53)%Z with true by (symmetry; now apply Z.ltb_lt).
Qed.

Lemma roundNat_range (z : Z) : (0 <= z)%Z -> (0 <= roundNat z <= infinity)%Z.
Proof.
  intros Hz. unfold roundNat. pose proof infinity_pos as Hinf.
  unfold twoTo53 in *.
  destruct (Z.ltb_spec z 9007199254740992); [lia|].
  set (e := (Z.log2 z - 52)%Z).
  assert (He : (0 <= e)%Z).
  { unfold e. assert (53 <= Z.log2 z)%Z; [|lia].
    change 53%Z with (Z.log2 9007199254740992). now apply Z.log2_le_mono. }
  set (q := Z.shiftr z e).
  assert (Hq : (0 <= q)%Z) by (unfold q; apply Z.shiftr_nonneg; lia).
  match goal with |- context [Z.shiftl ?x e] => set (q' := x) end.
  assert (Hq' : (0 <= q')%Z) by (unfold q'; destruct (_ || _); lia).
  assert (0 <= Z.shiftl q' e)%Z by (apply Z.shiftl_nonneg; lia).
  lia.
Qed.

(** Rounding keeps a natural number that is not [0] away from [0]. *)
Lemma roundNat_pos (z : Z) : (0 < z)%Z -> (0 < roundNat z)%Z.
Proof.
  intros Hz. unfold roundNat. pose proof infinity_pos as Hinf.
  unfold twoTo53 in *.
  destruct (Z.ltb_spec z 9007199254740992); [lia|].
  set (e := (Z.log2 z - 52)%Z).
  assert (Hlog : (53 <= Z.log2 z)%Z).
  { change 53%Z with (Z.log2 9007199254740992). now apply Z.log2_le_mono. }
  assert (He : (0 <= e)%Z) by (unfold e; lia).
  set (q := Z.shiftr z e).
  assert (Hq : (0 < q)%Z).
  { unfold q. rewrite Z.shiftr_div_pow2 by exact He.
    apply Z.div_str_pos. split; [apply Z.pow_pos_nonneg; lia|].
    transitivity (2 ^ Z.log2 z)%Z.
    - apply Z.pow_le_mono_r; unfold e; lia.
    - apply Z.log2_spec. lia. }
  match goal with |- context [Z.shiftl ?x e] => set (q' := x) end.
  assert (Hq' : (0 < q')%Z) by (unfold q'; destruct (_ || _); lia).
  assert (0 < Z.shiftl q' e)%Z.
  { rewrite Z.shiftl_mul_pow2 by exact He.
    apply Z.mul_pos_pos; [exact Hq'|apply Z.pow_pos_nonneg; lia]. }
  lia.
Qed.

Lemma toDouble_range (z : Z) : (- infinity <= toDouble z <= infinity)%Z.
Proof.
  unfold toDouble. destruct (Z.ltb_spec z 0).
  - pose proof (@roundNat_range (- z)%Z ltac:(lia)). lia.
  - pose proof (@roundNat_range z ltac:(lia)). lia.
Qed.

(** Rounding keeps the sign. *)
Lemma toDouble_sign (z : Z) : (toDouble z >? 0)%Z = (z >? 0)%Z.
Proof.
  unfold toDouble. destruct (Z.ltb_spec z 0).
  - pose proof (@roundNat_range (- z)%Z ltac:(lia)).
    destruct (Z.gtb_spec (- roundNat (- z)) 0), (Z.gtb_spec z 0); lia.
  - destruct (Z.eq_dec z 0) as [->|Hz]; [reflexivity|].
    pose proof (@roundNat_range z ltac:(lia)).
    pose proof (@roundNat_pos z ltac:(lia)).
    destruct (Z.gtb_spec (roundNat z) 0), (Z.gtb_spec z 0); lia.
Qed.

(** The difference of two doubles has the sign of the difference of the
    integers that stand for them, NaN counting as [0]. *)
Lemma minus_sign (a b : Z) :
  (- infinity <= a <= infinity)%Z -> (- infinity <= b <= infinity)%Z ->
  (comparison (minus a b) >? 0)%Z = (a - b >? 0)%Z.
Proof.
  intros Ha Hb. unfold minus. pose proof infinity_pos. unfold twoTo53 in *.
  destruct (Z.eqb_spec (Z.abs a) infinity) as [Ea|Ea].
  - destruct (Z.eqb_spec a b) as [->|Hab]; cbn [comparison].
    + now rewrite Z.sub_diag.
    + destruct (Z.gtb_spec a 0), (Z.gtb_spec (a - b) 0); lia.
  - destruct (Z.eqb_spec (Z.abs b) infinity) as [Eb|Eb]; cbn [comparison].
    + destruct (Z.gtb_spec (- b) 0), (Z.gtb_spec (a - b) 0); lia.
    + apply toDouble_sign.
Qed.

(** What [parseInt] reads is a double. *)
Lemma parseInt_range (s : jsstring) (z : Z) :
  parseInt s = Some z -> (- infinity <= z <= infinity)%Z.
Proof.
  unfold parseInt.
  destruct (match dropWhile isWhiteSpace s with
            | [] => (1%Z, dropWhile isWhiteSpace s)
            | c :: r =>
                if Ascii.eqb c "-"%char then ((-1)%Z, r)
                else if Ascii.eqb c "+"%char then (1%Z, r)
                else (1%Z, dropWhile isWhiteSpace s)
            end) as [sign s2].
  destruct (takeWhile isDigit s2); [discriminate|].
  intros [= <-]. apply toDouble_range.
Qed.

(* ================================================================== *)
(** * Properties of the stable sort *)
(* ================================================================== *)

Section SortFacts.

Variable A : Type.

Lemma insertSorted_perm (cmp : A -> A -> Z) (x : A) (l : list A) :
  Permutation (insertSorted cmp x l) (x :: l).
Proof.
  induction l as [|y l IH]; simpl; [reflexivity|].
  destruct (cmp x y >? 0)%Z; [|reflexivity].
  rewrite IH. apply perm_swap.
Qed.

Lemma sort_perm (cmp : A -> A -> Z) (l : list A) :
  Permutation (sort cmp l) l.
Proof.
  induction l as [|x l IH]; simpl; [reflexivity|].
  rewrite insertSorted_perm. now constructor.
Qed.

Lemma length_sort (cmp : A -> A -> Z) (l : list A) :
  length (sort cmp l) = length l.
Proof. apply Permutation_length, sort_perm. Qed.

Lemma insertSorted_ext (cmp cmp' : A -> A -> Z) (x : A) (l : list A) :
  (forall y, In y l -> (cmp x y >? 0)%Z = (cmp' x y >? 0)%Z) ->
  insertSorted cmp x l = insertSorted cmp' x l.
Proof.
  induction l as [|y l IH]; intros H; simpl; [reflexivity|].
  rewrite <- (H y) by now left.
  rewrite IH by (intros z Hz; apply H; now right). reflexivity.
Qed.

(** The sort reads the comparator on the elements of the list only, and
    only whether its answer is positive. *)
Lemma sort_ext (cmp cmp' : A -> A -> Z) (l : list A) :
  (forall x y, In x l -> In y l -> (cmp x y >? 0)%Z = (cmp' x y >? 0)%Z) ->
  sort cmp l = sort cmp' l.
Proof.
  induction l as [|x l IH]; intros H; simpl; [reflexivity|].
  rewrite IH by (intros; apply H; now right).
  apply insertSorted_ext. intros y Hy. apply H; [now left|right].
  eapply Permutation_in; [apply sort_perm|exact Hy].
Qed.

(** With a comparator that subtracts keys, the greater key first. *)
Variable key : A -> Z.
Local Abbreviation keyDesc := (keyDesc key).
Local Abbreviation geKey := (geKey key).

Lemma insertSorted_sorted (x : A) (l : list A) :
  StronglySorted geKey l -> StronglySorted geKey (insertSorted keyDesc x l).
Proof.
  induction l as [|y l IH]; intros Hs; simpl.
  - constructor; constructor.
  - inversion Hs as [|? ? Hs' Hy]; subst.
    unfold JS.keyDesc at 1. destruct (Z.gtb_spec (key y - key x) 0).
    + constructor; [now apply IH|].
      eapply Permutation_Forall; [symmetry; apply insertSorted_perm|].
      constructor; [unfold JS.geKey; lia|exact Hy].
    + constructor; [exact Hs|].
      constructor; [unfold JS.geKey; lia|].
      eapply Forall_impl; [|exact Hy]. unfold JS.geKey. intros; lia.
Qed.

Lemma sort_sorted (l : list A) : StronglySorted geKey (sort keyDesc l).
Proof.
  induction l as [|x l IH]; simpl; [constructor|].
  now apply insertSorted_sorted.
Qed.

Lemma insertSorted_stable (z : Z) (x : A) (l : list A) :
  filter (fun a => (key a =? z)%Z) (insertSorted keyDesc x l)
  = filter (fun a => (key a =? z)%Z) (x :: l).
Proof.
  induction l as [|y l IH]; [reflexivity|].
  cbn [insertSorted]. unfold JS.keyDesc at 1.
  destruct (Z.gtb_spec (key y - key x) 0) as [Hgt|Hle]; [|reflexivity].
  cbn [filter] in *. rewrite IH.
  destruct (Z.eqb_spec (key y) z), (Z.eqb_spec (key x) z); try reflexivity; lia.
Qed.

(** Stability: the elements of one key keep the order they had. *)
Lemma sort_stable (z : Z) (l : list A) :
  filter (fun a => (key a =? z)%Z) (sort keyDesc l)
  = filter (fun a => (key a =? z)%Z) l.
Proof.
  induction l as [|x l IH]; [reflexivity|].
  cbn [sort]. rewrite insertSorted_stable. cbn [filter]. now rewrite IH.
Qed.

End SortFacts.

(** ** Subsequences *)

Section SubseqFacts.

Variable A : Type.
Local Abbreviation Subseq := (@Extractor.Subseq A).

Lemma Subseq_refl (l : list A) : Subseq l l.
Proof. induction l; auto with subseq. Qed.

Lemma Subseq_nil_l (l : list A) : Subseq [] l.
Proof. induction l; auto with subseq. Qed.

Lemma Subseq_trans (l1 l2 l3 : list A) :
  Subseq l1 l2 -> Subseq l2 l3 -> Subseq l1 l3.
Proof.
  intros H12 H23. revert l1 H12.
  induction H23 as [|x l2 l3 H IH|x l2 l3 H IH]; intros l1 H12.
  - exact H12.
  - inversion H12; subst; constructor; auto.
  - constructor. auto.
Qed.

Lemma Subseq_filter (p : A -> bool) (l : list A) : Subseq (filter p l) l.
Proof.
  induction l as [|x l IH]; simpl; [constructor|].
  destruct (p x); auto with subseq.
Qed.

Lemma Subseq_firstn (n : nat) (l : list A) : Subseq (firstn n l) l.
Proof.
  revert l. induction n as [|n IH]; intros [|x l]; simpl;
    try constructor; auto using Subseq_nil_l.
Qed.

Lemma Subseq_filter_mono (p : A -> bool) (l1 l2 : list A) :
  Subseq l1 l2 -> Subseq (filter p l1) (filter p l2).
Proof.
  induction 1 as [|x l1 l2 H IH|x l1 l2 H IH]; simpl.
  - constructor.
  - destruct (p x); auto with subseq.
  - destruct (p x); auto with subseq.
Qed.

Lemma Subseq_In (l1 l2 : list A) (x : A) : Subseq l1 l2 -> In x l1 -> In x l2.
Proof.
  induction 1 as [|y l1 l2 H IH|y l1 l2 H IH]; simpl; intuition.
Qed.

Lemma Subseq_Forall (P : A -> Prop) (l1 l2 : list A) :
  Subseq l1 l2 -> Forall P l2 -> Forall P l1.
Proof.
  intros Hs Hall. apply Forall_forall. intros x Hx.
  rewrite Forall_forall in Hall. apply Hall. eapply Subseq_In; eassumption.
Qed.

Lemma Subseq_sorted (R : A -> A -> Prop) (l1 l2 : list A) :
  Subseq l1 l2 -> StronglySorted R l2 -> StronglySorted R l1.
Proof.
  induction 1 as [|x l1 l2 H IH|x l1 l2 H IH]; intros Hs.
  - constructor.
  - inversion Hs as [|? ? Hs' Hx]; subst.
    constructor; [auto|]. eapply Subseq_Forall; eassumption.
  - inversion Hs; subst. auto.
Qed.

End SubseqFacts.

Lemma Subseq_map A B (f : A -> B) (l1 l2 : list A) :
  Extractor.Subseq l1 l2 -> Extractor.Subseq (map f l1) (map f l2).
Proof. induction 1; simpl; constructor; assumption. Qed.

Lemma StronglySorted_map A B (f : A -> B) (R : B -> B -> Prop) (l : list A) :
  StronglySorted (fun a b => R (f a) (f b)) l -> StronglySorted R (map f l).
Proof.
  induction 1 as [|x l Hs IH Hx]; simpl; constructor; [exact IH|].
  apply Forall_map. exact Hx.
Qed.

(* ================================================================== *)
(** * Properties of the discussion extractor *)
(* ================================================================== *)

Lemma includes_intro (a needle b : jsstring) :
  includes (a ++ needle ++ b) needle = true.
Proof.
  induction a as [|x a IH].
  - assert (H : startsWith (needle ++ b) needle = true).
    { unfold startsWith.
      now rewrite (proj2 (stripPrefix_spec needle (needle ++ b) b) eq_refl). }
    cbn [app]. destruct (needle ++ b); simpl; now rewrite H.
  - cbn [app includes]. rewrite IH. apply orb_true_r.
Qed.

Lemma includes_elim (s needle : jsstring) :
  includes s needle = true -> exists a b, s = a ++ needle ++ b.
Proof.
  induction s as [|x s IH]; simpl; intros H.
  - rewrite orb_false_r in H. unfold startsWith in H.
    destruct (stripPrefix needle []) as [rest|] eqn:E; [|discriminate].
    apply stripPrefix_spec in E. now exists [], rest.
  - apply orb_true_iff in H. destruct H as [H|H].
    + unfold startsWith in H.
      destruct (stripPrefix needle (x :: s)) as [rest|] eqn:E; [|discriminate].
      apply stripPrefix_spec in E. now exists [], rest.
    + destruct (IH H) as (a & b & ->). now exists (x :: a), b.
Qed.

(** The word [noncollapsed] holds the word [collapsed]: a class list that
    passes the first test of [isVisible] fails the second, so that no class
    list is ever visible. *)
Lemma isVisible_never (commentClasses : jsstring) :
  Extractor.isVisible commentClasses = false.
Proof.
  unfold Extractor.isVisible.
  destruct (includes commentClasses (lit "noncollapsed")) eqn:E; [|reflexivity].
  apply includes_elim in E. destruct E as (a & b & ->).
  change (lit "noncollapsed") with (lit "non" ++ lit "collapsed").
  rewrite <- (app_assoc (lit "non")), (app_assoc a).
  now rewrite includes_intro.
Qed.

Lemma filter_map_comm A B (f : A -> B) (p : B -> bool) (l : list A) :
  filter p (map f l) = map f (filter (fun x => p (f x)) l).
Proof.
  induction l as [|x l IH]; simpl; [reflexivity|].
  destruct (p (f x)); simpl; now rewrite IH.
Qed.

(** The score a comment is ranked by is a double. *)
Lemma scoreValue_range (score : option jsstring) :
  (- infinity <= Extractor.scoreValue score <= infinity)%Z.
Proof.
  unfold Extractor.scoreValue. pose proof infinity_pos. unfold twoTo53 in *.
  destruct score as [s|]; [|lia].
  destruct (parseInt s) as [z|] eqn:E; [|lia].
  now apply (parseInt_range s).
Qed.

(** The comparator of the source puts two comments in the order of their
    scores. *)
Lemma byScoreDesc_key (a b : Extractor.Comment) :
  Extractor.wellScored a -> Extractor.wellScored b ->
  (Extractor.byScoreDesc a b >? 0)%Z
  = (keyDesc Extractor.commentScore a b >? 0)%Z.
Proof.
  unfold Extractor.wellScored, Extractor.byScoreDesc, keyDesc.
  intros -> ->. apply minus_sign; apply scoreValue_range.
Qed.

Lemma sort_byScore (allComments : list Extractor.Comment) :
  Forall Extractor.wellScored allComments ->
  sort Extractor.byScoreDesc allComments
  = sort (keyDesc Extractor.commentScore) allComments.
Proof.
  intros H. rewrite Forall_forall in H.
  apply sort_ext. intros x y Hx Hy. apply byScoreDesc_key; auto.
Qed.

(** What is returned is a part of the sorted list, in its order. *)
Lemma selectComments_kept (allComments : list Extractor.Comment) :
  exists kept,
    Extractor.selectComments allComments = map Extractor.strip kept
    /\ Extractor.Subseq kept (sort Extractor.byScoreDesc allComments).
Proof.
  unfold Extractor.selectComments.
  rewrite !slice_prefix by (unfold Extractor.MAX_COMMENTS; lia).
  match goal with |- context [if ?c then _ else _] => destruct c end.
  - eexists. split; [reflexivity|]. apply Subseq_firstn.
  - eexists. split; [reflexivity|].
    eapply Subseq_trans; [apply Subseq_firstn|apply Subseq_filter].
Qed.

(** The selection, for any classification of the comments. *)
Lemma selectComments_spec (allComments : list Extractor.Comment) :
  let out := Extractor.selectComments allComments in
  (1 <= length allComments ->
   Forall (fun c => Extractor.visible c = false) allComments ->
   length out = Nat.min (length allComments) 10
   /\ incl out (map Extractor.strip allComments))
  /\ (Exists (fun c => Extractor.visible c = true) allComments ->
      1 <= length out <= 10
      /\ exists kept,
          out = map Extractor.strip kept
          /\ Forall (fun c => Extractor.visible c = true) kept
          /\ incl kept allComments).
Proof.
  cbv zeta. unfold Extractor.selectComments.
  rewrite !slice_prefix by (unfold Extractor.MAX_COMMENTS; lia).
  change (Z.to_nat Extractor.MAX_COMMENTS) with 10.
  set (sorted := sort Extractor.byScoreDesc allComments).
  assert (Hperm : Permutation sorted allComments) by apply sort_perm.
  split.
  - intros Hlen Hhidden.
    assert (Hnone : filter Extractor.visible sorted = []).
    { apply (Permutation_Forall (Permutation_sym Hperm)) in Hhidden.
      clear Hperm. induction sorted as [|c l IH]; [reflexivity|].
      inversion Hhidden; subst. simpl.
      replace (Extractor.visible c) with false by (symmetry; assumption). auto. }
    rewrite Hnone, firstn_nil. cbn [map length Nat.eqb andb].
    assert (Hs : length sorted = length allComments)
      by now apply Permutation_length.
    replace (0 <? length sorted) with true
      by (symmetry; apply Nat.ltb_lt; lia).
    split.
    + rewrite length_map, length_firstn, Hs. lia.
    + intros x Hx. apply in_map_iff in Hx. destruct Hx as (c & <- & Hc).
      apply in_map. eapply Permutation_in; [exact Hperm|].
      eapply In_firstn; exact Hc.
  - intros Hsome.
    assert (Hvis : filter Extractor.visible sorted <> []).
    { apply Exists_exists in Hsome. destruct Hsome as (c & Hc & Hv).
      assert (Hin : In c (filter Extractor.visible sorted)).
      { apply filter_In. split; [|exact Hv].
        eapply Permutation_in; [symmetry; exact Hperm|exact Hc]. }
      intros E. rewrite E in Hin. contradiction. }
    destruct (filter Extractor.visible sorted) as [|v vs] eqn:Ef;
      [contradiction|].
    rewrite (firstn_cons 9 v vs). cbn [map length Nat.eqb andb]. split.
    + cbn [length]. rewrite length_map.
      pose proof (firstn_le_length 9 vs). lia.
    + exists (v :: firstn 9 vs). split; [reflexivity|].
      assert (Hsub : forall c, In c (v :: firstn 9 vs) ->
                               In c (filter Extractor.visible sorted)).
      { rewrite Ef. intros c [<-|Hc]; [now left|right].
        eapply In_firstn; exact Hc. }
      split.
      * apply Forall_forall. intros c Hc. apply Hsub in Hc.
        now apply filter_In in Hc.
      * intros c Hc. apply Hsub in Hc. apply filter_In in Hc.
        eapply Permutation_in; [exact Hperm|apply Hc].
Qed.

Section ExtractorFacts.

Variable htmlToText : jsstring -> Result jsstring.

Local Abbreviation parseComment := (Extractor.parseComment htmlToText).
Local Abbreviation collect := (Extractor.collect htmlToText).
Local Abbreviation collectComments := (Extractor.collectComments htmlToText).
Local Abbreviation extractPost := (Extractor.extractPost htmlToText).
Local Abbreviation extractRedditContent :=
  (Extractor.extractRedditContent htmlToText).
Local Abbreviation markupOrder := (Extractor.markupOrder htmlToText).

(** Every collected comment is ranked by a number, never by NaN, and is
    classified hidden. *)
Lemma parseComment_collected (m : Match) (c : Extractor.Comment) :
  parseComment m = Return (Some c) ->
  Extractor.wellScored c /\ Extractor.visible c = false.
Proof.
  unfold Extractor.parseComment.
  destruct (matchFirst Extractor.commentContentRegex (whole m)) as [cm|];
    [|discriminate].
  destruct (htmlToText (Extractor.groupText cm 2)) as [text|e];
    [|discriminate].
  cbn [rbind].
  destruct (0 <? length (trim text)); [|discriminate].
  intros H. inversion H; subst c; clear H.
  split; [|apply isVisible_never].
  unfold Extractor.wellScored, Extractor.commentScore.
  cbn [Extractor.scoreNum Extractor.score].
  destruct (matchFirst Extractor.scoreRegex (whole m)) as [sm|] eqn:Es;
    [|reflexivity].
  destruct (scoreRegex_group _ Es) as (d & ds & Hg & Hd & Hds).
  rewrite Hg. cbn [truthy orElse Extractor.scoreValue].
  now rewrite (@parseInt_digits d ds Hd Hds).
Qed.

(** The number a collected comment is ranked by is the double nearest to
    what the digits of its score say, and 0 when it has no score. *)
Lemma parseComment_score (m : Match) (c : Extractor.Comment) :
  parseComment m = Return (Some c) ->
  Extractor.commentScore c
  = match Extractor.score c with
    | Some digits => toDouble (digitsValue digits)
    | None => 0%Z
    end.
Proof.
  unfold Extractor.parseComment.
  destruct (matchFirst Extractor.commentContentRegex (whole m)) as [cm|];
    [|discriminate].
  destruct (htmlToText (Extractor.groupText cm 2)) as [text|e];
    [|discriminate].
  cbn [rbind].
  destruct (0 <? length (trim text)); [|discriminate].
  intros H. inversion H; subst c; clear H.
  unfold Extractor.commentScore. cbn [Extractor.score].
  destruct (matchFirst Extractor.scoreRegex (whole m)) as [sm|] eqn:Es;
    [|reflexivity].
  destruct (scoreRegex_group _ Es) as (d & ds & Hg & Hd & Hds).
  rewrite Hg. cbn [Extractor.scoreValue].
  now rewrite (@parseInt_digits d ds Hd Hds).
Qed.

Lemma collect_collected (P : Extractor.Comment -> Prop) :
  (forall m c, parseComment m = Return (Some c) -> P c) ->
  forall ms acc allComments,
    Forall P acc ->
    collect ms acc = Return allComments ->
    Forall P allComments.
Proof.
  intros HP. induction ms as [|m ms IH]; intros acc allComments Hacc H.
  - cbn in H. inversion H; subst. exact Hacc.
  - cbn [Extractor.collect] in H.
    destruct (parseComment m) as [[c|]|e] eqn:Ec; cbn [rbind] in H;
      [| |discriminate].
    + apply (IH (acc ++ [c]) allComments); [|exact H].
      apply Forall_app. split; [exact Hacc|].
      constructor; [exact (HP _ _ Ec)|constructor].
    + apply (IH _ _ Hacc H).
Qed.

Lemma collectComments_collected (htmlContent : jsstring)
      (allComments : list Extractor.Comment) :
  collectComments htmlContent = Return allComments ->
  Forall Extractor.wellScored allComments
  /\ Forall (fun c => Extractor.visible c = false) allComments.
Proof.
  intros H. split.
  - apply (@collect_collected Extractor.wellScored
             (fun m c Hc => proj1 (parseComment_collected m Hc))
             _ [] allComments (Forall_nil _) H).
  - apply (@collect_collected (fun c => Extractor.visible c = false)
             (fun m c Hc => proj2 (parseComment_collected m Hc))
             _ [] allComments (Forall_nil _) H).
Qed.

(** What the extractor returns, by the outcome of its two scans. *)
Lemma extractRedditContent_comments (htmlContent : jsstring) :
  Extractor.comments (extractRedditContent htmlContent)
  = match extractPost htmlContent, collectComments htmlContent with
    | Return _, Return allComments => Extractor.selectComments allComments
    | _, _ => []
    end.
Proof.
  unfold Extractor.extractRedditContent.
  destruct (extractPost htmlContent) as [post|e]; [|reflexivity].
  cbn [rbind].
  destruct (collectComments htmlContent) as [allComments|e]; reflexivity.
Qed.

(** C5.  The comments returned are in descending order of their numeric
    score, a comment without a parsed score counting as 0, and for every
    score the returned comments of that score are in the order they have in
    the markup.  The numeric score is the number [parseInt] reads: the
    double nearest to what the digits of the score say, so that scores
    which differ only beyond the precision of a double are equal scores. *)
Theorem comments_sorted_stable (htmlContent : jsstring) :
  let out := Extractor.comments (extractRedditContent htmlContent) in
  StronglySorted (fun a b => (Extractor.outScore a >= Extractor.outScore b)%Z)
                 out
  /\ (forall z,
        Extractor.Subseq (Extractor.tied z out)
                         (Extractor.tied z (markupOrder htmlContent)))
  /\ Forall (fun c => Extractor.outScore c
                      = match Extractor.out_score c with
                        | Some digits => toDouble (digitsValue digits)
                        | None => 0%Z
                        end)
            out.
Proof.
  cbv zeta. rewrite extractRedditContent_comments.
  unfold Extractor.markupOrder.
  destruct (extractPost htmlContent) as [post|e];
    [|split; [constructor|split; [intros z; apply Subseq_nil_l|constructor]]].
  destruct (collectComments htmlContent) as [allComments|e] eqn:Hall;
    [|split; [constructor|split; [intros z; apply Subseq_nil_l|constructor]]].
  destruct (collectComments_collected _ Hall) as [Hscored _].
  assert (Hnumber : Forall (fun c => Extractor.commentScore c
                                     = match Extractor.score c with
                                       | Some digits => toDouble (digitsValue digits)
                                       | None => 0%Z
                                       end) allComments).
  { exact (@collect_collected _ parseComment_score _ [] allComments
             (Forall_nil _) Hall). }
  destruct (selectComments_kept allComments) as (kept & -> & Hkept).
  rewrite (sort_byScore Hscored) in Hkept.
  split; [|split].
  - apply StronglySorted_map.
    eapply Subseq_sorted; [exact Hkept|].
    apply (sort_sorted Extractor.commentScore).
  - intros z. unfold Extractor.tied. rewrite !filter_map_comm.
    apply Subseq_map.
    pose proof (@Subseq_filter_mono _
                  (fun a => (Extractor.commentScore a =? z)%Z) _ _ Hkept)
      as Htied.
    rewrite (sort_stable Extractor.commentScore z allComments) in Htied.
    exact Htied.
  - apply Forall_map. eapply Subseq_Forall; [exact Hkept|].
    eapply Permutation_Forall; [symmetry; apply sort_perm|exact Hnumber].
Qed.

End ExtractorFacts.

(** The sample page: its three comments come back ranked 25, 9, 9, the two
    comments of 9 points in the order of the markup. *)
Example discussionPage_comments :
  map (fun c => (Extractor.out_author c, Extractor.outScore c))
      (Extractor.comments
         (Extractor.extractRedditContent Samples.keepText
                                         Samples.discussionPage))
  = [(lit "al", 25%Z); (lit "bob", 9%Z); (lit "cy", 9%Z)].
Proof. vm_compute. reflexivity. Qed.

(** The sample page: its title without the site suffix, and its post. *)
Example discussionPage_post :
  let e := Extractor.extractRedditContent Samples.keepText
                                          Samples.discussionPage in
  Extractor.title e = lit "Best kb"
  /\ Extractor.postContent e = lit "Which one?"
  /\ Extractor.success e = true.
Proof. vm_compute. repeat split. Qed.

(** C4 at a page where it fails.  The sample page has three comments: the
    blocks of bob (9 points) and cy (9 points) have the class noncollapsed,
    the block of al (25 points) has the class collapsed.  By the comment of
    lines 102-103 two comments are visible; the test of line 103 finds none
    (the group it reads is empty in every block: the class list went to the
    part of the pattern before the group), and the extractor returns all
    three, the collapsed one first, where only the two visible ones were to
    be returned. *)
Theorem collapsed_comment_returned :
  let blocks := execAll Extractor.fullCommentRegex Samples.discussionPage in
  map (fun m => Extractor.classListOf (whole m)) blocks
  = [lit " thing id-t1_c1 noncollapsed comment ";
     lit " thing id-t1_c2 collapsed comment ";
     lit " thing id-t1_c3 noncollapsed comment "]
  /\ map (fun m => Extractor.visibleAsDocumented (whole m)) blocks
     = [true; false; true]
  /\ map (fun m => Extractor.groupText m 1) blocks = [[]; []; []]
  /\ map (fun m => Extractor.isVisible (Extractor.groupText m 1)) blocks
     = [false; false; false]
  /\ map Extractor.out_author
         (Extractor.comments
            (Extractor.extractRedditContent Samples.keepText
                                            Samples.discussionPage))
     = [lit "al"; lit "bob"; lit "cy"].
Proof. vm_compute. repeat split. Qed.

(** Two scores that differ beyond the precision of a double are one number:
    the comments come back in the order of the markup. *)
Example huge_scores_tie :
  parseInt (lit "9007199254740992") = parseInt (lit "9007199254740993")
  /\ map Extractor.out_author
         (Extractor.comments
            (Extractor.extractRedditContent Samples.keepText
                                            Samples.hugeScores))
     = [lit "bob"; lit "al"].
Proof. vm_compute. split; reflexivity. Qed.

(** No page has a comment that is classified visible: whenever comments are
    returned, they come from the fallback over the unfiltered list. *)
Theorem collected_comments_hidden
        (htmlToText : jsstring -> Result jsstring) (htmlContent : jsstring) :
  Forall (fun c => Extractor.visible c = false)
         (match Extractor.collectComments htmlToText htmlContent with
          | Return allComments => allComments
          | Throw _ => []
          end)
  /\ Extractor.comments (Extractor.extractRedditContent htmlToText htmlContent)
     = match Extractor.extractPost htmlToText htmlContent,
             Extractor.collectComments htmlToText htmlContent with
       | Return _, Return allComments =>
           map Extractor.strip
               (firstn 10 (sort Extractor.byScoreDesc allComments))
       | _, _ => []
       end.
Proof.
  rewrite extractRedditContent_comments.
  destruct (Extractor.collectComments htmlToText htmlContent)
    as [allComments|e] eqn:Hall.
  - destruct (collectComments_collected _ _ Hall) as [_ Hhidden].
    split; [exact Hhidden|].
    destruct (Extractor.extractPost htmlToText htmlContent); [|reflexivity].
    destruct allComments as [|c cs]; [reflexivity|].
    destruct (selectComments_spec (c :: cs)) as [Hfallback _].
    unfold Extractor.selectComments in *.
    rewrite !slice_prefix in * by (unfold Extractor.MAX_COMMENTS; lia).
    change (Z.to_nat Extractor.MAX_COMMENTS) with 10 in *.
    set (sorted := sort Extractor.byScoreDesc (c :: cs)) in *.
    assert (Hnone : filter Extractor.visible sorted = []).
    { assert (Hs : Forall (fun c => Extractor.visible c = false) sorted).
      { eapply Permutation_Forall; [symmetry; apply sort_perm|exact Hhidden]. }
      clear Hfallback. induction sorted as [|x l IH]; [reflexivity|].
      inversion Hs; subst. simpl.
      replace (Extractor.visible x) with false by (symmetry; assumption). auto. }
    rewrite Hnone, firstn_nil. cbn [map length Nat.eqb andb].
    replace (0 <? length sorted) with true; [reflexivity|].
    symmetry. apply Nat.ltb_lt. unfold sorted. rewrite length_sort. cbn. lia.
  - split; [constructor|].
    now destruct (Extractor.extractPost htmlToText htmlContent).
Qed.

(* ================================================================== *)
(** * More on strings *)
(* ================================================================== *)

(** Replacing the first occurrence of a pattern that occurs puts the
    replacement in the text, with what came before the occurrence kept. *)
Lemma replaceFirst_occurs (s pattern replacement : jsstring) :
  includes s pattern = true ->
  exists a b, replaceFirst s pattern replacement = a ++ replacement ++ b.
Proof.
  induction s as [|c s IH]; simpl; unfold startsWith.
  - destruct (stripPrefix pattern []) as [rest|] eqn:E; [|discriminate].
    intros _. now exists [], rest.
  - destruct (stripPrefix pattern (c :: s)) as [rest|] eqn:E.
    + intros _. now exists [], rest.
    + simpl. intros H. destruct (IH H) as [a [b ->]]. now exists (c :: a), b.
Qed.

Lemma replaceFirst_includes (s pattern replacement : jsstring) :
  includes s pattern = true ->
  includes (replaceFirst s pattern replacement) replacement = true.
Proof.
  intros H. destruct (replaceFirst_occurs s pattern replacement H) as [a [b ->]].
  apply includes_intro.
Qed.

(** A text that holds [a ++ needle ++ b] holds [needle]. *)
Lemma includes_within (s a needle b : jsstring) :
  includes s (a ++ needle ++ b) = true -> includes s needle = true.
Proof.
  intros H. apply includes_elim in H as [x [y ->]].
  replace (x ++ (a ++ needle ++ b) ++ y) with ((x ++ a) ++ needle ++ (b ++ y))
    by now rewrite <- !app_assoc.
  apply includes_intro.
Qed.

(* ================================================================== *)
(** * Properties of the thread scorer *)
(* ================================================================== *)

Lemma maxScore_snoc (scores : list (option Z)) (score : option Z) :
  Scorer.maxScore (scores ++ [score])
  = match score with
    | Some s => Z.max (Scorer.maxScore scores) s
    | None => Scorer.maxScore scores
    end.
Proof. unfold Scorer.maxScore. now rewrite fold_left_app. Qed.

Lemma scanStep_highest (st : Scorer.Scan) (m : Match) :
  Scorer.highestScore st = Scorer.maxScore (Scorer.commentScores st) ->
  Scorer.highestScore (Scorer.scanStep st m)
  = Scorer.maxScore (Scorer.commentScores (Scorer.scanStep st m)).
Proof.
  intros H. unfold Scorer.scanStep.
  destruct (matchFirst Scorer.scoreRegex (whole m)) as [sm|]; [|exact H].
  destruct (truthy (group sm 1)); [|exact H].
  cbn [Scorer.highestScore Scorer.commentScores].
  rewrite maxScore_snoc, <- H.
  destruct (parseInt (Extractor.groupText sm 1)) as [s|]; [|reflexivity].
  destruct (Z.gtb_spec s (Scorer.highestScore st)); lia.
Qed.

Lemma fold_scanStep_highest (ms : list Match) (st : Scorer.Scan) :
  Scorer.highestScore st = Scorer.maxScore (Scorer.commentScores st) ->
  Scorer.highestScore (fold_left Scorer.scanStep ms st)
  = Scorer.maxScore (Scorer.commentScores (fold_left Scorer.scanStep ms st)).
Proof.
  revert st. induction ms as [|m ms IH]; intros st H; simpl.
  - exact H.
  - apply IH. now apply scanStep_highest.
Qed.

(** The loop keeps the highest of the scores it collects. *)
Lemma scanComments_highest (html : jsstring) :
  Scorer.highestScore (Scorer.scanComments html)
  = Scorer.maxScore (Scorer.commentScores (Scorer.scanComments html)).
Proof. unfold Scorer.scanComments. now apply fold_scanStep_highest. Qed.

Section ScorerFacts.

Variable num : Type.
Variable ofZ : Z -> num.
Variable add mul : num -> num -> num.
Variable log10 : num -> num.
Variable oracle : Net.Oracle jsstring jsstring.

Local Abbreviation analyse := (Scorer.analyse ofZ add mul log10).
Local Abbreviation failedResult := (@Scorer.failedResult num ofZ).
Local Abbreviation extractTopCommentScore :=
  (Scorer.extractTopCommentScore ofZ add mul log10 oracle).
Local Abbreviation scoreOne := (Scorer.scoreOne ofZ add mul log10 oracle).
Local Abbreviation batchLoop := (Scorer.batchLoop ofZ add mul log10 oracle).
Local Abbreviation scoreAll := (Scorer.scoreAll ofZ add mul log10 oracle).
Local Abbreviation fetchWithRetry := (Scorer.fetchWithRetry oracle).
Local Abbreviation fetchLoop := (Scorer.fetchLoop oracle).
Local Abbreviation scoredFor := (Scorer.scoredFor ofZ add mul log10).

(** What the scorer answers, by the outcome of its fetch. *)
Lemma extractTopCommentScore_cases (url : jsstring) (t : list (Event jsstring)) :
  extractTopCommentScore url t
  = match fetchWithRetry (Scorer.normalizeUrl url) t with
    | (Return (Some html), t') =>
        (Return (analyse url (Scorer.normalizeUrl url) html), t')
    | (Return None, t') =>
        (Return (failedResult url
                   (Error (lit "Failed to get response for " ++ url
                           ++ lit " after " ++ numToString Scorer.maxRetries
                           ++ lit " attempts"))), t')
    | (Throw e, t') => (Return (failedResult url e), t')
    end.
Proof.
  unfold Scorer.extractTopCommentScore, Net.tryCatch, Net.bind.
  destruct (fetchWithRetry (Scorer.normalizeUrl url) t) as [[[html|]|e] t'];
    reflexivity.
Qed.

Lemma scoreOne_total (url : jsstring) (t : list (Event jsstring)) :
  exists r t', scoreOne url t = (Return r, t') /\ scoredFor url r.
Proof.
  unfold Scorer.scoreOne, Net.tryCatch. rewrite extractTopCommentScore_cases.
  destruct (fetchWithRetry (Scorer.normalizeUrl url) t) as [[[html|]|e] t'];
    eexists; eexists; (split; [reflexivity|]); split; try reflexivity.
  - left. now exists html.
  - right. eexists. split; reflexivity.
  - right. exists e. split; reflexivity.
Qed.

Lemma mapM_scoreOne_total (urls : list jsstring) (t : list (Event jsstring)) :
  exists rs t',
    Net.mapM scoreOne urls t = (Return rs, t') /\ Forall2 scoredFor urls rs.
Proof.
  revert t. induction urls as [|url urls IH]; intros t.
  - exists [], t. split; [reflexivity|constructor].
  - destruct (scoreOne_total url t) as (r & t1 & Hr & Hs).
    destruct (IH t1) as (rs & t2 & Hrs & Hall).
    exists (r :: rs), t2. split; [|now constructor].
    cbn [Net.mapM]. unfold Net.bind at 1. rewrite Hr.
    unfold Net.bind at 1. now rewrite Hrs.
Qed.

Lemma batchLoop_total (urls : list jsstring) :
  forall fuel i acc t,
    (0 <= i)%Z ->
    (Z.of_nat (length urls) - i <= Z.of_nat fuel)%Z ->
    exists rs t',
      batchLoop fuel urls i acc t = (Return (acc ++ rs), t')
      /\ Forall2 scoredFor (skipn (Z.to_nat i) urls) rs.
Proof.
  induction fuel as [|fuel IH]; intros i acc t Hi Hfuel.
  - exists [], t. rewrite app_nil_r. split; [reflexivity|].
    rewrite skipn_all2 by lia. constructor.
  - cbn [Scorer.batchLoop].
    destruct (Z.ltb_spec i (Z.of_nat (length urls))) as [Hlt|Hge].
    + rewrite (@slice_window _ urls i Scorer.BATCH_SIZE) by (unfold Scorer.BATCH_SIZE; lia).
      set (batch := firstn (Z.to_nat Scorer.BATCH_SIZE) (skipn (Z.to_nat i) urls)).
      destruct (mapM_scoreOne_total batch t) as (rs & t1 & Hrs & Hall).
      unfold Net.bind at 1. rewrite Hrs.
      unfold Net.bind at 1.
      set (pause := if (i + Scorer.BATCH_SIZE <? Z.of_nat (length urls))%Z
                    then Net.sleep Scorer.BATCH_DELAY else Net.ret tt).
      assert (Hpause : exists t2, pause t1 = (Return tt, t2)).
      { unfold pause. destruct (i + Scorer.BATCH_SIZE <? Z.of_nat (length urls))%Z;
          eexists; reflexivity. }
      destruct Hpause as (t2 & Hpause). rewrite Hpause.
      destruct (IH (i + Scorer.BATCH_SIZE)%Z (acc ++ rs) t2) as (rs' & t3 & Hrun & Hall').
      { unfold Scorer.BATCH_SIZE. lia. }
      { unfold Scorer.BATCH_SIZE. lia. }
      exists (rs ++ rs'), t3. rewrite Hrun, app_assoc. split; [reflexivity|].
      rewrite <- (firstn_skipn (Z.to_nat Scorer.BATCH_SIZE) (skipn (Z.to_nat i) urls)).
      apply Forall2_app; [exact Hall|].
      rewrite skipn_skipn.
      replace (Z.to_nat Scorer.BATCH_SIZE + Z.to_nat i)
        with (Z.to_nat (i + Scorer.BATCH_SIZE)) by (unfold Scorer.BATCH_SIZE; lia).
      exact Hall'.
    + exists [], t. rewrite app_nil_r. split; [reflexivity|].
      rewrite skipn_all2 by lia. constructor.
Qed.

Lemma Forall2_scoredFor_urls (urls : list jsstring)
      (rs : list (Scorer.ScoreResult num)) :
  Forall2 scoredFor urls rs -> map (@Scorer.res_url num) rs = urls.
Proof.
  induction 1 as [|url r urls rs [Hu _] _ IH]; simpl; [reflexivity|].
  now rewrite Hu, IH.
Qed.

(** C6.  The scoring stage answers one result per candidate URL, in the
    order of the candidates, and never throws, whatever the network does;
    and a URL whose fetch ends in an exception gets a result with score 0. *)
Theorem scoreAll_total (urls : list jsstring) (t : list (Event jsstring)) :
  (exists results t',
      scoreAll urls t = (Return results, t')
      /\ length results = length urls
      /\ map (@Scorer.res_url num) results = urls
      /\ Forall2 scoredFor urls results)
  /\ (forall url t0 e t1,
         fetchWithRetry (Scorer.normalizeUrl url) t0 = (Throw e, t1) ->
         exists r,
           scoreOne url t0 = (Return r, t1)
           /\ Scorer.res_url r = url /\ Scorer.res_score r = ofZ 0).
Proof.
  split.
  - unfold Scorer.scoreAll.
    destruct (@batchLoop_total urls (length urls) 0%Z [] t) as (rs & t' & Hrun & Hall);
      [lia|lia|].
    exists rs, t'. cbn [app skipn Z.to_nat] in *.
    pose proof (Forall2_scoredFor_urls Hall) as Hurls.
    repeat split; try assumption.
    rewrite <- Hurls. now rewrite length_map.
  - intros url t0 e t1 Hfetch.
    exists (failedResult url e).
    unfold Scorer.scoreOne, Net.tryCatch.
    rewrite extractTopCommentScore_cases, Hfetch. repeat split.
Qed.

(** C7.  For a page that was fetched, the score of the result is the
    highest comment score found (0 when there is none) plus three times the
    decimal logarithm of the post score when that score is positive, and the
    highest comment score alone when the post score is zero or was not
    found.  The sum and the logarithm are those of the host's numbers, of
    which only [x + 0 = x] is used. *)
Theorem combined_score_formula
        (url html : jsstring) (t t' : list (Event jsstring)) :
  (forall x, add x (ofZ 0) = x) ->
  fetchWithRetry (Scorer.normalizeUrl url) t = (Return (Some html), t') ->
  exists r,
    extractTopCommentScore url t = (Return r, t')
    /\ let maxCommentScore :=
         Scorer.maxScore (Scorer.commentScores (Scorer.scanComments html)) in
       (forall postScore,
           Scorer.extractPostScore html = Some postScore ->
           (postScore > 0)%Z ->
           Scorer.res_score r
           = add (ofZ maxCommentScore) (mul (log10 (ofZ postScore)) (ofZ 3)))
       /\ (Scorer.positive (Scorer.extractPostScore html) = false ->
           Scorer.res_score r = ofZ maxCommentScore).
Proof.
  intros Hadd Hfetch.
  exists (analyse url (Scorer.normalizeUrl url) html).
  rewrite extractTopCommentScore_cases, Hfetch. split; [reflexivity|].
  cbn [Scorer.analyse Scorer.res_score]. unfold Scorer.combinedScore.
  rewrite scanComments_highest. split.
  - intros p Hp Hpos. rewrite Hp.
    destruct (Z.gtb_spec p 0); [reflexivity|lia].
  - unfold Scorer.positive.
    destruct (Scorer.extractPostScore html) as [p|]; intros Hnp;
      [rewrite Hnp|]; apply Hadd.
Qed.

End ScorerFacts.

(** C7 at a sample, with real numbers: a page with comment scores 7 and 42
    and a post score of 1,200, answered at the first request. *)
Lemma combined_score_formula_witness :
  exists r,
    Scorer.extractTopCommentScore IZR Rplus Rmult Samples.log10R
      Samples.alwaysPage Samples.threadUrl []
    = (Return r, [Request (Scorer.normalizeUrl Samples.threadUrl)])
    /\ let maxCommentScore :=
         Scorer.maxScore
           (Scorer.commentScores (Scorer.scanComments Samples.threadPage)) in
       (forall postScore,
           Scorer.extractPostScore Samples.threadPage = Some postScore ->
           (postScore > 0)%Z ->
           Scorer.res_score r
           = Rplus (IZR maxCommentScore)
                   (Rmult (Samples.log10R (IZR postScore)) (IZR 3)))
       /\ (Scorer.positive (Scorer.extractPostScore Samples.threadPage) = false ->
           Scorer.res_score r = IZR maxCommentScore).
Proof.
  exact (@combined_score_formula R IZR Rplus Rmult Samples.log10R
           Samples.alwaysPage Samples.threadUrl Samples.threadPage
           [] [Request (Scorer.normalizeUrl Samples.threadUrl)]
           Rplus_0_r eq_refl).
Defined.

(** The sample page scores 42 + 3 log10 1200. *)
Example combined_score_sample :
  Scorer.res_score
    (Scorer.analyse IZR Rplus Rmult Samples.log10R Samples.threadUrl
                    (Scorer.normalizeUrl Samples.threadUrl) Samples.threadPage)
  = Rplus (IZR 42) (Rmult (Samples.log10R (IZR 1200)) (IZR 3)).
Proof. reflexivity. Qed.

(** Four candidates on a host that answers at once: two batches, with the
    wait of 3000 ms between them. *)
Example scoreAll_sample_trace :
  snd (Scorer.scoreAll IZR Rplus Rmult Samples.log10R Samples.alwaysPage
                       [lit "u1"; lit "u2"; lit "u3"; lit "u4"] [])
  = [Request (lit "u1"); Request (lit "u2"); Request (lit "u3"); Sleep 3000;
     Request (lit "u4")].
Proof. reflexivity. Qed.

(** ** The retry loop of the scorer's fetch *)

Section RetryFacts.
Variable oracle : Net.Oracle jsstring jsstring.
Local Abbreviation fetchLoop := (Scorer.fetchLoop oracle).
Local Abbreviation attempt := (Scorer.attempt oracle).

(** One attempt, by what the oracle answers: the primary request, and the
    alternate one when the primary failed and the URL names the old host. *)
Lemma attempt_outcome (u : jsstring) (t : list (Event jsstring)) :
  attempt u t
  = (match oracle t u with
     | Return html => Return html
     | Throw firstError =>
         if includes u (lit "old.reddit.com")
         then oracle (t ++ [Request u]) (Scorer.alternateUrl u)
         else Throw firstError
     end,
     t ++ Request u
       :: (if match oracle t u with Throw _ => true | Return _ => false end
              && includes u (lit "old.reddit.com")
           then [Request (Scorer.alternateUrl u)] else [])).
Proof.
  unfold Scorer.attempt, Net.tryCatch, Net.request, Net.throw.
  destruct (oracle t u) as [html|e]; [reflexivity|]. cbn [andb].
  destruct (includes u (lit "old.reddit.com")); [|reflexivity].
  now rewrite <- app_assoc.
Qed.

Lemma attemptsEvents_cons (u : jsstring) (k : Z) (f : bool) (fs : list bool)
      (t : list (Event jsstring)) :
  (t ++ (if (k >? 0)%Z then [Sleep (2000 * k)] else []))
    ++ Request u
       :: (if f && includes u (lit "old.reddit.com")
           then [Request (Scorer.alternateUrl u)] else [])
    ++ Scorer.attemptsEvents u (k + 1) fs
  = t ++ Scorer.attemptsEvents u k (f :: fs).
Proof.
  cbn [Scorer.attemptsEvents]. unfold Scorer.attemptEvents.
  rewrite <- !app_assoc. reflexivity.
Qed.

(** The retry loop, attempt by attempt.  Attempt number [k] of those left,
    which is attempt number [retries + k] of the fetch, asks the oracle
    after everything the earlier attempts did and after its own wait; it is
    followed by another attempt when it failed, and it decides the result
    when it is the last one. *)
Lemma fetchLoop_attempts (u : jsstring) :
  forall fuel retries t,
    (0 <= retries)%Z ->
    (retries + Z.of_nat fuel = Scorer.maxRetries)%Z ->
    exists fs r,
      fetchLoop fuel retries u t = (r, t ++ Scorer.attemptsEvents u retries fs)
      /\ length fs <= fuel
      /\ (0 < fuel -> 1 <= length fs)
      /\ forall k failed,
           nth_error fs k = Some failed ->
           let n := (retries + Z.of_nat k)%Z in
           let before :=
             t ++ Scorer.attemptsEvents u retries (firstn k fs)
               ++ (if (n >? 0)%Z then [Sleep (2000 * n)] else []) in
           let outcome :=
             match oracle before u with
             | Return html => Return html
             | Throw firstError =>
                 if includes u (lit "old.reddit.com")
                 then oracle (before ++ [Request u]) (Scorer.alternateUrl u)
                 else Throw firstError
             end in
           (failed = true
            <-> exists firstError, oracle before u = Throw firstError)
           /\ (S k < length fs -> exists error, outcome = Throw error)
           /\ (S k = length fs ->
               match outcome with
               | Return html => r = Return (Some html)
               | Throw error =>
                   n = 2%Z
                   /\ r = Throw (if match status error with
                                    | Some s => (s =? 429)%Z
                                    | None => false
                                    end
                                 then Scorer.rateLimited else error)
               end).
Proof.
  induction fuel as [|fuel IH]; intros retries t Hr Hsum.
  - exists [], (Return None). cbn [Scorer.fetchLoop Scorer.attemptsEvents].
    unfold Net.ret. rewrite app_nil_r.
    split; [reflexivity|]. split; [cbn; lia|]. split; [lia|].
    intros [|k] failed H; discriminate H.
  - cbn [Scorer.fetchLoop].
    replace (retries <? Scorer.maxRetries)%Z with true
      by (symmetry; apply Z.ltb_lt; lia).
    unfold Net.tryCatch at 1. unfold Net.bind at 1.
    set (pause := if (retries >? 0)%Z
                  then [@Sleep jsstring (2000 * retries)] else []).
    assert (Hwait : (if (retries >? 0)%Z then Net.sleep (2000 * retries)
                     else Net.ret tt) t
                    = (Return tt, t ++ pause)).
    { unfold pause. destruct (retries >? 0)%Z; [reflexivity|].
      unfold Net.ret. now rewrite app_nil_r. }
    rewrite Hwait. unfold Net.bind at 1. rewrite attempt_outcome.
    set (t1 := t ++ pause).
    set (failed := match oracle t1 u with Throw _ => true | Return _ => false end).
    set (outcome := match oracle t1 u with
                    | Return html => Return html
                    | Throw firstError =>
                        if includes u (lit "old.reddit.com")
                        then oracle (t1 ++ [Request u]) (Scorer.alternateUrl u)
                        else Throw firstError
                    end).
    set (t2 := t1 ++ Request u
                 :: (if failed && includes u (lit "old.reddit.com")
                     then [Request (Scorer.alternateUrl u)] else [])).
    assert (Hone : t2 = t ++ Scorer.attemptsEvents u retries [failed]).
    { unfold t2, t1, pause. rewrite <- attemptsEvents_cons.
      cbn [Scorer.attemptsEvents]. now rewrite app_nil_r. }
    assert (Hfirst : forall fs',
               t ++ Scorer.attemptsEvents u retries (firstn 0 (failed :: fs'))
                 ++ (if (retries + Z.of_nat 0 >? 0)%Z
                     then [Sleep (2000 * (retries + Z.of_nat 0))] else [])
               = t1).
    { intros fs'. cbn [firstn Scorer.attemptsEvents app Z.of_nat].
      now rewrite Z.add_0_r. }
    assert (Hfailed : failed = true
                      <-> exists firstError, oracle t1 u = Throw firstError).
    { unfold failed. destruct (oracle t1 u) as [html|e].
      - split; [discriminate|]. intros [e He]. discriminate He.
      - split; [now exists e|reflexivity]. }
    destruct outcome as [html|error] eqn:Hout.
    + (* the attempt answered a page *)
      exists [failed], (Return (Some html)). unfold Net.ret. rewrite Hone.
      split; [reflexivity|]. split; [cbn; lia|]. split; [cbn; lia|].
      intros [|k] f Hk; [|destruct k; discriminate Hk].
      injection Hk as <-. cbv zeta. rewrite (Hfirst []).
      fold outcome. rewrite Hout.
      split; [exact Hfailed|]. split; [cbn; lia|]. reflexivity.
    + (* the attempt failed *)
      set (final := if match status error with
                       | Some s => (s =? 429)%Z
                       | None => false
                       end
                    then Scorer.rateLimited else error).
      destruct (retries + 1 >=? Scorer.maxRetries)%Z eqn:Hlast.
      * (* it was the third one *)
        apply Z.geb_le in Hlast.
        exists [failed], (Throw final). split.
        { rewrite <- Hone. unfold final.
          destruct (match status error with
                    | Some s => (s =? 429)%Z
                    | None => false
                    end); reflexivity. }
        split; [cbn; lia|]. split; [cbn; lia|].
        intros [|k] f Hk; [|destruct k; discriminate Hk].
        injection Hk as <-. cbv zeta. rewrite (Hfirst []).
        fold outcome. rewrite Hout.
        split; [exact Hfailed|]. split; [cbn; lia|].
        intros _. split; [unfold Scorer.maxRetries in *; lia|reflexivity].
      * (* another attempt follows *)
        assert (Hmore : (retries + 1 < Scorer.maxRetries)%Z).
        { destruct (Z.geb_spec (retries + 1) Scorer.maxRetries);
            [discriminate|lia]. }
        destruct (IH (retries + 1)%Z t2) as (fs & r & Hrun & Hlen & Hpos & Hall);
          [lia|lia|].
        exists (failed :: fs), r. split.
        { transitivity (fetchLoop fuel (retries + 1) u t2).
          - destruct (match status error with
                      | Some s => (s =? 429)%Z
                      | None => false
                      end); reflexivity.
          - rewrite Hrun, Hone. cbn [Scorer.attemptsEvents].
            now rewrite app_nil_r, <- !app_assoc. }
        split; [cbn [length]; lia|]. split; [cbn [length]; lia|].
        assert (Hne : 1 <= length fs) by (apply Hpos; lia).
        intros [|k] f Hk.
        -- injection Hk as <-. cbv zeta. rewrite (Hfirst fs).
           fold outcome. rewrite Hout.
           split; [exact Hfailed|]. split; [intros _; now exists error|].
           cbn [length]. lia.
        -- cbn [nth_error] in Hk. specialize (Hall k f Hk). cbv zeta in Hall.
           cbv zeta.
           replace (retries + Z.of_nat (S k))%Z
             with (retries + 1 + Z.of_nat k)%Z by lia.
           replace (t ++ Scorer.attemptsEvents u retries (firstn (S k) (failed :: fs))
                      ++ (if (retries + 1 + Z.of_nat k >? 0)%Z
                          then [Sleep (2000 * (retries + 1 + Z.of_nat k))]
                          else []))
             with (t2 ++ Scorer.attemptsEvents u (retries + 1) (firstn k fs)
                      ++ (if (retries + 1 + Z.of_nat k >? 0)%Z
                          then [Sleep (2000 * (retries + 1 + Z.of_nat k))]
                          else [])).
           { destruct Hall as [H1 [H2 H3]].
             split; [exact H1|]. split.
             - intros Hlt. apply H2. cbn [length] in Hlt. lia.
             - intros Heq. apply H3. cbn [length] in Heq. lia. }
           rewrite Hone. cbn [firstn Scorer.attemptsEvents].
           rewrite app_nil_r, <- !app_assoc. reflexivity.
Qed.

(** More fuel than the loop can use changes nothing. *)
Lemma fetchLoop_fuel (u : jsstring) :
  forall fuel retries t,
    (Scorer.maxRetries <= retries + Z.of_nat fuel)%Z ->
    fetchLoop (S fuel) retries u t = fetchLoop fuel retries u t.
Proof.
  induction fuel as [|fuel IH]; intros retries t Hsum.
  - cbn [Scorer.fetchLoop].
    replace (retries <? Scorer.maxRetries)%Z with false
      by (symmetry; apply Z.ltb_ge; lia).
    reflexivity.
  - change (fetchLoop (S (S fuel)) retries u t)
      with ((if (retries <? Scorer.maxRetries)%Z then
               Net.tryCatch
                 (Net.bind (if (retries >? 0)%Z then Net.sleep (2000 * retries)
                            else Net.ret tt)
                           (fun _ => Net.bind (attempt u)
                                       (fun response => Net.ret (Some response))))
                 (fun error =>
                    if match status error with
                       | Some s => (s =? 429)%Z
                       | None => false
                       end
                    then
                      if (retries + 1 >=? Scorer.maxRetries)%Z
                      then Net.throw Scorer.rateLimited
                      else fetchLoop (S fuel) (retries + 1) u
                    else
                      if (retries + 1 >=? Scorer.maxRetries)%Z
                      then Net.throw error
                      else fetchLoop (S fuel) (retries + 1) u)
             else Net.ret None) t).
    cbn [Scorer.fetchLoop].
    destruct (retries <? Scorer.maxRetries)%Z; [|reflexivity].
    unfold Net.tryCatch.
    match goal with
    | |- context [Net.bind ?a ?b t] => destruct (Net.bind a b t) as [[x|e] t']
    end; [reflexivity|].
    destruct (match status e with Some s => (s =? 429)%Z | None => false end);
      destruct (retries + 1 >=? Scorer.maxRetries)%Z;
      try reflexivity; apply IH; lia.
Qed.

(** C8, amended.  The scorer's fetch makes between one and three attempts.
    Attempt number k, counted from 0, starts with a wait of k times 2000 ms
    when it is a retry and asks the URL; when that request fails and the URL
    names the old host, it asks the alternate host at once, in every attempt
    and not only in the last.  The attempt fails when the request it ended
    with failed, whatever the error, HTTP 429 or another.  An attempt that
    fails is followed by another one unless it is the third; the fetch
    answers the page of the first attempt that gets one, and after a third
    failure it throws the error of that attempt, or, when that error has the
    status 429, the error that says the site limited it. *)
Theorem direct_fetch_retries (u : jsstring) (t : list (Event jsstring)) :
  exists fs r,
    Scorer.fetchWithRetry oracle u t = (r, t ++ Scorer.attemptsEvents u 0 fs)
    /\ 1 <= length fs <= 3
    /\ forall k failed,
         nth_error fs k = Some failed ->
         let before :=
           t ++ Scorer.attemptsEvents u 0 (firstn k fs)
             ++ (if (Z.of_nat k >? 0)%Z then [Sleep (2000 * Z.of_nat k)]
                 else []) in
         let outcome :=
           match oracle before u with
           | Return html => Return html
           | Throw firstError =>
               if includes u (lit "old.reddit.com")
               then oracle (before ++ [Request u]) (Scorer.alternateUrl u)
               else Throw firstError
           end in
         (failed = true
          <-> exists firstError, oracle before u = Throw firstError)
         /\ (S k < length fs -> exists error, outcome = Throw error)
         /\ (S k = length fs ->
             match outcome with
             | Return html => r = Return (Some html)
             | Throw error =>
                 k = 2
                 /\ r = Throw (if match status error with
                                  | Some s => (s =? 429)%Z
                                  | None => false
                                  end
                               then Scorer.rateLimited else error)
             end).
Proof.
  unfold Scorer.fetchWithRetry.
  destruct (@fetchLoop_attempts u (Z.to_nat Scorer.maxRetries) 0%Z t)
    as (fs & r & Hrun & Hlen & Hpos & Hall); [lia|reflexivity|].
  exists fs, r. change (Z.to_nat Scorer.maxRetries) with 3 in *.
  split; [exact Hrun|]. split; [split; [apply Hpos; lia|exact Hlen]|].
  intros k failed Hk. specialize (Hall k failed Hk). cbv zeta in *.
  cbn [Z.add] in Hall. destruct Hall as [H1 [H2 H3]].
  split; [exact H1|]. split; [exact H2|].
  intros Hlast. specialize (H3 Hlast).
  destruct (match oracle _ u with Return html => Return html | Throw _ => _ end)
    as [html|error]; [exact H3|].
  destruct H3 as [Hn Hr]. split; [lia|exact Hr].
Qed.

End RetryFacts.

(** C8 as stated fails on a host that answers 429 to everything: the
    alternate host is asked in the first attempt already, before both
    waits. *)
Lemma alternate_host_counterexample :
  let u := Scorer.normalizeUrl Samples.threadUrl in
  snd (Scorer.fetchWithRetry Samples.always429 u [])
  = [Request u; Request (Scorer.alternateUrl u); Sleep 2000;
     Request u; Request (Scorer.alternateUrl u); Sleep 4000;
     Request u; Request (Scorer.alternateUrl u)]
  /\ ~ Scorer.alternateOnlyLast u
        (snd (Scorer.fetchWithRetry Samples.always429 u [])).
Proof.
  cbv zeta. split; [reflexivity|].
  intros H.
  refine (H [Request (Scorer.normalizeUrl Samples.threadUrl)] _ eq_refl 2000%Z _).
  left. reflexivity.
Qed.

(* ================================================================== *)
(** * Properties of the reranker *)
(* ================================================================== *)

Section RerankerFacts.

Variable Vec Sim : Type.
Variable gt : Sim -> Sim -> bool.
Variable subSign : Sim -> Sim -> Z.
Variable defaultThreshold : Sim.
Variable computeSimilarity : Vec -> option Vec -> Result Sim.
Variable embedQuery : jsstring -> Result Vec.
Variable embedDocuments : list jsstring -> Result (list Vec).
Variable readExtracted : jsstring -> Result Reranker.FileContent.
Variable readEmbeddings : jsstring -> Result (list Vec).
Variable toLocaleLowerCase : jsstring -> jsstring.
Variable config : Reranker.Config Sim.

Local Abbreviation rerankDocs :=
  (Reranker.rerankDocs gt subSign defaultThreshold computeSimilarity
                       embedQuery embedDocuments readExtracted readEmbeddings
                       toLocaleLowerCase config).
Local Abbreviation loadFiles :=
  (Reranker.loadFiles readExtracted readEmbeddings).

(** C9, amended.  In [speed] mode with no uploaded files, and for a query
    that is not the word summarize (in any case), the reranker answers the
    first 30 documents with non-empty content, in their input order:
    [min 30 n] documents when [n] have content.  The answer does not depend
    on the embedder: no score is computed. *)
Theorem rerank_speed_no_files (query : jsstring) (docs : list Document) :
  str_eqb (toLocaleLowerCase query) (lit "summarize") = false ->
  let docsWithContent := filter Reranker.hasContent docs in
  rerankDocs query docs [] Reranker.speed
  = Return (map Some (firstn 30 docsWithContent))
  /\ length (firstn 30 docsWithContent) = Nat.min 30 (length docsWithContent).
Proof.
  intros Hq docsWithContent. split; [|apply length_firstn].
  unfold Reranker.rerankDocs.
  destruct docs as [|d docs'].
  - reflexivity.
  - cbn [length Nat.eqb andb Reranker.loadFiles mapR rbind concat].
    rewrite Hq. cbn [Reranker.mode_eqb orb length Nat.ltb Nat.leb].
    now rewrite slice_prefix by lia.
Qed.

(** C1, amended.  [quality] takes the path of [balanced], and so answers
    what [balanced] answers, on the three paths that come before the choice
    of a mode: when reranking is switched off, when the query is the word
    summarize, and when there is neither a document nor a file.  In every
    other case [quality] reads the files and answers the empty list; there
    it answers what [balanced] answers exactly when [balanced] answers the
    empty list too, or when the files cannot be read, which both modes
    report alike. *)
Theorem rerank_quality_characterised
        (query : jsstring) (docs : list Document) (fileIds : list jsstring) :
  let beforeMode :=
    negb (Reranker.rerank config)
    || str_eqb (toLocaleLowerCase query) (lit "summarize")
    || ((length docs =? 0) && (length fileIds =? 0)) in
  rerankDocs query docs fileIds Reranker.quality
  = (if beforeMode
     then rerankDocs query docs fileIds Reranker.balanced
     else rbind (loadFiles fileIds) (fun _ => Return []))
  /\ (beforeMode = false ->
      (rerankDocs query docs fileIds Reranker.quality
       = rerankDocs query docs fileIds Reranker.balanced
       <-> (exists e, loadFiles fileIds = Throw e)
           \/ rerankDocs query docs fileIds Reranker.balanced = Return [])).
Proof.
  cbv zeta.
  assert (Hq : rerankDocs query docs fileIds Reranker.quality
               = if negb (Reranker.rerank config)
                    || str_eqb (toLocaleLowerCase query) (lit "summarize")
                    || ((length docs =? 0) && (length fileIds =? 0))
                 then rerankDocs query docs fileIds Reranker.balanced
                 else rbind (loadFiles fileIds) (fun _ => Return [])).
  { unfold Reranker.rerankDocs.
    destruct ((length docs =? 0) && (length fileIds =? 0)) eqn:E.
    - now rewrite !orb_true_r.
    - rewrite orb_false_r.
      destruct (loadFiles fileIds) as [filesData|e]; cbn [rbind].
      + destruct (str_eqb (toLocaleLowerCase query) (lit "summarize")).
        * now rewrite orb_true_r.
        * rewrite orb_false_r. cbn [Reranker.mode_eqb orb].
          now destruct (Reranker.rerank config).
      + now destruct (negb (Reranker.rerank config)
                      || str_eqb (toLocaleLowerCase query) (lit "summarize")). }
  split; [exact Hq|].
  intros Hmode. rewrite Hq, Hmode.
  apply orb_false_iff in Hmode as [_ Hempty].
  destruct (loadFiles fileIds) as [filesData|e] eqn:Hfiles; cbn [rbind].
  - split.
    + intros H. right. now symmetry.
    + intros [[e He]|H]; [discriminate He|now symmetry].
  - split; [intros _; left; now exists e|]. intros _.
    unfold Reranker.rerankDocs. rewrite Hempty, Hfiles. reflexivity.
Qed.

(** What [rank] keeps passed the threshold, and is no more than the cap. *)
Lemma rank_above_threshold (cap : Z) (scored : list (Reranker.Scored Sim)) :
  (0 <= cap)%Z ->
  let kept := Reranker.rank gt subSign defaultThreshold config cap scored in
  length kept <= Z.to_nat cap
  /\ Forall (fun s => gt (Reranker.similarity s)
                         (Reranker.threshold defaultThreshold config) = true)
            kept.
Proof.
  intros Hcap kept. unfold kept, Reranker.rank.
  rewrite slice_prefix by exact Hcap. split; [apply firstn_le_length|].
  apply Forall_forall. intros s Hs. apply In_firstn in Hs.
  eapply Permutation_in in Hs; [|apply sort_perm].
  now apply filter_In in Hs.
Qed.

(** The scores of [scoreAgainst]: the one at index [i] is the similarity of
    the query and the vector at index [i]. *)
Lemma mapR_scored (queryEmbedding : Vec) (vectors : list (option Vec)) :
  forall k scored,
    mapR (fun iv => rbind (computeSimilarity queryEmbedding (snd iv))
                          (fun sim => Return (Reranker.mkScored (fst iv) sim)))
         (mapiFrom k (fun i v => (i, v)) vectors)
    = Return scored ->
    Forall2 (fun v s => computeSimilarity queryEmbedding v
                        = Return (Reranker.similarity s))
            vectors scored
    /\ map (@Reranker.index Sim) scored = seq k (length vectors).
Proof.
  induction vectors as [|v vectors IH]; intros k scored H.
  - cbn in H. injection H as <-. split; [constructor|reflexivity].
  - cbn [mapiFrom mapR fst snd] in H.
    destruct (computeSimilarity queryEmbedding v) as [sim|e] eqn:Hsim;
      cbn [rbind] in H; [|discriminate H].
    destruct (mapR _ (mapiFrom (S k) (fun i v => (i, v)) vectors))
      as [rest|e] eqn:Hrest; cbn [rbind] in H; [|discriminate H].
    injection H as <-. destruct (IH _ _ Hrest) as [Hall Hidx].
    split; [constructor; [exact Hsim|exact Hall]|].
    cbn [map Reranker.index length seq]. now rewrite Hidx.
Qed.

(** X2 (rerankDocs).  In [balanced] mode, with reranking on, a query other
    than summarize and something to rank, the files being read and the
    embeddings computed: each document with content and each file chunk gets
    the similarity of its own embedding to that of the query; the answer is
    made of the documents whose similarity is above the threshold, 20 at
    most, and when it has fewer than 20 it leaves out none of them. *)
Theorem rerank_balanced_above_threshold
        (query : jsstring) (docs : list Document) (fileIds : list jsstring)
        (filesData : list (Reranker.FileData Vec)) (docEmbeddings : list Vec)
        (queryEmbedding : Vec) (out : list (option Document)) :
  Reranker.rerank config = true ->
  str_eqb (toLocaleLowerCase query) (lit "summarize") = false ->
  (length docs =? 0) && (length fileIds =? 0) = false ->
  loadFiles fileIds = Return filesData ->
  embedDocuments (map pageContent (filter Reranker.hasContent docs))
  = Return docEmbeddings ->
  embedQuery query = Return queryEmbedding ->
  rerankDocs query docs fileIds Reranker.balanced = Return out ->
  let pool :=
    filter Reranker.hasContent docs ++ map (@Reranker.fileDoc Vec) filesData in
  let vectors :=
    map Some docEmbeddings ++ map (@Reranker.embeddings Vec) filesData in
  let above (s : Reranker.Scored Sim) :=
    gt (Reranker.similarity s) (Reranker.threshold defaultThreshold config) in
  exists scored kept,
    Forall2 (fun v s => computeSimilarity queryEmbedding v
                        = Return (Reranker.similarity s))
            vectors scored
    /\ map (@Reranker.index Sim) scored = seq 0 (length vectors)
    /\ out = map (fun s => nth_error pool (Reranker.index s)) kept
    /\ length kept <= 20
    /\ (forall s, In s kept -> In s scored /\ above s = true)
    /\ NoDup (map (@Reranker.index Sim) kept)
    /\ (length kept < 20 ->
        forall s, In s scored -> above s = true -> In s kept).
Proof.
  intros Hrerank Hquery Hsome Hfiles Hdocs Hq. unfold Reranker.rerankDocs.
  rewrite Hsome, Hfiles. cbn [rbind]. rewrite Hquery, Hrerank.
  cbn [Reranker.mode_eqb negb orb]. rewrite Hdocs, Hq. cbn [rbind].
  unfold Reranker.scoreAgainst, mapi.
  match goal with
  | |- context [mapR ?f ?l] => destruct (mapR f l) as [scored|e] eqn:Hscored
  end; cbn [rbind]; [|discriminate].
  intros [= <-]. cbv zeta.
  destruct (mapR_scored _ _ _ Hscored) as [Hall Hidx].
  exists scored.
  exists (Reranker.rank gt subSign defaultThreshold config 20 scored).
  split; [exact Hall|]. split; [exact Hidx|]. split; [reflexivity|].
  unfold Reranker.rank. rewrite slice_prefix by lia.
  change (Z.to_nat 20) with 20.
  set (passed := filter (fun sim => gt (Reranker.similarity sim)
                                       (Reranker.threshold defaultThreshold config))
                        scored).
  assert (Hperm : Permutation (sort (Reranker.bySimilarityDesc subSign) passed)
                              passed) by apply sort_perm.
  split; [apply firstn_le_length|]. split; [|split].
  - intros s Hs. apply In_firstn in Hs.
    eapply Permutation_in in Hs; [|exact Hperm].
    unfold passed in Hs. now apply filter_In in Hs.
  - assert (Hnodup : NoDup (map (@Reranker.index Sim) scored)).
    { rewrite Hidx. apply seq_NoDup. }
    assert (Hpassed : NoDup (map (@Reranker.index Sim) passed)).
    { unfold passed. clear - Hnodup.
      induction scored as [|s scored IH]; [constructor|].
      cbn [filter map] in *. inversion Hnodup as [|? ? Hnot Hrest]; subst.
      destruct (gt _ _); [|now apply IH].
      cbn [map]. constructor; [|now apply IH].
      intros Hin. apply Hnot. apply in_map_iff in Hin as [x [Hx Hin]].
      apply filter_In in Hin as [Hin _]. rewrite <- Hx. now apply in_map. }
    assert (Hsorted : NoDup (map (@Reranker.index Sim)
                                 (sort (Reranker.bySimilarityDesc subSign) passed))).
    { eapply Permutation_NoDup; [|exact Hpassed].
      apply Permutation_map. now symmetry. }
    rewrite <- (firstn_skipn 20 (sort _ passed)), map_app in Hsorted.
    now apply NoDup_app_remove_r in Hsorted.
  - intros Hfew s Hs Habove.
    rewrite firstn_all2.
    + eapply Permutation_in; [symmetry; exact Hperm|].
      unfold passed. apply filter_In. now split.
    + rewrite length_firstn in Hfew. lia.
Qed.

End RerankerFacts.

(** C9 at a sample: a query other than summarize, three documents of which
    two have content. *)
Lemma rerank_speed_no_files_witness :
  Samples.rerankSample (lit "best keyboard")
    [Samples.webDoc "first"; Samples.webDoc ""; Samples.webDoc "third"] []
    Reranker.speed
  = Return [Some (Samples.webDoc "first"); Some (Samples.webDoc "third")]
  /\ 2 = Nat.min 30 2.
Proof.
  exact (@rerank_speed_no_files Z Z Z.gtb Z.sub 30%Z Samples.similarity90
           Samples.embedLength Samples.embedLengths Samples.noFile
           Samples.noEmbeddings Samples.toLower Samples.rerankingOn
           (lit "best keyboard")
           [Samples.webDoc "first"; Samples.webDoc ""; Samples.webDoc "third"]
           eq_refl).
Defined.

(** C9 as stated fails on the query summarize: the document without content
    is answered, so one document comes back where none has content. *)
Lemma rerank_speed_summarize_counterexample :
  let docs := [Samples.webDoc ""] in
  Samples.rerankSample (lit "Summarize") docs [] Reranker.speed
  = Return [Some (Samples.webDoc "")]
  /\ length (filter Reranker.hasContent docs) = 0
  /\ Samples.rerankSample (lit "Summarize") docs [] Reranker.speed
     <> Return (map Some (firstn 30 (filter Reranker.hasContent docs))).
Proof.
  cbv zeta. split; [reflexivity|]. split; [reflexivity|]. discriminate.
Qed.

(** C1 as stated fails wherever a mode is chosen: on one document that passes
    the threshold, [balanced] answers it and [quality] answers nothing. *)
Lemma rerank_quality_counterexample :
  Samples.rerankSample (lit "best keyboard") [Samples.webDoc "first"] []
                       Reranker.balanced
  = Return [Some (Samples.webDoc "first")]
  /\ Samples.rerankSample (lit "best keyboard") [Samples.webDoc "first"] []
                          Reranker.quality
     = Return []
  /\ Samples.rerankSample (lit "best keyboard") [Samples.webDoc "first"] []
                          Reranker.quality
     <> Samples.rerankSample (lit "best keyboard") [Samples.webDoc "first"] []
                             Reranker.balanced.
Proof.
  split; [reflexivity|]. split; [reflexivity|]. discriminate.
Qed.

(** X2 at a sample: two documents with content and one without; both are
    above the threshold and come back. *)
Lemma rerank_balanced_above_threshold_witness :
  let pool := [Samples.webDoc "first"; Samples.webDoc "third"] in
  let vectors := [Some 5%Z; Some 5%Z] in
  let above (s : Reranker.Scored Z) :=
    Z.gtb (Reranker.similarity s) (Reranker.threshold 30%Z Samples.rerankingOn) in
  exists scored kept,
    Forall2 (fun v s => Samples.similarity90 13%Z v
                        = Return (Reranker.similarity s))
            vectors scored
    /\ map (@Reranker.index Z) scored = seq 0 (length vectors)
    /\ [Some (Samples.webDoc "first"); Some (Samples.webDoc "third")]
       = map (fun s => nth_error pool (Reranker.index s)) kept
    /\ length kept <= 20
    /\ (forall s, In s kept -> In s scored /\ above s = true)
    /\ NoDup (map (@Reranker.index Z) kept)
    /\ (length kept < 20 ->
        forall s, In s scored -> above s = true -> In s kept).
Proof.
  exact (@rerank_balanced_above_threshold Z Z Z.gtb Z.sub 30%Z
           Samples.similarity90 Samples.embedLength Samples.embedLengths
           Samples.noFile Samples.noEmbeddings Samples.toLower
           Samples.rerankingOn (lit "best keyboard")
           [Samples.webDoc "first"; Samples.webDoc ""; Samples.webDoc "third"]
           [] [] [5%Z; 5%Z] 13%Z
           [Some (Samples.webDoc "first"); Some (Samples.webDoc "third")]
           eq_refl eq_refl eq_refl eq_refl eq_refl eq_refl eq_refl).
Defined.

(* ================================================================== *)
(** * Properties of the context assembler *)
(* ================================================================== *)

Lemma maxLength_cases (doc : Document) :
  Assembler.maxLength doc = 6000%Z \/ Assembler.maxLength doc = 2000%Z.
Proof.
  unfold Assembler.maxLength. destruct (Assembler.isRedditSource doc); auto.
Qed.

Lemma length_truncationMarker :
  Z.of_nat (length Assembler.truncationMarker) = 29%Z.
Proof. reflexivity. Qed.

Lemma length_commentsTruncatedNotice :
  Z.of_nat (length Assembler.commentsTruncatedNotice) = 39%Z.
Proof. reflexivity. Qed.

Lemma length_commentsOmittedNotice :
  Z.of_nat (length Assembler.commentsOmittedNotice) = 55%Z.
Proof. reflexivity. Qed.

(** The head and tail kept around the marker make the cap exactly. *)
Lemma length_truncateStandard (m : Z) (content : jsstring) :
  m = 6000%Z \/ m = 2000%Z ->
  (Z.of_nat (length content) > m)%Z ->
  Z.of_nat (length (Assembler.truncateStandard m content)) = (m + 29)%Z.
Proof.
  intros Hm Hlen. unfold Assembler.truncateStandard.
  assert (Hq : (m * 3 / 4 = m - m / 4 /\ 0 < m / 4 < m)%Z).
  { destruct Hm; subst m; split; try reflexivity; split; reflexivity. }
  destruct Hq as [Hq Hr]. rewrite Hq.
  rewrite !length_app, !Nat2Z.inj_add, length_truncationMarker.
  rewrite length_substringFrom by lia.
  rewrite length_substring. unfold clamp. lia.
Qed.

(** With both headers found, everything before the comments is kept, and the
    comments take what is left of the cap, or are replaced by a notice. *)
Lemma length_truncateSections (m : Z) (content : jsstring) (post comments : Z) :
  (0 <= post)%Z ->
  let postLen := Z.of_nat (length (substring content post comments)) in
  (Z.of_nat (length (Assembler.truncateSections m content post comments))
   <= post + Z.max (m + 39) (postLen + 55))%Z.
Proof.
  intros Hpost postLen. unfold Assembler.truncateSections.
  fold postLen.
  rewrite !length_app, !Nat2Z.inj_add.
  pose proof (length_substring_prefix content post) as Ht.
  destruct (m - postLen >? 500)%Z eqn:Erem.
  - apply Z.gtb_lt in Erem.
    destruct (Z.of_nat (length (substringFrom content comments))
              >? m - postLen)%Z eqn:Elong.
    + rewrite length_app, Nat2Z.inj_add, length_commentsTruncatedNotice.
      pose proof (lastIndexOf_bound (substringFrom content comments)
                                    (nl ++ nl) (m - postLen)) as Hcut.
      destruct (negb (lastIndexOf (substringFrom content comments) (nl ++ nl)
                                  (m - postLen) =? -1)%Z).
      * pose proof (length_substring_prefix
                      (substringFrom content comments)
                      (lastIndexOf (substringFrom content comments) (nl ++ nl)
                                   (m - postLen))).
        lia.
      * pose proof (length_substring_prefix
                      (substringFrom content comments) (m - postLen)).
        lia.
    + assert (Z.of_nat (length (substringFrom content comments))
              <= m - postLen)%Z.
      { destruct (Z.gtb_spec (Z.of_nat (length (substringFrom content comments)))
                             (m - postLen)); [discriminate|lia]. }
      lia.
  - rewrite length_commentsOmittedNotice. lia.
Qed.

(** The content emitted for one document. *)
Lemma length_truncateContent (doc : Document) :
  (Assembler.sectionsFound doc = false ->
   (Z.of_nat (length (Assembler.truncateContent doc))
    <= Assembler.maxLength doc + 29)%Z)
  /\ (Assembler.sectionsFound doc = true ->
      (Z.of_nat (length (Assembler.truncateContent doc))
       <= Assembler.postHeaderPos doc
          + Z.max (Assembler.maxLength doc + 39)
                  (Z.of_nat (length (Assembler.postSection doc)) + 55))%Z).
Proof.
  unfold Assembler.sectionsFound, Assembler.truncateContent.
  pose proof (maxLength_cases doc) as Hm.
  pose proof (indexOf_range (pageContent doc) (lit "## Original Post")) as Hp.
  fold (Assembler.postHeaderPos doc) in Hp.
  destruct (Z.of_nat (length (pageContent doc)) >? Assembler.maxLength doc)%Z
    eqn:Elen.
  - apply Z.gtb_lt in Elen.
    destruct (Assembler.isRedditSource doc); cbn [andb].
    + destruct (negb (Assembler.postHeaderPos doc =? -1)%Z
                && negb (Assembler.commentsHeaderPos doc =? -1)%Z) eqn:E.
      * split; [discriminate|]. intros _.
        apply andb_true_iff in E. destruct E as [E _].
        apply negb_true_iff, Z.eqb_neq in E.
        apply length_truncateSections. lia.
      * split; [|discriminate]. intros _.
        rewrite length_truncateStandard; [lia|exact Hm|lia].
    + split; [|discriminate]. intros _.
      rewrite length_truncateStandard; [lia|exact Hm|lia].
  - assert (Z.of_nat (length (pageContent doc)) <= Assembler.maxLength doc)%Z.
    { destruct (Z.gtb_spec (Z.of_nat (length (pageContent doc)))
                           (Assembler.maxLength doc)); [discriminate|lia]. }
    split; intros Hs; [lia|].
    apply andb_true_iff in Hs. destruct Hs as [_ Hs].
    apply andb_true_iff in Hs. destruct Hs as [Hs _].
    apply negb_true_iff, Z.eqb_neq in Hs. lia.
Qed.

(** The content emitted for one document, case by case. *)
Lemma truncateContent_cases (doc : Document) :
  let content := pageContent doc in
  let cap := Assembler.maxLength doc in
  let kept := Assembler.truncateContent doc in
  let size := Z.of_nat (length content) in
  ((size <= cap)%Z -> kept = content)
  /\ ((size > cap)%Z -> Assembler.sectionsFound doc = false ->
      kept = firstn (Z.to_nat (cap * 3 / 4)) content
             ++ Assembler.truncationMarker
             ++ skipn (Z.to_nat (size - cap / 4)) content
      /\ Z.of_nat (length kept) = (cap + 29)%Z)
  /\ ((size > cap)%Z -> Assembler.sectionsFound doc = true ->
      let post := Assembler.postHeaderPos doc in
      let comments := Assembler.commentsHeaderPos doc in
      let commentsSection := skipn (Z.to_nat comments) content in
      let postLength := Z.of_nat (length (Assembler.postSection doc)) in
      let room := (cap - postLength)%Z in
      exists commentsKept,
        kept = firstn (Z.to_nat post) content
               ++ Assembler.postSection doc ++ commentsKept
        /\ ((post <= comments)%Z ->
            firstn (Z.to_nat post) content ++ Assembler.postSection doc
            = firstn (Z.to_nat comments) content)
        /\ ((room <= 500)%Z ->
            commentsKept = Assembler.commentsOmittedNotice)
        /\ ((room > 500)%Z ->
            (Z.of_nat (length commentsSection) <= room)%Z ->
            commentsKept = commentsSection)
        /\ ((room > 500)%Z ->
            (Z.of_nat (length commentsSection) > room)%Z ->
            let cutoffPoint := lastIndexOf commentsSection (nl ++ nl) room in
            (-1 <= cutoffPoint <= room)%Z
            /\ commentsKept
               = firstn (Z.to_nat (if (cutoffPoint =? -1)%Z
                                   then room else cutoffPoint))
                        commentsSection
                 ++ Assembler.commentsTruncatedNotice)
        /\ (Z.of_nat (length kept)
            <= post + Z.max (cap + 39) (postLength + 55))%Z).
Proof.
  cbv zeta.
  pose proof (maxLength_cases doc) as Hm.
  pose proof (indexOf_range (pageContent doc) (lit "## Original Post")) as Hp.
  pose proof (indexOf_range (pageContent doc) (lit "## Comments")) as Hc.
  fold (Assembler.postHeaderPos doc) in Hp.
  fold (Assembler.commentsHeaderPos doc) in Hc.
  pose proof (length_truncateContent doc) as [Hstd Hsec].
  split; [|split].
  - intros Hsize. unfold Assembler.truncateContent.
    replace (Z.of_nat (length (pageContent doc)) >? Assembler.maxLength doc)%Z
      with false; [reflexivity|].
    symmetry. destruct (Z.gtb_spec (Z.of_nat (length (pageContent doc)))
                                   (Assembler.maxLength doc)); [lia|reflexivity].
  - intros Hsize Hnot.
    assert (Hkept : Assembler.truncateContent doc
                    = Assembler.truncateStandard (Assembler.maxLength doc)
                                                 (pageContent doc)).
    { unfold Assembler.truncateContent, Assembler.sectionsFound in *.
      replace (Z.of_nat (length (pageContent doc)) >? Assembler.maxLength doc)%Z
        with true by (symmetry; apply Z.gtb_lt; lia).
      destruct (Assembler.isRedditSource doc); [|reflexivity].
      cbn [andb] in Hnot. now rewrite Hnot. }
    rewrite Hkept. split.
    + unfold Assembler.truncateStandard.
      rewrite substring_prefix by (destruct Hm as [-> | ->]; discriminate).
      rewrite substringFrom_suffix; [reflexivity|].
      destruct Hm as [Hm|Hm]; rewrite Hm in *;
        change (6000 / 4)%Z with 1500%Z; change (2000 / 4)%Z with 500%Z; lia.
    + apply length_truncateStandard; [exact Hm|lia].
  - intros Hsize Hfound. specialize (Hsec Hfound).
    unfold Assembler.sectionsFound in Hfound.
    apply andb_true_iff in Hfound as [Hreddit Hfound].
    apply andb_true_iff in Hfound as [Hpost Hcomments].
    assert (Hkept : Assembler.truncateContent doc
                    = Assembler.truncateSections
                        (Assembler.maxLength doc) (pageContent doc)
                        (Assembler.postHeaderPos doc)
                        (Assembler.commentsHeaderPos doc)).
    { unfold Assembler.truncateContent.
      replace (Z.of_nat (length (pageContent doc)) >? Assembler.maxLength doc)%Z
        with true by (symmetry; apply Z.gtb_lt; lia).
      now rewrite Hreddit, Hpost, Hcomments. }
    apply negb_true_iff, Z.eqb_neq in Hpost, Hcomments.
    rewrite Hkept in *. unfold Assembler.truncateSections in *.
    fold (Assembler.postSection doc) in *.
    rewrite substring_prefix in * by lia.
    rewrite substringFrom_suffix in * by lia.
    set (commentsSection := skipn (Z.to_nat (Assembler.commentsHeaderPos doc))
                                  (pageContent doc)) in *.
    set (room := (Assembler.maxLength doc
                  - Z.of_nat (length (Assembler.postSection doc)))%Z) in *.
    eexists. split; [reflexivity|]. split; [|split; [|split; [|split]]].
    + intros Horder. unfold Assembler.postSection.
      rewrite substring_between by lia.
      replace (Z.to_nat (Assembler.commentsHeaderPos doc
                         - Assembler.postHeaderPos doc))
        with (Z.to_nat (Assembler.commentsHeaderPos doc)
              - Z.to_nat (Assembler.postHeaderPos doc)) by lia.
      apply firstn_then. lia.
    + intros Hroom.
      replace (room >? 500)%Z with false; [reflexivity|].
      symmetry. destruct (Z.gtb_spec room 500); [lia|reflexivity].
    + intros Hroom Hfits.
      replace (room >? 500)%Z with true by (symmetry; apply Z.gtb_lt; lia).
      replace (Z.of_nat (length commentsSection) >? room)%Z with false;
        [reflexivity|].
      symmetry. destruct (Z.gtb_spec (Z.of_nat (length commentsSection)) room);
        [lia|reflexivity].
    + intros Hroom Hlong.
      replace (room >? 500)%Z with true by (symmetry; apply Z.gtb_lt; lia).
      replace (Z.of_nat (length commentsSection) >? room)%Z with true
        by (symmetry; apply Z.gtb_lt; lia).
      pose proof (lastIndexOf_bound commentsSection (nl ++ nl) room) as Hup.
      pose proof (lastIndexOf_lower commentsSection (nl ++ nl) room) as Hlow.
      split; [lia|].
      destruct (Z.eqb_spec (lastIndexOf commentsSection (nl ++ nl) room) (-1))
        as [Hcut|Hcut]; cbn [negb]; now rewrite substring_prefix by lia.
    + exact Hsec.
Qed.

(** Of more than eight documents the assembler keeps the first eight. *)
Lemma capped_prefix (docs : list Document) :
  Assembler.capped docs = firstn 8 docs.
Proof.
  unfold Assembler.capped, Assembler.MAX_DOCUMENTS.
  destruct (Z.gtb_spec (Z.of_nat (length docs)) 8).
  - now rewrite slice_prefix by lia.
  - symmetry. apply firstn_all2. lia.
Qed.

(** C2, amended.  Every block the assembler emits is the source line of one
    of the first eight input documents followed by its content.  A content within the
    cap (6000 characters for a discussion source, 2000 for any other) is
    emitted as it is.  A longer one is cut to its first three quarters of
    the cap, the truncation marker and its last quarter of the cap, which
    makes cap + 29 characters, unless the document is a discussion source in
    which both section headers were found.  There the text before the post
    header and the post section are kept whole, whatever their length, and
    are followed by the comments section when it fits in what the post
    section leaves of the cap, by its part before the last blank line found
    from that position backwards (its first characters up to that position
    when there is none) and a notice of 39 characters when it does not, and
    by a notice of 55 characters alone when the post section leaves 500
    characters or fewer. *)
Theorem block_content_bound (docs : list Document) (block : jsstring) :
  In block (Assembler.blocks docs) ->
  exists index doc,
    nth_error docs index = Some doc /\ index < 8
    /\ block = Assembler.sourceLine index doc ++ Assembler.sourceType doc
               ++ nl ++ Assembler.truncateContent doc ++ nl
    /\ let content := pageContent doc in
       let cap := Assembler.maxLength doc in
       let kept := Assembler.truncateContent doc in
       let size := Z.of_nat (length content) in
       ((size <= cap)%Z -> kept = content)
       /\ ((size > cap)%Z -> Assembler.sectionsFound doc = false ->
           kept = firstn (Z.to_nat (cap * 3 / 4)) content
                  ++ Assembler.truncationMarker
                  ++ skipn (Z.to_nat (size - cap / 4)) content
           /\ Z.of_nat (length kept) = (cap + 29)%Z)
       /\ ((size > cap)%Z -> Assembler.sectionsFound doc = true ->
           let post := Assembler.postHeaderPos doc in
           let comments := Assembler.commentsHeaderPos doc in
           let commentsSection := skipn (Z.to_nat comments) content in
           let postLength := Z.of_nat (length (Assembler.postSection doc)) in
           let room := (cap - postLength)%Z in
           exists commentsKept,
             kept = firstn (Z.to_nat post) content
                    ++ Assembler.postSection doc ++ commentsKept
             /\ ((post <= comments)%Z ->
                 firstn (Z.to_nat post) content ++ Assembler.postSection doc
                 = firstn (Z.to_nat comments) content)
             /\ ((room <= 500)%Z ->
                 commentsKept = Assembler.commentsOmittedNotice)
             /\ ((room > 500)%Z ->
                 (Z.of_nat (length commentsSection) <= room)%Z ->
                 commentsKept = commentsSection)
             /\ ((room > 500)%Z ->
                 (Z.of_nat (length commentsSection) > room)%Z ->
                 let cutoffPoint := lastIndexOf commentsSection (nl ++ nl) room in
                 (-1 <= cutoffPoint <= room)%Z
                 /\ commentsKept
                    = firstn (Z.to_nat (if (cutoffPoint =? -1)%Z
                                        then room else cutoffPoint))
                             commentsSection
                      ++ Assembler.commentsTruncatedNotice)
             /\ (Z.of_nat (length kept)
                 <= post + Z.max (cap + 39) (postLength + 55))%Z).
Proof.
  intros Hin. unfold Assembler.blocks, mapi in Hin.
  apply mapiFrom_nth in Hin. destruct Hin as (k & doc & Hdoc & Hblock).
  rewrite Nat.add_0_l in Hblock.
  exists k, doc. rewrite capped_prefix in Hdoc.
  assert (Hk : k < 8).
  { apply nth_error_Some_lt in Hdoc. rewrite length_firstn in Hdoc. lia. }
  rewrite nth_error_firstn in Hdoc.
  destruct (Nat.ltb_spec k 8); [|lia].
  split; [exact Hdoc|]. split; [exact Hk|].
  split; [exact Hblock|]. apply truncateContent_cases.
Qed.

(** C2 at a sample: the block of a discussion document whose post section is
    longer than the cap, and which is cut. *)
Lemma block_content_bound_witness :
  exists index doc,
    nth_error [Samples.longPost] index = Some doc /\ index < 8
    /\ Assembler.processDoc 0 Samples.longPost
       = Assembler.sourceLine index doc ++ Assembler.sourceType doc
         ++ nl ++ Assembler.truncateContent doc ++ nl
    /\ let content := pageContent doc in
       let cap := Assembler.maxLength doc in
       let kept := Assembler.truncateContent doc in
       let size := Z.of_nat (length content) in
       ((size <= cap)%Z -> kept = content)
       /\ ((size > cap)%Z -> Assembler.sectionsFound doc = false ->
           kept = firstn (Z.to_nat (cap * 3 / 4)) content
                  ++ Assembler.truncationMarker
                  ++ skipn (Z.to_nat (size - cap / 4)) content
           /\ Z.of_nat (length kept) = (cap + 29)%Z)
       /\ ((size > cap)%Z -> Assembler.sectionsFound doc = true ->
           let post := Assembler.postHeaderPos doc in
           let comments := Assembler.commentsHeaderPos doc in
           let commentsSection := skipn (Z.to_nat comments) content in
           let postLength := Z.of_nat (length (Assembler.postSection doc)) in
           let room := (cap - postLength)%Z in
           exists commentsKept,
             kept = firstn (Z.to_nat post) content
                    ++ Assembler.postSection doc ++ commentsKept
             /\ ((post <= comments)%Z ->
                 firstn (Z.to_nat post) content ++ Assembler.postSection doc
                 = firstn (Z.to_nat comments) content)
             /\ ((room <= 500)%Z ->
                 commentsKept = Assembler.commentsOmittedNotice)
             /\ ((room > 500)%Z ->
                 (Z.of_nat (length commentsSection) <= room)%Z ->
                 commentsKept = commentsSection)
             /\ ((room > 500)%Z ->
                 (Z.of_nat (length commentsSection) > room)%Z ->
                 let cutoffPoint := lastIndexOf commentsSection (nl ++ nl) room in
                 (-1 <= cutoffPoint <= room)%Z
                 /\ commentsKept
                    = firstn (Z.to_nat (if (cutoffPoint =? -1)%Z
                                        then room else cutoffPoint))
                             commentsSection
                      ++ Assembler.commentsTruncatedNotice)
             /\ (Z.of_nat (length kept)
                 <= post + Z.max (cap + 39) (postLength + 55))%Z).
Proof.
  exact (@block_content_bound [Samples.longPost]
           (Assembler.processDoc 0 Samples.longPost)
           (or_introl eq_refl)).
Defined.

(** The same document: its content is cut to the title, the whole post
    section of 7000 characters and more, and the notice. *)
Example longPost_cut :
  Assembler.truncateContent Samples.longPost
  = firstn (Z.to_nat (Assembler.commentsHeaderPos Samples.longPost))
           (pageContent Samples.longPost)
    ++ Assembler.commentsOmittedNotice.
Proof. vm_compute. reflexivity. Qed.

(** C2 as stated fails on a discussion document with a long post: the post
    section is kept whole, and the content emitted is longer than the cap of
    6000 plus the longest of the markers. *)
Lemma block_length_counterexample :
  In (Assembler.processDoc 0 Samples.longPost)
     (Assembler.blocks [Samples.longPost])
  /\ Assembler.isRedditSource Samples.longPost = true
  /\ Z.of_nat (length (Assembler.truncateContent Samples.longPost)) = 7087%Z
  /\ (Z.of_nat (length (Assembler.processDoc 0 Samples.longPost))
      > 6000 + Z.of_nat (length Assembler.commentsOmittedNotice))%Z.
Proof.
  split; [left; reflexivity|].
  split; [reflexivity|].
  split; [vm_compute; reflexivity|].
  vm_compute; reflexivity.
Qed.

(** Two short documents: their blocks, numbered, the discussion one
    flagged. *)
Example blocks_sample :
  Assembler.blocks
    [Samples.webDoc "first";
     mkDoc (lit "second")
           (mkMeta None (Some (lit "https://old.reddit.com/r/x/comments/2/"))
                   None false)]
  = [lit "1. A page (Source: https://example.com/a)" ++ nl ++ lit "first" ++ nl;
     lit "2. Untitled (Source: https://old.reddit.com/r/x/comments/2/) [REDDIT DISCUSSION]"
     ++ nl ++ lit "second" ++ nl].
Proof. reflexivity. Qed.

(* ================================================================== *)
(** * Properties of workers that push to a shared array *)
(* ================================================================== *)

Section Workers.

Variable Req : Type.
Variable settledAt : list (Event Req) -> Z.

Lemma pushedBy_perm B (ws ws' : list (Net.Settled (list B))) :
  Permutation ws ws' -> Permutation (Net.pushedBy ws) (Net.pushedBy ws').
Proof.
  induction 1 as [|[time r] ws ws' H IH|[time1 r1] [time2 r2] ws|ws1 ws2 ws3 H1 IH1 H2 IH2].
  - constructor.
  - cbn [Net.pushedBy]. destruct r; [now apply Permutation_app_head|exact IH].
  - cbn [Net.pushedBy]. destruct r1, r2; try reflexivity.
    rewrite !app_assoc. apply Permutation_app_tail, Permutation_app_comm.
  - now transitivity (Net.pushedBy ws2).
Qed.

(** Workers that all returned: nothing is thrown, and what they pushed is
    what each of them pushed, in their order. *)
Lemma pushedBy_returned B (ws : list (Net.Settled (list B)))
      (pushed : list (list B)) :
  map snd ws = map (@Return (list B)) pushed ->
  Net.pushedBy ws = concat pushed.
Proof.
  revert pushed. induction ws as [|[time r] ws IH]; intros [|p pushed] H;
    try discriminate H; [reflexivity|].
  cbn [map snd] in H. injection H as -> H. cbn [Net.pushedBy concat].
  now rewrite (IH _ H).
Qed.

Lemma firstThrown_returned B (ws : list (Net.Settled B)) :
  Net.firstThrown ws = None
  <-> Forall (fun w => exists b, snd w = Return b) ws.
Proof.
  induction ws as [|[time r] ws IH]; cbn [Net.firstThrown].
  - split; [constructor|reflexivity].
  - destruct r as [b|e].
    + rewrite IH. split.
      * intros H. constructor; [now exists b|exact H].
      * intros H. now inversion H.
    + split; [discriminate|]. intros H. inversion H as [|? ? [b Hb] _]; subst.
      discriminate Hb.
Qed.

Lemma returned_map B (ws : list (Net.Settled B)) :
  Forall (fun w => exists b, snd w = Return b) ws ->
  exists bs, map snd ws = map (@Return B) bs.
Proof.
  induction 1 as [|w ws [b Hb] _ [bs IH]].
  - now exists [].
  - exists (b :: bs). cbn [map]. now rewrite Hb, IH.
Qed.

(** The workers started together are the workers of [mapM] when all of them
    return: the trace is the same, and so is what each returns. *)
Lemma startAll_mapM A B (f : A -> Net.M Req B) (items : list A) :
  forall t bs t',
    Net.mapM f items t = (Return bs, t') ->
    exists ws,
      Net.startAll settledAt f items t = (ws, t')
      /\ map snd ws = map (@Return B) bs.
Proof.
  induction items as [|item items IH]; intros t bs t' H.
  - cbn in H. injection H as <- <-. now exists [].
  - cbn [Net.mapM] in H. unfold Net.bind at 1 in H.
    cbn [Net.startAll].
    destruct (f item t) as [[b|e] t1]; [|discriminate H].
    unfold Net.bind at 1 in H.
    destruct (Net.mapM f items t1) as [[rest|e] t2] eqn:E; [|discriminate H].
    injection H as <- <-.
    destruct (IH _ _ _ E) as [ws [Hws Hsnd]]. rewrite Hws.
    eexists. split; [reflexivity|]. cbn [map snd]. now rewrite Hsnd.
Qed.

Lemma mapM_startAll A B (f : A -> Net.M Req B) (items : list A) :
  forall t ws t',
    Net.startAll settledAt f items t = (ws, t') ->
    Forall (fun w => exists b, snd w = Return b) ws ->
    exists bs,
      Net.mapM f items t = (Return bs, t')
      /\ map snd ws = map (@Return B) bs.
Proof.
  induction items as [|item items IH]; intros t ws t' H Hall.
  - cbn in H. injection H as <- <-. now exists [].
  - cbn [Net.startAll] in H. cbn [Net.mapM]. unfold Net.bind at 1.
    destruct (f item t) as [r t1].
    destruct (Net.startAll settledAt f items t1) as [rest t2] eqn:E.
    injection H as <- <-.
    inversion Hall as [|? ? [b Hb] Hrest]; subst. cbn [snd] in Hb. subst r.
    destruct (IH _ _ _ E Hrest) as [bs [Hrun Hsnd]].
    unfold Net.bind at 1. rewrite Hrun.
    exists (b :: bs). split; [reflexivity|]. cbn [map snd]. now rewrite Hsnd.
Qed.

(** When every worker returns, the shared array holds what the workers
    pushed, in some order, and the trace is that of the workers run in the
    order of the items. *)
Lemma pushAll_mapM A B (f : A -> Net.M Req (list B)) (items : list A)
      (t : list (Event Req)) (pushed : list (list B)) (t' : list (Event Req)) :
  Net.mapM f items t = (Return pushed, t') ->
  exists ds,
    Net.pushAll settledAt f items t = (Return ds, t')
    /\ Permutation ds (concat pushed).
Proof.
  intros H. destruct (startAll_mapM _ _ _ H) as [ws [Hws Hsnd]].
  unfold Net.pushAll. rewrite Hws.
  assert (Hall : Forall (fun w => exists b, snd w = Return b) ws).
  { clear Hws H. revert pushed Hsnd.
    induction ws as [|w ws IH]; intros [|p pushed] Hsnd;
      try discriminate Hsnd; constructor.
    - cbn [map] in Hsnd. injection Hsnd as Hw _. now exists p.
    - cbn [map] in Hsnd. injection Hsnd as _ Hsnd. now apply (IH pushed). }
  assert (Hnone : Net.firstThrown (sort Net.bySettled ws) = None).
  { apply firstThrown_returned.
    eapply Permutation_Forall; [symmetry; apply sort_perm|exact Hall]. }
  rewrite Hnone. eexists. split; [reflexivity|].
  rewrite <- (pushedBy_returned ws pushed Hsnd).
  apply pushedBy_perm, sort_perm.
Qed.

Lemma pushAll_returned A B (f : A -> Net.M Req (list B)) (items : list A)
      (t : list (Event Req)) (ds : list B) (t' : list (Event Req)) :
  Net.pushAll settledAt f items t = (Return ds, t') ->
  exists pushed,
    Net.mapM f items t = (Return pushed, t')
    /\ Permutation ds (concat pushed).
Proof.
  unfold Net.pushAll.
  destruct (Net.startAll settledAt f items t) as [ws t1] eqn:Hws.
  destruct (Net.firstThrown (sort Net.bySettled ws)) as [e|] eqn:Hnone;
    [discriminate|].
  intros [= <- <-]. apply firstThrown_returned in Hnone.
  assert (Hall : Forall (fun w => exists b, snd w = Return b) ws).
  { eapply Permutation_Forall; [apply sort_perm|exact Hnone]. }
  destruct (mapM_startAll _ _ _ Hws Hall) as [pushed [Hrun Hsnd]].
  exists pushed. split; [exact Hrun|].
  rewrite <- (pushedBy_returned ws pushed Hsnd).
  apply pushedBy_perm, sort_perm.
Qed.

(** Workers that all settle at once push in their starting order. *)
Lemma sort_bySettled_immediate B (ws : list (Net.Settled B)) :
  Forall (fun w => fst w = None) ws -> sort Net.bySettled ws = ws.
Proof.
  induction 1 as [|w ws Hw Hws IH]; [reflexivity|].
  cbn [sort]. rewrite IH. destruct ws as [|w' ws']; [reflexivity|].
  cbn [insertSorted]. unfold Net.bySettled. now rewrite Hw.
Qed.

(** Workers that each push one element at once. *)
Lemma pushedBy_singletons A B (g : A -> B) (items : list A) :
  Net.firstThrown (map (fun item => (@None Z, Return [g item])) items) = None
  /\ Net.pushedBy (map (fun item => (@None Z, Return [g item])) items)
     = map g items.
Proof.
  induction items as [|item items [IH1 IH2]]; [now split|].
  cbn [map Net.firstThrown Net.pushedBy]. rewrite IH1, IH2. now split.
Qed.

End Workers.

(** What the oracle answered along a trace made of two parts. *)
Lemma answers_app Req Resp (oracle : Net.Oracle Req Resp)
      (a b : list (Event Req)) :
  forall t, Net.answers oracle t (a ++ b)
            = Net.answers oracle t a ++ Net.answers oracle (t ++ a) b.
Proof.
  induction a as [|[r|ms] a IH]; intros t; cbn [app Net.answers].
  - now rewrite app_nil_r.
  - rewrite IH, <- app_assoc. reflexivity.
  - rewrite IH, <- app_assoc. reflexivity.
Qed.

(* ================================================================== *)
(** * Properties of link mode *)
(* ================================================================== *)

Lemma includes_nonempty (s needle : jsstring) :
  includes s needle = true -> needle <> [] -> s <> [].
Proof.
  intros H Hneedle ->. cbn in H. rewrite orb_false_r in H.
  unfold startsWith in H.
  destruct (stripPrefix needle []) as [rest|] eqn:E; [|discriminate H].
  apply stripPrefix_spec in E. symmetry in E.
  apply app_eq_nil in E as [E _]. contradiction.
Qed.

Lemma filterBoolean_cons (o : option jsstring) (l : list (option jsstring)) :
  Links.filterBoolean (o :: l)
  = match o with
    | Some (c :: s) => [c :: s]
    | _ => []
    end ++ Links.filterBoolean l.
Proof. destruct o as [[|c s]|]; reflexivity. Qed.

(** What becomes of one link: nothing when it names the discussion site
    without being the link of a post, its form on the old site when it is
    one, and the link itself, with a scheme, when it names another site. *)
Lemma normalizeLink_kept (link : jsstring) :
  let url :=
    if startsWith link (lit "http://") || startsWith link (lit "https://")
    then link else lit "https://" ++ link in
  let bare := splitHead url "?"%char in
  match Links.normalizeLink link with
  | Some (c :: s) => [c :: s]
  | _ => []
  end
  = if includes url (lit "reddit.com")
    then if includes bare (lit "klp/") || includes bare (lit "/t/")
            || negb (includes bare (lit "/comments/"))
         then []
         else [if includes bare (lit "www.reddit.com")
               then replaceFirst bare (lit "www.reddit.com")
                                 (lit "old.reddit.com")
               else if includes bare (lit "reddit.com")
                       && negb (includes bare (lit "old.reddit.com"))
               then replaceFirst bare (lit "reddit.com")
                                 (lit "old.reddit.com")
               else bare]
    else [url].
Proof.
  cbv zeta. unfold Links.normalizeLink.
  set (url := if startsWith link (lit "http://")
                 || startsWith link (lit "https://")
              then link else lit "https://" ++ link).
  assert (Hurl : url <> []).
  { unfold url. destruct (startsWith link (lit "http://")) eqn:E1.
    - cbn [orb]. intros ->. discriminate E1.
    - destruct (startsWith link (lit "https://")) eqn:E2; cbn [orb].
      + intros ->. discriminate E2.
      + discriminate. }
  destruct (includes url (lit "reddit.com")).
  - set (bare := splitHead url "?"%char).
    destruct (includes bare (lit "klp/")); [reflexivity|].
    destruct (includes bare (lit "/t/")); [reflexivity|].
    destruct (includes bare (lit "/comments/")) eqn:Hpost; [|reflexivity].
    cbn [orb negb].
    assert (Hbare : bare <> [])
      by (apply (@includes_nonempty bare (lit "/comments/") Hpost);
          discriminate).
    destruct (includes bare (lit "www.reddit.com")) eqn:Hwww.
    + pose proof (replaceFirst_includes bare (lit "www.reddit.com")
                                        (lit "old.reddit.com") Hwww) as Hold.
      apply includes_nonempty in Hold; [|discriminate].
      destruct (replaceFirst bare (lit "www.reddit.com") (lit "old.reddit.com"));
        [contradiction|reflexivity].
    + destruct (includes bare (lit "reddit.com")
                && negb (includes bare (lit "old.reddit.com"))) eqn:Hplain.
      * apply andb_true_iff in Hplain as [Hplain _].
        pose proof (replaceFirst_includes bare (lit "reddit.com")
                                          (lit "old.reddit.com") Hplain) as Hold.
        apply includes_nonempty in Hold; [|discriminate].
        destruct (replaceFirst bare (lit "reddit.com") (lit "old.reddit.com"));
          [contradiction|reflexivity].
      * destruct bare; [contradiction|reflexivity].
  - destruct url; [contradiction|reflexivity].
Qed.

Lemma answers_requests A Req Resp (oracle : Net.Oracle Req Resp)
      (f : A -> Req) (l : list A) :
  forall t, map fst (Net.answers oracle t (map (fun x => Request (f x)) l))
            = map f l.
Proof.
  induction l as [|x l IH]; intros t; cbn [map Net.answers fst];
    [reflexivity|now rewrite IH].
Qed.

Lemma answers_waits Req Resp (oracle : Net.Oracle Req Resp)
      (waits : list (Event Req)) :
  Forall (fun ev => exists ms, ev = Sleep ms) waits ->
  forall t, Net.answers oracle t waits = [].
Proof.
  induction 1 as [|ev waits [ms ->] _ IH]; intros t; cbn [Net.answers];
    [reflexivity|apply IH].
Qed.

Section LinksFacts.

Variable env : Links.Env.
Variable htmlToText : jsstring -> Result jsstring.
Variable oracle : Net.Oracle Links.ProxyRequest Links.ProxyResponse.
Variable settledAt : list (Event Links.ProxyRequest) -> Z.

Local Abbreviation processLink := (Links.processLink env htmlToText oracle).
Local Abbreviation batchLoop :=
  (Links.batchLoop env htmlToText oracle settledAt).
Local Abbreviation getDocumentsFromLinks :=
  (Links.getDocumentsFromLinks env htmlToText oracle settledAt).
Local Abbreviation requestFor link :=
  (Links.mkProxyRequest (Links.baseUrl env) link).
Local Abbreviation pushedOf :=
  (fun asked : Links.ProxyRequest * Result Links.ProxyResponse =>
     Links.pushedFor htmlToText (Links.target (fst asked)) (snd asked)).
Local Abbreviation notFetched link :=
  (Links.failureDocument
     link (Error (lit "Direct fetching not implemented for simplicity"))).

Lemma links_batchLoop_unfold (fuel : nat) (toProcess : list jsstring) (i : Z)
      (docs : list Document) :
  batchLoop (S fuel) toProcess i docs
  = if (i <? Z.of_nat (length toProcess))%Z then
      Net.bind
        (Net.pushAll settledAt processLink
                     (slice toProcess i (i + Links.BATCH_SIZE)))
        (fun pushed =>
           Net.bind
             (if (i + Links.BATCH_SIZE <? Z.of_nat (length toProcess))%Z
              then Net.sleep Links.BATCH_DELAY else Net.ret tt)
             (fun _ =>
                batchLoop fuel toProcess (i + Links.BATCH_SIZE)
                          (docs ++ pushed)))
    else Net.ret docs.
Proof. reflexivity. Qed.

(** More fuel than the links left changes nothing. *)
Lemma links_batchLoop_fuel (toProcess : list jsstring) :
  forall fuel i docs t,
    (0 <= i)%Z ->
    (Z.of_nat (length toProcess) - i <= Z.of_nat fuel)%Z ->
    batchLoop (S fuel) toProcess i docs t = batchLoop fuel toProcess i docs t.
Proof.
  induction fuel as [|fuel IH]; intros i docs t Hi Hfuel.
  - rewrite links_batchLoop_unfold.
    replace (i <? Z.of_nat (length toProcess))%Z with false
      by (symmetry; apply Z.ltb_ge; lia).
    reflexivity.
  - rewrite (links_batchLoop_unfold (S fuel)), (links_batchLoop_unfold fuel).
    destruct (i <? Z.of_nat (length toProcess))%Z; [|reflexivity].
    unfold Net.bind at 1 3.
    destruct (Net.pushAll settledAt processLink
                (slice toProcess i (i + Links.BATCH_SIZE)) t)
      as [[pushed|e] t1]; [|reflexivity].
    unfold Net.bind.
    destruct ((if (i + Links.BATCH_SIZE <? Z.of_nat (length toProcess))%Z
               then Net.sleep Links.BATCH_DELAY else Net.ret tt) t1)
      as [[[]|e] t2]; [|reflexivity].
    apply IH; unfold Links.BATCH_SIZE; lia.
Qed.

(** The worker of a link, by what the proxy answers: on the production host
    it asks the proxy for a link that names the discussion site, and pushes
    what that answer gives; anywhere else it asks nothing. *)
Lemma processLink_cases (link : jsstring) (t : list (Event Links.ProxyRequest)) :
  processLink link t
  = if Links.isProduction env && includes link (lit "reddit.com")
    then (Return (Links.pushedFor htmlToText link (oracle t (requestFor link))),
          t ++ [Request (requestFor link)])
    else (Return [notFetched link], t).
Proof.
  unfold Links.processLink, Links.fetchAndExtract, Net.tryCatch.
  unfold Net.bind at 1.
  destruct (Links.isProduction env && includes link (lit "reddit.com")) eqn:E;
    [|reflexivity].
  apply andb_true_iff in E as [_ Hreddit].
  unfold Links.fetchViaProxy, Net.bind, Net.request, Net.throw, Net.lift,
    Net.ret, Links.pushedFor.
  destruct (oracle t (requestFor link)) as [resp|e]; [|reflexivity].
  destruct (negb (Links.ok resp)); [reflexivity|].
  destruct (Links.bodyText resp) as [html|e]; [|reflexivity].
  destruct (length html <? 1000); [reflexivity|].
  rewrite Hreddit.
  now destruct (Extractor.success
                  (Extractor.extractRedditContent htmlToText html)).
Qed.

Lemma length_pushedFor (link : jsstring) (answer : Result Links.ProxyResponse) :
  length (Links.pushedFor htmlToText link answer) <= 1.
Proof.
  unfold Links.pushedFor.
  destruct answer as [resp|e]; [|cbn; lia].
  destruct (negb (Links.ok resp)); [cbn; lia|].
  destruct (Links.bodyText resp) as [html|e]; [|cbn; lia].
  destruct (length html <? 1000); [cbn; lia|].
  destruct (Extractor.success (Extractor.extractRedditContent htmlToText html));
    cbn; lia.
Qed.

(** A worker never throws, pushes at most one document and sends at most one
    request, for its own link. *)
Lemma processLink_total (link : jsstring) (t : list (Event Links.ProxyRequest)) :
  exists ds new,
    processLink link t = (Return ds, t ++ new)
    /\ length ds <= 1
    /\ Forall (Links.fetches [link]) new.
Proof.
  rewrite processLink_cases.
  destruct (Links.isProduction env && includes link (lit "reddit.com")).
  - eexists. eexists. split; [reflexivity|].
    split; [apply length_pushedFor|].
    constructor; [now left|constructor].
  - eexists. exists []. rewrite app_nil_r. split; [reflexivity|].
    split; [cbn; lia|constructor].
Qed.

Lemma fetches_incl (small large : list jsstring) (ev : Event Links.ProxyRequest) :
  incl small large -> Links.fetches small ev -> Links.fetches large ev.
Proof. intros Hincl. destruct ev as [r|ms]; simpl; auto. Qed.

Lemma mapM_processLink_total (links all : list jsstring)
      (t : list (Event Links.ProxyRequest)) :
  incl links all ->
  exists pushed new,
    Net.mapM processLink links t = (Return pushed, t ++ new)
    /\ length (concat pushed) <= length links
    /\ Forall (Links.fetches all) new.
Proof.
  revert t. induction links as [|link links IH]; intros t Hincl.
  - exists [], []. rewrite app_nil_r. split; [reflexivity|]. split; [cbn; lia|constructor].
  - destruct (processLink_total link t) as (ds & new1 & Hrun1 & Hlen1 & Hall1).
    destruct (IH (t ++ new1)) as (pushed & new2 & Hrun2 & Hlen2 & Hall2).
    { intros x Hx. apply Hincl. now right. }
    exists (ds :: pushed), (new1 ++ new2).
    cbn [Net.mapM]. unfold Net.bind at 1. rewrite Hrun1.
    unfold Net.bind at 1. rewrite Hrun2. unfold Net.ret. rewrite app_assoc.
    split; [reflexivity|]. split.
    + cbn [concat length]. rewrite length_app. lia.
    + apply Forall_app. split; [|exact Hall2].
      eapply Forall_impl; [|exact Hall1].
      intros ev. apply fetches_incl. intros x [<-|[]]. apply Hincl. now left.
Qed.

Lemma links_batchLoop_total (toProcess : list jsstring) :
  forall fuel i docs t,
    (0 <= i)%Z ->
    exists ds new,
      batchLoop fuel toProcess i docs t = (Return (docs ++ ds), t ++ new)
      /\ length ds <= length toProcess - Z.to_nat i
      /\ Forall (Links.fetches toProcess) new.
Proof.
  induction fuel as [|fuel IH]; intros i docs t Hi.
  - exists [], []. rewrite !app_nil_r. split; [reflexivity|]. split; [cbn; lia|constructor].
  - cbn [Links.batchLoop].
    destruct (Z.ltb_spec i (Z.of_nat (length toProcess))) as [Hlt|Hge].
    + rewrite (@slice_window _ toProcess i Links.BATCH_SIZE)
        by (unfold Links.BATCH_SIZE; lia).
      set (batch := firstn (Z.to_nat Links.BATCH_SIZE) (skipn (Z.to_nat i) toProcess)).
      destruct (@mapM_processLink_total batch toProcess t)
        as (pushed & new1 & Hrun1 & Hlen1 & Hall1).
      { intros x Hx. unfold batch in Hx. now apply In_firstn, In_skipn in Hx. }
      destruct (pushAll_mapM settledAt _ _ _ Hrun1) as (ds1 & Hpush & Hperm).
      unfold Net.bind at 1. rewrite Hpush. unfold Net.bind at 1.
      set (pause := if (i + Links.BATCH_SIZE <? Z.of_nat (length toProcess))%Z
                    then Net.sleep Links.BATCH_DELAY else Net.ret tt).
      assert (Hpause : exists new2,
                 pause (t ++ new1) = (Return tt, (t ++ new1) ++ new2)
                 /\ Forall (Links.fetches toProcess) new2).
      { unfold pause.
        destruct (i + Links.BATCH_SIZE <? Z.of_nat (length toProcess))%Z.
        - exists [Sleep Links.BATCH_DELAY]. split; [reflexivity|].
          constructor; [reflexivity|constructor].
        - exists []. rewrite app_nil_r. split; [reflexivity|constructor]. }
      destruct Hpause as (new2 & Hpause & Hall2). rewrite Hpause.
      destruct (IH (i + Links.BATCH_SIZE)%Z (docs ++ ds1)
                   ((t ++ new1) ++ new2)) as (ds & new3 & Hrun3 & Hlen3 & Hall3).
      { unfold Links.BATCH_SIZE. lia. }
      exists (ds1 ++ ds), (new1 ++ new2 ++ new3).
      rewrite Hrun3, !app_assoc. split; [reflexivity|]. split.
      * rewrite length_app, (Permutation_length Hperm).
        assert (length batch <= Z.to_nat Links.BATCH_SIZE)
          by (unfold batch; apply firstn_le_length).
        assert (length batch <= length toProcess - Z.to_nat i).
        { unfold batch. rewrite length_firstn, length_skipn. lia. }
        unfold Links.BATCH_SIZE in *. lia.
      * rewrite <- !app_assoc. repeat (apply Forall_app; split); assumption.
    + exists [], []. rewrite !app_nil_r. split; [reflexivity|].
      split; [cbn; lia|constructor].
Qed.

(** ** On the production host *)

(** The events of the batches: the requests of two links, a wait, the
    requests of the next two, and so on; no wait after the last batch. *)
Local Abbreviation batches :=
  (fix batches (toProcess : list jsstring) : list (Event Links.ProxyRequest) :=
     match toProcess with
     | first :: second :: ((_ :: _) as rest) =>
         Request (requestFor first) :: Request (requestFor second)
                 :: Sleep 5000 :: batches rest
     | _ => map (fun link => Request (requestFor link)) toProcess
     end).

Lemma batches_unfold (toProcess : list jsstring) :
  batches toProcess
  = map (fun link => Request (requestFor link)) (firstn 2 toProcess)
    ++ (if 2 <? length toProcess then [Sleep 5000] else [])
    ++ batches (skipn 2 toProcess).
Proof. destruct toProcess as [|a [|b [|c rest]]]; reflexivity. Qed.

(** The workers of links that name the discussion site: one request each,
    in the order of the links, and what each answer gives. *)
Lemma mapM_processLink_production (links : list jsstring) :
  Links.isProduction env = true ->
  Forall (fun link => includes link (lit "reddit.com") = true) links ->
  forall t,
    Net.mapM processLink links t
    = (Return (map pushedOf
                   (Net.answers oracle t
                                (map (fun link => Request (requestFor link))
                                     links))),
       t ++ map (fun link => Request (requestFor link)) links).
Proof.
  intros Hprod Hall. induction Hall as [|link links Hlink _ IH]; intros t.
  - cbn. unfold Net.ret. now rewrite app_nil_r.
  - cbn [Net.mapM]. unfold Net.bind at 1.
    rewrite processLink_cases, Hprod, Hlink. cbn [andb].
    unfold Net.bind at 1. rewrite IH. unfold Net.ret.
    cbn [map Net.answers fst snd Links.target]. rewrite <- app_assoc.
    reflexivity.
Qed.

Lemma links_batchLoop_production (toProcess : list jsstring) :
  Links.isProduction env = true ->
  Forall (fun link => includes link (lit "reddit.com") = true) toProcess ->
  forall fuel i docs t,
    (0 <= i)%Z ->
    (Z.of_nat (length toProcess) - i <= Z.of_nat fuel)%Z ->
    exists ds new,
      batchLoop fuel toProcess i docs t = (Return (docs ++ ds), t ++ new)
      /\ Permutation ds (flat_map pushedOf (Net.answers oracle t new))
      /\ map fst (Net.answers oracle t new)
         = map (fun link => requestFor link) (skipn (Z.to_nat i) toProcess)
      /\ new = batches (skipn (Z.to_nat i) toProcess).
Proof.
  intros Hprod Hreddit.
  induction fuel as [|fuel IH]; intros i docs t Hi Hfuel.
  - exists [], []. rewrite !app_nil_r, skipn_all2 by lia.
    split; [reflexivity|]. split; [constructor|]. split; reflexivity.
  - cbn [Links.batchLoop].
    destruct (Z.ltb_spec i (Z.of_nat (length toProcess))) as [Hlt|Hge].
    + rewrite (@slice_window _ toProcess i Links.BATCH_SIZE)
        by (unfold Links.BATCH_SIZE; lia).
      set (batch := firstn (Z.to_nat Links.BATCH_SIZE) (skipn (Z.to_nat i) toProcess)).
      assert (Hbatch : Forall (fun link => includes link (lit "reddit.com") = true)
                              batch).
      { apply Forall_forall. intros x Hx. unfold batch in Hx.
        apply In_firstn, In_skipn in Hx.
        rewrite Forall_forall in Hreddit. now apply Hreddit. }
      pose proof (mapM_processLink_production Hprod Hbatch t) as Hrun1.
      set (asked := map (fun link => Request (requestFor link)) batch) in *.
      destruct (pushAll_mapM settledAt _ _ _ Hrun1) as (ds1 & Hpush & Hperm).
      unfold Net.bind at 1. rewrite Hpush. unfold Net.bind at 1.
      set (pause := if (i + Links.BATCH_SIZE <? Z.of_nat (length toProcess))%Z
                    then Net.sleep Links.BATCH_DELAY else Net.ret tt).
      set (waits := if 2 <? length (skipn (Z.to_nat i) toProcess)
                    then [@Sleep Links.ProxyRequest 5000] else []).
      assert (Hpause : pause (t ++ asked) = (Return tt, (t ++ asked) ++ waits)).
      { unfold pause, waits. rewrite length_skipn.
        destruct (Z.ltb_spec (i + Links.BATCH_SIZE) (Z.of_nat (length toProcess)))
          as [Hmore|Hlast]; unfold Links.BATCH_SIZE in *.
        - replace (2 <? length toProcess - Z.to_nat i) with true
            by (symmetry; apply Nat.ltb_lt; lia).
          reflexivity.
        - replace (2 <? length toProcess - Z.to_nat i) with false
            by (symmetry; apply Nat.ltb_ge; lia).
          unfold Net.ret. now rewrite app_nil_r. }
      assert (Hwaits : Forall (fun ev => ev = Sleep 5000) waits).
      { unfold waits.
        destruct (2 <? length (skipn (Z.to_nat i) toProcess));
          repeat constructor. }
      rewrite Hpause.
      destruct (IH (i + Links.BATCH_SIZE)%Z (docs ++ ds1)
                   ((t ++ asked) ++ waits))
        as (ds & new3 & Hrun3 & Hperm3 & Hasked3 & Hall3).
      { unfold Links.BATCH_SIZE. lia. }
      { unfold Links.BATCH_SIZE. lia. }
      assert (Hquiet : forall t0, Net.answers oracle t0 waits = []).
      { apply answers_waits. eapply Forall_impl; [|exact Hwaits].
        intros ev ->. now exists 5000%Z. }
      assert (Hsplit : Net.answers oracle t (asked ++ waits ++ new3)
                       = Net.answers oracle t asked
                         ++ Net.answers oracle ((t ++ asked) ++ waits) new3).
      { now rewrite !answers_app, Hquiet. }
      exists (ds1 ++ ds), (asked ++ waits ++ new3).
      rewrite Hrun3, Hsplit. split; [now rewrite <- !app_assoc|].
      split; [|split].
      * rewrite flat_map_app. apply Permutation_app; [|exact Hperm3].
        now rewrite flat_map_concat_map.
      * rewrite map_app, Hasked3. unfold asked. rewrite answers_requests.
        rewrite <- map_app. f_equal. unfold batch.
        replace (Z.to_nat (i + Links.BATCH_SIZE))
          with (Z.to_nat Links.BATCH_SIZE + Z.to_nat i)
          by (unfold Links.BATCH_SIZE; lia).
        rewrite <- skipn_skipn. apply firstn_skipn.
      * rewrite (batches_unfold (skipn (Z.to_nat i) toProcess)).
        rewrite Hall3, skipn_skipn.
        replace (Z.to_nat (i + Links.BATCH_SIZE)) with (2 + Z.to_nat i)
          by (unfold Links.BATCH_SIZE; lia).
        reflexivity.
    + exists [], []. rewrite !app_nil_r, skipn_all2 by lia.
      split; [reflexivity|]. split; [constructor|].
      split; reflexivity.
Qed.

(** ** On any other host *)

Lemma processLink_local (link : jsstring)
      (t : list (Event Links.ProxyRequest)) :
  Links.isProduction env = false ->
  processLink link t = (Return [notFetched link], t).
Proof. intros Hlocal. now rewrite processLink_cases, Hlocal. Qed.

(** The workers ask nothing, settle at once and push in the order of the
    links. *)
Lemma pushAll_processLink_local (links : list jsstring)
      (t : list (Event Links.ProxyRequest)) :
  Links.isProduction env = false ->
  Net.pushAll settledAt processLink links t
  = (Return (map (fun link => notFetched link) links), t).
Proof.
  intros Hlocal. unfold Net.pushAll.
  assert (Hstart : Net.startAll settledAt processLink links t
                   = (map (fun link => (None, Return [notFetched link])) links,
                      t)).
  { induction links as [|link links IH]; [reflexivity|].
    cbn [Net.startAll]. rewrite (processLink_local link t Hlocal).
    rewrite Nat.eqb_refl, IH. reflexivity. }
  rewrite Hstart. rewrite sort_bySettled_immediate.
  - destruct (pushedBy_singletons (fun link => notFetched link) links)
      as [Hnone Hpushed].
    now rewrite Hnone, Hpushed.
  - apply Forall_forall. intros w Hw.
    apply in_map_iff in Hw as [link [<- _]]. reflexivity.
Qed.

Lemma links_batchLoop_local (toProcess : list jsstring) :
  Links.isProduction env = false ->
  forall fuel i docs t,
    (0 <= i)%Z ->
    (Z.of_nat (length toProcess) - i <= Z.of_nat fuel)%Z ->
    exists waits,
      batchLoop fuel toProcess i docs t
      = (Return (docs ++ map (fun link => notFetched link)
                             (skipn (Z.to_nat i) toProcess)),
         t ++ waits)
      /\ Forall (fun ev => ev = Sleep Links.BATCH_DELAY) waits
      /\ waits = repeat (Sleep 5000)
                        ((length toProcess - Z.to_nat i - 1) / 2).
Proof.
  intros Hlocal.
  induction fuel as [|fuel IH]; intros i docs t Hi Hfuel.
  - exists []. rewrite skipn_all2 by lia. cbn [map]. rewrite !app_nil_r.
    split; [reflexivity|]. split; [constructor|].
    replace (length toProcess - Z.to_nat i - 1) with 0 by lia.
    reflexivity.
  - cbn [Links.batchLoop].
    destruct (Z.ltb_spec i (Z.of_nat (length toProcess))) as [Hlt|Hge].
    + rewrite (@slice_window _ toProcess i Links.BATCH_SIZE)
        by (unfold Links.BATCH_SIZE; lia).
      set (batch := firstn (Z.to_nat Links.BATCH_SIZE) (skipn (Z.to_nat i) toProcess)).
      unfold Net.bind at 1. rewrite (pushAll_processLink_local batch t Hlocal).
      unfold Net.bind at 1.
      set (pause := if (i + Links.BATCH_SIZE <? Z.of_nat (length toProcess))%Z
                    then Net.sleep Links.BATCH_DELAY else Net.ret tt).
      assert (Hpause : exists waits,
                 pause t = (Return tt, t ++ waits)
                 /\ Forall (fun ev => ev = Sleep Links.BATCH_DELAY) waits
                 /\ waits = repeat (Sleep 5000)
                                   (if (i + 2 <? Z.of_nat (length toProcess))%Z
                                    then 1 else 0)).
      { unfold pause, Links.BATCH_SIZE.
        destruct (i + 2 <? Z.of_nat (length toProcess))%Z.
        - exists [Sleep Links.BATCH_DELAY]. split; [reflexivity|].
          split; [now constructor|reflexivity].
        - exists []. rewrite app_nil_r. split; [reflexivity|].
          split; [constructor|reflexivity]. }
      destruct Hpause as (waits1 & Hpause & Hall1 & Hcount1). rewrite Hpause.
      destruct (IH (i + Links.BATCH_SIZE)%Z
                   (docs ++ map (fun link => notFetched link) batch)
                   (t ++ waits1)) as (waits2 & Hrun & Hall2 & Hcount2).
      { unfold Links.BATCH_SIZE. lia. }
      { unfold Links.BATCH_SIZE. lia. }
      exists (waits1 ++ waits2). rewrite Hrun. rewrite <- !app_assoc.
      split; [|split; [now apply Forall_app|]].
      * f_equal. f_equal. f_equal. rewrite <- map_app. f_equal.
        unfold batch.
        replace (Z.to_nat (i + Links.BATCH_SIZE))
          with (Z.to_nat Links.BATCH_SIZE + Z.to_nat i)
          by (unfold Links.BATCH_SIZE; lia).
        rewrite <- skipn_skipn. apply firstn_skipn.
      * rewrite Hcount1, Hcount2, <- repeat_app. f_equal.
        unfold Links.BATCH_SIZE.
        destruct (Z.ltb_spec (i + 2) (Z.of_nat (length toProcess))).
        -- replace (length toProcess - Z.to_nat i - 1)
             with (length toProcess - Z.to_nat (i + 2) - 1 + 1 * 2) by lia.
           rewrite Nat.div_add by lia. lia.
        -- replace (length toProcess - Z.to_nat (i + 2) - 1) with 0 by lia.
           assert (length toProcess - Z.to_nat i - 1 < 2) by lia.
           rewrite (Nat.div_small (length toProcess - Z.to_nat i - 1)) by lia.
           reflexivity.
    + exists []. rewrite skipn_all2 by lia. cbn [map]. rewrite !app_nil_r.
      split; [reflexivity|]. split; [constructor|].
      replace (length toProcess - Z.to_nat i - 1) with 0 by lia.
      reflexivity.
Qed.

(** ** The links that are read *)

Lemma normalizedLinks_kept (links : list jsstring) :
  Links.normalizedLinks links
  = flat_map (fun link =>
                match Links.normalizeLink link with
                | Some (c :: s) => [c :: s]
                | _ => []
                end) links.
Proof.
  unfold Links.normalizedLinks.
  induction links as [|link links IH]; [reflexivity|].
  cbn [map flat_map]. now rewrite filterBoolean_cons, IH.
Qed.


End LinksFacts.


(** A post link, a link to another site and a link to a forum page, in
    production with a proxy that answers: one request, for the post link on
    the old host; the extracted discussion, then the placeholder; nothing for
    the forum page. *)
Example link_mode_sample :
  Links.getDocumentsFromLinks Samples.production Samples.keepText
    Samples.proxyPage Samples.inOrder
    [lit "https://www.reddit.com/r/keyboards/comments/1/best_kb/?utm_source=share";
     lit "example.com/paper.pdf";
     lit "https://www.reddit.com/r/keyboards/"] []
  = (Return
       [mkDoc (lit "# Best kb" ++ nl ++ nl ++ lit "## Original Post" ++ nl ++ nl
               ++ lit "Which one?" ++ nl ++ nl ++ lit "## Comments" ++ nl ++ nl
               ++ lit "**al (25 points)**:" ++ nl ++ lit "Blue, always" ++ nl ++ nl
               ++ lit "**bob (9 points)**:" ++ nl ++ lit "Get the red one" ++ nl ++ nl
               ++ lit "**cy (9 points)**:" ++ nl ++ lit "Green")
              (mkMeta (Some (lit "Best kb"))
                      (Some (lit "https://old.reddit.com/r/keyboards/comments/1/best_kb/"))
                      (Some 3%Z) true);
        Links.placeholderDocument (lit "https://example.com/paper.pdf")],
     [Request (Links.mkProxyRequest
                 (lit "https://app.example.com")
                 (lit "https://old.reddit.com/r/keyboards/comments/1/best_kb/"))]).
Proof. vm_compute. reflexivity. Qed.

(** Two threads of one batch on a proxy that is down: the failure documents
    come in the order the two fetches end. *)
Example link_mode_settle_order :
  let links := [lit "https://old.reddit.com/r/a/comments/1/x/";
                lit "https://old.reddit.com/r/a/comments/2/y/"] in
  map (fun doc => meta_url (metadata doc))
      (match fst (Links.getDocumentsFromLinks
                    Samples.production Samples.keepText Samples.proxyDown
                    Samples.lastFirst links []) with
       | Return docs => docs
       | Throw _ => []
       end)
  = [Some (lit "https://old.reddit.com/r/a/comments/2/y/");
     Some (lit "https://old.reddit.com/r/a/comments/1/x/")].
Proof. vm_compute. reflexivity. Qed.

(* ================================================================== *)
(** * Properties of the web search wrapper *)
(* ================================================================== *)

Lemma getIn_setIn_other (ps : list (jsstring * jsstring))
      (name value other : jsstring) (found : bool) :
  name <> other ->
  Search.getIn (Search.setIn ps name value found) other = Search.getIn ps other.
Proof.
  intros Hne. revert found.
  induction ps as [|[n v] ps IH]; intros found; simpl.
  - destruct found; simpl; [reflexivity|].
    destruct (str_eqb name other) eqn:E; [|reflexivity].
    apply str_eqb_eq in E. contradiction.
  - destruct (str_eqb n name) eqn:En.
    + apply str_eqb_eq in En. subst n.
      assert (Eo : str_eqb name other = false).
      { destruct (str_eqb name other) eqn:E; [|reflexivity].
        apply str_eqb_eq in E. contradiction. }
      destruct found; simpl; rewrite ?Eo; apply IH.
    + simpl. destruct (str_eqb n other); [reflexivity|apply IH].
Qed.

Lemma get_set_start (u : Search.Url) (value : jsstring) :
  Search.get (Search.set u (lit "start") value) (lit "q")
  = Search.get u (lit "q").
Proof.
  unfold Search.get, Search.set. simpl.
  apply getIn_setIn_other. discriminate.
Qed.

Section SearchFuel.
Variable oracle : Net.Oracle Search.Url Search.ResponseData.

Lemma pageLoop_unfold (fuel : nat) (url : Search.Url)
      (numResults maxPages currentPage : Z)
      (allResults : list Search.SearchResult) :
  Search.pageLoop oracle (S fuel) url numResults maxPages currentPage allResults
  = if (currentPage <=? maxPages)%Z
       && (Z.of_nat (length allResults) <? numResults)%Z
    then
      Net.bind
        (Net.tryCatch
           (Net.bind
              (Net.request oracle
                 (Search.set url (lit "start")
                             (numToString ((currentPage - 1) * 10 + 1))))
              (fun nextPageResponse => Net.ret (Some nextPageResponse)))
           (fun _ => Net.ret None))
        (fun answer =>
           match answer with
           | Some nextPageResponse =>
               match Search.items nextPageResponse with
               | Some its =>
                   Search.pageLoop oracle fuel url numResults maxPages
                                   (currentPage + 1)
                                   (allResults ++ map Search.toResult its)
               | None => Net.ret allResults
               end
           | None => Net.ret allResults
           end)
    else Net.ret allResults.
Proof. reflexivity. Qed.

(** More fuel than the pages left changes nothing. *)
Lemma pageLoop_fuel (url : Search.Url) (numResults maxPages : Z) :
  forall fuel currentPage allResults t,
    (maxPages + 1 - currentPage <= Z.of_nat fuel)%Z ->
    Search.pageLoop oracle (S fuel) url numResults maxPages currentPage
                    allResults t
    = Search.pageLoop oracle fuel url numResults maxPages currentPage
                      allResults t.
Proof.
  induction fuel as [|fuel IH]; intros currentPage allResults t Hfuel.
  - rewrite pageLoop_unfold.
    replace (currentPage <=? maxPages)%Z with false
      by (symmetry; apply Z.leb_gt; lia).
    reflexivity.
  - rewrite (pageLoop_unfold (S fuel)), (pageLoop_unfold fuel).
    destruct ((currentPage <=? maxPages)%Z
              && (Z.of_nat (length allResults) <? numResults)%Z);
      [|reflexivity].
    unfold Net.bind at 1 3.
    match goal with
    | |- context [Net.tryCatch ?a ?b t] =>
        destruct (Net.tryCatch a b t) as [[[resp|]|e] t']
    end; try reflexivity.
    destruct (Search.items resp); [|reflexivity].
    apply IH. lia.
Qed.
End SearchFuel.

Section SearchFacts.

Variable apiKey searchEngineId : option jsstring.
Variable oracle : Net.Oracle Search.Url Search.ResponseData.

Local Abbreviation searchGoogle := (Search.searchGoogle apiKey searchEngineId oracle).
Local Abbreviation buildUrl := (Search.buildUrl apiKey searchEngineId).

Lemma get_buildUrl_q (query : jsstring) (opts : option Search.Options) :
  Search.get (buildUrl query opts) (lit "q") = Some query.
Proof.
  unfold Search.buildUrl, Search.get, Search.append. simpl.
  destruct opts as [o|]; simpl; [|reflexivity].
  destruct (Search.pageno o) as [p|]; [destruct (p >? 1)%Z|];
    destruct (truthy (Search.language o)); reflexivity.
Qed.

(** The pagination loop never throws, and every request it sends keeps the
    query of the first one. *)
Lemma pageLoop_total (q : jsstring) (url : Search.Url) (numResults maxPages : Z) :
  Search.get url (lit "q") = Some q ->
  forall fuel currentPage allResults t,
  exists rs new,
    Search.pageLoop oracle fuel url numResults maxPages currentPage allResults t
    = (Return rs, t ++ new)
    /\ Forall (Search.sends q) new.
Proof.
  intros Hq. induction fuel as [|fuel IH]; intros currentPage allResults t.
  - exists allResults, []. simpl. unfold Net.ret. now rewrite app_nil_r.
  - cbn [Search.pageLoop].
    destruct ((currentPage <=? maxPages)%Z
              && (Z.of_nat (length allResults) <? numResults)%Z).
    + match goal with
      | |- context [Search.set url (lit "start") ?v] =>
          set (next := Search.set url (lit "start") v)
      end.
      assert (Hnext : Search.sends q (Request next)).
      { unfold Search.sends, next. now rewrite get_set_start. }
      unfold Net.bind, Net.tryCatch, Net.request, Net.ret.
      destruct (oracle t next) as [resp|e].
      * destruct (Search.items resp) as [its|].
        -- destruct (IH (currentPage + 1)%Z
                        (allResults ++ map Search.toResult its)
                        (t ++ [Request next])) as (rs & new & Hrun & Hall).
           exists rs, (Request next :: new).
           unfold Net.bind, Net.tryCatch, Net.request, Net.ret in Hrun.
           rewrite Hrun. rewrite <- app_assoc. split; [reflexivity|].
           now constructor.
        -- exists allResults, [Request next]. split; [reflexivity|].
           now constructor.
      * exists allResults, [Request next]. split; [reflexivity|].
        now constructor.
    + exists allResults, []. unfold Net.ret. now rewrite app_nil_r.
Qed.


End SearchFacts.



(** A configured wrapper in front of an API that answers two items: one
    request, with the prefixed query, and the two results. *)
Example searchGoogle_sample :
  Search.searchGoogle Samples.searchKey Samples.searchEngine
                      Samples.searchTwoItems (lit "budget keyboard")
                      (Some (Search.mkOptions (Some (lit "en")) None None
                                              (Some 20%Z))) []
  = (Return
       (Search.mkOutput
          [Search.mkResult (lit "Best kb")
                           (lit "https://www.reddit.com/r/keyboards/comments/1/best_kb/")
                           (Some (lit "Which one?")) None None;
           Search.mkResult (lit "Keyboards") (lit "https://example.com/keyboards")
                           None None None]
          []),
     [Request
        (Search.mkUrl (lit "https://www.googleapis.com/customsearch/v1")
                      [(lit "key", lit "key-1"); (lit "cx", lit "engine-1");
                       (lit "q", lit "Reddit budget keyboard");
                       (lit "lr", lit "lang_en"); (lit "num", lit "10")])]).
Proof. vm_compute. reflexivity. Qed.

(* ================================================================== *)
(** * Counting the requests of link mode *)
(* ================================================================== *)

Lemma requestCount_app Req (a b : list (Event Req)) :
  requestCount (a ++ b) = requestCount a + requestCount b.
Proof. unfold requestCount. now rewrite filter_app, length_app. Qed.

Section LinksRequests.

Variable env : Links.Env.
Variable htmlToText : jsstring -> Result jsstring.
Variable oracle : Net.Oracle Links.ProxyRequest Links.ProxyResponse.
Variable settledAt : list (Event Links.ProxyRequest) -> Z.

Local Abbreviation processLink := (Links.processLink env htmlToText oracle).
Local Abbreviation batchLoop :=
  (Links.batchLoop env htmlToText oracle settledAt).

(** A worker sends one request at most. *)
Lemma processLink_requests (link : jsstring)
      (t : list (Event Links.ProxyRequest)) :
  exists ds new,
    processLink link t = (Return ds, t ++ new) /\ requestCount new <= 1.
Proof.
  rewrite processLink_cases.
  destruct (Links.isProduction env && includes link (lit "reddit.com")).
  - eexists. eexists. split; [reflexivity|cbn; lia].
  - eexists. exists []. rewrite app_nil_r. split; [reflexivity|cbn; lia].
Qed.

Lemma mapM_processLink_requests (links : list jsstring)
      (t : list (Event Links.ProxyRequest)) :
  exists pushed new,
    Net.mapM processLink links t = (Return pushed, t ++ new)
    /\ requestCount new <= length links.
Proof.
  revert t. induction links as [|link links IH]; intros t.
  - exists [], []. rewrite app_nil_r. split; [reflexivity|cbn; lia].
  - destruct (processLink_requests link t) as (ds & new1 & Hrun1 & Hn1).
    destruct (IH (t ++ new1)) as (pushed & new2 & Hrun2 & Hn2).
    exists (ds :: pushed), (new1 ++ new2).
    cbn [Net.mapM]. unfold Net.bind at 1. rewrite Hrun1.
    unfold Net.bind at 1. rewrite Hrun2. unfold Net.ret. rewrite app_assoc.
    split; [reflexivity|]. rewrite requestCount_app. cbn [length]. lia.
Qed.

Lemma links_batchLoop_requests (toProcess : list jsstring) :
  forall fuel i docs t,
    (0 <= i)%Z ->
    exists ds new,
      batchLoop fuel toProcess i docs t = (Return ds, t ++ new)
      /\ requestCount new <= length toProcess - Z.to_nat i.
Proof.
  induction fuel as [|fuel IH]; intros i docs t Hi.
  - exists docs, []. rewrite !app_nil_r. split; [reflexivity|cbn; lia].
  - cbn [Links.batchLoop].
    destruct (Z.ltb_spec i (Z.of_nat (length toProcess))) as [Hlt|Hge].
    + rewrite (@slice_window _ toProcess i Links.BATCH_SIZE)
        by (unfold Links.BATCH_SIZE; lia).
      set (batch := firstn (Z.to_nat Links.BATCH_SIZE) (skipn (Z.to_nat i) toProcess)).
      destruct (mapM_processLink_requests batch t)
        as (pushed & new1 & Hrun1 & Hn1).
      destruct (pushAll_mapM settledAt _ _ _ Hrun1) as (ds1 & Hpush & _).
      unfold Net.bind at 1. rewrite Hpush. unfold Net.bind at 1.
      set (pause := if (i + Links.BATCH_SIZE <? Z.of_nat (length toProcess))%Z
                    then Net.sleep Links.BATCH_DELAY else Net.ret tt).
      assert (Hpause : exists new2,
                 pause (t ++ new1) = (Return tt, (t ++ new1) ++ new2)
                 /\ requestCount new2 = 0).
      { unfold pause.
        destruct (i + Links.BATCH_SIZE <? Z.of_nat (length toProcess))%Z.
        - exists [Sleep Links.BATCH_DELAY]. split; reflexivity.
        - exists []. rewrite app_nil_r. split; reflexivity. }
      destruct Hpause as (new2 & Hpause & Hn2). rewrite Hpause.
      destruct (IH (i + Links.BATCH_SIZE)%Z (docs ++ ds1)
                   ((t ++ new1) ++ new2)) as (ds & new3 & Hrun3 & Hn3).
      { unfold Links.BATCH_SIZE. lia. }
      exists ds, (new1 ++ new2 ++ new3).
      rewrite Hrun3, !app_assoc. split; [reflexivity|].
      rewrite <- !app_assoc, !requestCount_app.
      assert (length batch <= Z.to_nat Links.BATCH_SIZE)
        by (unfold batch; apply firstn_le_length).
      assert (length batch <= length toProcess - Z.to_nat i).
      { unfold batch. rewrite length_firstn, length_skipn. lia. }
      unfold Links.BATCH_SIZE in *. lia.
    + exists docs, []. rewrite !app_nil_r. split; [reflexivity|cbn; lia].
Qed.

(** Link mode never throws, and sends five requests at most. *)
Lemma getDocumentsFromLinks_requests (links : list jsstring)
      (t : list (Event Links.ProxyRequest)) :
  exists docs new,
    Links.getDocumentsFromLinks env htmlToText oracle settledAt links t
    = (Return docs, t ++ new)
    /\ requestCount new <= 5.
Proof.
  unfold Links.getDocumentsFromLinks.
  destruct (links_batchLoop_requests
              (Links.redditLinksToProcess links)
              (length (Links.redditLinksToProcess links)) [] t
              (Z.le_refl 0)) as (ds & new & Hrun & Hn).
  unfold Net.bind. rewrite Hrun. unfold Net.ret.
  eexists. exists new. split; [reflexivity|].
  assert (length (Links.redditLinksToProcess links) <= 5).
  { unfold Links.redditLinksToProcess, Links.MAX_REDDIT_LINKS.
    rewrite slice_prefix by lia. rewrite length_firstn. cbn. lia. }
  cbn in Hn. lia.
Qed.

End LinksRequests.

(* ================================================================== *)
(** * The proxy route *)
(* ================================================================== *)

Lemma flat_map_flat_map A B C (f : A -> list B) (g : B -> list C) (l : list A) :
  flat_map g (flat_map f l) = flat_map (fun x => flat_map g (f x)) l.
Proof.
  induction l as [|x l IH]; simpl; [reflexivity|].
  now rewrite flat_map_app, IH.
Qed.

(** The six replacements amount to one pass over the text. *)
Lemma escapeHtml_chars (text : jsstring) :
  Route.escapeHtml text = flat_map Route.escapeChar text.
Proof.
  unfold Route.escapeHtml, Route.replaceAll.
  rewrite !flat_map_flat_map.
  apply flat_map_ext. intros c.
  destruct c as [[] [] [] [] [] [] [] []]; reflexivity.
Qed.

(** An occurrence of [x] in [l1 ++ l2] lies in [l1] or in [l2]. *)
Lemma app_occurrence A (l1 l2 pre post : list A) (x : A) :
  l1 ++ l2 = pre ++ x :: post ->
  (exists mid, l1 = pre ++ x :: mid /\ post = mid ++ l2)
  \/ (exists pre', pre = l1 ++ pre' /\ l2 = pre' ++ x :: post).
Proof.
  revert pre. induction l1 as [|y l1 IH]; intros pre H; simpl in H.
  - right. now exists pre.
  - destruct pre as [|p pre]; simpl in H; inversion H; subst.
    + left. now exists l1.
    + destruct (IH pre H2) as [[mid [-> ->]]|[pre' [-> ->]]].
      * left. now exists mid.
      * right. now exists pre'.
Qed.

Lemma escapeChar_plain (c x : ascii) :
  In x (Route.escapeChar c) ->
  x <> dquote /\ x <> "'"%char /\ x <> ascii_of_nat 10.
Proof.
  destruct c as [[] [] [] [] [] [] [] []]; vm_compute;
    intros H; repeat (destruct H as [<-|H]; [repeat split; discriminate|]);
    contradiction.
Qed.

(** A [<] of an escaped character opens [<br>], and a [>] closes it. *)
Lemma escapeChar_lt (c : ascii) (pre post : jsstring) :
  Route.escapeChar c = pre ++ "<"%char :: post ->
  pre = [] /\ post = lit "br>".
Proof.
  destruct c as [[] [] [] [] [] [] [] []]; vm_compute; intros H;
    Route.occurrence_in H pre.
Qed.

Lemma escapeChar_gt (c : ascii) (pre post : jsstring) :
  Route.escapeChar c = pre ++ ">"%char :: post ->
  pre = lit "<br" /\ post = [].
Proof.
  destruct c as [[] [] [] [] [] [] [] []]; vm_compute; intros H;
    Route.occurrence_in H pre.
Qed.

(** X3 (escapeHtml): the escaped text holds no double quote, no apostrophe
    and no line feed, and its only markup is the line break: every [<] in it
    opens [<br>] and every [>] closes one. *)
Theorem escapeHtml_markup (text : jsstring) :
  (forall x, In x (Route.escapeHtml text) ->
             x <> dquote /\ x <> "'"%char /\ x <> ascii_of_nat 10)
  /\ (forall pre post,
         Route.escapeHtml text = pre ++ "<"%char :: post ->
         exists rest, post = lit "br>" ++ rest)
  /\ (forall pre post,
         Route.escapeHtml text = pre ++ ">"%char :: post ->
         exists before, pre = before ++ lit "<br").
Proof.
  rewrite escapeHtml_chars. split; [|split].
  - intros x Hx. apply in_flat_map in Hx as [c [_ Hx]].
    now apply escapeChar_plain in Hx.
  - induction text as [|c text IH]; intros pre post H; simpl in H.
    + now destruct pre.
    + apply app_occurrence in H as [[mid [Hc ->]]|[pre' [-> H]]].
      * apply escapeChar_lt in Hc as [_ ->]. now eexists.
      * now apply IH in H.
  - induction text as [|c text IH]; intros pre post H; simpl in H.
    + now destruct pre.
    + apply app_occurrence in H as [[mid [Hc ->]]|[pre' [-> H]]].
      * apply escapeChar_gt in Hc as [-> _]. now exists [].
      * apply IH in H as [before ->].
        exists (Route.escapeChar c ++ before). now rewrite app_assoc.
Qed.

(** How a character is escaped: one of the six entities, or itself. *)
Lemma escapeChar_cases (c : ascii) :
  Route.escapeChar c = lit "&amp;" \/ Route.escapeChar c = lit "&lt;"
  \/ Route.escapeChar c = lit "&gt;" \/ Route.escapeChar c = lit "&quot;"
  \/ Route.escapeChar c = lit "&#039;" \/ Route.escapeChar c = lit "<br>"
  \/ (Route.escapeChar c = [c] /\ c <> "&"%char /\ c <> "<"%char).
Proof.
  unfold Route.escapeChar.
  destruct (Ascii.eqb c "&") eqn:E1; [tauto|].
  destruct (Ascii.eqb c "<") eqn:E2; [tauto|].
  destruct (Ascii.eqb c ">") eqn:E3; [tauto|].
  destruct (Ascii.eqb c dquote) eqn:E4; [tauto|].
  destruct (Ascii.eqb c "'") eqn:E5; [tauto|].
  destruct (Ascii.eqb c (ascii_of_nat 10)) eqn:E6; [tauto|].
  apply Ascii.eqb_neq in E1, E2. tauto.
Qed.

Lemma escapeChar_inj (c d : ascii) :
  Route.escapeChar c = Route.escapeChar d -> c = d.
Proof.
  destruct c as [[] [] [] [] [] [] [] []];
    destruct (escapeChar_cases d) as [H|[H|[H|[H|[H|[H|[H [_ _]]]]]]]];
    rewrite H; vm_compute; intros E; try discriminate E;
    try (now inversion E);
    revert H; clear E;
    destruct d as [[] [] [] [] [] [] [] []]; vm_compute; intros H;
    try discriminate H; reflexivity.
Qed.

(** The escapes form a prefix code: an escape at the head of a text is the
    escape of one character only. *)
Lemma escapeChar_prefix_free (c d : ascii) (x y : jsstring) :
  Route.escapeChar c ++ x = Route.escapeChar d ++ y ->
  Route.escapeChar c = Route.escapeChar d /\ x = y.
Proof.
  destruct (escapeChar_cases c) as [Hc|[Hc|[Hc|[Hc|[Hc|[Hc|[Hc [Hc1 Hc2]]]]]]]];
    destruct (escapeChar_cases d) as [Hd|[Hd|[Hd|[Hd|[Hd|[Hd|[Hd [Hd1 Hd2]]]]]]]];
    rewrite Hc, Hd; cbn; intros E;
    try discriminate E;
    try (injection E as E; subst; try congruence; now split).
Qed.

(** X4 (escapeHtml): escaping loses nothing; two texts with the same
    escaped form are the same text. *)
Theorem escapeHtml_injective (a b : jsstring) :
  Route.escapeHtml a = Route.escapeHtml b -> a = b.
Proof.
  rewrite !escapeHtml_chars. revert b.
  induction a as [|c a IH]; intros [|d b] H; simpl in H.
  - reflexivity.
  - destruct (escapeChar_cases d) as [Hd|[Hd|[Hd|[Hd|[Hd|[Hd|[Hd _]]]]]]];
      rewrite Hd in H; discriminate H.
  - destruct (escapeChar_cases c) as [Hc|[Hc|[Hc|[Hc|[Hc|[Hc|[Hc _]]]]]]];
      rewrite Hc in H; discriminate H.
  - apply escapeChar_prefix_free in H as [Hc H].
    apply escapeChar_inj in Hc. apply IH in H. now subst.
Qed.

(** X4 at a sample: the one text with the escaped form of a given text. *)
Lemma escapeHtml_injective_witness :
  lit "Tom & Jerry <3" = lit "Tom & Jerry <3".
Proof.
  apply (@escapeHtml_injective (lit "Tom & Jerry <3") (lit "Tom & Jerry <3")).
  reflexivity.
Defined.

Section RouteFacts.

Variable encodeURIComponent : jsstring -> Result jsstring.
Variable oracle : Net.Oracle Route.FetchRequest Links.ProxyResponse.

Local Abbreviation attempt := (Route.attempt oracle).
Local Abbreviation GET := (Route.GET encodeURIComponent oracle).

(** An attempt sends its one request and never throws; a page it gives is
    the body of an ok answer to that request and passes the check. *)
Lemma route_attempt_cases (via : Route.Strategy) (target : jsstring)
      (t : list (Event Route.FetchRequest)) :
  exists r,
    attempt via target t
    = (Return r, t ++ [Request (Route.mkFetch via target)])
    /\ forall html,
         r = Some html ->
         Route.acceptable html = true
         /\ exists response,
              oracle t (Route.mkFetch via target) = Return response
              /\ Links.ok response = true
              /\ Links.bodyText response = Return html.
Proof.
  unfold Route.attempt, Net.tryCatch, Net.bind, Net.request, Net.lift,
    Net.ret.
  destruct (oracle t (Route.mkFetch via target)) as [response|e] eqn:E.
  - destruct (Links.ok response) eqn:Hok.
    + destruct (Links.bodyText response) as [html|e] eqn:Hbody.
      * destruct (Route.acceptable html) eqn:Hacc.
        -- eexists. split; [reflexivity|]. intros h [= <-].
           split; [assumption|]. now exists response.
        -- eexists. split; [reflexivity|]. discriminate.
      * eexists. split; [reflexivity|]. discriminate.
    + eexists. split; [reflexivity|]. discriminate.
  - eexists. split; [reflexivity|]. discriminate.
Qed.

(** The URL the route works on names the old site. *)
Lemma route_normalize_old (url : jsstring) :
  includes url (lit "reddit.com") = true ->
  includes (Route.normalize url) (lit "old.reddit.com") = true.
Proof.
  intros H. unfold Route.normalize.
  destruct (includes url (lit "www.reddit.com")) eqn:Hwww.
  - now apply replaceFirst_includes.
  - rewrite H. destruct (includes url (lit "old.reddit.com")) eqn:Hold; simpl.
    + assumption.
    + now apply replaceFirst_includes.
Qed.

(** What the route does with a URL that names the site, when the URL can be
    encoded: the attempts in the order of the plan, up to the first that
    gives a page. *)
Lemma route_GET_cases (url encoded : jsstring)
      (t : list (Event Route.FetchRequest)) :
  includes url (lit "reddit.com") = true ->
  encodeURIComponent (Route.normalize url) = Return encoded ->
  let requests := Route.plan encoded (Route.normalize url) in
  exists k response,
    GET (Some url) t = (Return response, t ++ firstn k requests)
    /\ 1 <= k <= 4
    /\ ((response = Route.allFailed /\ k = 4)
        \/ exists html before r answer,
             response = Route.Page html
             /\ Route.acceptable html = true
             /\ t ++ firstn k requests = before ++ [Request r]
             /\ oracle before r = Return answer
             /\ Links.ok answer = true
             /\ Links.bodyText answer = Return html).
Proof.
  intros Hreddit Henc requests.
  destruct url as [|c url]; [discriminate Hreddit|].
  unfold Route.GET, Net.tryCatch, Net.bind, Net.lift, Net.ret.
  cbn [truthy orElse negb]. rewrite Hreddit. cbn [negb]. rewrite Henc.
  set (n := Route.normalize (c :: url)) in *.
  destruct (route_attempt_cases Route.AllOrigins (Route.allOriginsUrl encoded) t)
    as [r1 [E1 H1]].
  rewrite E1. destruct r1 as [html|].
  { exists 1, (Route.Page html). repeat split; [lia..|].
    right. destruct (H1 html eq_refl) as [Hacc [answer [Ho [Hok Hbody]]]].
    now exists html, t, (Route.mkFetch Route.AllOrigins (Route.allOriginsUrl encoded)), answer. }
  match goal with |- context [Route.attempt oracle Route.ArchiveIs ?u ?t'] =>
    destruct (route_attempt_cases Route.ArchiveIs u t') as [r2 [E2 H2]] end.
  rewrite E2. destruct r2 as [html|].
  { exists 2, (Route.Page html). cbn [firstn requests Route.plan].
    rewrite <- app_assoc. repeat split; [lia..|].
    right. destruct (H2 html eq_refl) as [Hacc [answer [Ho [Hok Hbody]]]].
    eexists html, _, _, answer. repeat split; try eassumption.
    now rewrite <- app_assoc. }
  match goal with |- context [Route.attempt oracle Route.Direct ?u ?t'] =>
    destruct (route_attempt_cases Route.Direct u t') as [r3 [E3 H3]] end.
  rewrite E3. destruct r3 as [html|].
  { exists 3, (Route.Page html). cbn [firstn requests Route.plan].
    rewrite <- !app_assoc. repeat split; [lia..|].
    right. destruct (H3 html eq_refl) as [Hacc [answer [Ho [Hok Hbody]]]].
    eexists html, _, _, answer. repeat split; try eassumption.
    now rewrite <- !app_assoc. }
  match goal with |- context [Route.attempt oracle Route.CorsProxy ?u ?t'] =>
    destruct (route_attempt_cases Route.CorsProxy u t') as [r4 [E4 H4]] end.
  rewrite E4. destruct r4 as [html|].
  { exists 4, (Route.Page html). cbn [firstn requests Route.plan].
    rewrite <- !app_assoc. repeat split; [lia..|].
    right. destruct (H4 html eq_refl) as [Hacc [answer [Ho [Hok Hbody]]]].
    eexists html, _, _, answer. repeat split; try eassumption.
    now rewrite <- !app_assoc. }
  exists 4, Route.allFailed. cbn [firstn requests Route.plan].
  rewrite <- !app_assoc. repeat split; [lia..|]. now left.
Qed.

(** What the route does with every other URL, and with one that cannot be
    encoded: it answers at once. *)
Lemma route_GET_rejects (url : option jsstring)
      (t : list (Event Route.FetchRequest)) :
  (truthy url = false -> GET url t = (Return Route.missingUrl, t))
  /\ (truthy url = true ->
      includes (orElse url []) (lit "reddit.com") = false ->
      GET url t = (Return Route.notReddit, t))
  /\ (forall e,
        includes (orElse url []) (lit "reddit.com") = true ->
        encodeURIComponent (Route.normalize (orElse url [])) = Throw e ->
        GET url t = (Return Route.routeFailed, t)).
Proof.
  unfold Route.GET, Net.tryCatch, Net.bind, Net.lift, Net.ret.
  split; [|split].
  - intros ->. reflexivity.
  - intros -> ->. reflexivity.
  - intros e Hreddit Henc.
    destruct url as [[|c url]|]; try discriminate Hreddit.
    cbn [truthy orElse negb] in *. now rewrite Hreddit, Henc.
Qed.

(** X5 (GET of the proxy route): a request without a URL, with an empty one
    or with one that does not hold reddit.com is answered 400 before
    anything is fetched, and no other request is answered 400. *)
Theorem route_bad_request (url : option jsstring)
        (t : list (Event Route.FetchRequest)) :
  (truthy url = false \/ includes (orElse url []) (lit "reddit.com") = false
   -> exists error, GET url t = (Return (Route.JsonError error 400), t))
  /\ (forall error t',
        GET url t = (Return (Route.JsonError error 400), t') ->
        truthy url = false
        \/ includes (orElse url []) (lit "reddit.com") = false).
Proof.
  destruct (truthy url) eqn:Htruthy.
  - destruct (includes (orElse url []) (lit "reddit.com")) eqn:Hreddit.
    + split; [intros [H|H]; discriminate H|].
      intros error t' H. exfalso.
      destruct (encodeURIComponent (Route.normalize (orElse url [])))
        as [encoded|e] eqn:Henc.
      * destruct url as [[|c url]|]; try discriminate Htruthy.
        cbn [orElse] in Hreddit, Henc.
        destruct (route_GET_cases (c :: url) t Hreddit Henc)
          as [k [response [E [_ [[-> _]|[html [_ [_ [_ [-> _]]]]]]]]]];
          rewrite E in H; discriminate H.
      * destruct (route_GET_rejects url t) as [_ [_ Hfailed]].
        rewrite (Hfailed e Hreddit Henc) in H. discriminate H.
    + split; [|now right]. intros _. eexists.
      exact (proj1 (proj2 (route_GET_rejects url t)) Htruthy Hreddit).
  - split; [|now left]. intros _. eexists.
    exact (proj1 (route_GET_rejects url t) Htruthy).
Qed.

(** X6 (GET of the proxy route): a page the route answers is the body of an
    ok answer to the last request it sent, is longer than 5000 characters
    and holds neither of the two marks of a blocking page. *)
Theorem route_page_checked (url : option jsstring) (html : jsstring)
        (t t' : list (Event Route.FetchRequest)) :
  GET url t = (Return (Route.Page html), t') ->
  (5000 < length html
   /\ includes html (lit "whoa there, pardner") = false
   /\ includes html (lit "network policy") = false)
  /\ exists before r answer,
       t' = before ++ [Request r]
       /\ oracle before r = Return answer
       /\ Links.ok answer = true
       /\ Links.bodyText answer = Return html.
Proof.
  intros H.
  destruct (truthy url) eqn:Htruthy;
    [|rewrite (proj1 (route_GET_rejects url t) Htruthy) in H; discriminate H].
  destruct (includes (orElse url []) (lit "reddit.com")) eqn:Hreddit;
    [|rewrite (proj1 (proj2 (route_GET_rejects url t)) Htruthy Hreddit) in H;
      discriminate H].
  destruct (encodeURIComponent (Route.normalize (orElse url [])))
    as [encoded|e] eqn:Henc;
    [|rewrite (proj2 (proj2 (route_GET_rejects url t)) e Hreddit Henc) in H;
      discriminate H].
  destruct url as [[|c url]|]; try discriminate Htruthy.
  cbn [orElse] in Hreddit, Henc.
  destruct (route_GET_cases (c :: url) t Hreddit Henc)
    as [k [response [E [_ [[-> _]|[h [before [r [answer Hpage]]]]]]]]];
    rewrite E in H; [discriminate H|].
  destruct Hpage as [-> [Hacc [Ht [Ho [Hok Hbody]]]]].
  injection H as <- <-.
  unfold Route.acceptable in Hacc.
  apply andb_true_iff in Hacc as [Hacc Hpolicy].
  apply andb_true_iff in Hacc as [Hlen Hwhoa].
  apply Nat.ltb_lt in Hlen. apply negb_true_iff in Hwhoa, Hpolicy.
  split; [now repeat split|].
  now exists before, r, answer.
Qed.

(** An attempt sends its request and makes of the answer what [accepted]
    makes of it. *)
Lemma route_attempt_accepted (via : Route.Strategy) (target : jsstring)
      (t : list (Event Route.FetchRequest)) :
  attempt via target t
  = (Return (Route.accepted (oracle t (Route.mkFetch via target))),
     t ++ [Request (Route.mkFetch via target)]).
Proof.
  unfold Route.attempt, Route.accepted, Net.tryCatch, Net.bind, Net.request,
    Net.lift, Net.ret.
  destruct (oracle t (Route.mkFetch via target)) as [response|e];
    [|reflexivity].
  destruct (Links.ok response); [|reflexivity].
  destruct (Links.bodyText response) as [html|e]; [|reflexivity].
  now destruct (Route.acceptable html).
Qed.

(** X7 (GET of the proxy route): for a URL that holds reddit.com, the route
    works on the old-site form of the URL and asks allorigins, archive.is,
    the site itself and corsproxy, in that order; it stops at the first of
    them whose answer is ok and has a body that passes the check, which is
    the page it answers, none of the requests before it having had such an
    answer; it answers 502 when none of the four has. *)
Theorem route_strategies_in_order (url encoded : jsstring)
        (t : list (Event Route.FetchRequest)) :
  includes url (lit "reddit.com") = true ->
  encodeURIComponent (Route.normalize url) = Return encoded ->
  let requests := Route.plan encoded (Route.normalize url) in
  let pageOf j :=
    match nth_error requests j with
    | Some (Request r) => Route.accepted (oracle (t ++ firstn j requests) r)
    | _ => None
    end in
  includes (Route.normalize url) (lit "old.reddit.com") = true
  /\ exists k response,
       GET (Some url) t = (Return response, t ++ firstn (S k) requests)
       /\ k < 4
       /\ (forall j, j < k -> pageOf j = None)
       /\ match pageOf k with
          | Some html => response = Route.Page html
          | None => k = 3 /\ response = Route.allFailed
          end.
Proof.
  intros Hreddit Henc requests pageOf.
  split; [now apply route_normalize_old|].
  destruct url as [|c url]; [discriminate Hreddit|].
  unfold Route.GET, Net.tryCatch.
  cbn [truthy orElse negb]. rewrite Hreddit. cbn [negb].
  unfold Net.bind at 1. unfold Net.lift at 1. rewrite Henc.
  set (n := Route.normalize (c :: url)) in *.
  assert (H0 : pageOf 0
               = Route.accepted
                   (oracle t (Route.mkFetch Route.AllOrigins
                                            (Route.allOriginsUrl encoded)))).
  { unfold pageOf. cbn [nth_error requests Route.plan firstn].
    now rewrite app_nil_r. }
  assert (H1 : pageOf 1
               = Route.accepted
                   (oracle (t ++ firstn 1 requests)
                           (Route.mkFetch Route.ArchiveIs (Route.archiveUrl n))))
    by reflexivity.
  assert (H2 : pageOf 2
               = Route.accepted
                   (oracle (t ++ firstn 2 requests)
                           (Route.mkFetch Route.Direct n)))
    by reflexivity.
  assert (H3 : pageOf 3
               = Route.accepted
                   (oracle (t ++ firstn 3 requests)
                           (Route.mkFetch Route.CorsProxy
                                          (Route.corsProxyUrl encoded))))
    by reflexivity.
  unfold Net.bind at 1. rewrite route_attempt_accepted, <- H0.
  destruct (pageOf 0) as [html|] eqn:E0.
  { exists 0, (Route.Page html). split; [reflexivity|]. split; [lia|].
    split; [intros j Hj; lia|]. now rewrite E0. }
  unfold Net.bind at 1. rewrite route_attempt_accepted.
  change (t ++ [Request (Route.mkFetch Route.AllOrigins
                                       (Route.allOriginsUrl encoded))])
    with (t ++ firstn 1 requests).
  rewrite <- H1.
  destruct (pageOf 1) as [html|] eqn:E1.
  { exists 1, (Route.Page html). unfold Net.ret.
    split; [now rewrite <- app_assoc|]. split; [lia|].
    split; [intros [|j] Hj; [exact E0|lia]|]. now rewrite E1. }
  unfold Net.bind at 1. rewrite route_attempt_accepted.
  replace ((t ++ firstn 1 requests)
             ++ [Request (Route.mkFetch Route.ArchiveIs (Route.archiveUrl n))])
    with (t ++ firstn 2 requests) by now rewrite <- app_assoc.
  rewrite <- H2.
  destruct (pageOf 2) as [html|] eqn:E2.
  { exists 2, (Route.Page html). unfold Net.ret.
    split; [now rewrite <- app_assoc|]. split; [lia|].
    split; [intros [|[|j]] Hj; [exact E0|exact E1|lia]|]. now rewrite E2. }
  unfold Net.bind at 1. unfold Net.lift at 1.
  unfold Net.bind at 1. rewrite route_attempt_accepted.
  replace ((t ++ firstn 2 requests) ++ [Request (Route.mkFetch Route.Direct n)])
    with (t ++ firstn 3 requests) by now rewrite <- app_assoc.
  rewrite <- H3.
  destruct (pageOf 3) as [html|] eqn:E3.
  { exists 3, (Route.Page html). unfold Net.ret.
    split; [now rewrite <- app_assoc|]. split; [lia|].
    split; [intros [|[|[|j]]] Hj; [exact E0|exact E1|exact E2|lia]|].
    now rewrite E3. }
  exists 3, Route.allFailed. unfold Net.ret.
  split; [now rewrite <- app_assoc|]. split; [lia|].
  split; [intros [|[|[|j]]] Hj; [exact E0|exact E1|exact E2|lia]|].
  now rewrite E3.
Qed.

End RouteFacts.

(** X6 at a sample: the page that archive.is gives for a thread. *)
Lemma route_page_checked_witness :
  (5000 < length MoreSamples.plainPage
   /\ includes MoreSamples.plainPage (lit "whoa there, pardner") = false
   /\ includes MoreSamples.plainPage (lit "network policy") = false)
  /\ exists before r answer,
       firstn 2 (Route.plan (Route.normalize MoreSamples.wwwThread)
                            (Route.normalize MoreSamples.wwwThread))
       = before ++ [Request r]
       /\ MoreSamples.archiveOnly before r = Return answer
       /\ Links.ok answer = true
       /\ Links.bodyText answer = Return MoreSamples.plainPage.
Proof.
  apply (@route_page_checked MoreSamples.encodePlain MoreSamples.archiveOnly
           (Some MoreSamples.wwwThread) MoreSamples.plainPage []).
  vm_compute. reflexivity.
Defined.

(** X7 at a sample: the same thread on the same network; allorigins does
    not answer, archive.is does. *)
Lemma route_strategies_in_order_witness :
  let requests := Route.plan (Route.normalize MoreSamples.wwwThread)
                             (Route.normalize MoreSamples.wwwThread) in
  let pageOf j :=
    match nth_error requests j with
    | Some (Request r) =>
        Route.accepted (MoreSamples.archiveOnly ([] ++ firstn j requests) r)
    | _ => None
    end in
  includes (Route.normalize MoreSamples.wwwThread) (lit "old.reddit.com") = true
  /\ exists k response,
       Route.GET MoreSamples.encodePlain MoreSamples.archiveOnly
                 (Some MoreSamples.wwwThread) []
       = (Return response, [] ++ firstn (S k) requests)
       /\ k < 4
       /\ (forall j, j < k -> pageOf j = None)
       /\ match pageOf k with
          | Some html => response = Route.Page html
          | None => k = 3 /\ response = Route.allFailed
          end.
Proof.
  apply (@route_strategies_in_order MoreSamples.encodePlain
           MoreSamples.archiveOnly MoreSamples.wwwThread
           (Route.normalize MoreSamples.wwwThread) []);
    vm_compute; reflexivity.
Defined.

(** The route on three networks: one where every service answers the page,
    so that allorigins alone is asked; one where archive.is alone does; one
    where none does, and the four are asked before the route answers 502. *)
Example route_GET_samples :
  let requests := Route.plan (Route.normalize MoreSamples.wwwThread)
                             (Route.normalize MoreSamples.wwwThread) in
  Route.GET MoreSamples.encodePlain MoreSamples.everyService
            (Some MoreSamples.wwwThread) []
  = (Return (Route.Page MoreSamples.plainPage), firstn 1 requests)
  /\ Route.GET MoreSamples.encodePlain MoreSamples.archiveOnly
               (Some MoreSamples.wwwThread) []
     = (Return (Route.Page MoreSamples.plainPage), firstn 2 requests)
  /\ Route.GET MoreSamples.encodePlain MoreSamples.noService
               (Some MoreSamples.wwwThread) []
     = (Return Route.allFailed, requests).
Proof. vm_compute. repeat split. Qed.

(* ================================================================== *)
(** * The configuration *)
(* ================================================================== *)

Lemma str_eqb_neq (a b : jsstring) : str_eqb a b = false <-> a <> b.
Proof.
  split.
  - intros H E. apply str_eqb_eq in E. congruence.
  - intros H. destruct (str_eqb a b) eqn:E; [|reflexivity].
    apply str_eqb_eq in E. contradiction.
Qed.

Lemma config_lookup_setField_same (fields : list (jsstring * Config.Value))
      (key : jsstring) (value : Config.Value) :
  Config.lookup (Config.setField fields key value) key = Some value.
Proof.
  induction fields as [|[k v] fields IH]; simpl.
  - now rewrite str_eqb_refl.
  - destruct (str_eqb k key) eqn:E; simpl; now rewrite E.
Qed.

Lemma config_lookup_setField_other (fields : list (jsstring * Config.Value))
      (key key' : jsstring) (value : Config.Value) :
  key <> key' ->
  Config.lookup (Config.setField fields key value) key'
  = Config.lookup fields key'.
Proof.
  intros Hne. induction fields as [|[k v] fields IH]; simpl.
  - now rewrite (proj2 (str_eqb_neq key key') Hne).
  - destruct (str_eqb k key) eqn:E; simpl.
    + apply str_eqb_eq in E. subst k.
      now rewrite (proj2 (str_eqb_neq key key') Hne).
    + now rewrite IH.
Qed.

(** Writing the value a property has changes nothing. *)
Lemma config_setField_same (fields : list (jsstring * Config.Value))
      (key : jsstring) (value : Config.Value) :
  Config.lookup fields key = Some value ->
  Config.setField fields key value = fields.
Proof.
  induction fields as [|[k v] fields IH]; simpl; [discriminate|].
  destruct (str_eqb k key) eqn:E.
  - now intros [= ->].
  - intros H. now rewrite IH.
Qed.

Lemma config_lookup_In (fields : list (jsstring * Config.Value))
      (key : jsstring) (value : Config.Value) :
  Config.lookup fields key = Some value -> In key (map fst fields).
Proof.
  induction fields as [|[k v] fields IH]; simpl; [discriminate|].
  destruct (str_eqb k key) eqn:E.
  - apply str_eqb_eq in E. now left.
  - intros H. right. now apply IH.
Qed.

Lemma config_In_lookup (fields : list (jsstring * Config.Value))
      (key : jsstring) (value : Config.Value) :
  NoDup (map fst fields) -> In (key, value) fields ->
  Config.lookup fields key = Some value.
Proof.
  induction fields as [|[k v] fields IH]; simpl; [contradiction|].
  intros Hnd [H|H]; inversion Hnd as [|? ? Hk Hnd']; subst.
  - injection H as -> ->. now rewrite str_eqb_refl.
  - destruct (str_eqb k key) eqn:E.
    + apply str_eqb_eq in E. subst k. exfalso. apply Hk.
      now apply (in_map fst) in H.
    + now apply IH.
Qed.

(** The merge of two objects is the loop over the fields of the update. *)
Lemma mergeConfigs_obj (currentFields updateFields : list (jsstring * Config.Value)) :
  Config.mergeConfigs (Config.Obj currentFields) (Config.Obj updateFields)
  = Config.Obj (fold_left Config.mergeField updateFields currentFields).
Proof.
  cbn [Config.mergeConfigs]. f_equal. revert currentFields.
  induction updateFields as [|[k v] updateFields IH]; intros currentFields;
    [reflexivity|].
  cbn [fold_left]. rewrite <- IH. reflexivity.
Qed.

Lemma mergeConfigs_not_object (current : Config.Value)
      (updateFields : list (jsstring * Config.Value)) :
  Config.isObject current = false ->
  Config.mergeConfigs current (Config.Obj updateFields)
  = Config.Obj updateFields.
Proof. destruct current; try reflexivity; discriminate. Qed.

(** One turn of the loop leaves the other keys alone. *)
Lemma mergeField_other (result : list (jsstring * Config.Value))
      (key key' : jsstring) (updateValue : Config.Value) :
  key <> key' ->
  Config.lookup (Config.mergeField result (key, updateValue)) key'
  = Config.lookup result key'.
Proof.
  intros Hne. unfold Config.mergeField.
  destruct updateValue; try reflexivity;
    try (now apply config_lookup_setField_other).
  destruct (Config.get result key); now apply config_lookup_setField_other.
Qed.

Lemma mergeField_same (result : list (jsstring * Config.Value))
      (key : jsstring) (updateValue : Config.Value) :
  Config.lookup (Config.mergeField result (key, updateValue)) key
  = Config.mergedValue (Config.lookup result key) updateValue.
Proof.
  unfold Config.mergeField, Config.mergedValue, Config.get.
  destruct updateValue; try reflexivity;
    try (now apply config_lookup_setField_same).
  destruct (Config.lookup result key) as [[]|];
    now rewrite config_lookup_setField_same.
Qed.

(** The loop, key by key, for an update that names no key twice. *)
Lemma fold_mergeField_lookup (updateFields : list (jsstring * Config.Value)) :
  NoDup (map fst updateFields) ->
  forall currentFields key,
    Config.lookup (fold_left Config.mergeField updateFields currentFields) key
    = match Config.lookup updateFields key with
      | Some updateValue =>
          Config.mergedValue (Config.lookup currentFields key) updateValue
      | None => Config.lookup currentFields key
      end.
Proof.
  induction updateFields as [|[k v] updateFields IH];
    intros Hnd currentFields key; [reflexivity|].
  inversion Hnd as [|? ? Hk Hnd']; subst.
  cbn [fold_left Config.lookup]. rewrite (IH Hnd').
  destruct (str_eqb k key) eqn:E.
  - apply str_eqb_eq in E. subst k.
    destruct (Config.lookup updateFields key) as [v'|] eqn:E'.
    + exfalso. apply Hk. now apply config_lookup_In in E'.
    + apply mergeField_same.
  - apply str_eqb_neq in E. now rewrite (mergeField_other _ v E).
Qed.

(** X8 (mergeConfigs): merging two objects, key by key.  A key the update
    does not name, or names with the value undefined, keeps the value it
    had; a key that holds an object on both sides gets the merge of the two;
    any other key gets the value of the update. *)
Theorem mergeConfigs_lookup
        (currentFields updateFields : list (jsstring * Config.Value))
        (key : jsstring) :
  NoDup (map fst updateFields) ->
  Config.own (Config.mergeConfigs (Config.Obj currentFields)
                                  (Config.Obj updateFields)) key
  = match Config.lookup updateFields key with
    | None | Some Config.Undefined => Config.lookup currentFields key
    | Some (Config.Obj updateValue) =>
        match Config.lookup currentFields key with
        | Some (Config.Obj currentValue) =>
            Some (Config.mergeConfigs (Config.Obj currentValue)
                                      (Config.Obj updateValue))
        | _ => Some (Config.Obj updateValue)
        end
    | Some updateValue => Some updateValue
    end.
Proof.
  intros Hnd. rewrite mergeConfigs_obj. cbn [Config.own].
  rewrite (@fold_mergeField_lookup updateFields Hnd).
  destruct (Config.lookup updateFields key) as [[]|]; reflexivity.
Qed.

(** Induction on a value, with the property known of the fields of an
    object. *)
Lemma Value_nested_ind (P : Config.Value -> Prop) :
  P Config.Undefined -> P Config.Null ->
  (forall s, P (Config.Str s)) -> (forall n, P (Config.Num n)) ->
  (forall b, P (Config.Bool b)) ->
  (forall fields,
      Forall (fun entry => P (snd entry)) fields -> P (Config.Obj fields)) ->
  forall v, P v.
Proof.
  intros Hundefined Hnull Hstr Hnum Hbool Hobj.
  fix IH 1. intros [| |s|n|b|fields];
    [exact Hundefined|exact Hnull|apply Hstr|apply Hnum|apply Hbool|].
  apply Hobj. induction fields as [|[k v] fields IHfields]; constructor.
  - apply IH.
  - exact IHfields.
Qed.

Lemma wellFormed_obj (fields : list (jsstring * Config.Value)) :
  Config.wellFormed (Config.Obj fields)
  <-> NoDup (map fst fields)
      /\ Forall (fun entry => Config.wellFormed (snd entry)) fields.
Proof.
  cbn [Config.wellFormed].
  assert (H : (fix all (fs : list (jsstring * Config.Value)) : Prop :=
                 match fs with
                 | [] => True
                 | (_, x) :: fs' => Config.wellFormed x /\ all fs'
                 end) fields
              <-> Forall (fun entry => Config.wellFormed (snd entry)) fields).
  { induction fields as [|[k v] fields IH].
    - split; [constructor|trivial].
    - split.
      + intros [Hv Hrest]. constructor; [exact Hv|now apply IH].
      + intros H. inversion H; subst. split; [assumption|now apply IH]. }
  tauto.
Qed.

Lemma fold_left_fixed A B (f : A -> B -> A) (l : list B) (r : A) :
  (forall e, In e l -> f r e = r) -> fold_left f l r = r.
Proof.
  induction l as [|e l IH]; intros H; simpl; [reflexivity|].
  rewrite (H e (or_introl eq_refl)). apply IH.
  intros e' He'. apply H. now right.
Qed.

(** Merging an object into itself, and merging it a second time, change
    nothing. *)
Lemma mergeConfigs_again (update : Config.Value) :
  Config.wellFormed update -> Config.isObject update = true ->
  (forall current,
      Config.mergeConfigs (Config.mergeConfigs current update) update
      = Config.mergeConfigs current update)
  /\ Config.mergeConfigs update update = update.
Proof.
  induction update as [| | | | |updateFields IH] using Value_nested_ind;
    intros Hwf Hobj; try discriminate Hobj.
  apply wellFormed_obj in Hwf as [Hnd Hall].
  rewrite Forall_forall in IH, Hall.
  assert (Hself : Config.mergeConfigs (Config.Obj updateFields)
                                      (Config.Obj updateFields)
                  = Config.Obj updateFields).
  { rewrite mergeConfigs_obj. f_equal. apply fold_left_fixed.
    intros [k uv] Hin. pose proof (@config_In_lookup _ _ _ Hnd Hin) as Hk.
    unfold Config.mergeField, Config.get. rewrite Hk.
    destruct uv as [| |s|n|b|uf]; try reflexivity;
      try (now apply config_setField_same).
    destruct (IH _ Hin (Hall _ Hin) eq_refl) as [_ Hs]. cbn [snd] in Hs.
    cbn iota. rewrite Hs. now apply config_setField_same. }
  split; [|exact Hself].
  intros current.
  destruct (Config.isObject current) eqn:Hcur.
  - destruct current as [| | | | |currentFields]; try discriminate Hcur.
    rewrite !mergeConfigs_obj. f_equal. apply fold_left_fixed.
    intros [k uv] Hin.
    pose proof (@fold_mergeField_lookup updateFields Hnd currentFields k) as Hk.
    rewrite (@config_In_lookup _ _ _ Hnd Hin) in Hk.
    set (result := fold_left Config.mergeField updateFields currentFields) in *.
    unfold Config.mergeField, Config.get. rewrite Hk.
    destruct uv as [| |s|n|b|uf]; try reflexivity;
      try (now apply config_setField_same).
    destruct (IH _ Hin (Hall _ Hin) eq_refl) as [Hagain Hs].
    cbn [snd] in Hagain, Hs. cbn [Config.mergedValue] in *.
    destruct (Config.lookup currentFields k) as [[| |s|n|b|cf]|];
      try (cbn iota; rewrite Hs; now apply config_setField_same).
    rewrite mergeConfigs_obj in *. cbn iota.
    rewrite <- mergeConfigs_obj, Hagain, mergeConfigs_obj.
    now apply config_setField_same.
  - rewrite (mergeConfigs_not_object _ _ Hcur). exact Hself.
Qed.

(** X9 (mergeConfigs): applying the same update a second time changes
    nothing. *)
Theorem mergeConfigs_idempotent (current : Config.Value)
        (updateFields : list (jsstring * Config.Value)) :
  Config.wellFormed (Config.Obj updateFields) ->
  Config.mergeConfigs
    (Config.mergeConfigs current (Config.Obj updateFields))
    (Config.Obj updateFields)
  = Config.mergeConfigs current (Config.Obj updateFields).
Proof.
  intros Hwf. now apply mergeConfigs_again.
Qed.

Lemma getPath_obj (fields : list (jsstring * Config.Value)) (key : jsstring)
      (path : list jsstring) (x : Config.Value) :
  Config.lookup fields key = Some x ->
  Config.getPath (Config.Obj fields) (key :: path) = Config.getPath x path.
Proof. intros H. cbn [Config.getPath]. now rewrite H. Qed.

(** A setting written by an update is where the update put it, whatever was
    there. *)
Lemma getPath_merge_single (leaf : Config.Value) (rest : list jsstring) :
  Config.isLeaf leaf = true ->
  forall key current,
    Config.getPath
      (Config.mergeConfigs current (Config.single (key :: rest) leaf))
      (key :: rest)
    = Some leaf.
Proof.
  intros Hleaf. induction rest as [|key' rest IH]; intros key current.
  - cbn [Config.single]. destruct (Config.isObject current) eqn:Hcur.
    + destruct current as [| | | | |currentFields]; try discriminate Hcur.
      rewrite mergeConfigs_obj. cbn [fold_left Config.getPath].
      rewrite mergeField_same.
      destruct leaf; try discriminate Hleaf; reflexivity.
    + rewrite (mergeConfigs_not_object _ _ Hcur).
      cbn [Config.getPath Config.lookup]. now rewrite str_eqb_refl.
  - change (Config.single (key :: key' :: rest) leaf)
      with (Config.Obj [(key, Config.single (key' :: rest) leaf)]).
    assert (Hinner : forall x,
               x = Config.single (key' :: rest) leaf
               \/ (exists c, x = Config.mergeConfigs c (Config.single (key' :: rest) leaf)) ->
               Config.getPath x (key' :: rest) = Some leaf).
    { intros x [->|[c ->]]; [|apply IH].
      specialize (IH key' Config.Undefined). exact IH. }
    destruct (Config.isObject current) eqn:Hcur.
    + destruct current as [| | | | |currentFields]; try discriminate Hcur.
      rewrite mergeConfigs_obj. cbn [fold_left].
      pose proof (mergeField_same currentFields key
                    (Config.single (key' :: rest) leaf)) as Hk.
      change (Config.single (key' :: rest) leaf)
        with (Config.Obj [(key', Config.single rest leaf)]) in Hk at 2.
      cbn [Config.mergedValue] in Hk.
      destruct (Config.lookup currentFields key) as [[| |s|n|b|cf]|];
        rewrite (@getPath_obj _ _ _ _ Hk); apply Hinner; try (now left).
      right. now exists (Config.Obj cf).
    + rewrite (mergeConfigs_not_object _ _ Hcur).
      rewrite (@getPath_obj _ key _ (Config.single (key' :: rest) leaf));
        [apply Hinner; now left|].
      cbn [Config.lookup]. now rewrite str_eqb_refl.
Qed.

(** An accessor finds what lies at its path. *)
Lemma access_getPath (path : list jsstring) :
  forall value found,
    Config.getPath value path = Some found ->
    Config.access value path = Return found.
Proof.
  induction path as [|key path IH]; intros value found H; simpl in H.
  - now injection H as ->.
  - destruct value as [| | | | |fields]; try discriminate H.
    destruct (Config.lookup fields key) as [x|] eqn:E; [|discriminate H].
    cbn [Config.access Config.prop rbind]. unfold Config.get. rewrite E.
    now apply IH.
Qed.

Section ConfigFacts.

Variable env : jsstring -> option jsstring.

(** X10 (mergeConfigs, getConfigValue): a non-empty string that an update
    writes at a path is what the getter of that path answers afterwards,
    whatever the file held before, unless the environment variable of the
    getter is set. *)
Theorem config_update_read_back (current defaultValue : Config.Value)
        (name key s : jsstring) (rest : list jsstring) :
  s <> [] -> truthy (env name) = false ->
  Config.getter env
    (Some (Return (Config.mergeConfigs
                     current
                     (Config.single (key :: rest) (Config.Str s)))))
    name (key :: rest) defaultValue
  = Config.Str s.
Proof.
  intros Hs Henv. unfold Config.getter, Config.getConfigValue, Config.loadConfig.
  rewrite Henv.
  rewrite (@access_getPath (key :: rest) _ (Config.Str s)).
  - cbn [rbind rcatch Config.truthyValue]. now destruct s.
  - now apply getPath_merge_single.
Qed.

(** X11 (getSimilarityMeasure, getKeepAlive): a getter whose default is not
    empty never answers an empty or missing value, whatever the environment
    and the file hold, and whether or not the file can be read. *)
Theorem getter_never_empty (configFile : option (Result Config.Value))
        (name : jsstring) (path : list jsstring) (defaultValue : Config.Value) :
  Config.truthyValue defaultValue = true ->
  Config.truthyValue (Config.getter env configFile name path defaultValue)
  = true.
Proof.
  intros Hdefault. unfold Config.getter.
  destruct (env name) as [[|c s]|] eqn:E; cbn [truthy orElse].
  2: reflexivity.
  all: unfold Config.getConfigValue;
    destruct (Config.access (Config.loadConfig configFile) path) as [v|e];
    cbn [rbind rcatch]; try assumption;
    destruct (Config.truthyValue v) eqn:Hv; assumption.
Qed.

End ConfigFacts.

(** X8 at a sample: the section GENERAL of a file after an update of one of
    its two settings. *)
Lemma mergeConfigs_lookup_witness :
  Config.own (Config.mergeConfigs (Config.Obj MoreSamples.configOnDisk)
                                  (Config.Obj MoreSamples.configUpdate))
             (lit "GENERAL")
  = Some (Config.Obj [(lit "SIMILARITY_MEASURE", Config.Str (lit "cosine"));
                      (lit "KEEP_ALIVE", Config.Str (lit "10m"))]).
Proof.
  rewrite (@mergeConfigs_lookup MoreSamples.configOnDisk
             MoreSamples.configUpdate (lit "GENERAL")).
  - reflexivity.
  - repeat constructor; simpl; intros H;
      repeat (destruct H as [H|H]; [discriminate H|]); exact H.
Defined.

(** X9 at a sample: the same update applied twice. *)
Lemma mergeConfigs_idempotent_witness :
  Config.mergeConfigs
    (Config.mergeConfigs (Config.Obj MoreSamples.configOnDisk)
                         (Config.Obj MoreSamples.configUpdate))
    (Config.Obj MoreSamples.configUpdate)
  = Config.mergeConfigs (Config.Obj MoreSamples.configOnDisk)
                        (Config.Obj MoreSamples.configUpdate).
Proof.
  apply (@mergeConfigs_idempotent (Config.Obj MoreSamples.configOnDisk)
           MoreSamples.configUpdate).
  cbn. repeat split;
    repeat constructor; simpl; intros H;
      repeat (destruct H as [H|H]; [discriminate H|]); exact H.
Defined.

(** X10 at a sample: the search key written into a file that had none. *)
Lemma config_update_read_back_witness :
  Config.getter MoreSamples.noEnv
    (Some (Return (Config.mergeConfigs
                     (Config.Obj MoreSamples.configOnDisk)
                     (Config.single [lit "API_ENDPOINTS"; lit "GOOGLE_PSE";
                                     lit "API_KEY"]
                                    (Config.Str (lit "key-1"))))))
    (lit "GOOGLE_PSE_API_KEY")
    [lit "API_ENDPOINTS"; lit "GOOGLE_PSE"; lit "API_KEY"] (Config.Str [])
  = Config.Str (lit "key-1").
Proof.
  apply (@config_update_read_back MoreSamples.noEnv
           (Config.Obj MoreSamples.configOnDisk) (Config.Str [])
           (lit "GOOGLE_PSE_API_KEY") (lit "API_ENDPOINTS") (lit "key-1")
           [lit "GOOGLE_PSE"; lit "API_KEY"]).
  - discriminate.
  - reflexivity.
Defined.

(** X11 at a sample: the similarity measure when there is no file. *)
Lemma getter_never_empty_witness :
  Config.truthyValue (Config.getSimilarityMeasure MoreSamples.noEnv None)
  = true.
Proof.
  apply (@getter_never_empty MoreSamples.noEnv None (lit "SIMILARITY_MEASURE")
           [lit "GENERAL"; lit "SIMILARITY_MEASURE"] (Config.Str (lit "cosine"))).
  reflexivity.
Defined.

(* ================================================================== *)
(** * The chat store *)
(* ================================================================== *)

Section MapFacts.
Context {V : Type}.
Implicit Types (m : list (jsstring * V)) (key : jsstring) (value : V).

Lemma map_get_set_same m key value :
  MockDb.get (MockDb.set m key value) key = Some value.
Proof.
  induction m as [|[k v] m IH]; simpl.
  - now rewrite str_eqb_refl.
  - destruct (str_eqb k key) eqn:E; simpl; now rewrite E.
Qed.

Lemma map_get_set_other m key key' value :
  key <> key' ->
  MockDb.get (MockDb.set m key value) key' = MockDb.get m key'.
Proof.
  intros Hne. induction m as [|[k v] m IH]; simpl.
  - now rewrite (proj2 (str_eqb_neq key key') Hne).
  - destruct (str_eqb k key) eqn:E; simpl.
    + apply str_eqb_eq in E. subst k.
      now rewrite (proj2 (str_eqb_neq key key') Hne).
    + now rewrite IH.
Qed.

Lemma map_get_delete_same m key : MockDb.get (MockDb.delete m key) key = None.
Proof.
  unfold MockDb.delete.
  induction m as [|[k v] m IH]; simpl; [reflexivity|].
  destruct (str_eqb k key) eqn:E; simpl; [assumption|now rewrite E].
Qed.

Lemma map_get_delete_other m key key' :
  key <> key' ->
  MockDb.get (MockDb.delete m key) key' = MockDb.get m key'.
Proof.
  intros Hne. unfold MockDb.delete.
  induction m as [|[k v] m IH]; simpl; [reflexivity|].
  destruct (str_eqb k key) eqn:E; simpl.
  - apply str_eqb_eq in E. subst k.
    now rewrite (proj2 (str_eqb_neq key key') Hne).
  - now rewrite IH.
Qed.

(** A binding of a map after [set] is the one that was set, or was there. *)
Lemma map_In_set m key value k v :
  In (k, v) (MockDb.set m key value) ->
  (k = key /\ v = value) \/ In (k, v) m.
Proof.
  induction m as [|[k0 v0] m IH]; simpl.
  - intros [[= <- <-]|[]]. now left.
  - destruct (str_eqb k0 key) eqn:E; simpl.
    + apply str_eqb_eq in E. subst k0.
      intros [[= <- <-]|H]; [now left|now right; right].
    + intros [H|H]; [now right; left|].
      destruct (IH H) as [H'|H']; [now left|now right; right].
Qed.

Lemma map_In_delete m key k v :
  In (k, v) (MockDb.delete m key) -> In (k, v) m.
Proof. unfold MockDb.delete. intros H. now apply filter_In in H. Qed.

End MapFacts.

(** What [set] does to the values of a map of arrays, laid end to end: the
    array under the key is replaced where it lies. *)
Lemma map_concat_set A (m : list (jsstring * list A)) (key : jsstring)
      (value : list A) :
  exists before after,
    concat (MockDb.values m)
    = before ++ match MockDb.get m key with Some old => old | None => [] end
             ++ after
    /\ concat (MockDb.values (MockDb.set m key value))
       = before ++ value ++ after.
Proof.
  unfold MockDb.values. induction m as [|[k v] m IH]; simpl.
  - exists [], []. now rewrite app_nil_r.
  - destruct (str_eqb k key) eqn:E; simpl.
    + now exists [], (concat (map snd m)).
    + destruct IH as [before [after [H1 H2]]].
      exists (v ++ before), after. rewrite H1, H2.
      now rewrite <- !app_assoc.
Qed.

Lemma map_concat_delete A (m : list (jsstring * list A)) (key : jsstring) :
  Extractor.Subseq (concat (MockDb.values (MockDb.delete m key)))
                   (concat (MockDb.values m)).
Proof.
  unfold MockDb.values, MockDb.delete.
  induction m as [|[k v] m IH]; simpl; [constructor|].
  destruct (str_eqb k key); simpl.
  - clear -IH. induction v as [|x v IHv]; simpl; [assumption|].
    now constructor.
  - clear -IH. induction v as [|x v IHv]; simpl; [assumption|].
    now constructor.
Qed.

Lemma Subseq_app A (a a' b b' : list A) :
  Extractor.Subseq a a' -> Extractor.Subseq b b' ->
  Extractor.Subseq (a ++ b) (a' ++ b').
Proof.
  intros Ha Hb. induction Ha as [|x a a' Ha IH|x a a' Ha IH]; simpl;
    [assumption|now constructor|now constructor].
Qed.

Lemma NoDup_Subseq A (l1 l2 : list A) :
  Extractor.Subseq l1 l2 -> NoDup l2 -> NoDup l1.
Proof.
  induction 1 as [|x l1 l2 H IH|x l1 l2 H IH]; intros Hnd.
  - constructor.
  - inversion Hnd; subst. constructor; [|now apply IH].
    intros Hin. eapply Subseq_In in Hin; eauto.
  - inversion Hnd; subst. now apply IH.
Qed.

Lemma map_get_In V (m : list (jsstring * V)) (key : jsstring) (value : V) :
  MockDb.get m key = Some value -> In (key, value) m.
Proof.
  induction m as [|[k v] m IH]; simpl; [discriminate|].
  destruct (str_eqb k key) eqn:E.
  - apply str_eqb_eq in E. subst k. intros [= ->]. now left.
  - intros H. right. now apply IH.
Qed.

Section MockDbFacts.

Variable Payload : Type.

Local Abbreviation Db := (MockDb.Db Payload).
Local Abbreviation StoredMessage := (MockDb.StoredMessage Payload).

Lemma messagesOf_In (db : Db) (key : jsstring) (m : StoredMessage) :
  In m (MockDb.messagesOf db key) ->
  exists messagesArray,
    In (key, messagesArray) (MockDb.messages db) /\ In m messagesArray.
Proof.
  unfold MockDb.messagesOf.
  destruct (MockDb.get (MockDb.messages db) key) as [arr|] eqn:E;
    [|contradiction].
  intros H. exists arr. split; [now apply map_get_In|assumption].
Qed.

(** Replacing the messages of a chat by some of them keeps the store
    consistent. *)
Lemma consistent_set_fewer (db : Db) (key : jsstring)
      (fewer : list StoredMessage) (chats' : list (jsstring * MockDb.ChatRow Payload)) :
  Extractor.Subseq fewer (MockDb.messagesOf db key) ->
  MockDb.consistent db ->
  MockDb.consistent
    (MockDb.mkDb chats' (MockDb.set (MockDb.messages db) key fewer)
                 (MockDb.messageIdCounter db)).
Proof.
  intros Hsub [Hone [Hnd [Hall Hfiled]]].
  destruct (map_concat_set (MockDb.messages db) key fewer)
    as [before [after [Hold Hnew]]].
  assert (Hs : Extractor.Subseq
                 (concat (MockDb.values (MockDb.set (MockDb.messages db) key fewer)))
                 (MockDb.allMessages db)).
  { unfold MockDb.allMessages. rewrite Hold, Hnew.
    apply Subseq_app; [apply Subseq_refl|].
    apply Subseq_app; [exact Hsub|apply Subseq_refl]. }
  unfold MockDb.consistent, MockDb.allMessages in *. cbn [MockDb.messages MockDb.messageIdCounter].
  split; [|split; [|split]].
  - exact Hone.
  - eapply NoDup_Subseq; [|exact Hnd]. now apply Subseq_map.
  - eapply Subseq_Forall; eassumption.
  - intros k arr m Hin Hm. apply map_In_set in Hin as [[-> ->]|Hin].
    + eapply Subseq_In in Hm; [|exact Hsub].
      apply messagesOf_In in Hm as [arr [Harr Hm]]. eapply Hfiled; eassumption.
    + eapply Hfiled; eassumption.
Qed.

Lemma consistent_delete (db : Db) (key : jsstring)
      (chats' : list (jsstring * MockDb.ChatRow Payload)) :
  MockDb.consistent db ->
  MockDb.consistent
    (MockDb.mkDb chats' (MockDb.delete (MockDb.messages db) key)
                 (MockDb.messageIdCounter db)).
Proof.
  intros [Hone [Hnd [Hall Hfiled]]].
  pose proof (map_concat_delete (MockDb.messages db) key) as Hs.
  unfold MockDb.consistent, MockDb.allMessages in *. cbn [MockDb.messages MockDb.messageIdCounter].
  split; [|split; [|split]].
  - exact Hone.
  - eapply NoDup_Subseq; [|exact Hnd]. now apply Subseq_map.
  - eapply Subseq_Forall; eassumption.
  - intros k arr m Hin Hm. apply map_In_delete in Hin. eapply Hfiled; eassumption.
Qed.

Lemma consistent_insertMessage (db : Db) (data : MockDb.MessageRow Payload) :
  MockDb.consistent db -> MockDb.consistent (MockDb.insertMessage data db).
Proof.
  intros [Hone [Hnd [Hall Hfiled]]].
  set (new := MockDb.mkStored data (MockDb.messageIdCounter db)).
  destruct (map_concat_set (MockDb.messages db) (MockDb.chatId data)
              (MockDb.messagesOf db (MockDb.chatId data) ++ [new]))
    as [before [after [Hold Hnew]]].
  fold (MockDb.messagesOf db (MockDb.chatId data)) in Hold.
  assert (Hperm : Permutation
                    (MockDb.allMessages (MockDb.insertMessage data db))
                    (new :: MockDb.allMessages db)).
  { unfold MockDb.allMessages, MockDb.insertMessage. cbn [MockDb.messages].
    fold new. rewrite Hold, Hnew. rewrite <- !app_assoc. simpl.
    rewrite !app_assoc. symmetry. apply Permutation_middle. }
  unfold MockDb.consistent. split; [|split; [|split]].
  - cbn [MockDb.insertMessage MockDb.messageIdCounter]. lia.
  - eapply Permutation_NoDup.
    + symmetry. apply Permutation_map. exact Hperm.
    + simpl. constructor; [|exact Hnd].
      intros Hin. apply in_map_iff in Hin as [m [Hid Hm]].
      rewrite Forall_forall in Hall. specialize (Hall m Hm). lia.
  - eapply Permutation_Forall; [symmetry; exact Hperm|].
    cbn [MockDb.insertMessage MockDb.messageIdCounter].
    constructor; [simpl; lia|].
    eapply Forall_impl; [|exact Hall]. simpl. intros m Hm. lia.
  - cbn [MockDb.insertMessage MockDb.messages]. fold new.
    intros k arr m Hin Hm. apply map_In_set in Hin as [[-> ->]|Hin].
    + apply in_app_iff in Hm as [Hm|[<-|[]]]; [|reflexivity].
      apply messagesOf_In in Hm as [arr [Harr Hm]]. eapply Hfiled; eassumption.
    + eapply Hfiled; eassumption.
Qed.

Lemma consistent_exec (db : Db) (op : MockDb.Op Payload) :
  MockDb.consistent db -> MockDb.consistent (MockDb.exec db op).
Proof.
  intros H. destruct op as [data|data|table condition]; cbn [MockDb.exec].
  - unfold MockDb.insertChat. apply consistent_set_fewer; [|exact H].
    apply Subseq_nil_l.
  - now apply consistent_insertMessage.
  - unfold MockDb.deleteWhere.
    destruct condition as [field value|column value|conditions|]; try exact H.
    + destruct table; try exact H.
      * destruct (str_eqb field (lit "id")); [|exact H].
        now apply consistent_delete.
      * destruct (str_eqb field (lit "chatId")); [|exact H].
        destruct db as [cs ms n]. now apply (@consistent_delete (MockDb.mkDb cs ms n)).
    + destruct conditions as [|[| gtColumn gtValue| |] [|[eqColumn eqValue| | |] rest]];
        try exact H.
      match goal with |- context [if ?c then _ else _] => destruct c end;
        [|exact H].
      destruct db as [cs ms n].
      apply (@consistent_set_fewer (MockDb.mkDb cs ms n)); [|exact H].
      apply Subseq_filter.
Qed.

(** X12 (MockDb): in every state the store can reach from the empty one, by
    any inserts and deletes, no two stored messages have the same id, every
    id is at least 1 and below the counter, and each message lies under
    the chat it names.  An id that a delete freed is never given again. *)
Theorem mockdb_ids_unique (ops : list (MockDb.Op Payload)) :
  let db := MockDb.run ops (MockDb.empty Payload) in
  NoDup (map (@MockDb.id Payload) (MockDb.allMessages db))
  /\ Forall (fun m => (1 <= MockDb.id m < MockDb.messageIdCounter db)%Z)
            (MockDb.allMessages db)
  /\ forall key messagesArray m,
       In (key, messagesArray) (MockDb.messages db) -> In m messagesArray ->
       MockDb.chatId (MockDb.row m) = key.
Proof.
  assert (H : forall db, MockDb.consistent db ->
                         MockDb.consistent (MockDb.run ops db)).
  { unfold MockDb.run. induction ops as [|op ops IH]; intros db Hdb;
      [exact Hdb|].
    simpl. apply IH. now apply consistent_exec. }
  intros db. apply (H (MockDb.empty Payload)).
  unfold MockDb.consistent, MockDb.empty; cbn.
  repeat split; try lia; try constructor.
Qed.

Lemma find_some_In A (p : A -> bool) (l : list A) (x : A) :
  In x l -> p x = true -> exists y, find p l = Some y /\ p y = true.
Proof.
  induction l as [|a l IH]; simpl; [contradiction|].
  intros [->|Hin] Hp.
  - rewrite Hp. now exists x.
  - destruct (p a) eqn:E; [now exists a|now apply IH].
Qed.

(** X13 (MockDb): a message that is inserted is read back as the last of
    its chat, under the id the counter showed, and can be found by its
    messageId; the messages of the other chats and the chats themselves are
    as they were. *)
Theorem insertMessage_read_back (data : MockDb.MessageRow Payload) (db : Db) :
  let db' := MockDb.insertMessage data db in
  let ofChat key := Some (MockDb.Eq (lit "chatId") key) in
  MockDb.findManyMessages (ofChat (MockDb.chatId data)) db'
  = MockDb.findManyMessages (ofChat (MockDb.chatId data)) db
    ++ [MockDb.mkStored data (MockDb.messageIdCounter db)]
  /\ (forall other,
        other <> MockDb.chatId data ->
        MockDb.findManyMessages (ofChat other) db'
        = MockDb.findManyMessages (ofChat other) db)
  /\ (exists m,
        MockDb.findFirstMessage
          (Some (MockDb.Eq (lit "messageId") (MockDb.messageId data))) db'
        = Some m
        /\ MockDb.messageId (MockDb.row m) = MockDb.messageId data)
  /\ MockDb.findManyChats db' = MockDb.findManyChats db.
Proof.
  intros db' ofChat. unfold ofChat, MockDb.findManyMessages, MockDb.findFirstMessage.
  rewrite !str_eqb_refl. unfold db'.
  split; [|split; [|split]].
  - unfold MockDb.messagesOf, MockDb.insertMessage. cbn [MockDb.messages].
    now rewrite map_get_set_same.
  - intros other Hne.
    unfold MockDb.messagesOf, MockDb.insertMessage. cbn [MockDb.messages].
    rewrite map_get_set_other; [reflexivity|congruence].
  - set (new := MockDb.mkStored data (MockDb.messageIdCounter db)).
    destruct (@find_some_In _
                (fun m => str_eqb (MockDb.messageId (MockDb.row m))
                                  (MockDb.messageId data))
                (MockDb.allMessages (MockDb.insertMessage data db)) new)
      as [m [Hfind Hm]].
    + unfold MockDb.allMessages, MockDb.insertMessage. cbn [MockDb.messages].
      destruct (map_concat_set (MockDb.messages db) (MockDb.chatId data)
                  (MockDb.messagesOf db (MockDb.chatId data) ++ [new]))
        as [before [after [_ Hnew]]].
      fold new. rewrite Hnew. apply in_or_app. right. apply in_or_app. left.
      apply in_or_app. right. now left.
    + apply str_eqb_refl.
    + exists m. split; [exact Hfind|now apply str_eqb_eq].
  - reflexivity.
Qed.

(** X14 (MockDb): a chat that is inserted is found by its id and has no
    message, also when a chat of that id was there with messages; the other
    chats and their messages are as they were. *)
Theorem insertChat_read_back (data : MockDb.ChatRow Payload) (db : Db) :
  let db' := MockDb.insertChat data db in
  let byId key := Some (MockDb.Eq (lit "id") key) in
  let ofChat key := Some (MockDb.Eq (lit "chatId") key) in
  MockDb.findFirstChat (byId (MockDb.chat_id data)) db' = Some data
  /\ MockDb.findManyMessages (ofChat (MockDb.chat_id data)) db' = []
  /\ forall other,
       other <> MockDb.chat_id data ->
       MockDb.findFirstChat (byId other) db'
       = MockDb.findFirstChat (byId other) db
       /\ MockDb.findManyMessages (ofChat other) db'
          = MockDb.findManyMessages (ofChat other) db.
Proof.
  intros db' byId ofChat.
  unfold byId, ofChat, MockDb.findManyMessages, MockDb.findFirstChat.
  rewrite !str_eqb_refl. unfold db', MockDb.messagesOf, MockDb.insertChat.
  cbn [MockDb.messages MockDb.chats].
  split; [|split].
  - apply map_get_set_same.
  - now rewrite map_get_set_same.
  - intros other Hne. rewrite !map_get_set_other by congruence. now split.
Qed.

(** X15 (MockDb): after a chat is deleted by its id it is not found and has
    no message; the other chats and their messages are as they were. *)
Theorem deleteChat_gone (key : jsstring) (db : Db) :
  let db' := MockDb.deleteWhere MockDb.chatsTable
                                (MockDb.Eq (lit "id") key) db in
  let byId key := Some (MockDb.Eq (lit "id") key) in
  let ofChat key := Some (MockDb.Eq (lit "chatId") key) in
  MockDb.findFirstChat (byId key) db' = None
  /\ MockDb.findManyMessages (ofChat key) db' = []
  /\ forall other,
       other <> key ->
       MockDb.findFirstChat (byId other) db'
       = MockDb.findFirstChat (byId other) db
       /\ MockDb.findManyMessages (ofChat other) db'
          = MockDb.findManyMessages (ofChat other) db.
Proof.
  intros db' byId ofChat.
  unfold byId, ofChat, MockDb.findManyMessages, MockDb.findFirstChat.
  rewrite !str_eqb_refl. unfold db', MockDb.messagesOf, MockDb.deleteWhere.
  rewrite str_eqb_refl. cbn [MockDb.messages MockDb.chats].
  split; [|split].
  - apply map_get_delete_same.
  - now rewrite map_get_delete_same.
  - intros other Hne. rewrite !map_get_delete_other by congruence. now split.
Qed.

(** X16 (MockDb): deleting the messages of a chat with an id above [n]
    keeps exactly those with an id of at most [n], in their order, whatever
    table is named; with [n = 0] or an empty chat id nothing is deleted at
    all.  The messages of the other chats are as they were. *)
Theorem truncate_messages (table : MockDb.Table) (chat : jsstring) (n : Z)
        (db : Db) :
  let db' := MockDb.deleteWhere
               table
               (MockDb.And [MockDb.Gt (lit "id") n;
                            MockDb.Eq (lit "chatId") chat]) db in
  let ofChat key := Some (MockDb.Eq (lit "chatId") key) in
  (n <> 0%Z -> chat <> [] ->
   MockDb.findManyMessages (ofChat chat) db'
   = filter (fun m => (MockDb.id m <=? n)%Z)
            (MockDb.findManyMessages (ofChat chat) db))
  /\ (n = 0%Z \/ chat = [] -> db' = db)
  /\ forall other,
       other <> chat ->
       MockDb.findManyMessages (ofChat other) db'
       = MockDb.findManyMessages (ofChat other) db.
Proof.
  intros db' ofChat.
  unfold ofChat, MockDb.findManyMessages.
  rewrite !str_eqb_refl. unfold db', MockDb.deleteWhere.
  rewrite !str_eqb_refl. cbn [andb].
  split; [|split].
  - intros Hn Hchat.
    destruct (n =? 0)%Z eqn:En; [apply Z.eqb_eq in En; contradiction|].
    destruct chat as [|c chat]; [contradiction|].
    cbn [negb length Nat.eqb andb]. unfold MockDb.messagesOf at 1.
    cbn [MockDb.messages]. now rewrite map_get_set_same.
  - intros [-> | ->]; [reflexivity|].
    destruct (n =? 0)%Z; reflexivity.
  - intros other Hne.
    destruct (negb (n =? 0)%Z && negb (length chat =? 0)); [|reflexivity].
    unfold MockDb.messagesOf at 1. cbn [MockDb.messages].
    rewrite map_get_set_other by congruence. reflexivity.
Qed.

End MockDbFacts.

(* ================================================================== *)
(** * The retriever *)
(* ================================================================== *)

Lemma sameUrl_eq (a b : option jsstring) : Agent.sameUrl a b = true <-> a = b.
Proof.
  destruct a as [x|], b as [y|]; simpl; try (split; [discriminate|discriminate]);
    try tauto.
  rewrite str_eqb_eq. split; [now intros ->|now intros [= ->]].
Qed.

Lemma updateFirst_none A (p : A -> bool) (f : A -> A) (l : list A) :
  existsb p l = false -> Agent.updateFirst p f l = l.
Proof.
  induction l as [|x l IH]; simpl; [reflexivity|].
  destruct (p x); simpl; [discriminate|]. intros H. now rewrite IH.
Qed.

Lemma updateFirst_app A (p : A -> bool) (f : A -> A) (l1 l2 : list A) :
  existsb p l1 = false ->
  Agent.updateFirst p f (l1 ++ l2) = l1 ++ Agent.updateFirst p f l2.
Proof.
  induction l1 as [|x l1 IH]; simpl; [reflexivity|].
  destruct (p x); simpl; [discriminate|]. intros H. now rewrite IH.
Qed.

Lemma updateFirst_some A (p : A -> bool) (f : A -> A) (l : list A) :
  existsb p l = true ->
  exists l1 x l2,
    l = l1 ++ x :: l2 /\ p x = true
    /\ Agent.updateFirst p f l = l1 ++ f x :: l2.
Proof.
  induction l as [|x l IH]; simpl; [discriminate|].
  destruct (p x) eqn:E; simpl.
  - intros _. now exists [], x, l.
  - intros H. destruct (IH H) as [l1 [y [l2 [-> [Hy ->]]]]].
    now exists (x :: l1), y, l2.
Qed.

(** A document whose URL no group has opens a group of its own. *)
Lemma addDoc_new (docGroups : list Agent.Group) (doc : Document) :
  existsb (Agent.takes doc) docGroups = false ->
  Agent.addDoc docGroups doc = docGroups ++ [Agent.opened doc].
Proof.
  intros H. unfold Agent.addDoc. rewrite H.
  rewrite updateFirst_app by exact H. f_equal.
  cbn [Agent.updateFirst]. unfold Agent.takes at 1.
  cbn [Agent.group_metadata Agent.totalDocs].
  now rewrite (proj2 (sameUrl_eq _ _) eq_refl).
Qed.

Lemma takes_other_url (doc : Document) (d : Agent.Group) :
  meta_url (Agent.group_metadata d) <> meta_url (metadata doc) ->
  Agent.takes doc d = false.
Proof.
  intros H. unfold Agent.takes.
  destruct (Agent.sameUrl (meta_url (Agent.group_metadata d))
                          (meta_url (metadata doc))) eqn:E; [|reflexivity].
  apply sameUrl_eq in E. contradiction.
Qed.

Lemma groupDocs_distinct_from (docs done : list Document) :
  NoDup (map (fun doc => meta_url (metadata doc)) (done ++ docs)) ->
  fold_left Agent.addDoc docs (map Agent.opened done)
  = map Agent.opened (done ++ docs).
Proof.
  revert done. induction docs as [|doc docs IH]; intros done Hnd.
  - now rewrite app_nil_r.
  - cbn [fold_left]. rewrite addDoc_new.
    + replace (map Agent.opened done ++ [Agent.opened doc])
        with (map Agent.opened (done ++ [doc])) by now rewrite map_app.
      replace (done ++ doc :: docs) with ((done ++ [doc]) ++ docs) in *
        by now rewrite <- app_assoc.
      now apply IH.
    + rewrite map_app in Hnd. apply NoDup_remove_2 in Hnd.
      apply not_true_iff_false. intros Hex.
      apply existsb_exists in Hex as [d [Hd Htakes]].
      apply in_map_iff in Hd as [doc' [<- Hdoc']].
      apply Hnd. apply in_or_app. left.
      apply in_map_iff. exists doc'. split; [|assumption].
      unfold Agent.takes in Htakes. apply andb_true_iff in Htakes as [Hurl _].
      now apply sameUrl_eq in Hurl.
Qed.

(** X17 (createSearchRetrieverChain, link mode): when the link documents
    have URLs that differ from one another, each of them becomes a group of
    its own whose text is the text of the document twice, with an empty line
    between, and whose count is 2. *)
Theorem groupDocs_distinct (linkDocs : list Document) :
  NoDup (map (fun doc => meta_url (metadata doc)) linkDocs) ->
  Agent.groupDocs linkDocs
  = map (fun doc =>
           Agent.mkGroup (pageContent doc ++ nl ++ nl ++ pageContent doc)
                         (metadata doc) 2)
        linkDocs.
Proof.
  intros Hnd. apply (groupDocs_distinct_from linkDocs []). exact Hnd.
Qed.

(** One document more in the groups: the counts stay between 2 and 10 and
    one of them grows by one. *)
Lemma addDoc_accounts (docGroups : list Agent.Group) (doc : Document) :
  Forall (fun d => (2 <= Agent.totalDocs d <= 10)%Z) docGroups ->
  Forall (fun d => (2 <= Agent.totalDocs d <= 10)%Z)
         (Agent.addDoc docGroups doc)
  /\ fold_right Z.add 0%Z (map Agent.held (Agent.addDoc docGroups doc))
     = (fold_right Z.add 0%Z (map Agent.held docGroups) + 1)%Z
  /\ length docGroups <= length (Agent.addDoc docGroups doc)
     <= S (length docGroups).
Proof.
  intros Hall.
  assert (Hsum : forall l1 l2 : list Agent.Group,
             fold_right Z.add 0%Z (map Agent.held (l1 ++ l2))
             = (fold_right Z.add 0%Z (map Agent.held l1)
                + fold_right Z.add 0%Z (map Agent.held l2))%Z).
  { intros l1 l2. induction l1 as [|x l1 IH]; simpl; [reflexivity|].
    rewrite IH. lia. }
  destruct (existsb (Agent.takes doc) docGroups) eqn:E.
  - unfold Agent.addDoc. rewrite E.
    destruct (updateFirst_some
                (Agent.takes doc)
                (fun d => Agent.mkGroup (Agent.group_pageContent d ++ nl ++ nl
                                         ++ pageContent doc)
                                        (Agent.group_metadata d)
                                        (Agent.totalDocs d + 1))
                docGroups E) as [l1 [x [l2 [-> [Hx ->]]]]].
    apply Forall_app in Hall as [H1 H2]. inversion H2 as [|? ? Hx2 H2']; subst.
    unfold Agent.takes in Hx. apply andb_true_iff in Hx as [_ Hlt].
    apply Z.ltb_lt in Hlt.
    split; [|split].
    + apply Forall_app. split; [exact H1|].
      constructor; [cbn; lia|exact H2'].
    + rewrite !Hsum. cbn. unfold Agent.held. cbn. lia.
    + rewrite !length_app. cbn. lia.
  - rewrite addDoc_new by exact E.
    split; [|split].
    + apply Forall_app. split; [exact Hall|]. constructor; [cbn; lia|constructor].
    + rewrite Hsum. cbn. lia.
    + rewrite length_app. cbn. lia.
Qed.

(** X18 (createSearchRetrieverChain, link mode): whatever the link
    documents, every one of them is counted in exactly one group (the counts,
    each taken less one, add up to the number of documents), a group counts
    between 2 and 10, so holds 9 documents at most, and there are no more
    groups than documents. *)
Theorem groupDocs_accounts (linkDocs : list Document) :
  Forall (fun d => (2 <= Agent.totalDocs d <= 10)%Z) (Agent.groupDocs linkDocs)
  /\ fold_right Z.add 0%Z (map Agent.held (Agent.groupDocs linkDocs))
     = Z.of_nat (length linkDocs)
  /\ length (Agent.groupDocs linkDocs) <= length linkDocs.
Proof.
  unfold Agent.groupDocs.
  assert (H : forall docGroups,
             Forall (fun d => (2 <= Agent.totalDocs d <= 10)%Z) docGroups ->
             Forall (fun d => (2 <= Agent.totalDocs d <= 10)%Z)
                    (fold_left Agent.addDoc linkDocs docGroups)
             /\ fold_right Z.add 0%Z
                  (map Agent.held (fold_left Agent.addDoc linkDocs docGroups))
                = (fold_right Z.add 0%Z (map Agent.held docGroups)
                   + Z.of_nat (length linkDocs))%Z
             /\ length (fold_left Agent.addDoc linkDocs docGroups)
                <= length docGroups + length linkDocs).
  { induction linkDocs as [|doc linkDocs IH]; intros docGroups Hall.
    - cbn. repeat split; [assumption|lia|lia].
    - destruct (addDoc_accounts doc Hall) as [Hall' [Hsum' Hlen']].
      destruct (IH _ Hall') as [H1 [H2 H3]].
      cbn [fold_left]. repeat split; [assumption|rewrite H2, Hsum'|].
      + cbn [length]. lia.
      + cbn [length]. lia. }
  destruct (H [] (Forall_nil _)) as [H1 [H2 H3]].
  repeat split; [assumption|rewrite H2; cbn; lia|cbn in H3; lia].
Qed.

Section AgentFacts.

Variable apiKey : option jsstring.
Variable searchEngineId : option jsstring.
Variable searchOracle : Net.Oracle Search.Url Search.ResponseData.
Variable num : Type.
Variable ofZ : Z -> num.
Variable add mul : num -> num -> num.
Variable log10 : num -> num.
Variable subSign : num -> num -> Z.
Variable siteOracle : Net.Oracle jsstring jsstring.
Variable env : Links.Env.
Variable htmlToText : jsstring -> Result jsstring.
Variable proxyOracle : Net.Oracle Links.ProxyRequest Links.ProxyResponse.
Variable proxySettledAt : list (Event Links.ProxyRequest) -> Z.
Variable modelOracle : Net.Oracle Agent.Prompt jsstring.
Variable modelSettledAt : list (Event Agent.Prompt) -> Z.
Variable activeEngines : list jsstring.

Local Abbreviation searchMode :=
  (Agent.searchMode apiKey searchEngineId searchOracle ofZ add mul log10
                    subSign siteOracle env htmlToText proxyOracle
                    proxySettledAt activeEngines).

(** The search that search mode starts with. *)
Local Abbreviation search question :=
  (Search.searchGoogle apiKey searchEngineId searchOracle
     (Agent.removeMatches Agent.thinkRegex question)
     (Some (Search.mkOptions (Some (lit "en")) (Some activeEngines) None
                             (Some 20%Z)))).

(** The scoring stage never throws and scores every URL it is given. *)
Lemma scoreAll_returns (urls : list jsstring) (t : list (Event jsstring)) :
  exists rs t',
    Scorer.scoreAll ofZ add mul log10 siteOracle urls t = (Return rs, t')
    /\ length rs = length urls.
Proof.
  unfold Scorer.scoreAll.
  destruct (@batchLoop_total num ofZ add mul log10 siteOracle urls
              (length urls) 0%Z [] t) as (rs & t' & Hrun & Hall); try lia.
  exists rs, t'. split; [exact Hrun|].
  apply Forall2_length in Hall. now rewrite <- Hall.
Qed.

(** Search mode, once the search has answered. *)
Lemma searchMode_cases (question : jsstring) (w : Agent.World)
      (res : Search.Output) (t : list (Event Search.Url)) :
  search question (Agent.searched w) = (Return res, t) ->
  let asked := Agent.removeMatches Agent.thinkRegex question in
  let redditResults := filter Agent.isRedditResult (Search.results res) in
  (redditResults = [] ->
   searchMode question w
   = (Return (Agent.mkRetrieved asked []),
      Agent.mkWorld t (Agent.scored w) (Agent.fetched w) (Agent.asked w)))
  /\ (redditResults <> [] ->
      exists documents scored' new,
        let successfulDocuments := filter Agent.isSuccessful documents in
        searchMode question w
        = (Return (Agent.mkRetrieved
                     asked
                     (if length successfulDocuments <? 2
                      then successfulDocuments
                           ++ map (Agent.snippetDocument activeEngines)
                                  redditResults
                      else documents)),
           Agent.mkWorld t scored' (Agent.fetched w ++ new) (Agent.asked w))
        /\ requestCount new <= 5).
Proof.
  intros Hsearch asked redditResults.
  assert (Hlen : length (map Search.url (slice redditResults 0 20))
                 = Nat.min 20 (length redditResults)).
  { rewrite length_map, slice_prefix by lia. rewrite length_firstn.
    now change (Z.to_nat 20) with 20. }
  split.
  - intros Hnone.
    unfold Agent.searchMode, Agent.bind at 1, Agent.onSearch.
    rewrite Hsearch. fold asked. fold redditResults.
    rewrite Hnone. reflexivity.
  - intros Hsome.
    unfold Agent.searchMode, Agent.bind at 1, Agent.onSearch.
    rewrite Hsearch. fold asked. fold redditResults.
    assert (Hpos : 0 < length redditResults).
    { destruct redditResults; [contradiction|cbn; lia]. }
    set (initialRedditUrls := map Search.url (slice redditResults 0 20)) in *.
    replace (0 <? length initialRedditUrls) with true
      by (symmetry; apply Nat.ltb_lt; lia).
    destruct (scoreAll_returns initialRedditUrls (Agent.scored w))
      as (rs & t' & Hscore & Hrs).
    unfold Agent.bind at 1, Agent.onSite. cbn [Agent.scored].
    rewrite Hscore.
    set (topRedditUrls :=
           map (@Scorer.res_url num)
               (slice (sort (Agent.byScoreDesc subSign) rs) 0 10)).
    assert (Htop : 0 < length topRedditUrls).
    { unfold topRedditUrls. rewrite length_map, slice_prefix by lia.
      rewrite length_firstn, length_sort.
      change (Z.to_nat 10) with 10. lia. }
    replace (0 <? length topRedditUrls) with true
      by (symmetry; now apply Nat.ltb_lt).
    destruct (getDocumentsFromLinks_requests env htmlToText proxyOracle
                                             proxySettledAt
                                             topRedditUrls (Agent.fetched w))
      as (documents & new & Hdocs & Hnew).
    unfold Agent.bind, Agent.onProxy. cbn [Agent.fetched]. rewrite Hdocs.
    exists documents, t', new. cbn zeta.
    split; [|exact Hnew].
    cbn [Agent.searched Agent.scored Agent.asked].
    destruct (length (filter Agent.isSuccessful documents) <? 2); reflexivity.
Qed.

(** X19 (createSearchRetrieverChain, search mode): once the search has
    answered, search mode returns, with the question less its think blocks,
    and the documents it returns are none exactly when no result of the
    search has a URL that holds reddit.com: the other results are never
    used, and then nothing is scored or fetched. *)
Theorem search_mode_needs_reddit (question : jsstring) (w : Agent.World)
        (res : Search.Output) (t : list (Event Search.Url)) :
  search question (Agent.searched w) = (Return res, t) ->
  exists docs w',
    searchMode question w
    = (Return (Agent.mkRetrieved
                 (Agent.removeMatches Agent.thinkRegex question) docs), w')
    /\ (docs = [] <-> filter Agent.isRedditResult (Search.results res) = [])
    /\ (filter Agent.isRedditResult (Search.results res) = [] ->
        Agent.scored w' = Agent.scored w /\ Agent.fetched w' = Agent.fetched w).
Proof.
  intros Hsearch.
  destruct (searchMode_cases question w Hsearch) as [Hnone Hsome].
  destruct (filter Agent.isRedditResult (Search.results res))
    as [|result redditResults] eqn:E.
  - eexists. eexists. split; [exact (Hnone eq_refl)|]. now repeat split.
  - destruct Hsome as (documents & scored' & new & Hrun & _); [discriminate|].
    eexists. eexists. split; [exact Hrun|]. split.
    + split; [|discriminate]. intros Hempty. exfalso.
      destruct (length (filter Agent.isSuccessful documents) <? 2) eqn:Hfew.
      * apply app_eq_nil in Hempty as [_ Hempty]. discriminate Hempty.
      * apply Nat.ltb_ge in Hfew. rewrite Hempty in Hfew. cbn in Hfew. lia.
    + discriminate.
Qed.

(** X20 (createSearchRetrieverChain, search mode): once the search has
    answered, search mode sends at most five requests to the proxy, although
    it selects up to ten URLs, and asks nothing of the chat model. *)
Theorem search_mode_requests (question : jsstring) (w : Agent.World)
        (res : Search.Output) (t : list (Event Search.Url)) :
  search question (Agent.searched w) = (Return res, t) ->
  exists retrieved w' new,
    searchMode question w = (Return retrieved, w')
    /\ Agent.searched w' = t
    /\ Agent.fetched w' = Agent.fetched w ++ new
    /\ requestCount new <= 5
    /\ Agent.asked w' = Agent.asked w.
Proof.
  intros Hsearch.
  destruct (searchMode_cases question w Hsearch) as [Hnone Hsome].
  destruct (filter Agent.isRedditResult (Search.results res))
    as [|result redditResults] eqn:E.
  - eexists. eexists. exists []. split; [exact (Hnone eq_refl)|].
    cbn. rewrite app_nil_r. repeat split. lia.
  - destruct Hsome as (documents & scored' & new & Hrun & Hnew); [discriminate|].
    eexists. eexists. exists new. split; [exact Hrun|]. now repeat split.
Qed.

(** X21 (createSearchRetrieverChain, search mode): when the search found
    discussions, the URLs of the first 20 of them are scored, the 10 best
    scored are given to link mode, and the answer is the documents link mode
    returns for them if two of these at least are longer than 100
    characters; otherwise it is those that are, followed by one snippet
    document for every discussion result of the search, in the order of the
    search. *)
Theorem search_mode_fallback (question : jsstring) (w : Agent.World)
        (res : Search.Output) (t : list (Event Search.Url))
        (allScoreResults : list (Scorer.ScoreResult num))
        (scored' : list (Event jsstring)) (documents : list Document)
        (fetched' : list (Event Links.ProxyRequest)) :
  search question (Agent.searched w) = (Return res, t) ->
  filter Agent.isRedditResult (Search.results res) <> [] ->
  Scorer.scoreAll
    ofZ add mul log10 siteOracle
    (map Search.url
         (slice (filter Agent.isRedditResult (Search.results res)) 0 20))
    (Agent.scored w)
  = (Return allScoreResults, scored') ->
  Links.getDocumentsFromLinks
    env htmlToText proxyOracle proxySettledAt
    (map (@Scorer.res_url num)
         (slice (sort (Agent.byScoreDesc subSign) allScoreResults) 0 10))
    (Agent.fetched w)
  = (Return documents, fetched') ->
  searchMode question w
  = (Return (Agent.mkRetrieved
               (Agent.removeMatches Agent.thinkRegex question)
               (if length (filter Agent.isSuccessful documents) <? 2
                then filter Agent.isSuccessful documents
                     ++ map (Agent.snippetDocument activeEngines)
                            (filter Agent.isRedditResult (Search.results res))
                else documents)),
     Agent.mkWorld t scored' fetched' (Agent.asked w)).
Proof.
  intros Hsearch Hsome Hscore Hdocs.
  unfold Agent.searchMode, Agent.bind at 1, Agent.onSearch.
  rewrite Hsearch.
  set (redditResults := filter Agent.isRedditResult (Search.results res)) in *.
  assert (Hpos : 0 < length redditResults).
  { destruct redditResults; [contradiction|cbn; lia]. }
  set (initialRedditUrls := map Search.url (slice redditResults 0 20)) in *.
  assert (Hlen : length initialRedditUrls = Nat.min 20 (length redditResults)).
  { unfold initialRedditUrls. rewrite length_map, slice_prefix by lia.
    rewrite length_firstn. now change (Z.to_nat 20) with 20. }
  replace (0 <? length initialRedditUrls) with true
    by (symmetry; apply Nat.ltb_lt; lia).
  unfold Agent.bind at 1, Agent.onSite. cbn [Agent.scored].
  rewrite Hscore.
  destruct (scoreAll_returns initialRedditUrls (Agent.scored w))
    as (rs & t' & Hscore' & Hrs).
  rewrite Hscore in Hscore'. injection Hscore' as <- <-.
  set (topRedditUrls :=
         map (@Scorer.res_url num)
             (slice (sort (Agent.byScoreDesc subSign) allScoreResults) 0 10))
    in *.
  assert (Htop : 0 < length topRedditUrls).
  { unfold topRedditUrls. rewrite length_map, slice_prefix by lia.
    rewrite length_firstn, length_sort.
    change (Z.to_nat 10) with 10. lia. }
  replace (0 <? length topRedditUrls) with true
    by (symmetry; now apply Nat.ltb_lt).
  unfold Agent.bind, Agent.onProxy. cbn [Agent.fetched]. rewrite Hdocs.
  cbn [Agent.searched Agent.scored Agent.asked].
  destruct (length (filter Agent.isSuccessful documents) <? 2); reflexivity.
Qed.

(** The summaries of the groups: one prompt each, in the order of the
    groups; when none of them fails there is one summary for each group,
    with the title and the URL of the group. *)
Lemma mapM_summarize (question : jsstring) (docGroups : list Agent.Group) :
  forall t pushed t',
    Net.mapM (fun doc =>
                Net.bind (Agent.summarize modelOracle question doc)
                         (fun document => Net.ret [document]))
             docGroups t
    = (Return pushed, t') ->
    t' = t ++ map (fun doc => Request (Agent.mkPrompt
                                         question
                                         (Agent.group_pageContent doc)))
                  docGroups
    /\ map metadata (concat pushed) = map Agent.summaryMetadata docGroups.
Proof.
  induction docGroups as [|doc docGroups IH]; intros t pushed t' H.
  - cbn in H. injection H as <- <-. now rewrite app_nil_r.
  - cbn [Net.mapM] in H. unfold Net.bind at 1 in H.
    unfold Agent.summarize at 1, Net.bind at 1 2, Net.request, Net.ret in H.
    destruct (modelOracle t (Agent.mkPrompt question (Agent.group_pageContent doc)))
      as [content|e]; [|discriminate H].
    unfold Net.bind at 1 in H.
    match type of H with
    | context [Net.mapM ?f docGroups ?t1] =>
        destruct (Net.mapM f docGroups t1) as [[rest|e] t''] eqn:E
    end; [|discriminate H].
    injection H as <- <-.
    destruct (IH _ _ _ E) as [-> Hmeta].
    split; [now rewrite <- app_assoc|]. cbn. now rewrite Hmeta.
Qed.

(** X22 (createSearchRetrieverChain, link mode): when link mode returns, it
    has asked the chat model once for each group of link documents, in the
    order of the groups, with the question (summarize, when the question is
    empty) and the text of the group; it returns one summary for each group,
    which keeps the title and the URL of the group and nothing else of its
    metadata.  The search API and the site are not asked. *)
Theorem link_mode_summaries (links : list jsstring) (question : jsstring)
        (w w' : Agent.World) (retrieved : Agent.Retrieved) :
  Agent.linkMode env htmlToText proxyOracle proxySettledAt modelOracle
                 modelSettledAt links question w
  = (Return retrieved, w') ->
  exists linkDocs,
    Links.getDocumentsFromLinks env htmlToText proxyOracle proxySettledAt links
                                (Agent.fetched w)
    = (Return linkDocs, Agent.fetched w')
    /\ Agent.query retrieved = Agent.linkQuestion question
    /\ Permutation (map metadata (Agent.docs retrieved))
                   (map Agent.summaryMetadata (Agent.groupDocs linkDocs))
    /\ Agent.asked w'
       = Agent.asked w
         ++ map (fun doc => Request (Agent.mkPrompt
                                       (Agent.linkQuestion question)
                                       (Agent.group_pageContent doc)))
                (Agent.groupDocs linkDocs)
    /\ Agent.searched w' = Agent.searched w
    /\ Agent.scored w' = Agent.scored w.
Proof.
  unfold Agent.linkMode, Agent.bind, Agent.onProxy, Agent.onModel, Agent.ret.
  destruct (Links.getDocumentsFromLinks env htmlToText proxyOracle
                                        proxySettledAt links (Agent.fetched w))
    as [[linkDocs|e] t1] eqn:Hlinks; [|discriminate].
  cbn [Agent.asked Agent.searched Agent.scored Agent.fetched].
  match goal with
  | |- context [Net.pushAll modelSettledAt ?f ?groups ?t0] =>
      destruct (Net.pushAll modelSettledAt f groups t0) as [[ds|e] t2] eqn:Hmodel
  end; [|discriminate].
  intros [= <- <-]. exists linkDocs.
  destruct (pushAll_returned _ _ _ _ Hmodel) as (pushed & Hrun & Hperm).
  destruct (mapM_summarize _ _ _ Hrun) as [-> Hmeta].
  cbn. repeat split; try reflexivity.
  rewrite <- Hmeta. now apply Permutation_map.
Qed.

End AgentFacts.

(** X22 at a sample: one thread, read through the proxy and summarized. *)
Lemma link_mode_summaries_witness :
  exists linkDocs,
    Links.getDocumentsFromLinks Samples.production Samples.keepText
                                Samples.proxyPage Samples.inOrder
                                [MoreSamples.wwwThread] []
    = (Return linkDocs,
       Agent.fetched (snd (MoreSamples.linkModeSample
                             [MoreSamples.wwwThread] []
                             MoreSamples.startWorld)))
    /\ lit "summarize" = Agent.linkQuestion []
    /\ Permutation
         [mkMeta (Some (lit "Best kb"))
                 (Some (lit "https://old.reddit.com/r/keyboards/comments/1/best_kb/"))
                 None false]
         (map Agent.summaryMetadata (Agent.groupDocs linkDocs))
    /\ Agent.asked (snd (MoreSamples.linkModeSample
                           [MoreSamples.wwwThread] []
                           MoreSamples.startWorld))
       = []
         ++ map (fun doc => Request (Agent.mkPrompt
                                       (Agent.linkQuestion [])
                                       (Agent.group_pageContent doc)))
                (Agent.groupDocs linkDocs)
    /\ Agent.searched (snd (MoreSamples.linkModeSample
                              [MoreSamples.wwwThread] []
                              MoreSamples.startWorld)) = []
    /\ Agent.scored (snd (MoreSamples.linkModeSample
                            [MoreSamples.wwwThread] []
                            MoreSamples.startWorld)) = [].
Proof.
  apply (@link_mode_summaries
           Samples.production Samples.keepText Samples.proxyPage
           Samples.inOrder MoreSamples.modelAnswers Samples.inOrder
           [MoreSamples.wwwThread] []
           MoreSamples.startWorld
           (snd (MoreSamples.linkModeSample [MoreSamples.wwwThread] []
                                            MoreSamples.startWorld))
           (Agent.mkRetrieved
              (lit "summarize")
              [mkDoc (lit "A summary.")
                     (mkMeta (Some (lit "Best kb"))
                             (Some (lit "https://old.reddit.com/r/keyboards/comments/1/best_kb/"))
                             None false)])).
  vm_compute. reflexivity.
Defined.

(** X17 at a sample: three link documents of three threads. *)
Lemma groupDocs_distinct_witness :
  Agent.groupDocs MoreSamples.threeThreads
  = map (fun doc =>
           Agent.mkGroup (pageContent doc ++ nl ++ nl ++ pageContent doc)
                         (metadata doc) 2)
        MoreSamples.threeThreads.
Proof.
  apply (@groupDocs_distinct MoreSamples.threeThreads).
  repeat constructor; simpl; intros H;
    repeat (destruct H as [H|H]; [discriminate H|]); exact H.
Defined.

(** X19 at a sample: a search that finds one thread and one other page. *)
Lemma search_mode_needs_reddit_witness :
  exists docs w',
    MoreSamples.searchModeSample MoreSamples.thinkingQuestion
                                 MoreSamples.startWorld
    = (Return (Agent.mkRetrieved
                 (Agent.removeMatches Agent.thinkRegex
                                      MoreSamples.thinkingQuestion) docs), w')
    /\ (docs = []
        <-> filter Agent.isRedditResult
                   (Search.results MoreSamples.searchAnswer) = [])
    /\ (filter Agent.isRedditResult
               (Search.results MoreSamples.searchAnswer) = [] ->
        Agent.scored w' = Agent.scored MoreSamples.startWorld
        /\ Agent.fetched w' = Agent.fetched MoreSamples.startWorld).
Proof.
  apply (@search_mode_needs_reddit
           Samples.searchKey Samples.searchEngine Samples.searchTwoItems
           Z (fun z : Z => z) Z.add Z.mul MoreSamples.roughLog10 Z.sub
           Samples.alwaysPage Samples.production Samples.keepText
           Samples.proxyPage Samples.inOrder [lit "google"]
           MoreSamples.thinkingQuestion MoreSamples.startWorld
           MoreSamples.searchAnswer MoreSamples.searchRequest).
  vm_compute. reflexivity.
Defined.

(** X20 at the same sample. *)
Lemma search_mode_requests_witness :
  exists retrieved w' new,
    MoreSamples.searchModeSample MoreSamples.thinkingQuestion
                                 MoreSamples.startWorld
    = (Return retrieved, w')
    /\ Agent.searched w' = MoreSamples.searchRequest
    /\ Agent.fetched w' = Agent.fetched MoreSamples.startWorld ++ new
    /\ requestCount new <= 5
    /\ Agent.asked w' = Agent.asked MoreSamples.startWorld.
Proof.
  apply (@search_mode_requests
           Samples.searchKey Samples.searchEngine Samples.searchTwoItems
           Z (fun z : Z => z) Z.add Z.mul MoreSamples.roughLog10 Z.sub
           Samples.alwaysPage Samples.production Samples.keepText
           Samples.proxyPage Samples.inOrder [lit "google"]
           MoreSamples.thinkingQuestion MoreSamples.startWorld
           MoreSamples.searchAnswer MoreSamples.searchRequest).
  vm_compute. reflexivity.
Defined.

(** X21 at the same sample: one thread is scored and read; its document
    alone is not enough, and the snippet of the search result follows it. *)
Lemma search_mode_fallback_witness :
  MoreSamples.searchModeSample MoreSamples.thinkingQuestion
                               MoreSamples.startWorld
  = (Return (Agent.mkRetrieved
               (Agent.removeMatches Agent.thinkRegex
                                    MoreSamples.thinkingQuestion)
               (if length (filter Agent.isSuccessful MoreSamples.threadDocuments)
                   <? 2
                then filter Agent.isSuccessful MoreSamples.threadDocuments
                     ++ map (Agent.snippetDocument [lit "google"])
                            (filter Agent.isRedditResult
                                    (Search.results MoreSamples.searchAnswer))
                else MoreSamples.threadDocuments)),
     Agent.mkWorld MoreSamples.searchRequest
                   [Request (lit "https://old.reddit.com/r/keyboards/comments/1/best_kb/")]
                   [Request (Links.mkProxyRequest
                               (lit "https://app.example.com")
                               (lit "https://old.reddit.com/r/keyboards/comments/1/best_kb/"))]
                   []).
Proof.
  apply (@search_mode_fallback
           Samples.searchKey Samples.searchEngine Samples.searchTwoItems
           Z (fun z : Z => z) Z.add Z.mul MoreSamples.roughLog10 Z.sub
           Samples.alwaysPage Samples.production Samples.keepText
           Samples.proxyPage Samples.inOrder [lit "google"]
           MoreSamples.thinkingQuestion MoreSamples.startWorld
           MoreSamples.searchAnswer MoreSamples.searchRequest
           MoreSamples.threadScores).
  - vm_compute. reflexivity.
  - vm_compute. discriminate.
  - vm_compute. reflexivity.
  - vm_compute. reflexivity.
Defined.

(** What search mode returns at that sample: the document of the thread,
    then the snippet of the search result. *)
Example search_mode_sample :
  map (fun doc => (meta_url (metadata doc), isReddit (metadata doc)))
      (match fst (MoreSamples.searchModeSample MoreSamples.thinkingQuestion
                                               MoreSamples.startWorld) with
       | Return retrieved => Agent.docs retrieved
       | Throw _ => []
       end)
  = [(Some (lit "https://old.reddit.com/r/keyboards/comments/1/best_kb/"), true);
     (Some (lit "https://www.reddit.com/r/keyboards/comments/1/best_kb/"), false)].
Proof. vm_compute. reflexivity. Qed.

(* ================================================================== *)
(** * Bounds the pipeline keeps *)
(* ================================================================== *)

Lemma length_slice_prefix A (l : list A) (n : Z) :
  (0 <= n)%Z -> length (slice l 0 n) <= Z.to_nat n.
Proof.
  intros Hn. rewrite slice_prefix by lia. rewrite length_firstn. lia.
Qed.

Section RerankerBounds.

Variable Vec Sim : Type.
Variable gt : Sim -> Sim -> bool.
Variable subSign : Sim -> Sim -> Z.
Variable defaultThreshold : Sim.
Variable computeSimilarity : Vec -> option Vec -> Result Sim.
Variable embedQuery : jsstring -> Result Vec.
Variable embedDocuments : list jsstring -> Result (list Vec).
Variable readExtracted : jsstring -> Result Reranker.FileContent.
Variable readEmbeddings : jsstring -> Result (list Vec).
Variable toLocaleLowerCase : jsstring -> jsstring.
Variable config : Reranker.Config Sim.

Local Abbreviation rerankDocs :=
  (Reranker.rerankDocs gt subSign defaultThreshold computeSimilarity
                       embedQuery embedDocuments readExtracted readEmbeddings
                       toLocaleLowerCase config).

Lemma length_rank (cap : Z) (scored : list (Reranker.Scored Sim)) :
  (0 <= cap)%Z ->
  length (Reranker.rank gt subSign defaultThreshold config cap scored)
  <= Z.to_nat cap.
Proof. intros Hcap. unfold Reranker.rank. now apply length_slice_prefix. Qed.

(** X23 (rerankDocs): whatever the mode, the query, the documents and the
    files, an answer of the reranker has 30 elements at most. *)
Theorem rerank_at_most_30 (query : jsstring) (docs : list Document)
        (fileIds : list jsstring) (optimizationMode : Reranker.Mode)
        (sortedDocs : list (option Document)) :
  rerankDocs query docs fileIds optimizationMode = Return sortedDocs ->
  length sortedDocs <= 30.
Proof.
  unfold Reranker.rerankDocs.
  destruct ((length docs =? 0) && (length fileIds =? 0)) eqn:Hempty.
  - intros [= <-]. apply andb_true_iff in Hempty as [Hdocs _].
    apply Nat.eqb_eq in Hdocs. rewrite length_map. lia.
  - destruct (Reranker.loadFiles readExtracted readEmbeddings fileIds)
      as [filesData|e]; unfold rbind; [|discriminate].
    destruct (str_eqb (toLocaleLowerCase query) (lit "summarize")).
    { intros [= <-]. rewrite length_map.
      apply (@length_slice_prefix _ docs 30). lia. }
    destruct (Reranker.mode_eqb optimizationMode Reranker.speed
              || negb (Reranker.rerank config)).
    + destruct (0 <? length filesData).
      * destruct (embedQuery query) as [queryEmbedding|e]; unfold rbind;
          [|discriminate].
        destruct (Reranker.scoreAgainst computeSimilarity queryEmbedding
                                        (map (@Reranker.embeddings Vec) filesData))
          as [similarity|e]; unfold rbind; [|discriminate].
        set (ranked := map (fun sim => nth_error (map (@Reranker.fileDoc Vec) filesData)
                                                 (Reranker.index sim))
                           (Reranker.rank gt subSign defaultThreshold config 30
                                          similarity)).
        assert (Hranked : length ranked <= 30).
        { unfold ranked. rewrite length_map.
          apply (@length_rank 30 similarity). lia. }
        set (first := if 0 <? length (filter Reranker.hasContent docs)
                      then slice ranked 0 30 else ranked).
        assert (Hfirst : length first <= 30).
        { unfold first.
          destruct (0 <? length (filter Reranker.hasContent docs));
            [apply (@length_slice_prefix _ ranked 30); lia|exact Hranked]. }
        set (room := (30 - Z.of_nat (length first))%Z).
        assert (Hrest : length (slice (filter Reranker.hasContent docs) 0 room)
                        <= Z.to_nat room)
          by (apply length_slice_prefix; unfold room; lia).
        intros H. injection H as <-.
        rewrite length_app, length_map. fold room. unfold room in *. lia.
      * intros [= <-]. rewrite length_map.
        apply (@length_slice_prefix _ (filter Reranker.hasContent docs) 30).
        lia.
    + destruct (Reranker.mode_eqb optimizationMode Reranker.balanced).
      * destruct (embedDocuments
                    (map pageContent (filter Reranker.hasContent docs)))
          as [docEmbeddings|e]; unfold rbind; [|discriminate].
        destruct (embedQuery query) as [queryEmbedding|e]; unfold rbind;
          [|discriminate].
        match goal with
        | |- context [Reranker.scoreAgainst ?c ?q ?v] =>
            destruct (Reranker.scoreAgainst c q v) as [similarity|e];
              unfold rbind; [|discriminate]
        end.
        intros [= <-]. rewrite length_map.
        pose proof (@length_rank 20 similarity). lia.
      * intros [= <-]. cbn. lia.
Qed.

End RerankerBounds.

(** X23 at a sample: 40 documents in speed mode. *)
Lemma rerank_at_most_30_witness :
  length (map Some (firstn 30 (repeat (Samples.webDoc "a page") 40))) <= 30.
Proof.
  apply (@rerank_at_most_30 Z Z Z.gtb Z.sub 30%Z
           Samples.similarity90 Samples.embedLength Samples.embedLengths
           Samples.noFile Samples.noEmbeddings Samples.toLower
           Samples.rerankingOn (lit "best keyboard")
           (repeat (Samples.webDoc "a page") 40) [] Reranker.speed).
  reflexivity.
Defined.

Section SearchQuota.

Variable apiKey : option jsstring.
Variable searchEngineId : option jsstring.
Variable oracle : Net.Oracle Search.Url Search.ResponseData.

(** The pagination loop asks for one page a turn, from [currentPage] to
    [maxPages] at most, and never waits. *)
Lemma pageLoop_requests (url : Search.Url) (numResults maxPages : Z) :
  forall fuel currentPage allResults t,
  exists rs new,
    Search.pageLoop oracle fuel url numResults maxPages currentPage allResults t
    = (Return rs, t ++ new)
    /\ requestCount new <= Z.to_nat (maxPages + 1 - currentPage)
    /\ requestCount new = length new.
Proof.
  induction fuel as [|fuel IH]; intros currentPage allResults t.
  - exists allResults, []. simpl. unfold Net.ret. rewrite app_nil_r.
    repeat split. cbn. lia.
  - cbn [Search.pageLoop].
    destruct ((currentPage <=? maxPages)%Z
              && (Z.of_nat (length allResults) <? numResults)%Z) eqn:Hturn.
    + apply andb_true_iff in Hturn as [Hpage _]. apply Z.leb_le in Hpage.
      match goal with
      | |- context [Search.set url (lit "start") ?v] =>
          set (next := Search.set url (lit "start") v)
      end.
      unfold Net.bind, Net.tryCatch, Net.request, Net.ret.
      destruct (oracle t next) as [resp|e].
      * destruct (Search.items resp) as [its|].
        -- destruct (IH (currentPage + 1)%Z
                        (allResults ++ map Search.toResult its)
                        (t ++ [Request next]))
             as (rs & new & Hrun & Hcount & Hall).
           exists rs, (Request next :: new).
           unfold Net.bind, Net.tryCatch, Net.request, Net.ret in Hrun.
           rewrite Hrun. rewrite <- app_assoc. split; [reflexivity|].
           unfold requestCount in *. cbn [filter isRequest length]. lia.
        -- exists allResults, [Request next]. split; [reflexivity|].
           unfold requestCount. cbn. lia.
      * exists allResults, [Request next]. split; [reflexivity|].
        unfold requestCount. cbn. lia.
    + exists allResults, []. unfold Net.ret. rewrite app_nil_r.
      repeat split. cbn. lia.
Qed.

(** X24 (searchGoogle): the wrapper sends one request when at most 10
    results are asked for, and otherwise one request for each page of 10, so
    never more than the number of results asked for, divided by 10 and
    rounded up; it never waits between them, and when it is not configured
    it sends nothing. *)
Theorem searchGoogle_quota (query : jsstring) (opts : option Search.Options)
        (t : list (Event Search.Url)) :
  exists outcome new,
    Search.searchGoogle apiKey searchEngineId oracle query opts t
    = (outcome, t ++ new)
    /\ (Z.of_nat (requestCount new)
        <= Z.max 1 ((Search.requested opts + 9) / 10))%Z
    /\ requestCount new = length new
    /\ (truthy apiKey = false \/ truthy searchEngineId = false -> new = []).
Proof.
  unfold Search.searchGoogle.
  destruct (negb (truthy apiKey) || negb (truthy searchEngineId)) eqn:Hconf.
  - eexists. exists []. unfold Net.throw. rewrite app_nil_r.
    split; [reflexivity|]. repeat split; cbn; lia.
  - apply orb_false_iff in Hconf as [Hkey Hid].
    apply negb_false_iff in Hkey, Hid.
    set (url := Search.buildUrl apiKey searchEngineId (lit "Reddit " ++ query) opts).
    unfold Net.tryCatch, Net.bind, Net.request, Net.ret.
    destruct (oracle t url) as [response|e].
    + destruct ((Search.requested opts >? 10)%Z
                && (length match Search.items response with
                           | Some its => map Search.toResult its
                           | None => []
                           end =? 10)
                && Search.nextPage response) eqn:Hmore.
      * apply andb_true_iff in Hmore as [Hmore _].
        apply andb_true_iff in Hmore as [Hmore _].
        apply Z.gtb_lt in Hmore.
        match goal with
        | |- context [Search.pageLoop oracle ?f ?u ?n ?mp ?cp ?acc ?t'] =>
            destruct (@pageLoop_requests u n mp f cp acc t')
              as (rs & new & Hrun & Hcount & Hall)
        end.
        unfold Net.tryCatch, Net.bind, Net.request, Net.ret in Hrun.
        rewrite Hrun. eexists. exists (Request url :: new).
        rewrite <- app_assoc. split; [reflexivity|].
        assert (Hpages : (2 <= (Search.requested opts + 9) / 10)%Z).
        { apply Z.div_le_lower_bound; lia. }
        unfold requestCount in *. cbn [filter isRequest length].
        split; [lia|]. split; [lia|].
        intros [H|H]; congruence.
      * eexists. exists [Request url]. split; [reflexivity|].
        unfold requestCount. cbn [filter isRequest length].
        split; [lia|]. split; [reflexivity|]. intros [H|H]; congruence.
    + eexists. exists [Request url]. split; [reflexivity|].
      unfold requestCount. cbn [filter isRequest length].
      split; [lia|]. split; [reflexivity|]. intros [H|H]; congruence.
Qed.

End SearchQuota.

Lemma splitHead_no_sep (s : jsstring) (sep : ascii) :
  ~ In sep (splitHead s sep).
Proof.
  induction s as [|c s IH]; simpl; [tauto|].
  destruct (Ascii.eqb c sep) eqn:E; simpl; [tauto|].
  apply Ascii.eqb_neq in E. intros [H|H]; [congruence|contradiction].
Qed.

Lemma In_replaceFirst (s pattern replacement : jsstring) (c : ascii) :
  In c (replaceFirst s pattern replacement) -> In c s \/ In c replacement.
Proof.
  induction s as [|x s IH]; cbn [replaceFirst].
  - destruct (stripPrefix pattern []) as [rest|] eqn:E; [|tauto].
    apply stripPrefix_spec in E. symmetry in E.
    apply app_eq_nil in E as [_ ->]. rewrite app_nil_r. tauto.
  - destruct (stripPrefix pattern (x :: s)) as [rest|] eqn:E.
    + apply stripPrefix_spec in E. intros H. apply in_app_or in H as [H|H].
      * now right.
      * left. rewrite E. apply in_or_app. now right.
    + intros [H|H]; [left; now left|].
      destruct (IH H) as [H'|H']; [left; now right|now right].
Qed.

Lemma filterBoolean_In (l : list (option jsstring)) (url : jsstring) :
  In url (Links.filterBoolean l) -> In (Some url) l.
Proof.
  induction l as [|[[|c s]|] l IH]; simpl; try tauto.
  intros [H|H]; [left; now rewrite H|right; now apply IH].
Qed.

(** A link that is kept as a discussion link names the old site and has no
    query string. *)
Lemma normalizeLink_reddit (link url : jsstring) :
  Links.normalizeLink link = Some url ->
  Links.isRedditLink url = true ->
  includes url (lit "old.reddit.com") = true /\ ~ In "?"%char url.
Proof.
  unfold Links.normalizeLink, Links.isRedditLink.
  set (full := if startsWith link (lit "http://")
                  || startsWith link (lit "https://")
               then link else lit "https://" ++ link).
  destruct (includes full (lit "reddit.com")) eqn:Hfull.
  - set (bare := splitHead full "?"%char).
    assert (Hbare : ~ In "?"%char bare) by apply splitHead_no_sep.
    destruct (includes bare (lit "klp/") || includes bare (lit "/t/")
              || negb (includes bare (lit "/comments/"))); [discriminate|].
    destruct (includes bare (lit "www.reddit.com")) eqn:Hwww.
    + intros [= <-] _. split; [now apply replaceFirst_includes|].
      intros H. apply In_replaceFirst in H as [H|H]; [contradiction|].
      revert H. vm_compute. intuition discriminate.
    + destruct (includes bare (lit "reddit.com")) eqn:Hreddit;
        destruct (includes bare (lit "old.reddit.com")) eqn:Hold;
        cbn [negb andb].
      * intros [= <-] _. now split.
      * intros [= <-] _. split; [now apply replaceFirst_includes|].
        intros H. apply In_replaceFirst in H as [H|H]; [contradiction|].
        revert H. vm_compute. intuition discriminate.
      * intros [= <-] _. now split.
      * intros [= <-] H. congruence.
  - intros [= <-] H. congruence.
Qed.

Section LinksOldSite.

Variable env : Links.Env.
Variable htmlToText : jsstring -> Result jsstring.
Variable oracle : Net.Oracle Links.ProxyRequest Links.ProxyResponse.
Variable settledAt : list (Event Links.ProxyRequest) -> Z.

(** X25 (getDocumentsFromLinks): every request link mode sends to the proxy
    is for a URL that holds old.reddit.com and has no question mark,
    whatever the links were: the new site is never asked, and a query
    string never goes along. *)
Theorem links_fetch_old_site (links : list jsstring)
        (t : list (Event Links.ProxyRequest)) :
  exists outcome new,
    Links.getDocumentsFromLinks env htmlToText oracle settledAt links t
    = (outcome, t ++ new)
    /\ forall r,
         In (Request r) new ->
         includes (Links.target r) (lit "old.reddit.com") = true
         /\ ~ In "?"%char (Links.target r).
Proof.
  unfold Links.getDocumentsFromLinks.
  destruct (@links_batchLoop_total env htmlToText oracle settledAt
              (Links.redditLinksToProcess links)
              (length (Links.redditLinksToProcess links)) 0%Z [] t
              (Z.le_refl 0)) as (ds & new & Hrun & _ & Hall).
  unfold Net.bind. rewrite Hrun. unfold Net.ret.
  eexists. exists new. split; [reflexivity|].
  intros r Hr. rewrite Forall_forall in Hall. specialize (Hall _ Hr).
  cbn [Links.fetches] in Hall.
  unfold Links.redditLinksToProcess in Hall. apply In_slice in Hall.
  apply filter_In in Hall as [Hin Hreddit].
  unfold Links.normalizedLinks in Hin. apply filterBoolean_In in Hin.
  apply in_map_iff in Hin as [link [Hnorm _]].
  now apply (normalizeLink_reddit link).
Qed.

End LinksOldSite.

(* ================================================================== *)
(** * What the extractor returns *)
(* ================================================================== *)

Lemma dropWhile_head A (p : A -> bool) (l : list A) :
  match dropWhile p l with
  | [] => True
  | x :: _ => p x = false
  end.
Proof.
  induction l as [|x l IH]; simpl; [exact I|].
  destruct (p x) eqn:E; [exact IH|exact E].
Qed.

Lemma dropWhile_fixed A (p : A -> bool) (l : list A) :
  match l with
  | [] => True
  | x :: _ => p x = false
  end ->
  dropWhile p l = l.
Proof. destruct l as [|x l]; simpl; [reflexivity|]. now intros ->. Qed.

Lemma dropWhile_suffix A (p : A -> bool) (l : list A) :
  exists dropped, l = dropped ++ dropWhile p l.
Proof.
  induction l as [|x l [dropped IH]]; simpl.
  - now exists [].
  - destruct (p x).
    + exists (x :: dropped). simpl. now rewrite <- IH.
    + now exists [].
Qed.

(** A trimmed text has no white space at either end: trimming it again
    changes nothing. *)
Lemma trim_trim (s : jsstring) : trim (trim s) = trim s.
Proof.
  unfold trim.
  set (a := dropWhile isWhiteSpace s).
  set (d := dropWhile isWhiteSpace (rev a)).
  assert (Ha : match a with [] => True | x :: _ => isWhiteSpace x = false end)
    by apply dropWhile_head.
  assert (Hd : match d with [] => True | x :: _ => isWhiteSpace x = false end)
    by apply dropWhile_head.
  assert (Hb : match rev d with
               | [] => True
               | x :: _ => isWhiteSpace x = false
               end).
  { destruct (dropWhile_suffix isWhiteSpace (rev a)) as [dropped Hsplit].
    fold d in Hsplit.
    assert (Hrev : a = rev d ++ rev dropped).
    { rewrite <- (rev_involutive a), Hsplit. apply rev_app_distr. }
    destruct (rev d) as [|x b]; [exact I|].
    rewrite Hrev in Ha. exact Ha. }
  rewrite (dropWhile_fixed isWhiteSpace (rev d) Hb).
  rewrite rev_involutive. now rewrite (dropWhile_fixed isWhiteSpace d Hd).
Qed.

Section ExtractorShape.

Variable htmlToText : jsstring -> Result jsstring.

Local Abbreviation parseComment := (Extractor.parseComment htmlToText).
Local Abbreviation extractRedditContent :=
  (Extractor.extractRedditContent htmlToText).

(** A comment that is collected has a text that is trimmed and not
    empty. *)
Lemma parseComment_text (m : Match) (c : Extractor.Comment) :
  parseComment m = Return (Some c) ->
  Extractor.text c <> [] /\ trim (Extractor.text c) = Extractor.text c.
Proof.
  unfold Extractor.parseComment.
  destruct (matchFirst Extractor.commentContentRegex (whole m)) as [cm|];
    [|discriminate].
  destruct (htmlToText (Extractor.groupText cm 2)) as [text|e];
    [|discriminate].
  cbn [rbind].
  destruct (0 <? length (trim text)) eqn:Hlen; [|discriminate].
  intros H. inversion H; subst c; clear H.
  cbn [Extractor.text]. split; [|apply trim_trim].
  apply Nat.ltb_lt in Hlen. intros Hnil. rewrite Hnil in Hlen. cbn in Hlen. lia.
Qed.

Lemma length_selectComments (allComments : list Extractor.Comment) :
  length (Extractor.selectComments allComments) <= 10.
Proof.
  unfold Extractor.selectComments, Extractor.MAX_COMMENTS.
  match goal with |- context [if ?c then _ else _] => destruct c end;
    rewrite length_map; rewrite slice_prefix by lia;
    rewrite length_firstn; change (Z.to_nat 10) with 10; lia.
Qed.

(** X26 (extractRedditContent): whatever the markup, the extractor returns
    10 comments at most; the text of each is not empty and has no white
    space at its ends; and it reports success exactly when it returns a post
    body or a comment. *)
Theorem extracted_shape (htmlContent : jsstring) :
  let extracted := extractRedditContent htmlContent in
  length (Extractor.comments extracted) <= 10
  /\ Forall (fun c => Extractor.out_text c <> []
                      /\ trim (Extractor.out_text c) = Extractor.out_text c)
            (Extractor.comments extracted)
  /\ Extractor.success extracted
     = (0 <? length (Extractor.postContent extracted))
       || (0 <? length (Extractor.comments extracted)).
Proof.
  intros extracted. unfold extracted, Extractor.extractRedditContent.
  destruct (Extractor.extractPost htmlToText htmlContent) as [postContent|e];
    cbn [rbind rcatch]; [|repeat split; [cbn; lia|constructor]].
  destruct (Extractor.collectComments htmlToText htmlContent)
    as [allComments|e] eqn:Hcollect;
    cbn [rbind rcatch]; [|repeat split; [cbn; lia|constructor]].
  cbn [Extractor.comments Extractor.success Extractor.postContent].
  split; [apply length_selectComments|]. split; [|reflexivity].
  destruct (selectComments_kept allComments) as [kept [-> Hkept]].
  apply Forall_map. cbn [Extractor.strip Extractor.out_text].
  eapply Subseq_Forall; [exact Hkept|].
  eapply Permutation_Forall; [symmetry; apply sort_perm|].
  apply (@collect_collected htmlToText
           (fun c => Extractor.text c <> []
                     /\ trim (Extractor.text c) = Extractor.text c)
           parseComment_text _ [] allComments (Forall_nil _) Hcollect).
Qed.

End ExtractorShape.

(* ================================================================== *)
(** * The scorer in front of a site that limits it *)
(* ================================================================== *)

Section RateLimited.

Variable num : Type.
Variable ofZ : Z -> num.
Variable add mul : num -> num -> num.
Variable log10 : num -> num.
Variable oracle : Net.Oracle jsstring jsstring.

(** Every request is answered with the status 429. *)
Hypothesis limited :
  forall t url, exists e, oracle t url = Throw e /\ status e = Some 429%Z.

Lemma attempt_limited (u : jsstring) (t : list (Event jsstring)) :
  exists e t',
    Scorer.attempt oracle u t = (Throw e, t') /\ status e = Some 429%Z.
Proof.
  unfold Scorer.attempt, Net.tryCatch, Net.request, Net.throw.
  destruct (limited t u) as [e [He Hs]]. rewrite He.
  destruct (includes u (lit "old.reddit.com")).
  - destruct (limited (t ++ [Request u]) (Scorer.alternateUrl u))
      as [e' [He' Hs']].
    rewrite He'. now exists e', ((t ++ [Request u]) ++ [Request (Scorer.alternateUrl u)]).
  - now exists e, (t ++ [Request u]).
Qed.

Lemma fetchLoop_limited (u : jsstring) :
  forall fuel retries t,
    (0 <= retries)%Z ->
    (retries + Z.of_nat fuel = Scorer.maxRetries)%Z ->
    0 < fuel ->
    exists t', Scorer.fetchLoop oracle fuel retries u t
               = (Throw Scorer.rateLimited, t').
Proof.
  induction fuel as [|fuel IH]; intros retries t Hr Hsum Hfuel; [lia|].
  cbn [Scorer.fetchLoop].
  replace (retries <? Scorer.maxRetries)%Z with true
    by (symmetry; apply Z.ltb_lt; lia).
  unfold Net.tryCatch at 1. unfold Net.bind at 1.
  destruct ((if (retries >? 0)%Z then Net.sleep (2000 * retries)
             else Net.ret tt) t) as [r t1] eqn:Hwait.
  assert (r = Return tt) as ->.
  { destruct (retries >? 0)%Z; cbv in Hwait; now inversion Hwait. }
  unfold Net.bind at 1.
  destruct (attempt_limited u t1) as [e [t2 [Hatt Hs]]].
  rewrite Hatt, Hs. cbn [Z.eqb Pos.eqb].
  destruct (retries + 1 >=? Scorer.maxRetries)%Z eqn:Hlast.
  - now exists t2.
  - apply IH; unfold Scorer.maxRetries in *; lia.
Qed.

(** X27 (extractTopCommentScore): when the site answers every request with
    the status 429, the worker of the scoring stage does not throw: it
    answers, for the URL it was given, the score 0 and the message that the
    site limited it after 3 retries. *)
Theorem scoreOne_rate_limited (url : jsstring) (t : list (Event jsstring)) :
  exists t',
    Scorer.scoreOne ofZ add mul log10 oracle url t
    = (Return (@Scorer.mkScore num
                 url (ofZ 0)
                 (lit "Error: Rate limited by Reddit after 3 retries")
                 (@Scorer.Failed num
                    url (lit "Rate limited by Reddit after 3 retries"))),
       t').
Proof.
  unfold Scorer.scoreOne, Scorer.extractTopCommentScore, Scorer.fetchWithRetry.
  destruct (@fetchLoop_limited (Scorer.normalizeUrl url)
              (Z.to_nat Scorer.maxRetries) 0%Z t)
    as [t' Hrun]; [lia|reflexivity|cbn; lia|].
  unfold Net.tryCatch, Net.bind. rewrite Hrun.
  exists t'. reflexivity.
Qed.

End RateLimited.

(** X27 at a sample: a site that answers 429 to everything. *)
Lemma scoreOne_rate_limited_witness :
  exists t',
    Scorer.scoreOne (fun z : Z => z) Z.add Z.mul MoreSamples.roughLog10
                    Samples.always429 Samples.threadUrl []
    = (Return (@Scorer.mkScore Z
                 Samples.threadUrl 0%Z
                 (lit "Error: Rate limited by Reddit after 3 retries")
                 (@Scorer.Failed Z
                    Samples.threadUrl
                    (lit "Rate limited by Reddit after 3 retries"))),
       t').
Proof.
  apply (@scoreOne_rate_limited Z (fun z : Z => z) Z.add Z.mul
           MoreSamples.roughLog10 Samples.always429).
  intros t url. eexists. split; reflexivity.
Defined.

(* ================================================================== *)
(** * The numbering of the sources *)
(* ================================================================== *)

Lemma nth_error_mapiFrom A B (f : nat -> A -> B) (l : list A) :
  forall k i, nth_error (mapiFrom k f l) i
              = option_map (f (k + i)) (nth_error l i).
Proof.
  induction l as [|x l IH]; intros k [|i]; simpl; try reflexivity.
  - now rewrite Nat.add_0_r.
  - rewrite IH. now rewrite Nat.add_succ_r.
Qed.

Lemma startsWith_app (p s : jsstring) : startsWith (p ++ s) p = true.
Proof.
  unfold startsWith.
  now rewrite (proj2 (stripPrefix_spec p (p ++ s) s) eq_refl).
Qed.

(** X28 (processDocs): the blocks of the context are those of the first 8
    documents, in their order: the block at place k, counted from 0, is
    that of the document at place k and opens with the number k + 1, a dot
    and a space; there are as many blocks as documents, 8 at most. *)
Theorem blocks_numbered (docs : list Document) :
  length (Assembler.blocks docs) = Nat.min 8 (length docs)
  /\ forall k block,
       nth_error (Assembler.blocks docs) k = Some block ->
       k < 8
       /\ exists doc,
            nth_error docs k = Some doc
            /\ block = Assembler.processDoc k doc
            /\ startsWith block (numToString (Z.of_nat k + 1) ++ lit ". ")
               = true.
Proof.
  unfold Assembler.blocks, mapi. rewrite capped_prefix. split.
  - assert (H : forall A B (f : nat -> A -> B) l k,
               length (mapiFrom k f l) = length l).
    { intros A B f l. induction l as [|x l IH]; intros k; simpl;
        [reflexivity|now rewrite IH]. }
    rewrite H. apply length_firstn.
  - intros k block Hk. rewrite nth_error_mapiFrom in Hk. cbn [Nat.add] in Hk.
    destruct (nth_error (firstn 8 docs) k) as [doc|] eqn:E; [|discriminate Hk].
    injection Hk as <-.
    assert (Hlt : k < 8).
    { apply (f_equal (fun o => match o with Some _ => true | None => false end)) in E.
      destruct (Nat.lt_ge_cases k 8) as [H|H]; [exact H|].
      rewrite (proj2 (nth_error_None (firstn 8 docs) k)) in E; [discriminate E|].
      rewrite length_firstn. lia. }
    split; [exact Hlt|]. exists doc. rewrite nth_error_firstn in E.
    replace (k <? 8) with true in E by (symmetry; now apply Nat.ltb_lt).
    split; [exact E|]. split; [reflexivity|].
    unfold Assembler.processDoc, Assembler.sourceLine.
    rewrite <- !app_assoc.
    rewrite (app_assoc (numToString (Z.of_nat k + 1)) (lit ". ")).
    apply startsWith_app.
Qed.

(* ================================================================== *)
(** * Link mode outside production *)
(* ================================================================== *)

Section LinksLocal.

Variable env : Links.Env.
Variable htmlToText : jsstring -> Result jsstring.
Variable oracle : Net.Oracle Links.ProxyRequest Links.ProxyResponse.
Variable settledAt : list (Event Links.ProxyRequest) -> Z.

(** The host is not the production one. *)
Hypothesis local : Links.isProduction env = false.

(** X29 (getDocumentsFromLinks): on a host that is not the production one
    (the variable VERCEL is not 1), link mode sends no request at all: each
    of the discussion links it would read gives the failure document that
    says direct fetching is not implemented, in the order of the links, the
    other links give their placeholders after them, and the only events are
    the waits of 5000 ms between batches. *)
Theorem links_outside_production (links : list jsstring)
        (t : list (Event Links.ProxyRequest)) :
  exists waits,
    Links.getDocumentsFromLinks env htmlToText oracle settledAt links t
    = (Return
         (map (fun link =>
                 Links.failureDocument
                   link
                   (Error (lit "Direct fetching not implemented for simplicity")))
              (Links.redditLinksToProcess links)
          ++ map Links.placeholderDocument (Links.nonRedditLinks links)),
       t ++ waits)
    /\ Forall (fun ev => ev = Sleep 5000) waits.
Proof.
  unfold Links.getDocumentsFromLinks.
  destruct (@links_batchLoop_local
              env htmlToText oracle settledAt
              (Links.redditLinksToProcess links) local
              (length (Links.redditLinksToProcess links)) 0%Z [] t)
    as (waits & Hrun & Hall & _); try lia.
  exists waits. unfold Net.bind. rewrite Hrun. cbn [app Net.ret skipn Z.to_nat].
  split; [reflexivity|exact Hall].
Qed.

End LinksLocal.

(** X29 at a sample: three thread links on a development host. *)
Lemma links_outside_production_witness :
  exists waits,
    Links.getDocumentsFromLinks
      (Links.mkEnv None None None None) Samples.keepText Samples.proxyPage
      Samples.inOrder
      [lit "https://www.reddit.com/r/a/comments/1/x/";
       lit "reddit.com/r/a/comments/2/y/";
       lit "https://old.reddit.com/r/a/comments/3/z/"] []
    = (Return
         (map (fun link =>
                 Links.failureDocument
                   link
                   (Error (lit "Direct fetching not implemented for simplicity")))
              (Links.redditLinksToProcess
                 [lit "https://www.reddit.com/r/a/comments/1/x/";
                  lit "reddit.com/r/a/comments/2/y/";
                  lit "https://old.reddit.com/r/a/comments/3/z/"])
          ++ map Links.placeholderDocument
               (Links.nonRedditLinks
                  [lit "https://www.reddit.com/r/a/comments/1/x/";
                   lit "reddit.com/r/a/comments/2/y/";
                   lit "https://old.reddit.com/r/a/comments/3/z/"])),
       [] ++ waits)
    /\ Forall (fun ev => ev = Sleep 5000) waits.
Proof.
  apply (@links_outside_production
           (Links.mkEnv None None None None) Samples.keepText Samples.proxyPage
           Samples.inOrder).
  reflexivity.
Defined.
